(** * wav-marker: a shallow embedding of [wav-marker.c]

    The program reads a RIFF/WAVE file and an Audacity label file and writes
    a new WAVE file that carries a fresh [cue ] chunk and a [LIST/adtl]
    chunk of [labl] records.

    Conventions of the embedding.
    - Bytes are [Byte.byte]; C integers are [Z] with the wrap-around of their
      type written out ([wrap32] for [uint32_t], [wrap64] for [size_t]).
      The data model is LP64: [long] and [size_t] are 64 bits wide.
    - [float] is IEEE 754 binary32, taken from the standard library's
      [SpecFloat] at precision 24 and maximal exponent 128, with
      round-to-nearest-even, evaluated in single precision.
    - A [FILE] opened for reading is its contents, a position, the
      end-of-file and error indicators and the offset of the first byte the
      device cannot deliver (if any).  A [FILE] opened for writing is the
      bytes written so far and the room left on the device; [fwrite] is
      atomic: it writes all the bytes or none, and a write the device has
      no room for fails at the call.  A buffered stream may accept such
      bytes and lose them when it is flushed (the program does not test the
      result of [fclose]), so the properties that speak of the output a run
      leaves are stated for a device with unlimited room.
    - Storage the program reads before writing it (stack buffers, [malloc]ed
      blocks) holds the bytes given by the parameter [indet].
    - Behaviour C leaves undefined (a store past the end of an array, a
      conversion of an out-of-range [float] to [uint32_t]) is the outcome
      [Undefined].
    - Messages on [stdout] are not modelled; the message on [stderr] that
      precedes a fatal exit is kept as a [Diagnostic].  The two messages
      [readLabelFile] prints on [stderr] for a line it skips do not end the
      run and are not modelled. *)

From Stdlib Require Import Strings.String Strings.Byte.
From Stdlib Require Import ZArith List Bool Lia.
From Stdlib Require Import Floats.SpecFloat.
Import ListNotations.
Local Open Scope Z_scope.

(** ** Bytes, slices and machine integers *)

Definition byteZ (b : byte) : Z := Z.of_N (Byte.to_N b).

Definition Zbyte (z : Z) : byte :=
  match Byte.of_N (Z.to_N (z mod 256)) with
  | Some b => b
  | None => x00
  end.

Definition bytes (s : string) : list byte := list_byte_of_string s.

Definition len {A : Type} (l : list A) : Z := Z.of_nat (length l).

(** [n] elements of [l] from offset [off] on (fewer at the end of [l]); the
    bounds keep the evaluation of offsets far past the end cheap. *)
Definition slice {A : Type} (l : list A) (off n : Z) : list A :=
  firstn (Z.to_nat (Z.min n (len l))) (skipn (Z.to_nat (Z.min off (len l))) l).

Definition nthZ {A : Type} (i : Z) (l : list A) (d : A) : A :=
  nth (Z.to_nat i) l d.

Fixpoint upd {A : Type} (i : nat) (v : A) (l : list A) : list A :=
  match l, i with
  | [], _ => []
  | _ :: t, O => v :: t
  | h :: t, S j => h :: upd j v t
  end.

Definition indices (n : Z) : list Z := map Z.of_nat (seq 0 (Z.to_nat n)).

Fixpoint bytes_eqb (a b : list byte) : bool :=
  match a, b with
  | [], [] => true
  | x :: a', y :: b' => Byte.eqb x y && bytes_eqb a' b'
  | _, _ => false
  end.

(** [strncmp(p, lit, 4) == 0] on a four-byte array and a four-byte literal
    without embedded zero bytes. *)
Definition strncmp4_eq (p : list byte) (lit : string) : bool :=
  bytes_eqb (firstn 4 p) (bytes lit).

Definition wrap32 (z : Z) : Z := z mod 2 ^ 32.
Definition wrap64 (z : Z) : Z := z mod 2 ^ 64.
(** conversion of a [size_t] value to [long] *)
Definition to_long (z : Z) : Z :=
  if wrap64 z <? 2 ^ 63 then wrap64 z else wrap64 z - 2 ^ 64.

Definition odd_pad (n : Z) : Z := if n mod 2 =? 0 then 0 else 1.

(** ** Endian primitives *)

Inductive HostEndiannessType : Set :=
  | EndiannessUndefined
  | LittleEndian
  | BigEndian.

(** The object representation of an unsigned integer of [n] bytes on a host,
    and the value an object representation stands for. *)
Fixpoint le_bytes (n : nat) (v : Z) : list byte :=
  match n with
  | O => []
  | S k => Zbyte v :: le_bytes k (v / 256)
  end.

Fixpoint le_value (bs : list byte) : Z :=
  match bs with
  | [] => 0
  | b :: r => byteZ b + 256 * le_value r
  end.

Definition object_bytes (host : HostEndiannessType) (n : nat) (v : Z) : list byte :=
  match host with
  | BigEndian => rev (le_bytes n v)
  | _ => le_bytes n v
  end.

Definition object_value (host : HostEndiannessType) (mem : list byte) : Z :=
  match host with
  | BigEndian => le_value (rev mem)
  | _ => le_value mem
  end.

Definition littleEndianBytesToUInt32_on (host : HostEndiannessType)
    (littleEndianBytes : list byte) : Z :=
  let b i := nth i littleEndianBytes x00 in
  let uintValueBytes :=
    match host with
    | LittleEndian => [b 0%nat; b 1%nat; b 2%nat; b 3%nat]
    | _ => [b 3%nat; b 2%nat; b 1%nat; b 0%nat]
    end in
  object_value host uintValueBytes.

Definition uint32ToLittleEndianBytes_on (host : HostEndiannessType)
    (uInt32Value : Z) : list byte :=
  let uintValueBytes := object_bytes host 4 (wrap32 uInt32Value) in
  let b i := nth i uintValueBytes x00 in
  match host with
  | LittleEndian => [b 0%nat; b 1%nat; b 2%nat; b 3%nat]
  | _ => [b 3%nat; b 2%nat; b 1%nat; b 0%nat]
  end.

Definition littleEndianBytesToUInt16_on (host : HostEndiannessType)
    (littleEndianBytes : list byte) : Z :=
  let b i := nth i littleEndianBytes x00 in
  let uintValueBytes :=
    match host with
    | LittleEndian => [b 0%nat; b 1%nat]
    | _ => [b 1%nat; b 0%nat]
    end in
  object_value host uintValueBytes.

Definition uint16ToLittleEndianBytes_on (host : HostEndiannessType)
    (uInt16Value : Z) : list byte :=
  let uintValueBytes := object_bytes host 2 (uInt16Value mod 2 ^ 16) in
  let b i := nth i uintValueBytes x00 in
  match host with
  | LittleEndian => [b 0%nat; b 1%nat]
  | _ => [b 1%nat; b 0%nat]
  end.

(** [getHostEndianness] answers [LittleEndian] or [BigEndian]; the cached
    global [HostEndianness] holds that answer from the first conversion on.
    The conversions do not depend on it (lemmas [*_host_independent] below),
    so the rest of the development fixes one host. *)
Definition getHostEndianness : HostEndiannessType := LittleEndian.

Definition littleEndianBytesToUInt32 := littleEndianBytesToUInt32_on getHostEndianness.
Definition uint32ToLittleEndianBytes := uint32ToLittleEndianBytes_on getHostEndianness.
Definition littleEndianBytesToUInt16 := littleEndianBytesToUInt16_on getHostEndianness.
Definition uint16ToLittleEndianBytes := uint16ToLittleEndianBytes_on getHostEndianness.

(** ** The structures of the program *)

Record WaveHeader : Set := mkWaveHeader {
  wh_chunkID : list byte;
  wh_dataSize : list byte;
  wh_riffType : list byte
}.

Definition WaveHeader_bytes (h : WaveHeader) : list byte :=
  wh_chunkID h ++ wh_dataSize h ++ wh_riffType h.

Definition WaveHeader_of_bytes (b : list byte) : WaveHeader :=
  mkWaveHeader (slice b 0 4) (slice b 4 4) (slice b 8 4).

Record FormatChunk : Set := mkFormatChunk {
  fc_chunkID : list byte;
  fc_chunkDataSize : list byte;
  fc_compressionCode : list byte;
  fc_numberOfChannels : list byte;
  fc_sampleRate : list byte;
  fc_averageBytesPerSecond : list byte;
  fc_blockAlign : list byte;
  fc_significantBitsPerSample : list byte
}.

Definition FormatChunk_bytes (f : FormatChunk) : list byte :=
  fc_chunkID f ++ fc_chunkDataSize f ++ fc_compressionCode f ++
  fc_numberOfChannels f ++ fc_sampleRate f ++ fc_averageBytesPerSecond f ++
  fc_blockAlign f ++ fc_significantBitsPerSample f.

Definition FormatChunk_of_bytes (b : list byte) : FormatChunk :=
  mkFormatChunk (slice b 0 4) (slice b 4 4) (slice b 8 2) (slice b 10 2)
                (slice b 12 4) (slice b 16 4) (slice b 20 2) (slice b 22 2).

Definition sizeof_WaveHeader : Z := 12.
Definition sizeof_FormatChunk : Z := 24.
Definition sizeof_CuePoint : Z := 24.

Definition WAVE_FORMAT_PCM : Z := 1.
Definition WAVE_FORMAT_IEEE_FLOAT : Z := 3.

Record CuePoint : Set := mkCuePoint {
  cuePointID : list byte;
  playOrderPosition : list byte;
  dataChunkID : list byte;
  chunkStart : list byte;
  blockStart : list byte;
  frameOffset : list byte
}.

Definition CuePoint_bytes (c : CuePoint) : list byte :=
  cuePointID c ++ playOrderPosition c ++ dataChunkID c ++
  chunkStart c ++ blockStart c ++ frameOffset c.

Record CueChunk : Set := mkCueChunk {
  cc_chunkID : list byte;
  cc_chunkDataSize : list byte;
  cc_cuePointsCount : list byte;
  cuePoints : list CuePoint
}.

Record ListChunk : Set := mkListChunk {
  lc_chunkID : list byte;
  lc_chunkDataSize : list byte;
  lc_typeID : list byte;
  labelChunks : list byte
}.

Record ChunkLocation : Set := mkChunkLocation {
  startOffset : Z;
  size : Z
}.

(** [locations[500]], [labels[500][500]], [labelLengths[500]], [count]. *)
Record LabelInfo : Set := mkLabelInfo {
  locations : list Z;
  labels : list (list byte);
  labelLengths : list Z;
  count : Z
}.

Definition maxLabels : Z := 500.
Definition labelStorage : Z := 500.

Inductive UndefinedKind : Set :=
  | OutOfBounds        (* a store past the end of an array *)
  | FloatConversion.   (* float to uint32_t outside the range of uint32_t *)

Inductive Outcome (A : Type) : Type :=
  | Ok (a : A)
  | Undefined (k : UndefinedKind)
  | OutOfFuel.
Arguments Ok {A} a.
Arguments Undefined {A} k.
Arguments OutOfFuel {A}.

(** ** Single-precision arithmetic *)

Definition float : Set := spec_float.

Definition f32_of_Z (z : Z) : float := binary_normalize 24 128 z 0 false.

Definition f32_mul (x y : float) : float := SFmul 24 128 x y.

Definition f32_leb (x y : float) : bool := SFleb x y.

(** Correctly rounded value of [(-1)^neg * digits * 10^exp10]: what [strtof]
    and the [%f] conversion deliver. *)
Definition f32_of_decimal (neg : bool) (digits exp10 : Z) : float :=
  match digits with
  | Zpos d =>
      if 0 <=? exp10
      then binary_normalize 24 128
             ((if neg then -1 else 1) * (digits * 10 ^ exp10)) 0 false
      else SFdiv 24 128 (S754_finite neg d 0)
             (S754_finite false (Z.to_pos (10 ^ (- exp10))) 0)
  | _ => S754_zero neg
  end.

(** Conversion of a [float] to [uint32_t]: the fractional part is discarded;
    the behaviour is undefined when the integral part is not a [uint32_t]. *)
Definition f32_to_uint32 (x : float) : option Z :=
  match x with
  | S754_zero _ => Some 0
  | S754_finite s m e =>
      let mag := if 0 <=? e then Zpos m * 2 ^ e else Zpos m / 2 ^ (- e) in
      let t := if s then - mag else mag in
      if (0 <=? t) && (t <? 2 ^ 32) then Some t else None
  | _ => None
  end.

Definition timeToIndex (timestamp : float) (formatChunk : FormatChunk) : option Z :=
  let sampleRate := littleEndianBytesToUInt32 (fc_sampleRate formatChunk) in
  let numberOfChannels := littleEndianBytesToUInt16 (fc_numberOfChannels formatChunk) in
  let index := f32_to_uint32 (f32_mul timestamp (f32_of_Z sampleRate)) in
  index.

(** ** The label file *)

(** The label file is only read with [fscanf], [fgetc] and [ungetc], and the
    program never consults [ferror] on it: it is modelled as the bytes still
    to be read and the end-of-file indicator. *)
Record LabelFILE : Set := mkLabelFILE {
  l_rest : list byte;
  l_eof : bool
}.

Definition isspace (b : byte) : bool :=
  let z := byteZ b in (z =? 32) || ((9 <=? z) && (z <=? 13)).

Definition isdigit (b : byte) : bool :=
  let z := byteZ b in (48 <=? z) && (z <=? 57).

Definition is_eol (b : byte) : bool :=
  let z := byteZ b in (z =? 13) || (z =? 10).

Fixpoint skip_space (s : list byte) : list byte :=
  match s with
  | b :: r => if isspace b then skip_space r else s
  | [] => []
  end.

(** Decimal digits: the number read so far, how many digits, what is left. *)
Fixpoint scan_digits (s : list byte) (acc n : Z) : Z * Z * list byte :=
  match s with
  | b :: r => if isdigit b then scan_digits r (10 * acc + (byteZ b - 48)) (n + 1)
              else (acc, n, s)
  | [] => (acc, n, [])
  end.

Definition scan_sign (s : list byte) : bool * list byte :=
  match s with
  | b :: r => if Byte.eqb b "-"%byte then (true, r)
              else if Byte.eqb b "+"%byte then (false, r)
              else (false, s)
  | [] => (false, [])
  end.

(** The input item of a [%f] conversion, decimal forms: the longest prefix
    of the input that is a prefix of
    [sign? digits* (. digits* )? ([eE] sign? digits+)?]; it is consumed, and
    converts when it holds a digit in the mantissa and, after an exponent
    mark, a digit in the exponent.  The forms [inf], [nan] and hexadecimal
    floats are outside the modelled fragment (no conversion, nothing read). *)
Definition scan_float (s : list byte) : option float * list byte :=
  let '(neg, s1) := scan_sign s in
  let '(m1, n1, s2) := scan_digits s1 0 0 in
  let '(m, n2, s3) :=
    match s2 with
    | b :: r => if Byte.eqb b "."%byte then scan_digits r m1 0 else (m1, 0, s2)
    | [] => (m1, 0, s2)
    end in
  if n1 + n2 =? 0 then (None, s3)
  else
    match s3 with
    | b :: r =>
        if Byte.eqb b "e"%byte || Byte.eqb b "E"%byte then
          let '(eneg, s4) := scan_sign r in
          let '(e, ne, s5) := scan_digits s4 0 0 in
          if ne =? 0 then (None, s5)
          else (Some (f32_of_decimal neg m ((if eneg then - e else e) - n2)), s5)
        else (Some (f32_of_decimal neg m (- n2)), s3)
    | [] => (Some (f32_of_decimal neg m (- n2)), s3)
    end.

(** [%[^\r\n]]: the longest run of bytes that are neither CR nor LF. *)
Fixpoint scan_set (s : list byte) : list byte * list byte :=
  match s with
  | b :: r => if is_eol b then ([], s)
              else let '(got, rest) := scan_set r in (b :: got, rest)
  | [] => ([], [])
  end.

Definition isnil {A : Type} (l : list A) : bool :=
  match l with [] => true | _ => false end.

(** Reading stopped at [s]: the end-of-file indicator is set when the reader
    ran into the end of the input. *)
Definition stopped_at (f : LabelFILE) (s : list byte) : LabelFILE :=
  mkLabelFILE s (l_eof f || isnil s).

Definition EOF : Z := -1.

Record ScanfResult : Set := mkScanfResult {
  sr_return : Z;
  sr_startTime : float;
  sr_labelString : list byte;   (* the C string stored by %[, without its NUL *)
  sr_file : LabelFILE
}.

Definition strlen (s : list byte) : Z := len s.

(** The bytes of a buffer up to its first zero byte. *)
Fixpoint c_string (buf : list byte) : list byte :=
  match buf with
  | b :: r => if Byte.eqb b x00 then [] else b :: c_string r
  | [] => []
  end.

(** [fscanf(labelFile, "%f%*f%*c%[^\r\n]%*c", &startTime, &labelString)]
    with [startTime] initialised to 0.0 and [char labelString[500]].
    The scan set stores the bytes it matched and a terminating zero: more
    than 499 matched bytes overflow [labelString]. *)
Definition fscanf_label (f : LabelFILE) : Outcome ScanfResult :=
  let zero := S754_zero false in
  (* %f *)
  let f1 := stopped_at f (skip_space (l_rest f)) in
  if isnil (l_rest f1) then Ok (mkScanfResult EOF zero [] f1) else
  let '(v, r) := scan_float (l_rest f1) in
  let f2 := stopped_at f1 r in
  match v with
  | None => Ok (mkScanfResult 0 zero [] f2)
  | Some startTime =>
    (* %*f *)
    let f3 := stopped_at f2 (skip_space (l_rest f2)) in
    if isnil (l_rest f3) then Ok (mkScanfResult 1 startTime [] f3) else
    let '(v2, r2) := scan_float (l_rest f3) in
    let f4 := stopped_at f3 r2 in
    match v2 with
    | None => Ok (mkScanfResult 1 startTime [] f4)
    | Some _ =>
      (* %*c *)
      match l_rest f4 with
      | [] => Ok (mkScanfResult 1 startTime [] (stopped_at f4 []))
      | _ :: r3 =>
        let f5 := mkLabelFILE r3 (l_eof f4) in
        (* %[^\r\n] *)
        if isnil r3 then Ok (mkScanfResult 1 startTime [] (stopped_at f5 [])) else
        let '(got, r4) := scan_set r3 in
        if isnil got then Ok (mkScanfResult 1 startTime [] f5) else
        if labelStorage <=? len got then Undefined OutOfBounds else
        let f6 := stopped_at f5 r4 in
        (* %*c *)
        match r4 with
        | [] => Ok (mkScanfResult 2 startTime (c_string got) f6)
        | _ :: r5 => Ok (mkScanfResult 2 startTime (c_string got)
                           (mkLabelFILE r5 (l_eof f6)))
        end
      end
    end
  end.

(** [fgetc]: the byte read, or [EOF]. *)
Definition fgetc (f : LabelFILE) : Z * LabelFILE :=
  match l_rest f with
  | [] => (EOF, mkLabelFILE [] true)
  | b :: r => (byteZ b, mkLabelFILE r (l_eof f))
  end.

Definition ungetc (c : Z) (f : LabelFILE) : LabelFILE :=
  mkLabelFILE (Zbyte c :: l_rest f) false.

Definition feof_label (f : LabelFILE) : bool := l_eof f.

(** [strcpy(dst, src)] into a row of the table of labels. *)
Definition strcpy (dst src : list byte) : list byte :=
  src ++ x00 :: skipn (S (length src)) dst.

Definition labelInfo_init : LabelInfo :=
  mkLabelInfo (repeat 0 500) (repeat (repeat x00 500) 500) (repeat 0 500) 0.

(** The body of the loop of [readLabelFile] up to the bookkeeping of line
    ends: the [fscanf] and the store of the entry. *)
Definition storeLabel (formatChunk : FormatChunk) (labelInfo : LabelInfo)
    (startTime : float) (labelString : list byte) : Outcome LabelInfo :=
  if f32_leb startTime (f32_of_Z 48660) then
    if count labelInfo <? maxLabels then
      match timeToIndex startTime formatChunk with
      | Some index =>
          let i := Z.to_nat (count labelInfo) in
          Ok (mkLabelInfo
                (upd i index (locations labelInfo))
                (upd i (strcpy (nth i (labels labelInfo) []) labelString)
                     (labels labelInfo))
                (upd i (strlen labelString + 1) (labelLengths labelInfo))
                (count labelInfo + 1))
      | None => Undefined FloatConversion
      end
    else Undefined OutOfBounds
  else Ok labelInfo.

(** The two blocks after the [fscanf] that deal with the end of the line. *)
Definition skipLineEnd (f : LabelFILE) : LabelFILE :=
  let '(nextChar, f1) := fgetc f in
  let f2 :=
    if nextChar =? 13 then
      let '(peekAheadChar, g) := fgetc f1 in
      if negb (peekAheadChar =? EOF) && negb (peekAheadChar =? 10)
      then ungetc peekAheadChar g else g
    else f1 in
  let '(nextChar', f3) := fgetc f2 in
  if negb (feof_label f3) then
    if nextChar' =? 13 then
      let '(peekAheadChar, g) := fgetc f3 in
      if negb (peekAheadChar =? EOF) && negb (peekAheadChar =? 10)
      then ungetc peekAheadChar g else g
    else ungetc nextChar' f3
  else f3.

Definition readLabelFile_body (formatChunk : FormatChunk)
    (st : LabelFILE * LabelInfo) : Outcome (LabelFILE * LabelInfo) :=
  let '(labelFile, labelInfo) := st in
  match fscanf_label labelFile with
  | Ok r =>
      let stored :=
        if negb (sr_return r =? 2) then Ok labelInfo
        else storeLabel formatChunk labelInfo (sr_startTime r) (sr_labelString r) in
      match stored with
      | Ok labelInfo' => Ok (skipLineEnd (sr_file r), labelInfo')
      | Undefined k => Undefined k
      | OutOfFuel => OutOfFuel
      end
  | Undefined k => Undefined k
  | OutOfFuel => OutOfFuel
  end.

(** [while (!feof(labelFile)) { ... }] *)
Fixpoint readLabelFile_loop (fuel : nat) (formatChunk : FormatChunk)
    (labelFile : LabelFILE) (labelInfo : LabelInfo) : Outcome LabelInfo :=
  if feof_label labelFile then Ok labelInfo
  else
    match fuel with
    | O => OutOfFuel
    | S fuel' =>
        match readLabelFile_body formatChunk (labelFile, labelInfo) with
        | Ok (labelFile', labelInfo') =>
            readLabelFile_loop fuel' formatChunk labelFile' labelInfo'
        | Undefined k => Undefined k
        | OutOfFuel => OutOfFuel
        end
    end.

Definition readLabelFile (labelFile : LabelFILE) (formatChunk : FormatChunk)
    : Outcome LabelInfo :=
  readLabelFile_loop (S (length (l_rest labelFile))) formatChunk labelFile
                     labelInfo_init.

(** ** The synthesis of the cue and label chunks *)

(** [for (i = 0; i < labelInfo.count; i++) listChunkSize += ...] *)
Definition listChunkSize_step (labelInfo : LabelInfo) (listChunkSize i : Z) : Z :=
  let l := nthZ i (labelLengths labelInfo) 0 in
  let s := wrap64 (listChunkSize + (12 + l)) in
  if negb (l mod 2 =? 0) then wrap64 (s + 1) else s.

Definition compute_listChunkSize (labelInfo : LabelInfo) : Z :=
  fold_left (listChunkSize_step labelInfo) (indices (count labelInfo)) 0.

Definition makeCuePoint (labelInfo : LabelInfo) (i : Z) : CuePoint :=
  mkCuePoint
    (uint32ToLittleEndianBytes (i + 1))
    (uint32ToLittleEndianBytes (nthZ i (locations labelInfo) 0))
    (bytes "data")
    (uint32ToLittleEndianBytes 0)
    (uint32ToLittleEndianBytes 0)
    (uint32ToLittleEndianBytes (nthZ i (locations labelInfo) 0)).

(** The bytes the second loop stores into [listChunk.labelChunks] for entry
    [i]; [cp] is [cueChunk.cuePoints[i]], filled just before. *)
Definition makeLabelChunk (labelInfo : LabelInfo) (cp : CuePoint) (i : Z) : list byte :=
  let l := nthZ i (labelLengths labelInfo) 0 in
  let labelLength := uint32ToLittleEndianBytes (l + 4) in
  bytes "labl" ++ labelLength ++ cuePointID cp ++
  slice (nthZ i (labels labelInfo) []) 0 l ++
  (if negb (l mod 2 =? 0) then [x00] else []).

Definition fill_cuePoints (labelInfo : LabelInfo) : list CuePoint :=
  map (makeCuePoint labelInfo) (indices (count labelInfo)).

Definition fill_labelChunks (labelInfo : LabelInfo) : list byte :=
  flat_map (fun i => makeLabelChunk labelInfo (makeCuePoint labelInfo i) i)
           (indices (count labelInfo)).

Definition make_cueChunk (labelInfo : LabelInfo) : CueChunk :=
  mkCueChunk (bytes "cue ")
             (uint32ToLittleEndianBytes (4 + sizeof_CuePoint * count labelInfo))
             (uint32ToLittleEndianBytes (count labelInfo))
             (fill_cuePoints labelInfo).

Definition make_listChunk (labelInfo : LabelInfo) (listChunkSize : Z) : ListChunk :=
  mkListChunk (bytes "LIST")
              (uint32ToLittleEndianBytes (4 + listChunkSize))
              (bytes "adtl")
              (fill_labelChunks labelInfo).

(** ** Streams *)

Record FILE : Set := mkFILE {
  f_data : list byte;      (* the contents of the file *)
  f_pos : Z;               (* the file position indicator *)
  f_eof : bool;            (* the end-of-file indicator *)
  f_err : bool;            (* the error indicator *)
  f_bad : option Z         (* first offset the device fails to read *)
}.

Record OFILE : Set := mkOFILE {
  o_data : list byte;      (* the bytes written *)
  o_room : option Z        (* bytes the device still accepts *)
}.

Inductive Whence : Set := SEEK_SET | SEEK_CUR.

Definition f_limit (f : FILE) : Z :=
  match f_bad f with
  | Some b => Z.min b (len (f_data f))
  | None => len (f_data f)
  end.

(** [fread(ptr, 1, n, f)] (or [fread(ptr, n, 1, f)]) where [ptr] holds [n]
    bytes on entry: the buffer afterwards and the stream.  A short read at
    the end of the contents sets the end-of-file indicator, one at a byte
    the device does not deliver sets the error indicator. *)
Definition fread (ptr : list byte) (f : FILE) : list byte * FILE :=
  let n := len ptr in
  let k := Z.max 0 (Z.min n (f_limit f - f_pos f)) in
  let short := k <? n in
  let at_end := len (f_data f) <=? f_pos f + k in
  (slice (f_data f) (f_pos f) k ++ skipn (Z.to_nat k) ptr,
   mkFILE (f_data f) (f_pos f + k)
          (f_eof f || (short && at_end))
          (f_err f || (short && negb at_end))
          (f_bad f)).

Definition fseek (f : FILE) (offset : Z) (whence : Whence) : Z * FILE :=
  let target := match whence with
                | SEEK_SET => offset
                | SEEK_CUR => f_pos f + offset
                end in
  if target <? 0 then (-1, f)
  else (0, mkFILE (f_data f) target false (f_err f) (f_bad f)).

Definition ftell (f : FILE) : Z := f_pos f.
Definition feof (f : FILE) : bool := f_eof f.
Definition ferror (f : FILE) : bool := f_err f.

(** [fwrite(ptr, size, nmemb, o)]: the number of items written. *)
Definition fwrite (ptr : list byte) (size nmemb : Z) (o : OFILE) : Z * OFILE :=
  let n := size * nmemb in
  if n <=? 0 then (0, o)
  else
    match o_room o with
    | Some r =>
        if r <? n then (0, o)
        else (nmemb, mkOFILE (o_data o ++ slice ptr 0 n) (Some (r - n)))
    | None => (nmemb, mkOFILE (o_data o ++ slice ptr 0 n) None)
    end.

Inductive Diagnostic : Set :=
  | CouldNotOpenInput
  | CouldNotOpenLabels
  | ErrorReadingInput
  | NotARiffFile
  | NotAWaveFile
  | EmptyWaveFile
  | CompressedFormat
  | TooManyChunks
  | NoFormatOrNoData
  | NoCuePointLocations
  | CouldNotOpenOutput
  | ErrorWritingOutput.

Record ScanState : Set := mkScanState {
  inputFile : FILE;
  formatChunk : option FormatChunk;        (* NULL until a fmt chunk is met *)
  formatChunkExtraBytes : ChunkLocation;
  dataChunkLocation : ChunkLocation;
  otherChunksCount : Z;
  otherChunkLocations : list ChunkLocation (* the entries stored so far *)
}.

Inductive Step : Set :=
  | Continue (st : ScanState)
  | Break (st : ScanState)
  | Fatal (d : Diagnostic).

Inductive ScanResult : Set :=
  | Scanned (st : ScanState)
  | ScanFatal (d : Diagnostic)
  | ScanOutOfFuel.

(** A step of the writer: go on, or return from [writeOutputFile]. *)
Inductive WStep : Set :=
  | Go (fi : FILE) (fo : OFILE)
  | Return (code : Z) (fi : FILE) (fo : OFILE).

Definition Writer : Set := FILE -> OFILE -> WStep.

Definition andThen (m k : Writer) : Writer :=
  fun fi fo =>
    match m fi fo with
    | Go fi' fo' => k fi' fo'
    | Return c fi' fo' => Return c fi' fo'
    end.

Notation "m ;; k" := (andThen m k) (at level 61, right associativity).

Record Run : Set := mkRun {
  returnCode : Z;
  diagnostic : option Diagnostic;
  outputFile : option OFILE
}.

Definition maxOtherChunks : Z := 256.

Section Program.

(** The contents of storage that has not been initialised, by offset in the
    object. *)
Variable indet : nat -> byte.

Definition uninit (n : Z) : list byte := map indet (seq 0 (Z.to_nat n)).

(** *** The chunk scanner (the first half of [addLabelsToWaveFile]) *)

Definition skipData (f : FILE) (chunkDataSize : Z) : FILE :=
  let f1 := snd (fseek f chunkDataSize SEEK_CUR) in
  if negb (chunkDataSize mod 2 =? 0) then snd (fseek f1 1 SEEK_CUR) else f1.

Definition with_file (st : ScanState) (f : FILE) : ScanState :=
  mkScanState f (formatChunk st) (formatChunkExtraBytes st)
              (dataChunkLocation st) (otherChunksCount st)
              (otherChunkLocations st).

(** The chunk that is neither [fmt ], [data], [cue ] nor [LIST/adtl]; [f] is
    positioned after the chunk identifier. *)
Definition scanOtherChunk (st : ScanState) (f : FILE) : Step :=
  if maxOtherChunks <=? otherChunksCount st then Fatal TooManyChunks
  else
    let start := ftell f - 4 in
    let '(chunkDataSizeBytes, f1) := fread (repeat x00 4) f in
    if ferror f1 then Fatal ErrorReadingInput
    else
      let chunkDataSize := littleEndianBytesToUInt32 chunkDataSizeBytes in
      let loc := mkChunkLocation start (wrap64 (4 + 4 + chunkDataSize)) in
      let f2 := skipData f1 chunkDataSize in
      Continue (mkScanState f2 (formatChunk st) (formatChunkExtraBytes st)
                  (dataChunkLocation st) (otherChunksCount st + 1)
                  (firstn (Z.to_nat (otherChunksCount st)) (otherChunkLocations st)
                     ++ [loc])).

(** One turn of [while (1) { ... }]. *)
Definition scanChunk (st : ScanState) : Step :=
  let '(nextChunkID, f1) := fread (uninit 4) (inputFile st) in
  if feof f1 then Break (with_file st f1)
  else if ferror f1 then Fatal ErrorReadingInput
  else if strncmp4_eq nextChunkID "fmt " then
    let f2 := snd (fseek f1 (-4) SEEK_CUR) in
    let '(block, f3) := fread (uninit sizeof_FormatChunk) f2 in
    if ferror f3 then Fatal ErrorReadingInput
    else
      let fc := FormatChunk_of_bytes block in
      let compressionCode := littleEndianBytesToUInt16 (fc_compressionCode fc) in
      if negb (compressionCode =? WAVE_FORMAT_PCM)
         && negb (compressionCode =? WAVE_FORMAT_IEEE_FLOAT)
      then Fatal CompressedFormat
      else
        let extraFormatBytesCount :=
          wrap32 (littleEndianBytesToUInt32 (fc_chunkDataSize fc) - 16) in
        if 0 <? extraFormatBytesCount then
          Continue (mkScanState (skipData f3 extraFormatBytesCount) (Some fc)
                      (mkChunkLocation (ftell f3) extraFormatBytesCount)
                      (dataChunkLocation st) (otherChunksCount st)
                      (otherChunkLocations st))
        else
          Continue (mkScanState f3 (Some fc) (formatChunkExtraBytes st)
                      (dataChunkLocation st) (otherChunksCount st)
                      (otherChunkLocations st))
  else if strncmp4_eq nextChunkID "data" then
    let start := ftell f1 - 4 in
    let '(sampleDataSizeBytes, f2) := fread (uninit 4) f1 in
    if ferror f2 then Fatal ErrorReadingInput
    else
      let sampleDataSize := littleEndianBytesToUInt32 sampleDataSizeBytes in
      Continue (mkScanState (skipData f2 sampleDataSize) (formatChunk st)
                  (formatChunkExtraBytes st)
                  (mkChunkLocation start (wrap64 (4 + 4 + sampleDataSize)))
                  (otherChunksCount st) (otherChunkLocations st))
  else if strncmp4_eq nextChunkID "cue " then
    let '(cueChunkDataSizeBytes, f2) := fread (uninit 4) f1 in
    if ferror f2 then Fatal ErrorReadingInput
    else
      let cueChunkDataSize := littleEndianBytesToUInt32 cueChunkDataSizeBytes in
      Continue (with_file st (skipData f2 cueChunkDataSize))
  else if strncmp4_eq nextChunkID "LIST" then
    let '(chunkDataSizeBytes, f2) := fread (repeat x00 4) f1 in
    if ferror f2 then Fatal ErrorReadingInput
    else
      let chunkDataSize := littleEndianBytesToUInt32 chunkDataSizeBytes in
      let '(listTypeID, f3) := fread (uninit 4) f2 in
      if feof f3 then Break (with_file st f3)
      else if ferror f3 then Fatal ErrorReadingInput
      else if strncmp4_eq listTypeID "adtl" then
        let f4 := snd (fseek f3 (to_long (chunkDataSize - 4)) SEEK_CUR) in
        let f5 := if negb (chunkDataSize mod 2 =? 0)
                  then snd (fseek f4 1 SEEK_CUR) else f4 in
        Continue (with_file st f5)
      else
        scanOtherChunk st (snd (fseek f3 (-1 * (4 + 4)) SEEK_CUR))
  else scanOtherChunk st f1.

Fixpoint scanLoop (fuel : nat) (st : ScanState) : ScanResult :=
  match fuel with
  | O => ScanOutOfFuel
  | S fuel' =>
      match scanChunk st with
      | Continue st' => scanLoop fuel' st'
      | Break st' => Scanned st'
      | Fatal d => ScanFatal d
      end
  end.

(** The header checks, the loop and the check that follows it. *)
Definition scanInputFile (f : FILE) : WaveHeader * ScanResult :=
  let '(block, f1) := fread (uninit sizeof_WaveHeader) f in
  let waveHeader := WaveHeader_of_bytes block in
  if ferror f1 then (waveHeader, ScanFatal ErrorReadingInput)
  else if negb (strncmp4_eq (wh_chunkID waveHeader) "RIFF")
  then (waveHeader, ScanFatal NotARiffFile)
  else if negb (strncmp4_eq (wh_riffType waveHeader) "WAVE")
  then (waveHeader, ScanFatal NotAWaveFile)
  else
    let remainingFileSize :=
      wrap32 (littleEndianBytesToUInt32 (wh_dataSize waveHeader) - 4) in
    if remainingFileSize <=? 0 then (waveHeader, ScanFatal EmptyWaveFile)
    else
      let st0 := mkScanState f1 None (mkChunkLocation 0 0) (mkChunkLocation 0 0)
                             0 [] in
      match scanLoop (S (length (f_data f))) st0 with
      | Scanned st =>
          match formatChunk st with
          | None => (waveHeader, ScanFatal NoFormatOrNoData)
          | Some _ =>
              if size (dataChunkLocation st) =? 0
              then (waveHeader, ScanFatal NoFormatOrNoData)
              else (waveHeader, Scanned st)
          end
      | other => (waveHeader, other)
      end.

(** *** The byte-range copier *)

(** [while (remainingBytesToWrite >= 1024) { ... }]: the loop makes
    [remainingBytesToWrite / 1024] turns unless it returns early.  The
    result is the return code when the loop returns from the function. *)
Fixpoint copyBlocks (turns : nat) (inputFileOrigLocation : Z)
    (fi : FILE) (fo : OFILE) : WStep :=
  match turns with
  | O => Go fi fo
  | S k =>
      let '(buffer, fi1) := fread (uninit 1024) fi in
      if ferror fi1
      then Return (-1) (snd (fseek fi1 inputFileOrigLocation SEEK_SET)) fo
      else
        let '(w, fo1) := fwrite buffer 1 1024 fo in
        if w <? 1
        then Return (-1) (snd (fseek fi1 inputFileOrigLocation SEEK_SET)) fo1
        else copyBlocks k inputFileOrigLocation fi1 fo1
  end.

Definition copyRest (remainingBytesToWrite inputFileOrigLocation : Z)
    (fi : FILE) (fo : OFILE) : WStep :=
  if 0 <? remainingBytesToWrite then
    let '(buffer, fi1) := fread (uninit remainingBytesToWrite) fi in
    if ferror fi1
    then Return (-1) (snd (fseek fi1 inputFileOrigLocation SEEK_SET)) fo
    else
      let '(w, fo1) := fwrite buffer 1 remainingBytesToWrite fo in
      if w <? 1
      then Return (-1) (snd (fseek fi1 inputFileOrigLocation SEEK_SET)) fo1
      else Return 0 fi1 fo1
  else Return 0 fi fo.

Definition writeChunkLocationFromInputFileToOutputFile (chunk : ChunkLocation)
    (fi : FILE) (fo : OFILE) : WStep :=
  let inputFileOrigLocation := ftell fi in
  let '(r, fi1) := fseek fi (startOffset chunk) SEEK_SET in
  if r <? 0 then Return (-1) fi1 fo
  else
    let remainingBytesToWrite := size chunk in
    (copyBlocks (Z.to_nat (remainingBytesToWrite / 1024)) inputFileOrigLocation ;;
     copyRest (remainingBytesToWrite mod 1024) inputFileOrigLocation) fi1 fo.

(** *** The chunk writer *)

(** [if (f(...) < 0) return -1;] around a call of the copier *)
Definition copyChunk (chunk : ChunkLocation) (fi : FILE) (fo : OFILE) : WStep :=
  match writeChunkLocationFromInputFileToOutputFile chunk fi fo with
  | Go fi' fo' => Go fi' fo'
  | Return c fi' fo' => if c <? 0 then Return (-1) fi' fo' else Go fi' fo'
  end.

(** [if (fwrite(ptr, size, 1, outputFile) < 1) return -1;] *)
Definition put (ptr : list byte) (sz : Z) (fi : FILE) (fo : OFILE) : WStep :=
  let '(w, fo1) := fwrite ptr sz 1 fo in
  if w <? 1 then Return (-1) fi fo1 else Go fi fo1.

(** the padding byte after a chunk of odd size *)
Definition putPad (sz : Z) (fi : FILE) (fo : OFILE) : WStep :=
  if negb (sz mod 2 =? 0) then put [x00] 1 fi fo else Go fi fo.

Definition compute_fileDataSize (formatChunkExtraBytes dataChunkLocation : ChunkLocation)
    (otherChunksCount : Z) (otherChunkLocations : list ChunkLocation)
    (labelInfo : LabelInfo) (listChunkSize : Z) : Z :=
  let add (a b : Z) := wrap32 (a + b) in
  let addOdd (a sz : Z) := if negb (sz mod 2 =? 0) then add a 1 else a in
  let s := 0 in
  let s := add s 4 in
  let s := add s sizeof_FormatChunk in
  let s := add s (size formatChunkExtraBytes) in
  let s := addOdd s (size formatChunkExtraBytes) in
  let s := add s (size dataChunkLocation) in
  let s := addOdd s (size dataChunkLocation) in
  let s := fold_left (fun s c => addOdd (add s (size c)) (size c))
             (firstn (Z.to_nat otherChunksCount) otherChunkLocations) s in
  let s := add s 4 in
  let s := add s 4 in
  let s := add s 4 in
  let s := add s (sizeof_CuePoint * count labelInfo) in
  let s := add s 4 in
  let s := add s 4 in
  let s := add s 4 in
  let s := add s (1 * listChunkSize) in
  s.

Fixpoint putCuePoints (cps : list CuePoint) : Writer :=
  match cps with
  | [] => Go
  | cp :: r => put (CuePoint_bytes cp) sizeof_CuePoint ;; putCuePoints r
  end.

Fixpoint copyOtherChunks (cs : list ChunkLocation) : Writer :=
  match cs with
  | [] => Go
  | c :: r => copyChunk c ;; putPad (size c) ;; copyOtherChunks r
  end.

Definition writeOutputFile (fi : FILE) (fo : OFILE)
    (formatChunkExtraBytes dataChunkLocation : ChunkLocation)
    (otherChunksCount : Z) (otherChunkLocations : list ChunkLocation)
    (labelInfo : LabelInfo) (waveHeader : WaveHeader) (formatChunk : FormatChunk)
    (cueChunk : CueChunk) (listChunk : ListChunk) (listChunkSize : Z) : WStep :=
  let fileDataSize :=
    compute_fileDataSize formatChunkExtraBytes dataChunkLocation otherChunksCount
                         otherChunkLocations labelInfo listChunkSize in
  let waveHeader' :=
    mkWaveHeader (wh_chunkID waveHeader) (uint32ToLittleEndianBytes fileDataSize)
                 (wh_riffType waveHeader) in
  (put (WaveHeader_bytes waveHeader') sizeof_WaveHeader ;;
  put (FormatChunk_bytes formatChunk) sizeof_FormatChunk ;;
  (if 0 <? size formatChunkExtraBytes
   then copyChunk formatChunkExtraBytes ;; putPad (size formatChunkExtraBytes)
   else Go) ;;
  copyChunk dataChunkLocation ;;
  putPad (size dataChunkLocation) ;;
  put (cc_chunkID cueChunk ++ cc_chunkDataSize cueChunk ++ cc_cuePointsCount cueChunk)
      (4 + 4 + 4) ;;
  putCuePoints
    (firstn (Z.to_nat (littleEndianBytesToUInt32 (cc_cuePointsCount cueChunk)))
            (cuePoints cueChunk)) ;;
  put (lc_chunkID listChunk ++ lc_chunkDataSize listChunk ++ lc_typeID listChunk)
      (4 + 4 + 4) ;;
  put (labelChunks listChunk) listChunkSize ;;
  putPad listChunkSize ;;
  copyOtherChunks (firstn (Z.to_nat otherChunksCount) otherChunkLocations) ;;
  Return 0) fi fo.

(** *** [addLabelsToWaveFile]

    The three paths are given as the result of opening them: [None] when
    [fopen] fails.  Memory allocation is assumed to succeed. *)
Definition fatal (d : Diagnostic) : Outcome Run :=
  Ok (mkRun (-1) (Some d) None).

Definition addLabelsToWaveFile (inFile : option FILE) (labelFile : option LabelFILE)
    (outFile : option OFILE) : Outcome Run :=
  match inFile with
  | None => fatal CouldNotOpenInput
  | Some input =>
    match labelFile with
    | None => fatal CouldNotOpenLabels
    | Some labels =>
      match scanInputFile input with
      | (_, ScanFatal d) => fatal d
      | (_, ScanOutOfFuel) => OutOfFuel
      | (waveHeader, Scanned st) =>
        match formatChunk st with
        | None => fatal NoFormatOrNoData
        | Some fc =>
          match readLabelFile labels fc with
          | Undefined k => Undefined k
          | OutOfFuel => OutOfFuel
          | Ok labelInfo =>
            if count labelInfo <? 1 then fatal NoCuePointLocations
            else
              let listChunkSize := compute_listChunkSize labelInfo in
              let cueChunk := make_cueChunk labelInfo in
              let listChunk := make_listChunk labelInfo listChunkSize in
              match outFile with
              | None => fatal CouldNotOpenOutput
              | Some output =>
                match writeOutputFile (inputFile st) output
                        (formatChunkExtraBytes st) (dataChunkLocation st)
                        (otherChunksCount st) (otherChunkLocations st)
                        labelInfo waveHeader fc cueChunk listChunk listChunkSize with
                | Return c _ fo =>
                    if c <? 0 then Ok (mkRun c (Some ErrorWritingOutput) (Some fo))
                    else Ok (mkRun c None (Some fo))
                | Go _ fo => Ok (mkRun 0 None (Some fo))
                end
              end
          end
        end
      end
    end
  end.

End Program.

(** A stream is consistent when a raised end-of-file indicator means that
    nothing is left to read. *)
Definition consistent (f : LabelFILE) : Prop :=
  l_eof f = true -> l_rest f = [].

(** What the loop of [readLabelFile] maintains: the three tables keep their
    500 cells, and each of the [count] entries stored so far has a sample
    index that is a [uint32_t], a length between 1 and 500, and a row that
    starts with that many bytes: a text without zero byte and its
    terminator. *)
Definition LabelInfo_wf (li : LabelInfo) : Prop :=
  0 <= count li <= maxLabels /\
  length (locations li) = 500%nat /\
  length (labels li) = 500%nat /\
  length (labelLengths li) = 500%nat /\
  Forall (fun row => length row = 500%nat) (labels li) /\
  forall i, 0 <= i < count li ->
    1 <= nthZ i (labelLengths li) 0 <= labelStorage /\
    0 <= nthZ i (locations li) 0 < 2 ^ 32 /\
    slice (nthZ i (labels li) []) 0 (nthZ i (labelLengths li) 0) =
      c_string (nthZ i (labels li) []) ++ [x00].

(** A [labl] record read back from a list body, field by field, as the
    format lays it out: identifier, size, cue identifier, text; the record
    is followed by a pad byte when its size is odd. *)
Record LablRecord : Set := mkLablRecord {
  labl_chunkID : list byte;
  labl_chunkDataSize : Z;
  labl_cuePointID : Z;
  labl_text : list byte
}.

Fixpoint parse_labl (fuel : nat) (b : list byte) : list LablRecord :=
  match fuel with
  | O => []
  | S k =>
      match b with
      | [] => []
      | _ =>
          let sz := littleEndianBytesToUInt32 (slice b 4 4) in
          mkLablRecord (slice b 0 4) sz (littleEndianBytesToUInt32 (slice b 8 4))
                       (slice b 12 (sz - 4))
          :: parse_labl k (skipn (Z.to_nat (8 + sz + odd_pad sz)) b)
      end
  end.

Definition lablRecords (body : list byte) : list LablRecord :=
  parse_labl (length body) body.

Definition others_total (cs : list ChunkLocation) : Z :=
  fold_right (fun c acc => size c + odd_pad (size c) + acc) 0 cs.

(** The total of section 4.5 of the specification. *)
Definition spec_total_size (extra data : Z) (others : list ChunkLocation)
    (cueCount listBody : Z) : Z :=
  4 + 8 + 16 + extra + odd_pad extra + data + odd_pad data +
  others_total others + 12 + 24 * cueCount + 12 + listBody + odd_pad listBody.

Definition labelInfo_of (o : Outcome LabelInfo) : LabelInfo :=
  match o with
  | Ok li => li
  | _ => labelInfo_init
  end.

Definition Zsum (l : list Z) : Z := fold_right Z.add 0 l.

(** The number of bytes entry [i] takes in the list body. *)
Definition recordLength (li : LabelInfo) (i : Z) : Z :=
  12 + nthZ i (labelLengths li) 0 + odd_pad (nthZ i (labelLengths li) 0).

Definition TAB : byte := x09.
Definition LF : byte := x0a.
Definition CR : byte := x0d.

(** Test data: a 44.1 kHz, 16-bit, mono PCM format chunk, wave files built
    from chunks, label lines. *)
Definition fmt_bytes (sampleRate : Z) : list byte :=
  bytes "fmt " ++ le_bytes 4 16 ++ le_bytes 2 1 ++ le_bytes 2 1 ++
  le_bytes 4 sampleRate ++ le_bytes 4 (2 * sampleRate) ++ le_bytes 2 2 ++
  le_bytes 2 16.

Definition fmt_44100 : FormatChunk := FormatChunk_of_bytes (fmt_bytes 44100).

Definition chunk_bytes (id : string) (payload : list byte) : list byte :=
  bytes id ++ le_bytes 4 (len payload) ++ payload ++
  (if Z.odd (len payload) then [x00] else []).

Definition riff_bytes (body : list byte) : list byte :=
  bytes "RIFF" ++ le_bytes 4 (4 + len body) ++ bytes "WAVE" ++ body.

Definition label_line (startTime endTime text : string) : list byte :=
  bytes startTime ++ [TAB] ++ bytes endTime ++ [TAB] ++ bytes text.

Definition open_in (content : list byte) : FILE := mkFILE content 0 false false None.
Definition open_labels (content : list byte) : LabelFILE := mkLabelFILE content false.
Definition open_out : OFILE := mkOFILE [] None.

(** The label file of scenario S2 with each of the three line ends. *)
Definition labels_S2 (eol : list byte) : list byte :=
  label_line "0.0" "0.1" "a" ++ eol ++ label_line "1.0" "1.1" "bb".

(** The record entry [i] of a table is expected to give. *)
Definition expected_labl (li : LabelInfo) (i : Z) : LablRecord :=
  mkLablRecord (bytes "labl") (nthZ i (labelLengths li) 0 + 4) (i + 1)
    (c_string (nthZ i (labels li) []) ++ [x00]).

(** The start time 0.5 s as [%f] reads it. *)
Definition half : float := f32_of_decimal false 5 (-1).

(** A file opened for reading on a device that fails at offset [bad] (if
    any); a file opened with mode [w+b] on a device with [room] bytes left. *)
Definition fopen_r (content : list byte) (bad : option Z) : FILE :=
  mkFILE content 0 false false bad.
Definition fopen_w (room : option Z) : OFILE := mkOFILE [] room.

(** What every operation on an input stream keeps: the contents, a
    position that is not negative, and an end-of-file indicator that is only
    raised at or past the end of the contents. *)
Definition FILE_inv (data : list byte) (f : FILE) : Prop :=
  f_data f = data /\ 0 <= f_pos f /\ (f_eof f = true -> len data <= f_pos f).

(** The devices deliver and accept everything. *)
Definition NoFault (fi : FILE) (fo : OFILE) : Prop :=
  f_bad fi = None /\ f_err fi = false /\ o_room fo = None.

Definition Appends (Q : list byte -> Prop) (fo fo' : OFILE) : Prop :=
  exists d, o_data fo' = o_data fo ++ d /\ Q d.

Definition Qseq (Q1 Q2 : list byte -> Prop) (d : list byte) : Prop :=
  exists d1 d2, d = d1 ++ d2 /\ Q1 d1 /\ Q2 d2.

(** A writer that goes on after appending bytes described by [Q], or
    returns -1, which it only does on a faulty device. *)
Definition GoSpec (data : list byte) (Q : list byte -> Prop) (m : Writer) : Prop :=
  forall fi fo, FILE_inv data fi ->
    match m fi fo with
    | Go fi' fo' =>
        FILE_inv data fi' /\ Appends Q fo fo' /\ (NoFault fi fo -> NoFault fi' fo')
    | Return c _ _ => c = -1 /\ ~ NoFault fi fo
    end.

(** A writer that returns: 0 after appending bytes described by [Q], or -1,
    the latter only on a faulty device. *)
Definition EndSpec (data : list byte) (Q : list byte -> Prop) (m : Writer) : Prop :=
  forall fi fo, FILE_inv data fi ->
    match m fi fo with
    | Go _ _ => False
    | Return c fi' fo' =>
        (c = 0 /\ FILE_inv data fi' /\ Appends Q fo fo' /\
         (NoFault fi fo -> NoFault fi' fo')) \/
        (c = -1 /\ ~ NoFault fi fo)
    end.

(** The bytes a successful copy of [chunk] appends: as many as the chunk
    has, and those of the input when the chunk lies within it. *)
Definition Qcopy (data : list byte) (chunk : ChunkLocation) (d : list byte) : Prop :=
  len d = size chunk /\
  (startOffset chunk + size chunk <= len data ->
   d = slice data (startOffset chunk) (size chunk)).

Definition Qpad (sz : Z) (d : list byte) : Prop :=
  d = if negb (sz mod 2 =? 0) then [x00] else [].

Definition Qis (x : list byte) (d : list byte) : Prop := d = x.

Definition Qothers (cs : list ChunkLocation) (d : list byte) : Prop :=
  len d = others_total cs.

Definition Qextra (data : list byte) (extra : ChunkLocation) (d : list byte) : Prop :=
  if 0 <? size extra
  then Qseq (Qcopy data extra) (Qpad (size extra)) d
  else d = [].

(** The bytes a successful [writeOutputFile] appends, piece by piece. *)
Definition Qout (data hdr fmt : list byte) (extra dataLoc : ChunkLocation)
    (cueHdr cues listHdr labelBody : list byte) (listChunkSize : Z)
    (others : list ChunkLocation) : list byte -> Prop :=
  Qseq (Qis hdr) (Qseq (Qis fmt) (Qseq (Qextra data extra)
  (Qseq (Qcopy data dataLoc) (Qseq (Qpad (size dataLoc))
  (Qseq (Qis cueHdr) (Qseq (Qis cues) (Qseq (Qis listHdr)
  (Qseq (Qis labelBody) (Qseq (Qpad listChunkSize)
  (Qseq (Qothers others) (Qis []))))))))))).

Definition ChunkLocation_ok (c : ChunkLocation) : Prop :=
  0 <= startOffset c /\ 0 <= size c.

(** What the scan maintains. *)
Definition ScanInv (data : list byte) (bad : option Z) (st : ScanState) : Prop :=
  FILE_inv data (inputFile st) /\
  f_err (inputFile st) = false /\
  f_bad (inputFile st) = bad /\
  ChunkLocation_ok (formatChunkExtraBytes st) /\
  ChunkLocation_ok (dataChunkLocation st) /\
  Forall ChunkLocation_ok (otherChunkLocations st) /\
  0 <= otherChunksCount st <= maxOtherChunks /\
  (forall fc, formatChunk st = Some fc -> len (FormatChunk_bytes fc) = 24).

(** The header [writeOutputFile] writes, the fixed parts of the two new
    chunks, and the offset of the data chunk in the output. *)
Definition outputHeader (hdr : WaveHeader) (fileDataSize : Z) : list byte :=
  WaveHeader_bytes
    (mkWaveHeader (wh_chunkID hdr) (uint32ToLittleEndianBytes fileDataSize)
                  (wh_riffType hdr)).

Definition cueHeader (li : LabelInfo) : list byte :=
  cc_chunkID (make_cueChunk li) ++ cc_chunkDataSize (make_cueChunk li) ++
  cc_cuePointsCount (make_cueChunk li).

Definition listHeader (li : LabelInfo) (L : Z) : list byte :=
  lc_chunkID (make_listChunk li L) ++ lc_chunkDataSize (make_listChunk li L) ++
  lc_typeID (make_listChunk li L).

Definition fileDataSize_of (st : ScanState) (li : LabelInfo) : Z :=
  compute_fileDataSize (formatChunkExtraBytes st) (dataChunkLocation st)
    (otherChunksCount st) (otherChunkLocations st) li (compute_listChunkSize li).

Definition total_of (st : ScanState) (li : LabelInfo) : Z :=
  spec_total_size (size (formatChunkExtraBytes st)) (size (dataChunkLocation st))
    (firstn (Z.to_nat (otherChunksCount st)) (otherChunkLocations st))
    (count li) (compute_listChunkSize li).

Definition dataOffset_out (st : ScanState) : Z :=
  12 + 24 + size (formatChunkExtraBytes st) +
  odd_pad (size (formatChunkExtraBytes st)).

(** *** Inputs used below *)

(** uninitialised storage filled with the byte 0xAA *)
Definition junk : nat -> byte := fun _ => xaa.

Definition scanState_of (r : WaveHeader * ScanResult) : ScanState :=
  match snd r with
  | Scanned st => st
  | _ => mkScanState (fopen_r [] None) None (mkChunkLocation 0 0)
                     (mkChunkLocation 0 0) 0 []
  end.

Definition run_wav (content labelLines : list byte) : Outcome Run :=
  addLabelsToWaveFile junk (Some (fopen_r content None))
                      (Some (open_labels labelLines)) (Some (fopen_w None)).

Definition output_of (o : Outcome Run) : list byte :=
  match o with
  | Ok r => match outputFile r with Some fo => o_data fo | None => [] end
  | _ => []
  end.

Definition exit_of (o : Outcome Run) : option Z :=
  match o with
  | Ok r => Some (returnCode r)
  | _ => None
  end.

Definition label_mid : list byte := label_line "0.5" "0.5" "mid".

(** S1: header, format chunk, a data chunk of four bytes. *)
Definition wav_S1 : list byte :=
  riff_bytes (fmt_bytes 44100 ++ chunk_bytes "data" [x01; x02; x03; x04]).

(** S3, S4: an unknown chunk of seven bytes before the data chunk, old cue
    and adtl chunks and a LIST chunk of another type after it. *)
Definition wav_S3 : list byte :=
  riff_bytes (fmt_bytes 44100 ++
              chunk_bytes "JUNK" [x01; x02; x03; x04; x05; x06; x07] ++
              chunk_bytes "data" [x01; x02; x03] ++
              chunk_bytes "cue " [x01; x02; x03] ++
              chunk_bytes "LIST" (bytes "adtl" ++ [x09]) ++
              chunk_bytes "LIST" (bytes "INFO" ++ [x09])).

(** The data chunk announces four bytes of payload, the file ends after
    two. *)
Definition wav_truncated_data : list byte :=
  riff_bytes (fmt_bytes 44100 ++ bytes "data" ++ le_bytes 4 4 ++ [x01; x02]).

(** The file ends inside the type field of a LIST chunk. *)
Definition wav_truncated_list : list byte :=
  riff_bytes (fmt_bytes 44100 ++ chunk_bytes "data" [x01; x02] ++
              bytes "LIST" ++ le_bytes 4 10 ++ [x01; x02]).

(** The data chunk announces 2^32 - 8 bytes of payload; the file holds
    none of them. *)
Definition wav_huge_data : list byte :=
  riff_bytes (fmt_bytes 44100 ++ bytes "data" ++ le_bytes 4 (2 ^ 32 - 8)).

(** 257 chunks that are neither fmt, data, cue nor LIST/adtl. *)
Definition wav_257_chunks : list byte :=
  riff_bytes (fmt_bytes 44100 ++ chunk_bytes "data" [x01; x02] ++
              concat (repeat (chunk_bytes "JUNK" []) 257)).

Definition wav_256_chunks : list byte :=
  riff_bytes (fmt_bytes 44100 ++ chunk_bytes "data" [x01; x02] ++
              concat (repeat (chunk_bytes "JUNK" []) 256)).

(** [n] well-formed label lines, each ended by CR LF. *)
Definition labels_n (n : nat) : list byte :=
  concat (repeat (label_line "0.5" "0.5" "a" ++ [CR; LF]) n).

(** One line whose label has [n] bytes. *)
Definition label_of_length (n : nat) : list byte :=
  label_line "0.5" "0.5" "" ++ repeat "a"%byte n ++ [LF].

(** The chunk found at offset [k] of a file: identifier, length field and
    as much of the announced payload as the file holds. *)
Definition chunk_at (f : list byte) (k : Z) : list byte * list byte * list byte :=
  (slice f k 4, slice f (k + 4) 4,
   slice f (k + 8) (littleEndianBytesToUInt32 (slice f (k + 4) 4))).

Definition chunk_eqb (a b : list byte * list byte * list byte) : bool :=
  let '(a1, a2, a3) := a in
  let '(b1, b2, b3) := b in
  bytes_eqb a1 b1 && bytes_eqb a2 b2 && bytes_eqb a3 b3.

Definition contains_chunk (f : list byte)
    (c : list byte * list byte * list byte) : bool :=
  existsb (fun k => chunk_eqb (chunk_at f k) c) (indices (len f + 1)).

(** Does the stream end inside a chunk?  The chunks follow the 12-byte
    header; each is an identifier, a length field, a payload of that length
    and a pad byte when the length is odd.  Fewer than four bytes where the
    next identifier starts is the normal end. *)
Fixpoint ends_inside (fuel : nat) (f : list byte) (pos : Z) : bool :=
  match fuel with
  | O => false
  | S k =>
      if len f - pos <? 4 then false
      else if len f - pos <? 8 then true
      else
        let sz := littleEndianBytesToUInt32 (slice f (pos + 4) 4) in
        let next := pos + 8 + sz + odd_pad sz in
        if len f <? next then true else ends_inside k f next
  end.

Definition ends_mid_chunk (f : list byte) : bool :=
  ends_inside (S (length f)) f 12.

(** floor (t * rate) for t = num / den *)
Definition floor_time_rate (num den rate : Z) : Z := (num * rate) / den.

(** The result of a run that returned. *)
Definition run_of (o : Outcome Run) : Run :=
  match o with
  | Ok r => r
  | _ => mkRun (-1) None None
  end.

(** uninitialised storage filled with zero bytes *)
Definition zeros : nat -> byte := fun _ => x00.

(** The sample indices and the texts of the entries of a table. *)
Definition parsed_labels (o : Outcome LabelInfo) : option (list (Z * list byte)) :=
  match o with
  | Ok li =>
      Some (map (fun i => (nthZ i (locations li) 0,
                           c_string (nthZ i (labels li) [])))
                (indices (count li)))
  | _ => None
  end.

(** The stream as the scan of S3 leaves it, on a device that fails at offset
    61, inside the payload of the data chunk. *)
Definition failing_after_scan : FILE :=
  mkFILE wav_S3 104 true false (Some 61).

(** ** The program's entry point and inputs for the lemmas on the parts *)

(** A text without line end; a table whose stored labels have none. *)
Definition no_eol (s : list byte) : bool :=
  forallb (fun b => negb (is_eol b)) s.

Definition Labels_no_eol (li : LabelInfo) : Prop :=
  forall i, 0 <= i < count li ->
    no_eol (c_string (nthZ i (labels li) [])) = true.

(** The entries of [li] are those of [li'], at the same indices. *)
Definition Entries_kept (li li' : LabelInfo) : Prop :=
  count li <= count li' /\
  forall j, 0 <= j < count li ->
    nthZ j (locations li') 0 = nthZ j (locations li) 0 /\
    nthZ j (labels li') [] = nthZ j (labels li) [] /\
    nthZ j (labelLengths li') 0 = nthZ j (labelLengths li) 0.

(** The table after the line [0.0 0.1 a], and the stream on the line that
    follows it in S2. *)
Definition table_first_line : LabelInfo :=
  labelInfo_of (readLabelFile (open_labels (label_line "0.0" "0.1" "a")) fmt_44100).

Definition second_line : LabelFILE := open_labels (label_line "1.0" "1.1" "bb").

(** *** Label files as Audacity writes them *)

(** The number a run of decimal digits stands for. *)
Definition digits_value (ds : list byte) : Z :=
  fold_left (fun acc b => 10 * acc + (byteZ b - 48)) ds 0.

(** The decimal constant [ip.fp], and the [float] that [%f] reads from it. *)
Definition decimal_bytes (ip fp : list byte) : list byte :=
  ip ++ "."%byte :: fp.

Definition decimal_float (ip fp : list byte) : float :=
  f32_of_decimal false (digits_value (ip ++ fp)) (- len fp).

Definition is_decimal (ip fp : list byte) : bool :=
  negb (isnil ip) && forallb isdigit ip && forallb isdigit fp.

(** A line: start time, end time, text. *)
Record LabelLine : Set := mkLabelLine {
  ln_start : list byte * list byte;
  ln_end : list byte * list byte;
  ln_text : list byte
}.

Definition line_bytes (l : LabelLine) : list byte :=
  decimal_bytes (fst (ln_start l)) (snd (ln_start l)) ++ TAB ::
  decimal_bytes (fst (ln_end l)) (snd (ln_end l)) ++ TAB :: ln_text l.

Definition start_time (l : LabelLine) : float :=
  decimal_float (fst (ln_start l)) (snd (ln_start l)).

(** The lines this development follows through [readLabelFile]: decimal
    times, a text of 1 to 499 bytes without zero byte and line end, a start
    time of at most 48660 s whose sample index is a [uint32_t]. *)
Definition line_ok (fc : FormatChunk) (l : LabelLine) : bool :=
  is_decimal (fst (ln_start l)) (snd (ln_start l)) &&
  is_decimal (fst (ln_end l)) (snd (ln_end l)) &&
  negb (isnil (ln_text l)) && no_eol (ln_text l) &&
  forallb (fun b => negb (Byte.eqb b x00)) (ln_text l) &&
  (len (ln_text l) <? labelStorage) &&
  f32_leb (start_time l) (f32_of_Z 48660) &&
  match timeToIndex (start_time l) fc with Some _ => true | None => false end.

(** The lines [readLabelFile] stores an entry for: as [line_ok], but the
    text may hold zero bytes. *)
Definition line_readable (fc : FormatChunk) (l : LabelLine) : bool :=
  is_decimal (fst (ln_start l)) (snd (ln_start l)) &&
  is_decimal (fst (ln_end l)) (snd (ln_end l)) &&
  negb (isnil (ln_text l)) && no_eol (ln_text l) &&
  (len (ln_text l) <? labelStorage) &&
  f32_leb (start_time l) (f32_of_Z 48660) &&
  match timeToIndex (start_time l) fc with Some _ => true | None => false end.

(** What follows the text of a line: the end of the file, or a CR or LF. *)
Definition line_end_ok (rest : list byte) : bool :=
  match rest with
  | [] => true
  | e :: _ => is_eol e
  end.

(** Every line ended by CR LF. *)
Definition crlf_file (ls : list LabelLine) : list byte :=
  flat_map (fun l => line_bytes l ++ [CR; LF]) ls.

Definition expected_entry (fc : FormatChunk) (l : LabelLine) : Z * list byte :=
  (match timeToIndex (start_time l) fc with Some i => i | None => 0 end,
   ln_text l).

(** The entry stored for a readable line: the text as a C string. *)
Definition stored_entry (fc : FormatChunk) (l : LabelLine) : Z * list byte :=
  (match timeToIndex (start_time l) fc with Some i => i | None => 0 end,
   c_string (ln_text l)).

(** The stream between two lines of such a file. *)
Definition after_lines (ls : list LabelLine) : LabelFILE :=
  match ls with
  | [] => mkLabelFILE [] true
  | _ => mkLabelFILE (crlf_file ls) false
  end.

(** [n] entries of a table from index [s] on. *)
Fixpoint entries_from (li : LabelInfo) (s : Z) (n : nat) : list (Z * list byte) :=
  match n with
  | O => []
  | S k => (nthZ s (locations li) 0, c_string (nthZ s (labels li) []))
           :: entries_from li (s + 1) k
  end.

(** Two lines for the 44.1 kHz format. *)
Definition two_lines : list LabelLine :=
  [mkLabelLine (bytes "0", bytes "25") (bytes "1", bytes "0") (bytes "intro");
   mkLabelLine (bytes "12", bytes "5") (bytes "13", bytes "") (bytes "verse 1")].

(** *** The scanner on a readable file *)

(** The input stream at offset [p] of a file, indicators down, on a device
    without fault. *)
Definition at_offset (data : list byte) (p : Z) : FILE :=
  mkFILE data p false false None.

(** The number in the length field of the chunk at offset [p]. *)
Definition size_field (data : list byte) (p : Z) : Z :=
  littleEndianBytesToUInt32 (slice data (p + 4) 4).

(** The offset after the chunk at offset [p] and its pad byte. *)
Definition next_chunk (data : list byte) (p : Z) : Z :=
  p + 8 + size_field data p + odd_pad (size_field data p).

Definition is_other_id (id : list byte) : bool :=
  negb (strncmp4_eq id "fmt ") && negb (strncmp4_eq id "data") &&
  negb (strncmp4_eq id "cue ") && negb (strncmp4_eq id "LIST").

(** *** Files made of chunks *)

(** A chunk: identifier and payload; its image in a file. *)
Definition Chunk : Set := (list byte * list byte)%type.

Definition chunk_image (c : Chunk) : list byte :=
  fst c ++ uint32ToLittleEndianBytes (len (snd c)) ++ snd c ++
  (if negb (len (snd c) mod 2 =? 0) then [x00] else []).

Inductive ChunkKind : Set := KFmt | KData | KCue | KAdtl | KOther.

Definition chunk_kind (c : Chunk) : ChunkKind :=
  if strncmp4_eq (fst c) "fmt " then KFmt
  else if strncmp4_eq (fst c) "data" then KData
  else if strncmp4_eq (fst c) "cue " then KCue
  else if strncmp4_eq (fst c) "LIST" && strncmp4_eq (snd c) "adtl" then KAdtl
  else KOther.

Definition kind_eqb (a b : ChunkKind) : bool :=
  match a, b with
  | KFmt, KFmt | KData, KData | KCue, KCue | KAdtl, KAdtl | KOther, KOther => true
  | _, _ => false
  end.

(** The format chunk held by the first 24 bytes of a chunk. *)
Definition chunk_fmt (c : Chunk) : FormatChunk :=
  FormatChunk_of_bytes (slice (chunk_image c) 0 24).

(** The chunks of the files followed below: a four-byte identifier, a
    payload below 2^32 bytes, format chunks of at least 16 bytes with
    compression code 1 or 3, LIST chunks of at least 4 bytes. *)
Definition chunk_ok (c : Chunk) : bool :=
  (len (fst c) =? 4) && (len (snd c) <? 2 ^ 32) &&
  (if strncmp4_eq (fst c) "fmt "
   then (16 <=? len (snd c)) &&
        let code := littleEndianBytesToUInt16 (fc_compressionCode (chunk_fmt c)) in
        ((code =? 1) || (code =? 3))
   else true) &&
  (if strncmp4_eq (fst c) "LIST" then 4 <=? len (snd c) else true).

Definition chunk_loc (off : Z) (c : Chunk) : ChunkLocation :=
  mkChunkLocation off (8 + len (snd c)).

(** The chunks of a sequence with their offsets, from offset [off] on. *)
Fixpoint layout (off : Z) (cs : list Chunk) : list (Z * Chunk) :=
  match cs with
  | [] => []
  | c :: r => (off, c) :: layout (off + len (chunk_image c)) r
  end.

Definition of_kind (k : ChunkKind) (l : list (Z * Chunk)) : list (Z * Chunk) :=
  filter (fun oc => kind_eqb (chunk_kind (snd oc)) k) l.

Definition has_extra (oc : Z * Chunk) : bool := 16 <? len (snd (snd oc)).

(** What the scan of the chunk at offset [off] records. *)
Definition record_chunk (off : Z) (c : Chunk) (st : ScanState) (f : FILE)
    : ScanState :=
  match chunk_kind c with
  | KFmt =>
      mkScanState f (Some (chunk_fmt c))
        (if 16 <? len (snd c) then mkChunkLocation (off + 24) (len (snd c) - 16)
         else formatChunkExtraBytes st)
        (dataChunkLocation st) (otherChunksCount st) (otherChunkLocations st)
  | KData =>
      mkScanState f (formatChunk st) (formatChunkExtraBytes st) (chunk_loc off c)
        (otherChunksCount st) (otherChunkLocations st)
  | KCue | KAdtl => with_file st f
  | KOther =>
      mkScanState f (formatChunk st) (formatChunkExtraBytes st)
        (dataChunkLocation st) (otherChunksCount st + 1)
        (firstn (Z.to_nat (otherChunksCount st)) (otherChunkLocations st)
           ++ [chunk_loc off c])
  end.

Fixpoint record_chunks (data : list byte) (off : Z) (cs : list Chunk)
    (st : ScanState) : ScanState :=
  match cs with
  | [] => with_file st (mkFILE data off true false None)
  | c :: r =>
      let off' := off + len (chunk_image c) in
      record_chunks data off' r (record_chunk off c st (at_offset data off'))
  end.

(** A file: the 12-byte header with [sz] in its length field, then the
    chunks. *)
Definition wave_file (sz : Z) (cs : list Chunk) : list byte :=
  bytes "RIFF" ++ uint32ToLittleEndianBytes sz ++ bytes "WAVE" ++
  flat_map chunk_image cs.

(** The state in which the loop of the scan starts. *)
Definition scan_start (f : FILE) : ScanState :=
  mkScanState f None (mkChunkLocation 0 0) (mkChunkLocation 0 0) 0 [].

Definition fmt_of (oc : Z * Chunk) : option FormatChunk :=
  Some (chunk_fmt (snd oc)).

Definition extra_of (oc : Z * Chunk) : ChunkLocation :=
  mkChunkLocation (fst oc + 24) (len (snd (snd oc)) - 16).

Definition loc_of (oc : Z * Chunk) : ChunkLocation :=
  chunk_loc (fst oc) (snd oc).

(** S3 as a sequence of chunks. *)
Definition chunks_S3 : list Chunk :=
  [(bytes "fmt ", le_bytes 2 1 ++ le_bytes 2 1 ++ le_bytes 4 44100 ++
                  le_bytes 4 88200 ++ le_bytes 2 2 ++ le_bytes 2 16);
   (bytes "JUNK", [x01; x02; x03; x04; x05; x06; x07]);
   (bytes "data", [x01; x02; x03]);
   (bytes "cue ", [x01; x02; x03]);
   (bytes "LIST", bytes "adtl" ++ [x09]);
   (bytes "LIST", bytes "INFO" ++ [x09])].

(** The stream at the data chunk of the file whose data chunk is cut
    short, and at chunks of S3. *)
Definition at_truncated_data : ScanState :=
  scan_start (at_offset wav_truncated_data 36).

Definition S3_at (p : Z) : ScanState := scan_start (at_offset wav_S3 p).

(** A file of 13 bytes; a file that does not start with RIFF. *)
Definition wav_13_bytes : list byte := bytes "RIFF" ++ le_bytes 4 5 ++ bytes "WAVEd".

Definition not_riff : list byte := bytes "FORM" ++ le_bytes 4 36 ++ bytes "AIFF" ++ fmt_bytes 44100.

(** The stream and the data chunk after the scan of S3. *)
Definition S3_scanned : ScanState :=
  scanState_of (scanInputFile junk (fopen_r wav_S3 None)).

(** The text stored for entry [i]. *)
Definition label_text (li : LabelInfo) (i : Z) : list byte :=
  c_string (nthZ i (labels li) []).

(** A label file of blanks and empty lines. *)
Definition blank_labels : list byte := [x20; TAB; CR; LF; LF; x20].

(** *** The bytes of the output *)






(** *** The output for a file made of chunks *)








(** *** [main]

    What [fopen] finds: for a path opened for reading, the contents and the
    offset at which the device fails, if any; for a path opened for
    writing, the room on the device.  The input, the label file and the
    output are taken to be three different files. *)
Record FileSystem : Set := mkFileSystem {
  fs_read : string -> option (list byte * option Z);
  fs_labels : string -> option (list byte);
  fs_write : string -> option (option Z)
}.

Definition main (indet : nat -> byte) (fs : FileSystem) (argv : list string)
    : Outcome Z :=
  let argc := len argv in
  if negb (argc =? 4) then Ok 1
  else
    let inFilePath := nth 1 argv EmptyString in
    let labelFilePath := nth 2 argv EmptyString in
    let outFilePath := nth 3 argv EmptyString in
    match addLabelsToWaveFile indet
            (option_map (fun cb => fopen_r (fst cb) (snd cb)) (fs_read fs inFilePath))
            (option_map open_labels (fs_labels fs labelFilePath))
            (option_map fopen_w (fs_write fs outFilePath)) with
    | Ok r => Ok (returnCode r)
    | Undefined k => Undefined k
    | OutOfFuel => OutOfFuel
    end.

(** A file system that holds S1 as [in.wav] and a label file [in.txt]. *)
Definition files_S1 : FileSystem :=
  mkFileSystem
    (fun p => if String.eqb p "in.wav" then Some (wav_S1, None) else None)
    (fun p => if String.eqb p "in.txt" then Some label_mid else None)
    (fun p => Some None).

Definition status_of (o : Outcome Z) : Z :=
  match o with
  | Ok c => c
  | _ => 2
  end.

Definition argv_missing_input : list string :=
  ["wav-marker"; "no.wav"; "in.txt"; "out.wav"]%string.

(** *** The number a [float] stands for

    A finite [float] of sign [s], significand [m] and exponent [e] stands
    for the rational number [(-1)^s * m * 2^e]: the fraction
    [f32_num / f32_den]. *)
Definition f32_num (x : float) : Z :=
  match x with
  | S754_finite s m e => (if s then -1 else 1) * (Zpos m * 2 ^ Z.max 0 e)
  | _ => 0
  end.

Definition f32_den (x : float) : Z :=
  match x with
  | S754_finite _ _ e => 2 ^ Z.max 0 (- e)
  | _ => 1
  end.

(** Entry [i] of a table holds the text [s]: the row as a C string, the
    recorded length, and the [labl] record of the list chunk made from the
    table. *)
Definition entry_holds (li : LabelInfo) (i : Z) (s : list byte) : Prop :=
  c_string (nthZ i (labels li) []) = s /\
  nthZ i (labelLengths li) 0 = strlen s + 1 /\
  nth_error
    (lablRecords (labelChunks (make_listChunk li (compute_listChunkSize li))))
    (Z.to_nat i) =
    Some (mkLablRecord (bytes "labl") (strlen s + 5) (i + 1) (s ++ [x00])).

(** Three lines; the text of the second holds a zero byte. *)
Definition line_with_nul : LabelLine :=
  mkLabelLine (bytes "12", bytes "5") (bytes "13", bytes "")
              (bytes "ver" ++ x00 :: bytes "se 1").

Definition lines_with_nul : list LabelLine :=
  [mkLabelLine (bytes "0", bytes "25") (bytes "1", bytes "0") (bytes "intro");
   line_with_nul;
   mkLabelLine (bytes "20", bytes "0") (bytes "21", bytes "5") (bytes "end")].

(** The file ends inside the length field of an unknown chunk. *)
Definition wav_truncated_size : list byte :=
  riff_bytes (fmt_bytes 44100 ++ chunk_bytes "data" [x01; x02] ++
              bytes "JUNK" ++ [x05]).

(** The file ends inside its format chunk, after the first byte of the
    compression code; the data chunk comes first. *)
Definition wav_truncated_fmt : list byte :=
  riff_bytes (chunk_bytes "data" [x01; x02] ++
              bytes "fmt " ++ le_bytes 4 16 ++ [x01]).

Definition is_read_error (r : ScanResult) : bool :=
  match r with
  | ScanFatal ErrorReadingInput => true
  | _ => false
  end.

(** A line whose start time 0.3 s, read by [%f], has a product with 44100
    that is not an integer: 13547521 / 1024. *)
Definition three_tenths : float := f32_of_decimal false 3 (-1).

Definition label_three_tenths : list byte := label_line "0.3" "0.5" "mid".

(** * Properties *)

(** ** Slices *)

Lemma slice_plain {A : Type} (l : list A) (off n : Z) :
  slice l off n = firstn (Z.to_nat n) (skipn (Z.to_nat off) l).
Proof.
  unfold slice, len.
  destruct (Z_le_gt_dec (Z.of_nat (length l)) off) as [Hge|Hlt].
  - rewrite (Z.min_r off) by lia. rewrite Nat2Z.id.
    rewrite skipn_all, (skipn_all2 l) by lia. now rewrite !firstn_nil.
  - rewrite (Z.min_l off) by lia.
    destruct (Z_le_gt_dec (Z.of_nat (length l)) n) as [Hn|Hn].
    + rewrite (Z.min_r n) by lia. rewrite Nat2Z.id.
      rewrite !firstn_all2; [reflexivity | |]; rewrite length_skipn; lia.
    + rewrite (Z.min_l n) by lia. reflexivity.
Qed.

(** ** Bytes and the endian primitives *)

Lemma byteZ_range (b : byte) : 0 <= byteZ b < 256.
Proof.
  unfold byteZ. pose proof (Byte.to_N_bounded b) as H.
  apply N2Z.inj_le in H. change (Z.of_N 255) with 255 in H.
  pose proof (N2Z.is_nonneg (Byte.to_N b)). lia.
Qed.

Lemma byteZ_Zbyte (z : Z) : byteZ (Zbyte z) = z mod 256.
Proof.
  unfold byteZ, Zbyte.
  pose proof (Z.mod_pos_bound z 256 ltac:(lia)) as Hm.
  destruct (Byte.of_N (Z.to_N (z mod 256))) eqn:E.
  - apply Byte.to_of_N in E. rewrite E. apply Z2N.id. lia.
  - apply Byte.of_N_None_iff in E.
    apply N2Z.inj_lt in E. rewrite Z2N.id in E by lia.
    change (Z.of_N 255) with 255 in E. lia.
Qed.

Lemma Zbyte_byteZ (b : byte) : Zbyte (byteZ b) = b.
Proof.
  unfold Zbyte. rewrite Z.mod_small by apply byteZ_range.
  unfold byteZ. rewrite N2Z.id, Byte.of_to_N. reflexivity.
Qed.

Lemma le_bytes_length (n : nat) (v : Z) : length (le_bytes n v) = n.
Proof. revert v. induction n; intros; simpl; auto. Qed.

Lemma le_value_le_bytes (n : nat) (v : Z) :
  le_value (le_bytes n v) = v mod 256 ^ Z.of_nat n.
Proof.
  revert v. induction n as [|n IH]; intros v.
  - simpl. now rewrite Z.mod_1_r.
  - cbn [le_bytes le_value]. rewrite byteZ_Zbyte, IH.
    rewrite Nat2Z.inj_succ, Z.pow_succ_r by lia.
    rewrite Z.rem_mul_r by lia. reflexivity.
Qed.

Lemma le_value_range (bs : list byte) :
  0 <= le_value bs < 256 ^ Z.of_nat (length bs).
Proof.
  induction bs as [|b r IH].
  - simpl. lia.
  - cbn [le_value length]. rewrite Nat2Z.inj_succ, Z.pow_succ_r by lia.
    pose proof (byteZ_range b). lia.
Qed.

Lemma uint32ToLittleEndianBytes_length (v : Z) :
  length (uint32ToLittleEndianBytes v) = 4%nat.
Proof. reflexivity. Qed.

Lemma littleEndianBytesToUInt32_range (b : list byte) :
  0 <= littleEndianBytesToUInt32 b < 2 ^ 32.
Proof.
  unfold littleEndianBytesToUInt32, littleEndianBytesToUInt32_on,
    getHostEndianness, object_value.
  match goal with |- _ <= le_value ?l < _ => pose proof (le_value_range l) as H end.
  exact H.
Qed.

Lemma littleEndianBytesToUInt32_le_value (b : list byte) :
  length b = 4%nat -> littleEndianBytesToUInt32 b = le_value b.
Proof.
  intros H. destruct b as [|b0 [|b1 [|b2 [|b3 [|b4 r]]]]]; try discriminate.
  reflexivity.
Qed.

Lemma UInt32_roundtrip (v : Z) :
  littleEndianBytesToUInt32 (uint32ToLittleEndianBytes v) = wrap32 v.
Proof.
  rewrite littleEndianBytesToUInt32_le_value by reflexivity.
  change (uint32ToLittleEndianBytes v) with (le_bytes 4 (wrap32 v)).
  rewrite le_value_le_bytes. change (256 ^ Z.of_nat 4) with (2 ^ 32).
  unfold wrap32. apply Z.mod_mod. lia.
Qed.

Lemma UInt32_roundtrip_small (v : Z) :
  0 <= v < 2 ^ 32 -> littleEndianBytesToUInt32 (uint32ToLittleEndianBytes v) = v.
Proof. intros H. rewrite UInt32_roundtrip. apply Z.mod_small. exact H. Qed.

(** The conversions give the same answer on a big-endian and on a
    little-endian host. *)
Lemma uint32ToLittleEndianBytes_host_independent (h : HostEndiannessType) (v : Z) :
  h <> EndiannessUndefined ->
  uint32ToLittleEndianBytes_on h v = uint32ToLittleEndianBytes v.
Proof. destruct h; intros H; [congruence | reflexivity | reflexivity]. Qed.

Lemma littleEndianBytesToUInt32_host_independent (h : HostEndiannessType)
    (b : list byte) :
  h <> EndiannessUndefined ->
  littleEndianBytesToUInt32_on h b = littleEndianBytesToUInt32 b.
Proof. destruct h; intros H; [congruence | reflexivity | reflexivity]. Qed.

Lemma uint16ToLittleEndianBytes_host_independent (h : HostEndiannessType) (v : Z) :
  h <> EndiannessUndefined ->
  uint16ToLittleEndianBytes_on h v = uint16ToLittleEndianBytes v.
Proof. destruct h; intros H; [congruence | reflexivity | reflexivity]. Qed.

Lemma littleEndianBytesToUInt16_host_independent (h : HostEndiannessType)
    (b : list byte) :
  h <> EndiannessUndefined ->
  littleEndianBytesToUInt16_on h b = littleEndianBytesToUInt16 b.
Proof. destruct h; intros H; [congruence | reflexivity | reflexivity]. Qed.

(** ** The label file: what the conversions consume *)

Lemma isnil_true {A : Type} (l : list A) : isnil l = true -> l = [].
Proof. destruct l; [reflexivity | discriminate]. Qed.

Lemma skip_space_length (s : list byte) :
  (length (skip_space s) <= length s)%nat.
Proof.
  induction s as [|b r IH]; simpl; [lia|].
  destruct (isspace b); simpl; lia.
Qed.

Lemma scan_digits_length (s : list byte) :
  forall acc n, (length (snd (scan_digits s acc n)) <= length s)%nat.
Proof.
  induction s as [|b r IH]; intros acc n; cbn [scan_digits snd length]; [lia|].
  destruct (isdigit b); cbn [snd length]; [|lia].
  specialize (IH (10 * acc + (byteZ b - 48)) (n + 1)). lia.
Qed.

Lemma scan_sign_length (s : list byte) :
  (length (snd (scan_sign s)) <= length s)%nat.
Proof.
  destruct s as [|b r]; cbn [scan_sign snd length]; [lia|].
  destruct (Byte.eqb b "-"); cbn [snd length]; [lia|].
  destruct (Byte.eqb b "+"); cbn [snd length]; lia.
Qed.

Lemma scan_float_length (s : list byte) :
  (length (snd (scan_float s)) <= length s)%nat.
Proof.
  unfold scan_float.
  pose proof (scan_sign_length s) as L1.
  destruct (scan_sign s) as [neg s1]. simpl in L1.
  pose proof (scan_digits_length s1 0 0) as L2.
  destruct (scan_digits s1 0 0) as [[m1 n1] s2]. simpl in L2.
  assert (L3 : forall m n2 s3,
             match s2 with
             | b :: r => if Byte.eqb b "." then scan_digits r m1 0 else (m1, 0, s2)
             | [] => (m1, 0, s2)
             end = (m, n2, s3) -> (length s3 <= length s2)%nat).
  { intros m n2 s3 E. destruct s2 as [|b r].
    - inversion E; subst. lia.
    - destruct (Byte.eqb b ".").
      + pose proof (scan_digits_length r m1 0) as L. rewrite E in L. simpl in *. lia.
      + inversion E; subst. lia. }
  destruct (match s2 with
            | b :: r => if Byte.eqb b "." then scan_digits r m1 0 else (m1, 0, s2)
            | [] => (m1, 0, s2)
            end) as [[m n2] s3].
  specialize (L3 m n2 s3 eq_refl).
  destruct (n1 + n2 =? 0); simpl; [lia|].
  destruct s3 as [|b r]; simpl; [lia|].
  destruct (Byte.eqb b "e" || Byte.eqb b "E"); simpl; [|simpl in *; lia].
  pose proof (scan_sign_length r) as L4.
  destruct (scan_sign r) as [eneg s4]. simpl in L4.
  pose proof (scan_digits_length s4 0 0) as L5.
  destruct (scan_digits s4 0 0) as [[e ne] s5]. simpl in L5.
  destruct (ne =? 0); simpl in *; lia.
Qed.

Lemma scan_set_length (s : list byte) :
  (length (fst (scan_set s)) + length (snd (scan_set s)) = length s)%nat.
Proof.
  induction s as [|b r IH]; simpl; [reflexivity|].
  destruct (is_eol b); simpl; [reflexivity|].
  destruct (scan_set r) as [got rest]. simpl in *. lia.
Qed.

Lemma c_string_length (buf : list byte) :
  (length (c_string buf) <= length buf)%nat.
Proof.
  induction buf as [|b r IH]; simpl; [lia|].
  destruct (Byte.eqb b x00); simpl; lia.
Qed.

Lemma c_string_idem (buf : list byte) : c_string (c_string buf) = c_string buf.
Proof.
  induction buf as [|b r IH]; cbn [c_string]; [reflexivity|].
  destruct (Byte.eqb b x00) eqn:E; cbn [c_string]; [reflexivity|].
  rewrite E, IH. reflexivity.
Qed.

Ltac fscanf_done H He :=
  inversion H; subst; clear H;
  unfold consistent, strlen, len, labelStorage in *;
  cbn [sr_file sr_labelString sr_return l_rest l_eof stopped_at isnil orb length] in *;
  try rewrite He;
  cbn [orb length] in *;
  repeat split; try lia; try discriminate; try reflexivity;
  try (intros; first [reflexivity | discriminate | lia | assumption]).

Lemma fscanf_label_props (f : LabelFILE) (r : ScanfResult) :
  l_eof f = false -> fscanf_label f = Ok r ->
  (length (l_rest (sr_file r)) <= length (l_rest f))%nat /\
  consistent (sr_file r) /\
  len (sr_labelString r) < labelStorage /\
  c_string (sr_labelString r) = sr_labelString r.
Proof.
  intros He H. unfold fscanf_label in H.
  pose proof (skip_space_length (l_rest f)) as L1.
  cbn [stopped_at l_rest l_eof] in H. rewrite He in H. cbn [orb] in H.
  destruct (skip_space (l_rest f)) as [|a0 s0] eqn:S1; cbn [isnil] in H.
  { fscanf_done H He. }
  pose proof (scan_float_length (a0 :: s0)) as L2.
  destruct (scan_float (a0 :: s0)) as [v r1]. cbn [snd] in L2.
  destruct v as [startTime|].
  2:{ destruct r1; fscanf_done H He. }
  pose proof (skip_space_length r1) as L3.
  destruct r1 as [|a1 s1];
    [cbn [isnil orb skip_space] in H; fscanf_done H He | cbn [isnil orb] in H].
  destruct (skip_space (a1 :: s1)) as [|a2 s2] eqn:S2; cbn [isnil orb] in H.
  { fscanf_done H He. }
  pose proof (scan_float_length (a2 :: s2)) as L4.
  destruct (scan_float (a2 :: s2)) as [v2 r2]. cbn [snd] in L4.
  destruct v2 as [t2|].
  2:{ destruct r2; fscanf_done H He. }
  destruct r2 as [|a3 r3]; cbn [isnil orb] in H.
  { fscanf_done H He. }
  destruct r3 as [|a4 s4]; cbn [isnil orb] in H.
  { fscanf_done H He. }
  pose proof (scan_set_length (a4 :: s4)) as L5.
  destruct (scan_set (a4 :: s4)) as [got r4]. cbn [fst snd] in L5.
  destruct got as [|g0 got]; cbn [isnil] in H.
  { fscanf_done H He. }
  destruct (labelStorage <=? len (g0 :: got)) eqn:B; [discriminate|].
  apply Z.leb_gt in B. unfold len, labelStorage in B.
  pose proof (c_string_length (g0 :: got)) as L6.
  pose proof (c_string_idem (g0 :: got)) as L7.
  remember (c_string (g0 :: got)) as cs eqn:Ecs. clear Ecs.
  cbn [length] in *.
  destruct r4 as [|a5 r5]; fscanf_done H He.
Qed.

Lemma fgetc_props (f : LabelFILE) :
  consistent f ->
  consistent (snd (fgetc f)) /\
  (length (l_rest (snd (fgetc f))) <= length (l_rest f))%nat /\
  (l_rest f <> [] ->
   (length (l_rest (snd (fgetc f))) < length (l_rest f))%nat /\
   l_eof (snd (fgetc f)) = false).
Proof.
  unfold consistent, fgetc. intros C.
  destruct (l_rest f) as [|b r] eqn:E; cbn [snd l_rest l_eof length].
  - repeat split; auto; try congruence; try lia.
  - repeat split; try lia.
    + intros Hx. specialize (C Hx). discriminate.
    + destruct (l_eof f); [specialize (C eq_refl); discriminate | reflexivity].
Qed.

(** [if (nextChar == '\r') { peek; unget unless EOF or '\n' }] *)
Lemma peek_props (g : LabelFILE) :
  consistent g ->
  let '(peekAheadChar, g') := fgetc g in
  let h := if negb (peekAheadChar =? EOF) && negb (peekAheadChar =? 10)
           then ungetc peekAheadChar g' else g' in
  consistent h /\ (length (l_rest h) <= length (l_rest g))%nat.
Proof.
  intros C. unfold fgetc.
  destruct (l_rest g) as [|b r] eqn:E.
  - cbn. unfold consistent. cbn. auto.
  - destruct (negb (byteZ b =? EOF) && negb (byteZ b =? 10)).
    + unfold consistent, ungetc. cbn. split; [discriminate | lia].
    + unfold consistent in *. cbn [l_rest l_eof length]. split; [|lia].
      intros Hx. specialize (C Hx). congruence.
Qed.

Lemma skipLineEnd_progress (g : LabelFILE) :
  consistent g ->
  let g' := skipLineEnd g in
  l_eof g' = true \/ (length (l_rest g') < length (l_rest g))%nat.
Proof.
  intros C. unfold skipLineEnd.
  destruct (fgetc_props g C) as (C1 & L1 & P1).
  destruct (fgetc g) as [nextChar f1] eqn:E1. cbn [snd] in *.
  set (f2 := if nextChar =? 13
             then let '(peekAheadChar, g0) := fgetc f1 in
                  if negb (peekAheadChar =? EOF) && negb (peekAheadChar =? 10)
                  then ungetc peekAheadChar g0 else g0
             else f1).
  assert (H2 : consistent f2 /\ (length (l_rest f2) <= length (l_rest f1))%nat).
  { subst f2. destruct (nextChar =? 13).
    - pose proof (peek_props f1 C1) as P. destruct (fgetc f1). exact P.
    - split; [exact C1 | lia]. }
  destruct H2 as (C2 & L2).
  destruct (fgetc_props f2 C2) as (C3 & L3 & P3).
  destruct (fgetc f2) as [nextChar' f3] eqn:E3. cbn [snd] in *.
  unfold feof_label.
  destruct (l_eof f3) eqn:Ef3; cbn [negb].
  - left. exact Ef3.
  - right.
    assert (N2 : l_rest f2 <> []).
    { intros N. unfold fgetc in E3. rewrite N in E3. inversion E3; subst.
      discriminate. }
    assert (N0 : l_rest g <> []).
    { intros N. unfold fgetc in E1. rewrite N in E1. inversion E1; subst.
      cbn [l_rest length] in L2. apply N2.
      destruct (l_rest f2); [reflexivity | cbn [length] in L2; lia]. }
    destruct (P1 N0) as (Q1 & _). destruct (P3 N2) as (Q3 & _).
    destruct (nextChar' =? 13).
    + pose proof (peek_props f3 C3) as P. destruct (fgetc f3) as [pc g0].
      destruct P as (_ & L4). lia.
    + unfold ungetc. cbn [l_rest length]. lia.
Qed.

Lemma readLabelFile_body_progress (fc : FormatChunk) (f f' : LabelFILE)
    (li li' : LabelInfo) :
  l_eof f = false ->
  readLabelFile_body fc (f, li) = Ok (f', li') ->
  l_eof f' = true \/ (length (l_rest f') < length (l_rest f))%nat.
Proof.
  intros He H. unfold readLabelFile_body in H.
  destruct (fscanf_label f) as [r| |] eqn:E; try discriminate.
  destruct (fscanf_label_props f r He E) as (L & C & _ & _).
  destruct (if negb (sr_return r =? 2) then Ok li
            else storeLabel fc li (sr_startTime r) (sr_labelString r))
    as [li2| |]; try discriminate.
  inversion H; subst.
  pose proof (skipLineEnd_progress (sr_file r) C) as P. cbv zeta in P.
  destruct P as [P|P]; [left; exact P | right; lia].
Qed.

(** The loop of [readLabelFile] ends: the fuel given by [readLabelFile] is
    never used up. *)
Lemma readLabelFile_loop_fuel (fc : FormatChunk) :
  forall fuel f li,
    (length (l_rest f) < fuel)%nat ->
    readLabelFile_loop fuel fc f li <> OutOfFuel.
Proof.
  induction fuel as [|fuel IH]; intros f li Hf; [lia|].
  cbn [readLabelFile_loop]. unfold feof_label.
  destruct (l_eof f) eqn:He; [discriminate|].
  destruct (readLabelFile_body fc (f, li)) as [[f' li']| |] eqn:B.
  - destruct (readLabelFile_body_progress fc f f' li li' He B) as [P|P].
    + destruct fuel; cbn [readLabelFile_loop]; unfold feof_label; rewrite P;
        discriminate.
    + apply IH. lia.
  - discriminate.
  - unfold readLabelFile_body in B.
    destruct (fscanf_label f) as [r| |] eqn:E; try discriminate.
    + destruct (if negb (sr_return r =? 2) then Ok li
                else storeLabel fc li (sr_startTime r) (sr_labelString r))
        as [li2| |] eqn:S; try discriminate.
      destruct (negb (sr_return r =? 2)); [discriminate|].
      unfold storeLabel in S.
      destruct (f32_leb _ _); [|discriminate].
      destruct (_ <? _); [|discriminate].
      destruct (timeToIndex _ _); discriminate.
    + unfold fscanf_label in E.
      repeat match type of E with
             | context [match ?x with _ => _ end] => destruct x; try discriminate
             | context [if ?x then _ else _] => destruct x; try discriminate
             end.
Qed.

Lemma readLabelFile_total (f : LabelFILE) (fc : FormatChunk) :
  readLabelFile f fc <> OutOfFuel.
Proof. unfold readLabelFile. apply readLabelFile_loop_fuel. lia. Qed.

(** ** The table of labels *)

Lemma upd_length {A : Type} (i : nat) (v : A) (l : list A) :
  length (upd i v l) = length l.
Proof.
  revert i. induction l as [|h t IH]; intros [|i]; cbn [upd length]; auto.
Qed.

Lemma nth_upd_eq {A : Type} (i : nat) (v d : A) (l : list A) :
  (i < length l)%nat -> nth i (upd i v l) d = v.
Proof.
  revert i. induction l as [|h t IH]; intros [|i] H; cbn [upd nth length] in *;
    try lia; auto. apply IH. lia.
Qed.

Lemma nth_upd_neq {A : Type} (i j : nat) (v d : A) (l : list A) :
  i <> j -> nth j (upd i v l) d = nth j l d.
Proof.
  revert i j. induction l as [|h t IH]; intros [|i] [|j] H;
    cbn [upd nth]; try congruence; auto.
Qed.

Lemma Forall_upd {A : Type} (P : A -> Prop) (i : nat) (v : A) (l : list A) :
  P v -> Forall P l -> Forall P (upd i v l).
Proof.
  intros Hv. revert i. induction l as [|h t IH]; intros [|i] H; cbn [upd];
    inversion H; subst; constructor; auto.
Qed.

Lemma f32_to_uint32_range (x : float) (t : Z) :
  f32_to_uint32 x = Some t -> 0 <= t < 2 ^ 32.
Proof.
  unfold f32_to_uint32. destruct x as [s|s| |s m e]; try discriminate.
  - intros H. inversion H. lia.
  - cbv zeta.
    set (v := if s then - (if 0 <=? e then Z.pos m * 2 ^ e else Z.pos m / 2 ^ (- e))
              else if 0 <=? e then Z.pos m * 2 ^ e else Z.pos m / 2 ^ (- e)).
    destruct ((0 <=? v) && (v <? 2 ^ 32)) eqn:E; [|discriminate].
    intros H. inversion H; subst. apply andb_prop in E.
    destruct E as [E1 E2]. apply Z.leb_le in E1. apply Z.ltb_lt in E2. lia.
Qed.

Lemma c_string_app_nul (s t : list byte) :
  c_string s = s -> c_string (s ++ x00 :: t) = s.
Proof.
  induction s as [|b r IH]; intros H.
  - reflexivity.
  - cbn [c_string app] in *. destruct (Byte.eqb b x00); [discriminate|].
    inversion H as [H1]. rewrite H1. rewrite (IH H1). reflexivity.
Qed.

Lemma slice_0_app {A : Type} (a b : list A) (n : Z) :
  n = len a -> slice (a ++ b) 0 n = a.
Proof.
  intros ->. rewrite ?slice_plain; unfold len. cbn [Z.to_nat skipn]. rewrite Nat2Z.id.
  rewrite firstn_app, Nat.sub_diag, firstn_all. cbn [firstn]. apply app_nil_r.
Qed.

Lemma strcpy_props (dst src : list byte) :
  length dst = 500%nat -> (length src < 500)%nat -> c_string src = src ->
  length (strcpy dst src) = 500%nat /\
  c_string (strcpy dst src) = src /\
  slice (strcpy dst src) 0 (strlen src + 1) = src ++ [x00].
Proof.
  intros Hd Hs Hc. unfold strcpy. repeat split.
  - rewrite length_app. cbn [length]. rewrite length_skipn. lia.
  - apply c_string_app_nul. exact Hc.
  - change (src ++ x00 :: skipn (S (length src)) dst)
      with (src ++ [x00] ++ skipn (S (length src)) dst).
    rewrite app_assoc. apply slice_0_app.
    unfold strlen, len. rewrite length_app. cbn [length]. lia.
Qed.

Lemma labelInfo_init_wf : LabelInfo_wf labelInfo_init.
Proof.
  unfold LabelInfo_wf, labelInfo_init, maxLabels.
  cbn [count locations labels labelLengths].
  repeat split; try lia; try (apply repeat_length).
  apply Forall_forall. intros row H. apply repeat_spec in H. subst.
  apply repeat_length.
Qed.

Lemma storeLabel_wf (fc : FormatChunk) (li li' : LabelInfo) (t : float)
    (s : list byte) :
  LabelInfo_wf li -> len s < labelStorage -> c_string s = s ->
  storeLabel fc li t s = Ok li' ->
  LabelInfo_wf li' /\ (count li' = count li \/ count li' = count li + 1).
Proof.
  intros (Hc & Hl1 & Hl2 & Hl3 & Hrows & Hent) Hs Hn H.
  unfold storeLabel in H.
  destruct (f32_leb t (f32_of_Z 48660)).
  2:{ inversion H; subst. split; [|left; reflexivity].
      unfold LabelInfo_wf. auto 10. }
  destruct (count li <? maxLabels) eqn:Eb; [|discriminate].
  apply Z.ltb_lt in Eb.
  destruct (timeToIndex t fc) as [index|] eqn:Et; [|discriminate].
  inversion H; subst; clear H.
  unfold maxLabels, labelStorage, len in *.
  assert (Hi : (Z.to_nat (count li) < 500)%nat) by lia.
  assert (Hrow : length (nth (Z.to_nat (count li)) (labels li) []) = 500%nat).
  { rewrite Forall_forall in Hrows. apply Hrows. apply nth_In. lia. }
  destruct (strcpy_props (nth (Z.to_nat (count li)) (labels li) []) s Hrow
              ltac:(lia) Hn) as (P1 & P2 & P3).
  split; [|right; reflexivity].
  unfold LabelInfo_wf. cbn [count locations labels labelLengths].
  rewrite !upd_length.
  split; [unfold maxLabels; lia|].
  do 3 (split; [assumption|]).
  split; [apply Forall_upd; assumption|].
  intros i Hi'. unfold nthZ.
  destruct (Z.eq_dec i (count li)) as [->|Ne].
  - rewrite !nth_upd_eq by lia.
    split; [unfold strlen, len, labelStorage; lia|].
    split; [unfold timeToIndex in Et; apply f32_to_uint32_range in Et; lia|].
    rewrite P2. exact P3.
  - rewrite !nth_upd_neq by lia. apply Hent. lia.
Qed.

Lemma readLabelFile_body_wf (fc : FormatChunk) (f f' : LabelFILE)
    (li li' : LabelInfo) :
  l_eof f = false -> LabelInfo_wf li ->
  readLabelFile_body fc (f, li) = Ok (f', li') -> LabelInfo_wf li'.
Proof.
  intros He W H. unfold readLabelFile_body in H.
  destruct (fscanf_label f) as [r| |] eqn:E; try discriminate.
  destruct (fscanf_label_props f r He E) as (_ & _ & Hs & Hn).
  destruct (negb (sr_return r =? 2)).
  - inversion H; subst. exact W.
  - destruct (storeLabel fc li (sr_startTime r) (sr_labelString r))
      as [li2| |] eqn:S; try discriminate.
    inversion H; subst.
    apply (storeLabel_wf fc li li' _ _ W Hs Hn S).
Qed.

Lemma readLabelFile_loop_wf (fc : FormatChunk) :
  forall fuel f li li',
    LabelInfo_wf li ->
    readLabelFile_loop fuel fc f li = Ok li' -> LabelInfo_wf li'.
Proof.
  induction fuel as [|fuel IH]; intros f li li' W H;
    cbn [readLabelFile_loop] in H; unfold feof_label in H;
    destruct (l_eof f) eqn:He.
  - inversion H; subst; exact W.
  - discriminate.
  - inversion H; subst; exact W.
  - destruct (readLabelFile_body fc (f, li)) as [[f2 li2]| |] eqn:B;
      try discriminate.
    apply (IH f2 li2 li'); [|exact H].
    apply (readLabelFile_body_wf fc f f2 li li2 He W B).
Qed.

Lemma readLabelFile_wf (f : LabelFILE) (fc : FormatChunk) (li : LabelInfo) :
  readLabelFile f fc = Ok li -> LabelInfo_wf li.
Proof.
  unfold readLabelFile. apply readLabelFile_loop_wf. apply labelInfo_init_wf.
Qed.

(** ** The synthesized chunks *)

Lemma mod2_wrap64 (z : Z) : wrap64 z mod 2 = z mod 2.
Proof.
  unfold wrap64. apply Z.mod_mod_divide. exists (2 ^ 63). reflexivity.
Qed.

Lemma odd_pad_cases (n : Z) :
  (n mod 2 = 0 /\ odd_pad n = 0) \/ (n mod 2 = 1 /\ odd_pad n = 1).
Proof.
  unfold odd_pad. pose proof (Z.mod_pos_bound n 2 ltac:(lia)).
  destruct (n mod 2 =? 0) eqn:E; [apply Z.eqb_eq in E | apply Z.eqb_neq in E];
    [left | right]; lia.
Qed.

Lemma padded_even (n : Z) : (n + odd_pad n) mod 2 = 0.
Proof.
  destruct (odd_pad_cases n) as [[H1 H2]|[H1 H2]]; rewrite H2.
  - rewrite Z.add_0_r. exact H1.
  - rewrite Z.add_mod, H1 by lia. reflexivity.
Qed.

Lemma listChunkSize_step_even (li : LabelInfo) (acc i : Z) :
  acc mod 2 = 0 -> listChunkSize_step li acc i mod 2 = 0.
Proof.
  intros Ha. unfold listChunkSize_step.
  set (l := nthZ i (labelLengths li) 0).
  pose proof (Z.mod_pos_bound l 2 ltac:(lia)) as Hb.
  destruct (l mod 2 =? 0) eqn:E; cbn [negb];
    [apply Z.eqb_eq in E | apply Z.eqb_neq in E]; rewrite !mod2_wrap64.
  - rewrite Z.add_mod, Ha by lia. rewrite (Z.add_mod 12 l), E by lia. reflexivity.
  - rewrite Z.add_mod by lia. rewrite mod2_wrap64.
    rewrite (Z.add_mod acc), Ha by lia. rewrite (Z.add_mod 12 l) by lia.
    replace (l mod 2) with 1 by lia. reflexivity.
Qed.

(** The size the first loop computes is even, whatever the table holds. *)
Lemma compute_listChunkSize_even (li : LabelInfo) :
  compute_listChunkSize li mod 2 = 0.
Proof.
  unfold compute_listChunkSize.
  assert (G : forall ixs acc, acc mod 2 = 0 ->
                fold_left (listChunkSize_step li) ixs acc mod 2 = 0).
  { induction ixs as [|i r IH]; intros acc Ha; cbn [fold_left]; [exact Ha|].
    apply IH. apply listChunkSize_step_even. exact Ha. }
  apply G. reflexivity.
Qed.

Lemma In_indices (n i : Z) : In i (indices n) <-> 0 <= i < n.
Proof.
  unfold indices. rewrite in_map_iff. split.
  - intros (k & <- & H). apply in_seq in H. lia.
  - intros H. exists (Z.to_nat i). split; [lia|]. apply in_seq. lia.
Qed.

Lemma indices_length (n : Z) : len (indices n) = Z.max 0 n.
Proof. unfold indices, len. rewrite length_map, length_seq. lia. Qed.

Lemma nthZ_map_indices {A : Type} (f : Z -> A) (n i : Z) (d : A) :
  0 <= i < n -> nthZ i (map f (indices n)) d = f i.
Proof.
  intros H. unfold nthZ, indices. rewrite map_map.
  rewrite nth_indep with (d' := f (Z.of_nat 0))
    by (rewrite length_map, length_seq; lia).
  rewrite (map_nth (fun k => f (Z.of_nat k)) (seq 0 (Z.to_nat n)) 0%nat).
  rewrite seq_nth by lia. f_equal. lia.
Qed.

Lemma slice_length {A : Type} (l : list A) (off n : Z) :
  0 <= off -> 0 <= n -> off + n <= len l -> len (slice l off n) = n.
Proof.
  intros H1 H2 H3. rewrite ?slice_plain in *; unfold len in *.
  rewrite length_firstn, length_skipn. lia.
Qed.

Lemma wf_row_length (li : LabelInfo) (i : Z) :
  LabelInfo_wf li -> 0 <= i < count li ->
  len (nthZ i (labels li) []) = 500.
Proof.
  intros (Hc & _ & Hl & _ & Hrows & _) Hi. unfold nthZ, len.
  rewrite Forall_forall in Hrows. rewrite (Hrows (nth (Z.to_nat i) (labels li) [])).
  - reflexivity.
  - apply nth_In. unfold maxLabels in Hc. lia.
Qed.

Lemma makeLabelChunk_length (li : LabelInfo) (cp : CuePoint) (i : Z) :
  LabelInfo_wf li -> 0 <= i < count li -> length (cuePointID cp) = 4%nat ->
  len (makeLabelChunk li cp i) = recordLength li i.
Proof.
  intros W Hi Hcp. pose proof (wf_row_length li i W Hi) as Hr.
  destruct W as (_ & _ & _ & _ & _ & Hent). destruct (Hent i Hi) as (Hl & _ & _).
  unfold labelStorage in Hl.
  unfold makeLabelChunk, recordLength. cbv zeta.
  set (l := nthZ i (labelLengths li) 0) in *.
  pose proof (slice_length (nthZ i (labels li) []) 0 l ltac:(lia) ltac:(lia)
                ltac:(lia)) as Hs.
  unfold len in *. rewrite !length_app, Hcp, uint32ToLittleEndianBytes_length.
  change (length (bytes "labl")) with 4%nat.
  unfold odd_pad. destruct (l mod 2 =? 0); cbn [negb length]; lia.
Qed.

Lemma fold_listChunkSize (li : LabelInfo) :
  LabelInfo_wf li ->
  forall ixs acc,
    (forall i, In i ixs -> 0 <= i < count li) ->
    0 <= acc -> acc + 513 * len ixs < 2 ^ 64 ->
    fold_left (listChunkSize_step li) ixs acc =
    acc + Zsum (map (recordLength li) ixs).
Proof.
  intros W. induction ixs as [|i r IH]; intros acc Hin Ha Hb.
  - cbn. lia.
  - cbn [fold_left map Zsum fold_right].
    assert (Hi : 0 <= i < count li) by (apply Hin; left; reflexivity).
    destruct W as (_ & _ & _ & _ & _ & Hent). destruct (Hent i Hi) as (Hl & _ & _).
    unfold labelStorage in Hl.
    assert (Hstep : listChunkSize_step li acc i = acc + recordLength li i).
    { unfold listChunkSize_step, recordLength, odd_pad, wrap64.
      set (l := nthZ i (labelLengths li) 0) in *.
      unfold len in Hb. cbn [length] in Hb.
      rewrite (Z.mod_small (acc + (12 + l))) by lia.
      destruct (l mod 2 =? 0); cbn [negb]; rewrite ?Z.mod_small by lia; lia. }
    rewrite Hstep.
    assert (Hrl : 12 <= recordLength li i <= 513).
    { unfold recordLength. destruct (odd_pad_cases (nthZ i (labelLengths li) 0))
        as [[_ E]|[_ E]]; rewrite E; lia. }
    unfold len in Hb. cbn [length] in Hb.
    rewrite IH.
    + change (Zsum (map (recordLength li) r))
        with (fold_right Z.add 0 (map (recordLength li) r)). lia.
    + intros j Hj. apply Hin. right. exact Hj.
    + lia.
    + unfold len. lia.
Qed.

Lemma compute_listChunkSize_sum (li : LabelInfo) :
  LabelInfo_wf li ->
  compute_listChunkSize li = Zsum (map (recordLength li) (indices (count li))).
Proof.
  intros W. unfold compute_listChunkSize.
  rewrite (fold_listChunkSize li W).
  - lia.
  - intros i Hi. apply In_indices. exact Hi.
  - lia.
  - rewrite indices_length. destruct W as (Hc & _). unfold maxLabels in Hc. lia.
Qed.

Lemma makeCuePoint_id_length (li : LabelInfo) (i : Z) :
  length (cuePointID (makeCuePoint li i)) = 4%nat.
Proof. reflexivity. Qed.

Lemma fill_labelChunks_length (li : LabelInfo) :
  LabelInfo_wf li ->
  len (fill_labelChunks li) = compute_listChunkSize li.
Proof.
  intros W. rewrite (compute_listChunkSize_sum li W). unfold fill_labelChunks.
  assert (G : forall ixs, (forall i, In i ixs -> 0 <= i < count li) ->
     len (flat_map (fun i => makeLabelChunk li (makeCuePoint li i) i) ixs) =
     Zsum (map (recordLength li) ixs)).
  { induction ixs as [|i r IH]; intros Hin; [reflexivity|].
    cbn [flat_map map Zsum fold_right]. unfold len in *. rewrite length_app.
    rewrite Nat2Z.inj_add. rewrite IH by (intros j Hj; apply Hin; right; exact Hj).
    pose proof (makeLabelChunk_length li (makeCuePoint li i) i W
                  (Hin i (or_introl eq_refl)) (makeCuePoint_id_length li i)) as E.
    unfold len in E. rewrite E. reflexivity. }
  apply G. intros i Hi. apply In_indices. exact Hi.
Qed.

(** *** Reading the list body back *)

Lemma slice_app_skip {A : Type} (a r : list A) (off n : Z) :
  len a <= off -> slice (a ++ r) off n = slice r (off - len a) n.
Proof.
  intros H. rewrite ?slice_plain in *; unfold len in *. f_equal.
  rewrite skipn_app.
  rewrite skipn_all2 by lia. cbn [app]. f_equal. lia.
Qed.

Lemma slice_app_take {A : Type} (a r : list A) (n : Z) :
  n = len a -> slice (a ++ r) 0 n = a.
Proof. apply slice_0_app. Qed.

Lemma skipn_app_exact {A : Type} (a r : list A) (n : nat) :
  n = length a -> skipn n (a ++ r) = r.
Proof.
  intros ->. rewrite skipn_app, skipn_all, Nat.sub_diag. reflexivity.
Qed.

Lemma odd_pad_add4 (l : Z) : odd_pad (l + 4) = odd_pad l.
Proof.
  unfold odd_pad. replace ((l + 4) mod 2) with (l mod 2); [reflexivity|].
  rewrite (Z.add_mod l 4) by lia. change (4 mod 2) with 0.
  rewrite Z.add_0_r, Z.mod_mod by lia. reflexivity.
Qed.

Lemma parse_labl_fill (li : LabelInfo) :
  LabelInfo_wf li ->
  forall ixs fuel,
    (forall i, In i ixs -> 0 <= i < count li) ->
    (length ixs <= fuel)%nat ->
    parse_labl fuel
      (flat_map (fun i => makeLabelChunk li (makeCuePoint li i) i) ixs) =
    map (expected_labl li) ixs.
Proof.
  intros W. induction ixs as [|i r IH]; intros fuel Hin Hf.
  - destruct fuel; reflexivity.
  - destruct fuel as [|fuel]; [cbn [length] in Hf; lia|].
    assert (Hi : 0 <= i < count li) by (apply Hin; left; reflexivity).
    pose proof (wf_row_length li i W Hi) as Hr.
    pose proof W as (Hc & _ & _ & _ & _ & Hent).
    destruct (Hent i Hi) as (Hl & _ & Htxt).
    unfold labelStorage, maxLabels in *.
    cbn [flat_map map].
    set (tail := flat_map (fun i => makeLabelChunk li (makeCuePoint li i) i) r).
    unfold makeLabelChunk. cbv zeta.
    set (l := nthZ i (labelLengths li) 0) in *.
    set (text := slice (nthZ i (labels li) []) 0 l) in *.
    set (pad := if negb (l mod 2 =? 0) then [x00] else []).
    assert (Htl : len text = l)
      by (apply slice_length; lia).
    assert (Hpl : len pad = odd_pad l)
      by (unfold pad, odd_pad; destruct (l mod 2 =? 0); reflexivity).
    cbn [makeCuePoint cuePointID].
    rewrite <- !app_assoc.
    set (a1 := bytes "labl").
    set (a2 := uint32ToLittleEndianBytes (l + 4)).
    set (a3 := uint32ToLittleEndianBytes (i + 1)).
    assert (E1 : slice (a1 ++ a2 ++ a3 ++ text ++ pad ++ tail) 0 4 = a1)
      by (apply slice_app_take; reflexivity).
    assert (E2 : slice (a1 ++ a2 ++ a3 ++ text ++ pad ++ tail) 4 4 = a2).
    { rewrite slice_app_skip by (unfold len; cbn; lia).
      apply slice_app_take. reflexivity. }
    assert (E3 : slice (a1 ++ a2 ++ a3 ++ text ++ pad ++ tail) 8 4 = a3).
    { rewrite slice_app_skip by (unfold len; cbn; lia).
      rewrite slice_app_skip by (unfold len; cbn; lia).
      apply slice_app_take. reflexivity. }
    assert (E4 : slice (a1 ++ a2 ++ a3 ++ text ++ pad ++ tail) 12 l = text).
    { rewrite slice_app_skip by (unfold len; cbn; lia).
      rewrite slice_app_skip by (unfold len; cbn; lia).
      rewrite slice_app_skip by (unfold len; cbn; lia).
      apply slice_app_take. unfold len in *. cbn. lia. }
    assert (E5 : skipn (Z.to_nat (8 + (l + 4) + odd_pad (l + 4)))
                   (a1 ++ a2 ++ a3 ++ text ++ pad ++ tail) = tail).
    { rewrite odd_pad_add4.
      rewrite (app_assoc a1), (app_assoc (a1 ++ a2)),
        (app_assoc ((a1 ++ a2) ++ a3)), (app_assoc (((a1 ++ a2) ++ a3) ++ text)).
      apply skipn_app_exact. unfold len in *. rewrite !length_app.
      change (length a1) with 4%nat. change (length a2) with 4%nat.
      change (length a3) with 4%nat. lia. }
    assert (Hne : a1 ++ a2 ++ a3 ++ text ++ pad ++ tail <> []) by discriminate.
    cbn [parse_labl].
    destruct (a1 ++ a2 ++ a3 ++ text ++ pad ++ tail) as [|b0 b] eqn:Eb;
      [congruence|].
    rewrite E2. unfold a2. rewrite !UInt32_roundtrip_small by lia.
    rewrite E5. rewrite IH;
      [|intros j Hj; apply Hin; right; exact Hj | cbn [length] in Hf; lia].
    f_equal. unfold expected_labl. fold l.
    rewrite E1, E3. replace (l + 4 - 4) with l by lia. rewrite E4.
    unfold a3. rewrite UInt32_roundtrip_small by lia.
    rewrite Htxt. reflexivity.
Qed.

(** ** The total size written into the header *)

Lemma wrap32_add_l (a b : Z) : wrap32 (wrap32 a + b) = wrap32 (a + b).
Proof. unfold wrap32. apply Zplus_mod_idemp_l. Qed.

Lemma wrap32_addOdd (a sz : Z) :
  (if negb (sz mod 2 =? 0) then wrap32 (wrap32 a + 1) else wrap32 a) =
  wrap32 (a + odd_pad sz).
Proof.
  unfold odd_pad. destruct (sz mod 2 =? 0); cbn [negb].
  - now rewrite Z.add_0_r.
  - apply wrap32_add_l.
Qed.

Lemma fold_others_size (cs : list ChunkLocation) :
  forall a,
    fold_left (fun s c => if negb (size c mod 2 =? 0)
                          then wrap32 (wrap32 (s + size c) + 1)
                          else wrap32 (s + size c)) cs (wrap32 a) =
    wrap32 (a + others_total cs).
Proof.
  induction cs as [|c r IH]; intros a; cbn [fold_left others_total fold_right].
  - now rewrite Z.add_0_r.
  - replace (if negb (size c mod 2 =? 0)
             then wrap32 (wrap32 (wrap32 a + size c) + 1)
             else wrap32 (wrap32 a + size c))
      with (wrap32 (a + size c + odd_pad (size c))).
    + rewrite IH. f_equal.
      change (fold_right (fun c0 acc => size c0 + odd_pad (size c0) + acc) 0 r)
        with (others_total r). lia.
    + rewrite !(wrap32_add_l a). symmetry. apply wrap32_addOdd.
Qed.

(** The sum [writeOutputFile] accumulates in a [uint32_t] is the sum of its
    terms reduced modulo 2^32; it has no term for a pad after the list
    body. *)
Lemma compute_fileDataSize_eq (extra data : ChunkLocation) (n : Z)
    (others : list ChunkLocation) (li : LabelInfo) (L : Z) :
  compute_fileDataSize extra data n others li L =
  wrap32 (4 + 8 + 16 + size extra + odd_pad (size extra) +
          size data + odd_pad (size data) +
          others_total (firstn (Z.to_nat n) others) +
          12 + 24 * count li + 12 + L).
Proof.
  unfold compute_fileDataSize, sizeof_FormatChunk, sizeof_CuePoint. cbv zeta.
  change (wrap32 (0 + 4)) with (wrap32 4).
  rewrite (wrap32_add_l 4), (wrap32_add_l (4 + 24)).
  rewrite (wrap32_addOdd (4 + 24 + size extra) (size extra)).
  rewrite (wrap32_add_l (4 + 24 + size extra + odd_pad (size extra))).
  rewrite (wrap32_addOdd (4 + 24 + size extra + odd_pad (size extra) + size data)
             (size data)).
  rewrite fold_others_size.
  repeat (rewrite <- ?Z.add_assoc; rewrite wrap32_add_l).
  f_equal. lia.
Qed.

Lemma Zsum_recordLength_lower (li : LabelInfo) (ixs : list Z) :
  LabelInfo_wf li -> (forall i, In i ixs -> 0 <= i < count li) ->
  12 * len ixs <= Zsum (map (recordLength li) ixs).
Proof.
  intros W. induction ixs as [|i r IH]; intros Hin.
  - cbn. lia.
  - cbn [map Zsum fold_right]. unfold len in *. cbn [length].
    specialize (IH (fun j Hj => Hin j (or_intror Hj))).
    change (fold_right Z.add 0 (map (recordLength li) r))
      with (Zsum (map (recordLength li) r)).
    destruct W as (_ & _ & _ & _ & _ & Hent).
    destruct (Hent i (Hin i (or_introl eq_refl))) as (Hl & _).
    set (rest := Zsum (map (recordLength li) r)) in *.
    unfold recordLength, labelStorage in *.
    destruct (odd_pad_cases (nthZ i (labelLengths li) 0)) as [[_ E]|[_ E]];
      rewrite E; lia.
Qed.

Lemma lablRecords_fill (li : LabelInfo) :
  LabelInfo_wf li ->
  lablRecords (fill_labelChunks li) = map (expected_labl li) (indices (count li)).
Proof.
  intros W. unfold lablRecords, fill_labelChunks.
  apply (parse_labl_fill li W).
  - intros i Hi. apply In_indices. exact Hi.
  - pose proof (fill_labelChunks_length li W) as E.
    rewrite (compute_listChunkSize_sum li W) in E.
    pose proof (Zsum_recordLength_lower li (indices (count li)) W
                  (fun i Hi => proj1 (In_indices _ _) Hi)) as Lb.
    unfold fill_labelChunks, len in *. lia.
Qed.

(** ** The scan set and the end of the loop *)

Lemma scan_set_app (text : list byte) (e : byte) (tail : list byte) :
  forallb (fun b => negb (is_eol b)) text = true -> is_eol e = true ->
  scan_set (text ++ e :: tail) = (text, e :: tail).
Proof.
  intros Ht He. induction text as [|b r IH]; cbn [app scan_set].
  - rewrite He. reflexivity.
  - cbn [forallb] in Ht. apply andb_prop in Ht. destruct Ht as [Hb Hr].
    apply negb_true_iff in Hb. rewrite Hb, (IH Hr). reflexivity.
Qed.

Lemma readLabelFile_loop_eof (fuel : nat) (fc : FormatChunk) (f : LabelFILE)
    (li : LabelInfo) :
  l_eof f = true -> readLabelFile_loop fuel fc f li = Ok li.
Proof. intros H. destruct fuel; cbn [readLabelFile_loop]; unfold feof_label; rewrite H; reflexivity. Qed.


(** ** Streams *)

Lemma len_nonneg {A : Type} (l : list A) : 0 <= len l.
Proof. unfold len. lia. Qed.

Lemma slice_full_length {A : Type} (l : list A) (off n : Z) :
  0 <= off -> 0 <= n -> len (slice l off n) = Z.min n (Z.max 0 (len l - off)).
Proof.
  intros H1 H2. rewrite ?slice_plain; unfold len. rewrite length_firstn, length_skipn. lia.
Qed.

Lemma slice_consecutive {A : Type} (l : list A) (p a b : Z) :
  0 <= p -> 0 <= a -> 0 <= b ->
  slice l p a ++ slice l (p + a) b = slice l p (a + b).
Proof.
  intros Hp Ha Hb. rewrite ?slice_plain.
  replace (Z.to_nat (p + a)) with (Z.to_nat a + Z.to_nat p)%nat by lia.
  rewrite <- skipn_skipn.
  replace (Z.to_nat (a + b)) with (Z.to_nat a + Z.to_nat b)%nat by lia.
  set (m := skipn (Z.to_nat p) l).
  rewrite <- (firstn_skipn (Z.to_nat a) m) at 3.
  rewrite firstn_app, length_firstn.
  destruct (Nat.le_gt_cases (Z.to_nat a) (length m)) as [Hle|Hgt].
  - rewrite Nat.min_l by exact Hle.
    rewrite firstn_firstn.
    replace (Nat.min (Z.to_nat a + Z.to_nat b) (Z.to_nat a)) with (Z.to_nat a) by lia.
    f_equal. f_equal. lia.
  - rewrite Nat.min_r by lia.
    rewrite (skipn_all2 m) by lia. rewrite !firstn_nil.
    rewrite firstn_firstn. rewrite app_nil_r.
    replace (Nat.min (Z.to_nat a + Z.to_nat b) (Z.to_nat a)) with (Z.to_nat a) by lia.
    rewrite ?app_nil_r. reflexivity.
Qed.

Lemma uninit_length (indet : nat -> byte) (n : Z) :
  len (uninit indet n) = Z.max 0 n.
Proof. unfold uninit, len. rewrite length_map, length_seq. lia. Qed.

Section Fread.

Variable data : list byte.
Variable ptr : list byte.
Variable f : FILE.
Hypothesis Hinv : FILE_inv data f.

Let buf := fst (fread ptr f).
Let f' := snd (fread ptr f).

Lemma fread_inv : FILE_inv data f'.
Proof.
  destruct Hinv as (Hd & Hp & He).
  pose proof (len_nonneg ptr) as Hn. pose proof (len_nonneg data) as Hn'. subst f'. unfold FILE_inv, fread.
  cbn [snd f_data f_pos f_eof]. rewrite Hd.
  split; [reflexivity|]. split; [lia|].
  intros H. apply orb_true_iff in H. destruct H as [H|H].
  - specialize (He H). lia.
  - apply andb_prop in H. destruct H as [_ H]. apply Z.leb_le in H. exact H.
Qed.

Lemma fread_same : f_data f' = f_data f /\ f_bad f' = f_bad f.
Proof. split; reflexivity. Qed.

Lemma fread_length : length buf = length ptr.
Proof.
  destruct Hinv as (Hd & Hp & He).
  pose proof (len_nonneg ptr) as Hn. pose proof (len_nonneg data) as Hn'. subst buf. unfold fread. cbn [fst].
  set (k := Z.max 0 (Z.min (len ptr) (f_limit f - f_pos f))).
  assert (Hk : 0 <= k <= len ptr) by (unfold k; lia).
  assert (Hk2 : k <= Z.max 0 (len (f_data f) - f_pos f)).
  { unfold k, f_limit. destruct (f_bad f); lia. }
  pose proof (slice_full_length (f_data f) (f_pos f) k Hp ltac:(lia)) as Hs.
  unfold len in *. rewrite length_app, length_skipn. lia.
Qed.

Lemma fread_pos : f_pos f <= f_pos f' <= f_pos f + len ptr.
Proof.
  pose proof (len_nonneg ptr). subst f'. unfold fread. cbn [snd f_pos]. lia.
Qed.

(** A read that leaves both indicators down delivered all its bytes. *)
Lemma fread_full :
  0 < len ptr ->
  f_eof f' = false -> f_err f' = false ->
  f_pos f' = f_pos f + len ptr /\ f_pos f + len ptr <= len data /\
  buf = slice data (f_pos f) (len ptr) /\
  f_eof f = false /\ f_err f = false /\ f_pos f + len ptr <= f_limit f.
Proof.
  destruct Hinv as (Hd & Hp & He).
  pose proof (len_nonneg ptr) as Hn. pose proof (len_nonneg data) as Hn'. subst buf f'. unfold fread.
  cbn [fst snd f_pos f_eof f_err].
  set (k := Z.max 0 (Z.min (len ptr) (f_limit f - f_pos f))).
  intros Hpos H1 H2.
  apply orb_false_iff in H1. destruct H1 as [H1 H1'].
  apply orb_false_iff in H2. destruct H2 as [H2 H2'].
  assert (Hs : (k <? len ptr) = false).
  { destruct (k <? len ptr); [|reflexivity].
    destruct (len (f_data f) <=? f_pos f + k); discriminate. }
  apply Z.ltb_ge in Hs.
  assert (Hk : k = len ptr) by (unfold k in *; lia).
  assert (Hlim : f_limit f <= len data).
  { unfold f_limit. rewrite Hd. destruct (f_bad f); lia. }
  assert (Hge : f_pos f + len ptr <= f_limit f)
    by (unfold k in Hk; lia).
  rewrite Hk.
  split; [reflexivity|].
  split; [lia|].
  split.
  { rewrite Hd. unfold len at 2. rewrite Nat2Z.id, skipn_all, app_nil_r.
    reflexivity. }
  repeat split; assumption.
Qed.

(** A read delivers what the device has, up to the size of the buffer. *)
Lemma fread_progress (m : Z) :
  0 <= m <= len ptr -> f_pos f + m <= f_limit f -> f_pos f + m <= f_pos f'.
Proof.
  intros H1 H2. subst f'. unfold fread. cbn [snd f_pos]. lia.
Qed.

Lemma fread_err_mono : f_err f' = false -> f_err f = false.
Proof.
  subst f'. unfold fread. cbn [snd f_err]. intros H.
  apply orb_false_iff in H. tauto.
Qed.

(** Without a faulty byte on the device a read never raises the error
    indicator. *)
Lemma fread_no_fault : f_bad f = None -> f_err f' = f_err f.
Proof.
  intros Hb. pose proof (len_nonneg ptr) as Hn.
  subst f'. unfold fread. cbn [snd f_err].
  unfold f_limit. rewrite Hb.
  set (k := Z.max 0 (Z.min (len ptr) (len (f_data f) - f_pos f))).
  destruct (k <? len ptr) eqn:Hs; cbn [andb]; [|apply orb_false_r].
  apply Z.ltb_lt in Hs.
  destruct (len (f_data f) <=? f_pos f + k) eqn:Ha; cbn [negb]; [apply orb_false_r|].
  apply Z.leb_gt in Ha. unfold k in *. lia.
Qed.

(** At the end of the contents, with the end-of-file indicator up, a read
    changes nothing but the buffer it leaves alone. *)
Lemma fread_eof_sticky : f_eof f = true -> f_eof f' = true /\ f_err f' = f_err f.
Proof.
  destruct Hinv as (Hd & Hp & He).
  pose proof (len_nonneg ptr) as Hn. pose proof (len_nonneg data) as Hn'. intros H. specialize (He H).
  subst f'. unfold fread. cbn [snd f_eof f_err]. rewrite H. split; [reflexivity|].
  set (k := Z.max 0 (Z.min (len ptr) (f_limit f - f_pos f))).
  assert (Hlim : f_limit f <= len data).
  { unfold f_limit. rewrite Hd. destruct (f_bad f); lia. }
  destruct (k <? len ptr); cbn [andb]; [|apply orb_false_r].
  replace (len (f_data f) <=? f_pos f + k) with true.
  - apply orb_false_r.
  - symmetry. apply Z.leb_le. rewrite Hd. unfold k. lia.
Qed.

Lemma fread_eof_err : f_eof f' = true -> f_err f' = f_err f.
Proof.
  intros H. destruct (f_eof f) eqn:E.
  - apply (proj2 (fread_eof_sticky E)).
  - subst f'. unfold fread in *. cbn [snd f_eof f_err] in *. rewrite E in H.
    cbn [orb] in H. apply andb_prop in H. destruct H as [H1 H2].
    rewrite H1, H2. cbn. apply orb_false_r.
Qed.

End Fread.

Lemma fread_in_range (data ptr : list byte) (f : FILE) :
  FILE_inv data f -> 0 < len ptr -> f_pos f + len ptr <= len data ->
  f_eof (snd (fread ptr f)) = false.
Proof.
  intros (Hd & Hp & He) Hn Hr. unfold fread. cbn [snd f_eof].
  destruct (f_eof f) eqn:E; [specialize (He eq_refl); lia|]. cbn [orb].
  set (k := Z.max 0 (Z.min (len ptr) (f_limit f - f_pos f))).
  destruct (k <? len ptr) eqn:Hs; [|reflexivity]. apply Z.ltb_lt in Hs.
  cbn [andb]. apply Z.leb_gt. rewrite Hd. lia.
Qed.

Lemma fseek_inv (data : list byte) (f : FILE) (off : Z) (w : Whence) :
  FILE_inv data f ->
  FILE_inv data (snd (fseek f off w)) /\
  f_err (snd (fseek f off w)) = f_err f /\
  f_bad (snd (fseek f off w)) = f_bad f.
Proof.
  intros (Hd & Hp & He). unfold fseek.
  destruct (_ <? 0) eqn:E; cbn [snd f_err f_bad].
  - repeat split; auto.
  - apply Z.ltb_ge in E. unfold FILE_inv. cbn [f_data f_pos f_eof].
    repeat split; auto. discriminate.
Qed.

Lemma fseek_cur_pos (f : FILE) (off : Z) :
  0 <= f_pos f + off -> f_pos (snd (fseek f off SEEK_CUR)) = f_pos f + off.
Proof.
  intros H. unfold fseek. destruct (_ <? 0) eqn:E; [apply Z.ltb_lt in E; lia|].
  reflexivity.
Qed.

Lemma fseek_set (f : FILE) (off : Z) :
  0 <= off ->
  fseek f off SEEK_SET = (0, mkFILE (f_data f) off false (f_err f) (f_bad f)).
Proof.
  intros H. unfold fseek. destruct (off <? 0) eqn:E; [apply Z.ltb_lt in E; lia|].
  reflexivity.
Qed.

Lemma skipData_spec (data : list byte) (f : FILE) (sz : Z) :
  FILE_inv data f -> 0 <= sz ->
  FILE_inv data (skipData f sz) /\
  f_pos f + sz <= f_pos (skipData f sz) /\
  f_err (skipData f sz) = f_err f /\
  f_bad (skipData f sz) = f_bad f.
Proof.
  intros Hi Hs. unfold skipData.
  destruct (fseek_inv data f sz SEEK_CUR Hi) as (I1 & E1 & B1).
  pose proof Hi as (_ & Hp & _).
  pose proof (fseek_cur_pos f sz ltac:(lia)) as P1.
  destruct (negb (sz mod 2 =? 0)).
  - destruct (fseek_inv data _ 1 SEEK_CUR I1) as (I2 & E2 & B2).
    pose proof (fseek_cur_pos (snd (fseek f sz SEEK_CUR)) 1 ltac:(lia)) as P2.
    repeat split; try apply I2; try congruence; lia.
  - repeat split; try apply I1; try congruence; lia.
Qed.

(** ** The writer *)

Section Writers.

Variable indet : nat -> byte.
Variable data : list byte.

Lemma GoSpec_bind (Q1 Q2 : list byte -> Prop) (m k : Writer) :
  GoSpec data Q1 m -> GoSpec data Q2 k -> GoSpec data (Qseq Q1 Q2) (m ;; k).
Proof.
  intros Hm Hk fi fo Hi. unfold andThen. specialize (Hm fi fo Hi).
  destruct (m fi fo) as [fi1 fo1|c fi1 fo1]; [|exact Hm].
  destruct Hm as (I1 & (d1 & E1 & P1) & N1).
  specialize (Hk fi1 fo1 I1).
  destruct (k fi1 fo1) as [fi2 fo2|c fi2 fo2].
  - destruct Hk as (I2 & (d2 & E2 & P2) & N2).
    split; [exact I2|]. split; [|auto].
    exists (d1 ++ d2). split; [rewrite E2, E1, app_assoc; reflexivity|].
    exists d1, d2. auto.
  - destruct Hk as (Hc & Hn). split; [exact Hc|]. auto.
Qed.

Lemma EndSpec_bind (Q1 Q2 : list byte -> Prop) (m k : Writer) :
  GoSpec data Q1 m -> EndSpec data Q2 k -> EndSpec data (Qseq Q1 Q2) (m ;; k).
Proof.
  intros Hm Hk fi fo Hi. unfold andThen. specialize (Hm fi fo Hi).
  destruct (m fi fo) as [fi1 fo1|c fi1 fo1]; [|right; exact Hm].
  destruct Hm as (I1 & (d1 & E1 & P1) & N1).
  specialize (Hk fi1 fo1 I1).
  destruct (k fi1 fo1) as [fi2 fo2|c fi2 fo2]; [exact Hk|].
  destruct Hk as [(Hc & I2 & (d2 & E2 & P2) & N2)|(Hc & Hn)].
  - left. split; [exact Hc|]. split; [exact I2|]. split; [|auto].
    exists (d1 ++ d2). split; [rewrite E2, E1, app_assoc; reflexivity|].
    exists d1, d2. auto.
  - right. split; [exact Hc|]. auto.
Qed.

Lemma GoSpec_weaken (Q Q' : list byte -> Prop) (m : Writer) :
  (forall d, Q d -> Q' d) -> GoSpec data Q m -> GoSpec data Q' m.
Proof.
  intros HQ Hm fi fo Hi. specialize (Hm fi fo Hi).
  destruct (m fi fo); [|exact Hm].
  destruct Hm as (I & (d & E & P) & N). split; [exact I|]. split; [|exact N].
  exists d. auto.
Qed.

Lemma GoSpec_Go : GoSpec data (fun d => d = []) Go.
Proof.
  intros fi fo Hi. split; [exact Hi|]. split; [|auto].
  exists []. split; [now rewrite app_nil_r | reflexivity].
Qed.

Lemma EndSpec_Return0 : EndSpec data (fun d => d = []) (Return 0).
Proof.
  intros fi fo Hi. left. split; [reflexivity|]. split; [exact Hi|]. split; [|auto].
  exists []. split; [now rewrite app_nil_r | reflexivity].
Qed.

Lemma fwrite_spec (ptr : list byte) (sz nmemb : Z) (fo : OFILE) :
  0 < sz * nmemb ->
  (fwrite ptr sz nmemb fo = (0, fo) /\ o_room fo <> None) \/
  (exists fo', fwrite ptr sz nmemb fo = (nmemb, fo') /\
               o_data fo' = o_data fo ++ slice ptr 0 (sz * nmemb) /\
               (o_room fo = None -> o_room fo' = None)).
Proof.
  intros H. unfold fwrite.
  destruct (sz * nmemb <=? 0) eqn:E; [apply Z.leb_le in E; lia|].
  destruct (o_room fo) as [r|] eqn:R.
  - destruct (r <? sz * nmemb).
    + left. split; [reflexivity | discriminate].
    + right. eexists. split; [reflexivity|]. cbn [o_data o_room].
      split; [reflexivity | discriminate].
  - right. eexists. split; [reflexivity|]. cbn [o_data o_room]. auto.
Qed.

Lemma GoSpec_put (ptr : list byte) (sz : Z) :
  0 < sz -> GoSpec data (fun d => d = slice ptr 0 sz) (put ptr sz).
Proof.
  intros Hs fi fo Hi. unfold put.
  destruct (fwrite_spec ptr sz 1 fo ltac:(lia)) as [(E & R)|(fo' & E & D & R)];
    rewrite E.
  - change (0 <? 1) with true. cbv iota. split; [reflexivity|].
    intros (_ & _ & N). congruence.
  - change (1 <? 1) with false. cbv iota. split; [exact Hi|]. split.
    + exists (slice ptr 0 sz). rewrite Z.mul_1_r in D. auto.
    + intros (N1 & N2 & N3). repeat split; auto.
Qed.

Lemma GoSpec_putPad (sz : Z) : GoSpec data (Qpad sz) (putPad sz).
Proof.
  unfold putPad, Qpad. destruct (negb (sz mod 2 =? 0)).
  - apply (GoSpec_put [x00] 1). lia.
  - apply GoSpec_Go.
Qed.

(** *** The copier *)

Lemma copyBlocks_spec (orig : Z) :
  forall n fi fo, FILE_inv data fi ->
    match copyBlocks indet n orig fi fo with
    | Go fi' fo' =>
        FILE_inv data fi' /\ (NoFault fi fo -> NoFault fi' fo') /\
        exists d, o_data fo' = o_data fo ++ d /\
                  len d = 1024 * Z.of_nat n /\
                  (f_pos fi + 1024 * Z.of_nat n <= len data ->
                   d = slice data (f_pos fi) (1024 * Z.of_nat n) /\
                   f_pos fi' = f_pos fi + 1024 * Z.of_nat n)
    | Return c _ _ => c = -1 /\ ~ NoFault fi fo
    end.
Proof.
  induction n as [|n IH]; intros fi fo Hi.
  - cbn [copyBlocks]. split; [exact Hi|]. split; [auto|].
    exists []. rewrite app_nil_r. split; [reflexivity|]. split; [reflexivity|].
    intros _. split; [|lia]. rewrite ?slice_plain. reflexivity.
  - cbn [copyBlocks].
    pose proof (uninit_length indet 1024) as Hu. change (Z.max 0 1024) with 1024 in Hu.
    pose proof (fread_inv data (uninit indet 1024) fi Hi) as I1.
    pose proof (fread_length data (uninit indet 1024) fi Hi) as L1.
    pose proof (fread_no_fault (uninit indet 1024) fi) as NF.
    pose proof (fread_same (uninit indet 1024) fi) as (_ & SM).
    pose proof (fread_full data (uninit indet 1024) fi Hi ltac:(lia)) as FU.
    pose proof (fread_in_range data (uninit indet 1024) fi Hi ltac:(lia)) as IR.
    destruct (fread (uninit indet 1024) fi) as [buffer fi1]. cbn [fst snd] in *.
    unfold ferror. destruct (f_err fi1) eqn:Eerr.
    { split; [reflexivity|]. intros (N1 & N2 & N3). specialize (NF N1). congruence. }
    destruct (fwrite_spec buffer 1 1024 fo ltac:(lia)) as [(E & R)|(fo1 & E & D & R)];
      rewrite E.
    { change (0 <? 1) with true. cbv iota. split; [reflexivity|].
      intros (_ & _ & N). congruence. }
    change (1024 <? 1) with false. cbv iota.
    specialize (IH fi1 fo1 I1).
    assert (NF1 : NoFault fi fo -> NoFault fi1 fo1).
    { intros (N1 & N2 & N3). repeat split; auto; congruence. }
    assert (Hbuf : slice buffer 0 (1 * 1024) = buffer).
    { rewrite ?slice_plain. cbn [Z.to_nat skipn]. change (Z.to_nat (1 * 1024)) with 1024%nat.
      apply firstn_all2. unfold len in Hu. lia. }
    rewrite Hbuf in D.
    destruct (copyBlocks indet n orig fi1 fo1) as [fi2 fo2|c fi2 fo2].
    + destruct IH as (I2 & N2 & (d & E2 & Ld & C2)).
      split; [exact I2|]. split; [auto|].
      exists (buffer ++ d). split; [rewrite E2, D, app_assoc; reflexivity|].
      split.
      { unfold len in *. rewrite length_app. lia. }
      intros Hr.
      assert (Hr1 : f_pos fi + len (uninit indet 1024) <= len data) by lia.
      specialize (IR Hr1). destruct (FU IR eq_refl) as (P1 & _ & B1 & _ & _ & _).
      rewrite Hu in P1, B1.
      destruct C2 as (C2a & C2b); [lia|].
      pose proof Hi as (_ & Hp & _).
      split; [|lia].
      rewrite B1, C2a, P1.
      rewrite slice_consecutive by lia. f_equal. lia.
    + destruct IH as (Hc & Hn). split; [exact Hc|]. auto.
Qed.

Lemma copyRest_spec (orig rem : Z) :
  0 <= rem ->
  forall fi fo, FILE_inv data fi ->
    match copyRest indet rem orig fi fo with
    | Go _ _ => False
    | Return c fi' fo' =>
        (c = 0 /\ FILE_inv data fi' /\ (NoFault fi fo -> NoFault fi' fo') /\
         exists d, o_data fo' = o_data fo ++ d /\ len d = rem /\
                   (f_pos fi + rem <= len data ->
                    d = slice data (f_pos fi) rem /\ f_pos fi' = f_pos fi + rem)) \/
        (c = -1 /\ ~ NoFault fi fo)
    end.
Proof.
  intros Hrem fi fo Hi. unfold copyRest.
  destruct (0 <? rem) eqn:Epos.
  2:{ apply Z.ltb_ge in Epos. assert (rem = 0) by lia. subst rem.
      left. split; [reflexivity|]. split; [exact Hi|]. split; [auto|].
      exists []. rewrite app_nil_r. split; [reflexivity|]. split; [reflexivity|].
      intros _. split; [rewrite slice_plain; reflexivity | lia]. }
  apply Z.ltb_lt in Epos.
  pose proof (uninit_length indet rem) as Hu. rewrite Z.max_r in Hu by lia.
  pose proof (fread_inv data (uninit indet rem) fi Hi) as I1.
  pose proof (fread_length data (uninit indet rem) fi Hi) as L1.
  pose proof (fread_no_fault (uninit indet rem) fi) as NF.
  pose proof (fread_same (uninit indet rem) fi) as (_ & SM).
  pose proof (fread_full data (uninit indet rem) fi Hi ltac:(lia)) as FU.
  pose proof (fread_in_range data (uninit indet rem) fi Hi ltac:(lia)) as IR.
  destruct (fread (uninit indet rem) fi) as [buffer fi1]. cbn [fst snd] in *.
  unfold ferror. destruct (f_err fi1) eqn:Eerr.
  { right. split; [reflexivity|]. intros (N1 & N2 & N3).
    specialize (NF N1). congruence. }
  destruct (fwrite_spec buffer 1 rem fo ltac:(lia)) as [(E & R)|(fo1 & E & D & R)];
    rewrite E.
  { change (0 <? 1) with true. cbv iota. right. split; [reflexivity|].
    intros (_ & _ & N). congruence. }
  assert (Ew : (rem <? 1) = false) by (apply Z.ltb_ge; lia). rewrite Ew.
  left. split; [reflexivity|]. split; [exact I1|].
  split.
  { intros (N1 & N2 & N3). repeat split; auto; congruence. }
  assert (Hbuf : slice buffer 0 (1 * rem) = buffer).
  { rewrite ?slice_plain. cbn [Z.to_nat skipn]. apply firstn_all2. unfold len in Hu. lia. }
  rewrite Hbuf in D.
  exists buffer. split; [exact D|]. split; [unfold len in *; lia|].
  intros Hr. rewrite Hu in IR, FU. specialize (IR Hr).
  destruct (FU IR eq_refl) as (P1 & _ & B1 & _ & _ & _). auto.
Qed.

Lemma copyChunk_spec (chunk : ChunkLocation) :
  0 <= startOffset chunk -> 0 <= size chunk ->
  GoSpec data (Qcopy data chunk) (copyChunk indet chunk).
Proof.
  intros Hs Hz fi fo Hi. unfold copyChunk, writeChunkLocationFromInputFileToOutputFile.
  rewrite (fseek_set fi (startOffset chunk) Hs). change (0 <? 0) with false.
  cbv iota. unfold andThen.
  set (fi0 := mkFILE (f_data fi) (startOffset chunk) false (f_err fi) (f_bad fi)).
  assert (I0 : FILE_inv data fi0).
  { destruct Hi as (Hd & _). unfold FILE_inv, fi0. cbn. repeat split; auto.
    discriminate. }
  assert (N0 : NoFault fi fo -> NoFault fi0 fo).
  { intros (N1 & N2 & N3). repeat split; auto. }
  pose proof (copyBlocks_spec (ftell fi) (Z.to_nat (size chunk / 1024)) fi0 fo I0) as B.
  assert (Hq : 0 <= size chunk / 1024) by (apply Z.div_pos; lia).
  rewrite Z2Nat.id in B by exact Hq.
  pose proof (Z.div_mod (size chunk) 1024 ltac:(lia)) as Hdm.
  pose proof (Z.mod_pos_bound (size chunk) 1024 ltac:(lia)) as Hmb.
  destruct (copyBlocks indet _ (ftell fi) fi0 fo) as [fi1 fo1|c fi1 fo1].
  2:{ destruct B as (Hc & Hn). subst c. change (-1 <? 0) with true. cbv iota.
      split; [reflexivity|]. auto. }
  destruct B as (I1 & N1 & (d1 & E1 & L1 & C1)).
  pose proof (copyRest_spec (ftell fi) (size chunk mod 1024) ltac:(lia) fi1 fo1 I1) as R.
  destruct (copyRest indet _ (ftell fi) fi1 fo1) as [fi2 fo2|c fi2 fo2]; [contradiction|].
  destruct R as [(Hc & I2 & N2 & (d2 & E2 & L2 & C2))|(Hc & Hn)]; subst c.
  2:{ change (-1 <? 0) with true. cbv iota. split; [reflexivity|]. auto. }
  change (0 <? 0) with false. cbv iota.
  split; [exact I2|]. split; [|auto].
  exists (d1 ++ d2). split; [rewrite E2, E1, app_assoc; reflexivity|].
  split.
  - unfold len in *. rewrite length_app. lia.
  - intros Hr. change (f_pos fi0) with (startOffset chunk) in C1.
    destruct C1 as (C1a & C1b); [lia|].
    destruct C2 as (C2a & C2b); [lia|].
    rewrite C1a, C2a, C1b. rewrite slice_consecutive by lia. f_equal. lia.
Qed.

End Writers.

Section WriteOutputFile.

Variable indet : nat -> byte.
Variable data : list byte.

Lemma slice_all {A : Type} (l : list A) (n : Z) :
  len l <= n -> slice l 0 n = l.
Proof.
  intros H. rewrite ?slice_plain in *; unfold len in *. cbn [Z.to_nat skipn].
  apply firstn_all2. lia.
Qed.

Lemma Forall_firstn_keep {A : Type} (P : A -> Prop) (n : nat) (l : list A) :
  Forall P l -> Forall P (firstn n l).
Proof.
  revert n. induction l as [|h t IH]; intros [|n] H; cbn [firstn];
    try constructor; inversion H; subst; auto.
Qed.

Lemma putCuePoints_spec (cps : list CuePoint) :
  Forall (fun cp => len (CuePoint_bytes cp) = 24) cps ->
  GoSpec data (Qis (flat_map CuePoint_bytes cps)) (putCuePoints cps).
Proof.
  induction cps as [|cp r IH]; intros H; cbn [putCuePoints flat_map].
  - apply GoSpec_Go.
  - inversion H as [|x l Hcp Hr]; subst.
    apply (GoSpec_weaken data
             (Qseq (fun d => d = slice (CuePoint_bytes cp) 0 sizeof_CuePoint)
                   (Qis (flat_map CuePoint_bytes r)))).
    + intros d (d1 & d2 & -> & -> & ->). unfold Qis.
      rewrite slice_all by (unfold sizeof_CuePoint; lia). reflexivity.
    + apply GoSpec_bind; [apply GoSpec_put; reflexivity | apply IH; exact Hr].
Qed.

Lemma copyOtherChunks_spec (cs : list ChunkLocation) :
  Forall ChunkLocation_ok cs ->
  GoSpec data (Qothers cs) (copyOtherChunks indet cs).
Proof.
  induction cs as [|c r IH]; intros H; cbn [copyOtherChunks].
  - apply (GoSpec_weaken data (fun d => d = [])); [|apply GoSpec_Go].
    intros d ->. reflexivity.
  - inversion H as [|x l (Hs & Hz) Hr]; subst.
    apply (GoSpec_weaken data
             (Qseq (Qcopy data c) (Qseq (Qpad (size c)) (Qothers r)))).
    + intros d (d1 & d23 & -> & (L1 & _) & (d2 & d3 & -> & P2 & L3)).
      unfold Qothers in *. cbn [others_total fold_right].
      change (fold_right (fun c0 acc => size c0 + odd_pad (size c0) + acc) 0 r)
        with (others_total r).
      unfold Qpad in P2. unfold len in *. rewrite !length_app.
      assert (Z.of_nat (length d2) = odd_pad (size c)).
      { subst d2. unfold odd_pad. destruct (size c mod 2 =? 0); reflexivity. }
      lia.
    + apply GoSpec_bind; [apply copyChunk_spec; assumption|].
      apply GoSpec_bind; [apply GoSpec_putPad | apply IH; exact Hr].
Qed.

Lemma Qextra_spec (extra : ChunkLocation) :
  ChunkLocation_ok extra ->
  GoSpec data (Qextra data extra)
    (if 0 <? size extra
     then copyChunk indet extra ;; putPad (size extra)
     else Go).
Proof.
  intros (Hs & Hz). unfold Qextra. destruct (0 <? size extra).
  - apply GoSpec_bind; [apply copyChunk_spec; assumption | apply GoSpec_putPad].
  - apply GoSpec_Go.
Qed.

Lemma writeOutputFile_spec (extra dataLoc : ChunkLocation) (n : Z)
    (others : list ChunkLocation) (li : LabelInfo) (hdr : WaveHeader)
    (fc : FormatChunk) (cue : CueChunk) (lst : ListChunk) (L : Z) :
  ChunkLocation_ok extra -> ChunkLocation_ok dataLoc ->
  Forall ChunkLocation_ok others -> 0 < L ->
  Forall (fun cp => len (CuePoint_bytes cp) = 24)
         (firstn (Z.to_nat (littleEndianBytesToUInt32 (cc_cuePointsCount cue)))
                 (cuePoints cue)) ->
  EndSpec data
    (Qout data
       (slice (WaveHeader_bytes
                 (mkWaveHeader (wh_chunkID hdr)
                    (uint32ToLittleEndianBytes
                       (compute_fileDataSize extra dataLoc n others li L))
                    (wh_riffType hdr))) 0 12)
       (slice (FormatChunk_bytes fc) 0 24)
       extra dataLoc
       (slice (cc_chunkID cue ++ cc_chunkDataSize cue ++ cc_cuePointsCount cue) 0 12)
       (flat_map CuePoint_bytes
          (firstn (Z.to_nat (littleEndianBytesToUInt32 (cc_cuePointsCount cue)))
                  (cuePoints cue)))
       (slice (lc_chunkID lst ++ lc_chunkDataSize lst ++ lc_typeID lst) 0 12)
       (slice (labelChunks lst) 0 L) L
       (firstn (Z.to_nat n) others))
    (fun fi fo => writeOutputFile indet fi fo extra dataLoc n others li hdr fc
                    cue lst L).
Proof.
  intros Hex Hda Hot HL Hcp. unfold writeOutputFile, Qout. cbv zeta.
  apply EndSpec_bind; [apply GoSpec_put; reflexivity|].
  apply EndSpec_bind; [apply GoSpec_put; reflexivity|].
  apply EndSpec_bind; [apply Qextra_spec; exact Hex|].
  apply EndSpec_bind; [apply copyChunk_spec; apply Hda|].
  apply EndSpec_bind; [apply GoSpec_putPad|].
  apply EndSpec_bind; [apply GoSpec_put; reflexivity|].
  apply EndSpec_bind; [apply putCuePoints_spec; exact Hcp|].
  apply EndSpec_bind; [apply GoSpec_put; reflexivity|].
  apply EndSpec_bind; [apply GoSpec_put; exact HL|].
  apply EndSpec_bind; [apply GoSpec_putPad|].
  apply EndSpec_bind; [apply copyOtherChunks_spec; apply Forall_firstn_keep; exact Hot|].
  apply EndSpec_Return0.
Qed.

End WriteOutputFile.

(** ** The chunk scanner *)

Lemma wrap32_range (z : Z) : 0 <= wrap32 z < 2 ^ 32.
Proof. unfold wrap32. apply Z.mod_pos_bound. lia. Qed.

Lemma wrap64_range (z : Z) : 0 <= wrap64 z < 2 ^ 64.
Proof. unfold wrap64. apply Z.mod_pos_bound. lia. Qed.

Lemma to_long_sub4 (sz : Z) : 0 <= sz < 2 ^ 32 -> to_long (sz - 4) = sz - 4.
Proof.
  intros H. unfold to_long, wrap64.
  destruct (Z_lt_le_dec (sz - 4) 0) as [Hneg|Hpos].
  - replace ((sz - 4) mod 2 ^ 64) with (sz - 4 + 2 ^ 64).
    + destruct (sz - 4 + 2 ^ 64 <? 2 ^ 63) eqn:E; [apply Z.ltb_lt in E; lia | lia].
    + symmetry. rewrite <- (Z.mod_add _ 1) by lia.
      rewrite Z.mul_1_l. apply Z.mod_small. lia.
  - rewrite Z.mod_small by lia.
    destruct (sz - 4 <? 2 ^ 63) eqn:E; [reflexivity | apply Z.ltb_ge in E; lia].
Qed.

Lemma f_limit_same (a b : FILE) :
  f_data a = f_data b -> f_bad a = f_bad b -> f_limit a = f_limit b.
Proof. intros H1 H2. unfold f_limit. rewrite H1, H2. reflexivity. Qed.

Lemma fread_step (data : list byte) (bad : option Z) (ptr : list byte) (f : FILE) :
  FILE_inv data f -> f_bad f = bad ->
  FILE_inv data (snd (fread ptr f)) /\
  f_bad (snd (fread ptr f)) = bad /\
  f_limit (snd (fread ptr f)) = f_limit f /\
  f_pos f <= f_pos (snd (fread ptr f)) /\
  length (fst (fread ptr f)) = length ptr.
Proof.
  intros Hi Hb.
  split; [apply (fread_inv data ptr f Hi)|].
  split; [exact Hb|].
  split; [reflexivity|].
  split; [apply (fread_pos ptr f)|].
  apply (fread_length data ptr f Hi).
Qed.

Lemma FormatChunk_bytes_length (block : list byte) :
  len block = 24 -> len (FormatChunk_bytes (FormatChunk_of_bytes block)) = 24.
Proof.
  intros H. unfold FormatChunk_bytes, FormatChunk_of_bytes.
  cbn [fc_chunkID fc_chunkDataSize fc_compressionCode fc_numberOfChannels
       fc_sampleRate fc_averageBytesPerSecond fc_blockAlign
       fc_significantBitsPerSample].
  unfold len. rewrite !length_app. fold (len block) in H.
  repeat match goal with
         | |- context [length (slice block ?o ?n)] =>
             let E := fresh "E" in
             pose proof (slice_length block o n ltac:(lia) ltac:(lia) ltac:(lia)) as E;
             unfold len in E at 1;
             generalize dependent (length (slice block o n)); intros
         end.
  lia.
Qed.

Section Scanner.

Variable indet : nat -> byte.
Variable data : list byte.
Variable bad : option Z.

Lemma ScanInv_with_file (st : ScanState) (f : FILE) :
  ScanInv data bad st -> FILE_inv data f -> f_err f = false -> f_bad f = bad ->
  ScanInv data bad (with_file st f).
Proof.
  intros (_ & _ & _ & H) Hi He Hb. unfold ScanInv, with_file.
  cbn [inputFile formatChunk formatChunkExtraBytes dataChunkLocation
       otherChunksCount otherChunkLocations].
  auto.
Qed.

Lemma scanOtherChunk_spec (st : ScanState) (f : FILE) :
  ScanInv data bad st -> FILE_inv data f -> f_err f = false -> f_bad f = bad ->
  4 <= f_pos f ->
  match scanOtherChunk st f with
  | Continue st' => ScanInv data bad st' /\ f_pos f <= f_pos (inputFile st')
  | Break _ => False
  | Fatal _ => True
  end.
Proof.
  intros (_ & _ & _ & Hex & Hda & Hot & Hcnt & Hfc) Hi He Hb Hp.
  unfold scanOtherChunk.
  destruct (maxOtherChunks <=? otherChunksCount st) eqn:Ec; [exact I|].
  apply Z.leb_gt in Ec.
  destruct (fread_step data bad (repeat x00 4) f Hi Hb) as (I1 & B1 & _ & P1 & _).
  pose proof (fread_err_mono (repeat x00 4) f) as M1.
  destruct (fread (repeat x00 4) f) as [szb f1]. cbn [fst snd] in *.
  unfold ferror. destruct (f_err f1) eqn:E1; [exact I|].
  pose proof (littleEndianBytesToUInt32_range szb) as Hr.
  destruct (skipData_spec data f1 (littleEndianBytesToUInt32 szb) I1 ltac:(lia))
    as (I2 & P2 & E2 & B2).
  split; [|cbn [inputFile with_file]; lia].
  unfold ScanInv.
  cbn [inputFile formatChunk formatChunkExtraBytes dataChunkLocation
       otherChunksCount otherChunkLocations].
  split; [exact I2|]. split; [congruence|]. split; [congruence|].
  split; [exact Hex|]. split; [exact Hda|].
  split.
  { apply Forall_app. split; [apply Forall_firstn_keep; exact Hot|].
    constructor; [|constructor]. unfold ChunkLocation_ok, ftell.
    cbn [startOffset size]. pose proof (wrap64_range (4 + 4 + littleEndianBytesToUInt32 szb)).
    lia. }
  split; [lia | exact Hfc].
Qed.

Lemma scanChunk_spec (st : ScanState) :
  ScanInv data bad st ->
  match scanChunk indet st with
  | Continue st' =>
      ScanInv data bad st' /\
      f_pos (inputFile st) + 4 <= f_pos (inputFile st') /\
      f_pos (inputFile st) + 4 <= len data
  | Break st' => ScanInv data bad st'
  | Fatal _ => True
  end.
Proof.
  intros Hst. pose proof Hst as (Hi & He & Hb & Hex & Hda & Hot & Hcnt & Hfc).
  unfold scanChunk. set (f := inputFile st) in *.
  pose proof (uninit_length indet 4) as Hu4. change (Z.max 0 4) with 4 in Hu4.
  destruct (fread_step data bad (uninit indet 4) f Hi Hb) as (I1 & B1 & Lm1 & _ & _).
  pose proof (fread_full data (uninit indet 4) f Hi ltac:(lia)) as F1.
  pose proof (fread_eof_err data (uninit indet 4) f Hi) as EE1.
  destruct (fread (uninit indet 4) f) as [nextChunkID f1]. cbn [fst snd] in *.
  unfold feof, ferror.
  destruct (f_eof f1) eqn:Eeof1.
  { apply ScanInv_with_file; auto. rewrite EE1 by reflexivity. exact He. }
  destruct (f_err f1) eqn:Eerr1; [exact I|].
  destruct (F1 eq_refl eq_refl) as (P1 & R1 & _ & _ & _ & G1). rewrite Hu4 in P1, R1, G1.
  pose proof Hi as (_ & Hpos & _).
  destruct (strncmp4_eq nextChunkID "fmt ").
  { (* the format chunk *)
    destruct (fseek_inv data f1 (-4) SEEK_CUR I1) as (I2 & E2 & B2).
    pose proof (fseek_cur_pos f1 (-4) ltac:(lia)) as P2.
    set (f2 := snd (fseek f1 (-4) SEEK_CUR)) in *.
    pose proof (uninit_length indet sizeof_FormatChunk) as Hu24.
    change (Z.max 0 sizeof_FormatChunk) with 24 in Hu24.
    destruct (fread_step data bad (uninit indet sizeof_FormatChunk) f2 I2
                ltac:(congruence)) as (I3 & B3 & _ & _ & L3).
    pose proof (fread_progress (uninit indet sizeof_FormatChunk) f2 4
                  ltac:(lia)) as G3.
    assert (Hlim2 : f_limit f2 = f_limit f).
    { rewrite <- Lm1. apply f_limit_same.
      - destruct I2 as (D2 & _). destruct I1 as (D1 & _). congruence.
      - congruence. }
    rewrite Hlim2 in G3. specialize (G3 ltac:(lia)).
    destruct (fread (uninit indet sizeof_FormatChunk) f2) as [block f3].
    cbn [fst snd] in *.
    destruct (f_err f3) eqn:Eerr3; [exact I|].
    destruct (negb _ && negb _); [exact I|].
    assert (Hblock : len (FormatChunk_bytes (FormatChunk_of_bytes block)) = 24).
    { apply FormatChunk_bytes_length. unfold len in *. lia. }
    set (extra := wrap32 (littleEndianBytesToUInt32
                            (fc_chunkDataSize (FormatChunk_of_bytes block)) - 16)).
    pose proof (wrap32_range (littleEndianBytesToUInt32
                            (fc_chunkDataSize (FormatChunk_of_bytes block)) - 16)) as Hx.
    fold extra in Hx.
    pose proof I3 as (_ & Hpos3 & _).
    destruct (0 <? extra).
    - destruct (skipData_spec data f3 extra I3 ltac:(lia)) as (I4 & P4 & E4 & B4).
      split; [|cbn [inputFile with_file]; lia]. unfold ScanInv.
      cbn [inputFile formatChunk formatChunkExtraBytes dataChunkLocation
           otherChunksCount otherChunkLocations].
      split; [exact I4|]. split; [congruence|]. split; [congruence|].
      split; [unfold ChunkLocation_ok, ftell; cbn [startOffset size]; lia|].
      split; [exact Hda|]. split; [exact Hot|]. split; [exact Hcnt|].
      intros fc Hfc'. inversion Hfc'; subst. exact Hblock.
    - split; [|cbn [inputFile with_file]; lia]. unfold ScanInv.
      cbn [inputFile formatChunk formatChunkExtraBytes dataChunkLocation
           otherChunksCount otherChunkLocations].
      split; [exact I3|]. split; [exact Eerr3|]. split; [exact B3|].
      split; [exact Hex|].
      split; [exact Hda|]. split; [exact Hot|]. split; [exact Hcnt|].
      intros fc Hfc'. inversion Hfc'; subst. exact Hblock. }
  destruct (strncmp4_eq nextChunkID "data").
  { (* the data chunk *)
    destruct (fread_step data bad (uninit indet 4) f1 I1 B1) as (I2 & B2 & _ & P2 & _).
    destruct (fread (uninit indet 4) f1) as [szb f2]. cbn [fst snd] in *.
    destruct (f_err f2) eqn:Eerr2; [exact I|].
    pose proof (littleEndianBytesToUInt32_range szb) as Hr.
    destruct (skipData_spec data f2 (littleEndianBytesToUInt32 szb) I2 ltac:(lia))
      as (I3 & P3 & E3 & B3).
    split; [|cbn [inputFile with_file]; lia]. unfold ScanInv.
    cbn [inputFile formatChunk formatChunkExtraBytes dataChunkLocation
         otherChunksCount otherChunkLocations].
    split; [exact I3|]. split; [congruence|]. split; [congruence|].
    split; [exact Hex|].
    split.
    { unfold ChunkLocation_ok, ftell. cbn [startOffset size].
      pose proof (wrap64_range (4 + 4 + littleEndianBytesToUInt32 szb)). lia. }
    split; [exact Hot|]. split; [exact Hcnt | exact Hfc]. }
  destruct (strncmp4_eq nextChunkID "cue ").
  { (* an existing cue chunk *)
    destruct (fread_step data bad (uninit indet 4) f1 I1 B1) as (I2 & B2 & _ & P2 & _).
    destruct (fread (uninit indet 4) f1) as [szb f2]. cbn [fst snd] in *.
    destruct (f_err f2) eqn:Eerr2; [exact I|].
    pose proof (littleEndianBytesToUInt32_range szb) as Hr.
    destruct (skipData_spec data f2 (littleEndianBytesToUInt32 szb) I2 ltac:(lia))
      as (I3 & P3 & E3 & B3).
    split; [|cbn [with_file inputFile]; lia].
    apply ScanInv_with_file; auto; congruence. }
  destruct (strncmp4_eq nextChunkID "LIST").
  { (* a list chunk *)
    destruct (fread_step data bad (repeat x00 4) f1 I1 B1) as (I2 & B2 & _ & P2 & _).
    pose proof (fread_full data (repeat x00 4) f1 I1 ltac:(reflexivity)) as F2.
    destruct (fread (repeat x00 4) f1) as [szb f2]. cbn [fst snd] in *.
    destruct (f_err f2) eqn:Eerr2; [exact I|].
    pose proof (littleEndianBytesToUInt32_range szb) as Hr.
    destruct (fread_step data bad (uninit indet 4) f2 I2 B2) as (I3 & B3 & _ & P3 & _).
    pose proof (fread_full data (uninit indet 4) f2 I2 ltac:(lia)) as F3.
    pose proof (fread_eof_err data (uninit indet 4) f2 I2) as EE3.
    destruct (fread (uninit indet 4) f2) as [listTypeID f3]. cbn [fst snd] in *.
    destruct (f_eof f3) eqn:Eeof3.
    { apply ScanInv_with_file; auto. rewrite EE3 by reflexivity. exact Eerr2. }
    destruct (f_err f3) eqn:Eerr3; [exact I|].
    destruct (F3 eq_refl eq_refl) as (Q3 & _ & _ & Eeof2 & _ & _).
    rewrite Hu4 in Q3.
    destruct (F2 Eeof2 eq_refl) as (Q2 & _ & _ & _ & _ & _).
    change (len (repeat x00 4)) with 4 in Q2.
    destruct (strncmp4_eq listTypeID "adtl").
    - rewrite to_long_sub4 by exact Hr.
      destruct (fseek_inv data f3 (littleEndianBytesToUInt32 szb - 4) SEEK_CUR I3)
        as (I4 & E4 & B4).
      pose proof (fseek_cur_pos f3 (littleEndianBytesToUInt32 szb - 4) ltac:(lia)) as P4.
      set (f4 := snd (fseek f3 (littleEndianBytesToUInt32 szb - 4) SEEK_CUR)) in *.
      destruct (negb (littleEndianBytesToUInt32 szb mod 2 =? 0)).
      + destruct (fseek_inv data f4 1 SEEK_CUR I4) as (I5 & E5 & B5).
        pose proof (fseek_cur_pos f4 1 ltac:(lia)) as P5.
        split; [|cbn [with_file inputFile]; lia].
        apply ScanInv_with_file; auto; congruence.
      + split; [|cbn [with_file inputFile]; lia].
        apply ScanInv_with_file; auto; congruence.
    - destruct (fseek_inv data f3 (-1 * (4 + 4)) SEEK_CUR I3) as (I4 & E4 & B4).
      pose proof (fseek_cur_pos f3 (-1 * (4 + 4)) ltac:(lia)) as P4.
      set (f4 := snd (fseek f3 (-1 * (4 + 4)) SEEK_CUR)) in *.
      pose proof (scanOtherChunk_spec st f4 Hst I4 ltac:(congruence)
                    ltac:(congruence) ltac:(lia)) as S.
      destruct (scanOtherChunk st f4); [|contradiction|exact I].
      destruct S as (S1 & S2). split; [exact S1|]. cbn [inputFile] in *. lia. }
  (* any other chunk *)
  pose proof (scanOtherChunk_spec st f1 Hst I1 Eerr1 B1 ltac:(lia)) as S.
  destruct (scanOtherChunk st f1); [|contradiction|exact I].
  destruct S as (S1 & S2). split; [exact S1|]. cbn [inputFile] in *. lia.
Qed.

(** The loop keeps the invariant and ends: the fuel [scanInputFile] gives it
    is never used up. *)
Lemma scanLoop_inv :
  forall fuel st st',
    ScanInv data bad st -> scanLoop indet fuel st = Scanned st' ->
    ScanInv data bad st'.
Proof.
  induction fuel as [|fuel IH]; intros st st' Hst H; cbn [scanLoop] in H;
    [discriminate|].
  pose proof (scanChunk_spec st Hst) as S.
  destruct (scanChunk indet st) as [st1|st1|d]; try discriminate.
  - apply (IH st1 st'); [apply S | exact H].
  - inversion H; subst. exact S.
Qed.

Lemma scanLoop_fuel :
  forall fuel st,
    ScanInv data bad st ->
    Z.max 0 (len data - f_pos (inputFile st)) < 4 * Z.of_nat fuel ->
    scanLoop indet fuel st <> ScanOutOfFuel.
Proof.
  induction fuel as [|fuel IH]; intros st Hst Hf; [lia|].
  cbn [scanLoop].
  pose proof (scanChunk_spec st Hst) as S.
  destruct (scanChunk indet st) as [st1|st1|d]; try discriminate.
  destruct S as (S1 & S2 & S3). apply IH; [exact S1 | lia].
Qed.

End Scanner.

Lemma scanInputFile_spec (indet : nat -> byte) (content : list byte)
    (bad : option Z) :
  fst (scanInputFile indet (fopen_r content bad)) =
    WaveHeader_of_bytes (fst (fread (uninit indet 12) (fopen_r content bad))) /\
  snd (scanInputFile indet (fopen_r content bad)) <> ScanOutOfFuel /\
  forall st, snd (scanInputFile indet (fopen_r content bad)) = Scanned st ->
    ScanInv content bad st /\
    (exists fc, formatChunk st = Some fc) /\
    size (dataChunkLocation st) <> 0.
Proof.
  unfold scanInputFile. change sizeof_WaveHeader with 12.
  assert (I0 : FILE_inv content (fopen_r content bad)).
  { unfold FILE_inv, fopen_r. cbn [f_data f_pos f_eof].
    split; [reflexivity|]. split; [lia | discriminate]. }
  destruct (fread_step content bad (uninit indet 12) (fopen_r content bad) I0 eq_refl)
    as (I1 & B1 & _ & P1 & _).
  destruct (fread (uninit indet 12) (fopen_r content bad)) as [block f1].
  cbn [fst snd] in *. unfold ferror.
  destruct (f_err f1) eqn:E1.
  { cbn [fst snd]. repeat split; try discriminate. }
  destruct (negb (strncmp4_eq _ "RIFF")).
  { cbn [fst snd]. repeat split; try discriminate. }
  destruct (negb (strncmp4_eq _ "WAVE")).
  { cbn [fst snd]. repeat split; try discriminate. }
  destruct (_ <=? 0).
  { cbn [fst snd]. repeat split; try discriminate. }
  set (st0 := mkScanState f1 None (mkChunkLocation 0 0) (mkChunkLocation 0 0) 0 []).
  assert (S0 : ScanInv content bad st0).
  { unfold ScanInv, st0, ChunkLocation_ok, maxOtherChunks.
    cbn [inputFile formatChunk formatChunkExtraBytes dataChunkLocation
         otherChunksCount otherChunkLocations startOffset size].
    split; [exact I1|]. split; [exact E1|]. split; [exact B1|].
    split; [lia|]. split; [lia|]. split; [constructor|]. split; [lia|].
    intros fc Hfc. discriminate. }
  pose proof (scanLoop_inv indet content bad (S (length (f_data (fopen_r content bad))))
                st0) as Li.
  pose proof (scanLoop_fuel indet content bad (S (length (f_data (fopen_r content bad))))
                st0 S0) as Lf.
  assert (Hfuel : Z.max 0 (len content - f_pos (inputFile st0)) <
                  4 * Z.of_nat (S (length (f_data (fopen_r content bad))))).
  { cbn [st0 inputFile fopen_r f_data]. unfold len. cbn [fopen_r f_pos] in P1. lia. }
  specialize (Lf Hfuel).
  destruct (scanLoop indet _ st0) as [st| |]; cbn [fst snd].
  - specialize (Li st S0 eq_refl).
    destruct (formatChunk st) as [fc|] eqn:Efc; cbn [fst snd].
    + destruct (size (dataChunkLocation st) =? 0) eqn:Ez; cbn [fst snd].
      * repeat split; try discriminate.
      * apply Z.eqb_neq in Ez. split; [reflexivity|]. split; [discriminate|].
        intros st' H. inversion H; subst. split; [exact Li|].
        split; [exists fc; exact Efc | exact Ez].
    + repeat split; try discriminate.
  - repeat split; try discriminate.
  - contradiction.
Qed.

(** ** A run of [addLabelsToWaveFile] *)

Lemma WaveHeader_of_bytes_lengths (block : list byte) :
  len block = 12 ->
  len (wh_chunkID (WaveHeader_of_bytes block)) = 4 /\
  len (wh_riffType (WaveHeader_of_bytes block)) = 4.
Proof.
  intros H. unfold WaveHeader_of_bytes. cbn [wh_chunkID wh_riffType].
  split; apply slice_length; lia.
Qed.

Lemma fill_cuePoints_props (li : LabelInfo) :
  0 <= count li ->
  len (fill_cuePoints li) = count li /\
  Forall (fun cp => len (CuePoint_bytes cp) = 24) (fill_cuePoints li) /\
  len (flat_map CuePoint_bytes (fill_cuePoints li)) = 24 * count li.
Proof.
  intros Hc. unfold fill_cuePoints.
  assert (G : forall ixs,
             Forall (fun cp => len (CuePoint_bytes cp) = 24)
                    (map (makeCuePoint li) ixs) /\
             len (flat_map CuePoint_bytes (map (makeCuePoint li) ixs)) =
             24 * len ixs).
  { induction ixs as [|i r [IH1 IH2]]; cbn [map flat_map].
    - split; [constructor | reflexivity].
    - split; [constructor; [reflexivity | exact IH1]|].
      unfold len in *. rewrite length_app. cbn [length].
      change (length (CuePoint_bytes (makeCuePoint li i))) with 24%nat. lia. }
  destruct (G (indices (count li))) as (G1 & G2).
  split; [unfold len; rewrite length_map; fold (len (indices (count li)));
          rewrite indices_length; lia|].
  split; [exact G1|]. rewrite G2, indices_length. lia.
Qed.

Lemma compute_listChunkSize_pos (li : LabelInfo) :
  LabelInfo_wf li -> 1 <= count li -> 12 <= compute_listChunkSize li.
Proof.
  intros W Hc. rewrite (compute_listChunkSize_sum li W).
  pose proof (Zsum_recordLength_lower li (indices (count li)) W
                (fun i Hi => proj1 (In_indices _ _) Hi)) as Lb.
  rewrite indices_length in Lb. lia.
Qed.

Section Run.

Variable indet : nat -> byte.
Variable content : list byte.
Variable bad : option Z.
Variable labelFile : LabelFILE.
Variable room : option Z.

Let run := addLabelsToWaveFile indet (Some (fopen_r content bad)) (Some labelFile)
                               (Some (fopen_w room)).

Lemma run_total : run <> OutOfFuel.
Proof.
  subst run. unfold addLabelsToWaveFile, fatal.
  destruct (scanInputFile_spec indet content bad) as (_ & Hf & _).
  destruct (scanInputFile indet (fopen_r content bad)) as [hdr [st|d|]];
    cbn [snd] in Hf; try discriminate; [|contradiction].
  destruct (formatChunk st) as [fc|]; [|discriminate].
  pose proof (readLabelFile_total labelFile fc) as Hl.
  destruct (readLabelFile labelFile fc) as [li|k|]; try discriminate;
    [|contradiction].
  destruct (count li <? 1); [discriminate|].
  destruct (writeOutputFile _ _ _ _ _ _ _ _ _ _ _ _ _) as [fi fo|c fi fo];
    [discriminate|].
  destruct (c <? 0); discriminate.
Qed.

(** What a run that returns 0 has done. *)
Lemma run_success (r : Run) :
  run = Ok r -> returnCode r = 0 ->
  exists hdr st fc li fo,
    scanInputFile indet (fopen_r content bad) = (hdr, Scanned st) /\
    ScanInv content bad st /\
    formatChunk st = Some fc /\
    readLabelFile labelFile fc = Ok li /\
    1 <= count li /\
    outputFile r = Some fo /\
    len (wh_chunkID hdr) = 4 /\ len (wh_riffType hdr) = 4 /\
    Qout content
      (outputHeader hdr (fileDataSize_of st li))
      (FormatChunk_bytes fc)
      (formatChunkExtraBytes st) (dataChunkLocation st)
      (cueHeader li)
      (flat_map CuePoint_bytes (fill_cuePoints li))
      (listHeader li (compute_listChunkSize li))
      (fill_labelChunks li) (compute_listChunkSize li)
      (firstn (Z.to_nat (otherChunksCount st)) (otherChunkLocations st))
      (o_data fo).
Proof.
  subst run. unfold addLabelsToWaveFile, fatal. intros H Hc.
  destruct (scanInputFile_spec indet content bad) as (Hh & _ & Hs).
  destruct (scanInputFile indet (fopen_r content bad)) as [hdr [st|d|]] eqn:Escan;
    cbn [fst snd] in Hh, Hs;
    [|inversion H; subst; discriminate | discriminate].
  destruct (Hs st eq_refl) as (Sinv & _ & _).
  destruct (formatChunk st) as [fc|] eqn:Efc; [|inversion H; subst; discriminate].
  destruct (readLabelFile labelFile fc) as [li|k|] eqn:Elab; try discriminate.
  destruct (count li <? 1) eqn:Ecnt; [inversion H; subst; discriminate|].
  apply Z.ltb_ge in Ecnt.
  pose proof (readLabelFile_wf _ _ _ Elab) as W.
  pose proof W as (Hcnt & _). unfold maxLabels in Hcnt.
  pose proof Sinv as (Ifile & _ & _ & Hex & Hda & Hot & _ & Hfcl).
  destruct (fill_cuePoints_props li ltac:(lia)) as (Lc & Fc & _).
  assert (Ecount : littleEndianBytesToUInt32
                     (cc_cuePointsCount (make_cueChunk li)) = count li).
  { cbn [make_cueChunk cc_cuePointsCount]. apply UInt32_roundtrip_small. lia. }
  assert (Ecps : firstn (Z.to_nat (littleEndianBytesToUInt32
                                     (cc_cuePointsCount (make_cueChunk li))))
                        (cuePoints (make_cueChunk li)) = fill_cuePoints li).
  { rewrite Ecount. cbn [make_cueChunk cuePoints]. apply firstn_all2.
    unfold len in Lc. lia. }
  pose proof (compute_listChunkSize_pos li W Ecnt) as HL.
  pose proof (writeOutputFile_spec indet content
                (formatChunkExtraBytes st) (dataChunkLocation st)
                (otherChunksCount st) (otherChunkLocations st) li hdr fc
                (make_cueChunk li)
                (make_listChunk li (compute_listChunkSize li))
                (compute_listChunkSize li) Hex Hda Hot ltac:(lia)
                ltac:(rewrite Ecps; exact Fc)
                (inputFile st) (fopen_w room) Ifile) as Wr.
  cbv beta in Wr.
  destruct (writeOutputFile indet (inputFile st) (fopen_w room) _ _ _ _ _ _ _ _ _ _)
    as [fi' fo'|c fi' fo']; [contradiction|].
  assert (Hc0 : c = 0).
  { destruct (c <? 0); inversion H; subst; cbn [returnCode] in Hc; exact Hc. }
  subst c. change (0 <? 0) with false in H. inversion H; subst r. clear H.
  destruct Wr as [(_ & _ & (d & Ed & Qd) & _)|(Hneg & _)]; [|discriminate].
  cbn [fopen_w o_data app] in Ed.
  (* the sizes of the header block *)
  assert (Hblock : len (fst (fread (uninit indet 12) (fopen_r content bad))) = 12).
  { assert (I0 : FILE_inv content (fopen_r content bad)).
    { unfold FILE_inv, fopen_r. cbn [f_data f_pos f_eof].
      split; [reflexivity|]. split; [lia | discriminate]. }
    pose proof (fread_length content (uninit indet 12) (fopen_r content bad) I0) as E.
    pose proof (uninit_length indet 12) as U. unfold len in *. lia. }
  destruct (WaveHeader_of_bytes_lengths _ Hblock) as (Hid & Hty).
  rewrite <- Hh in Hid, Hty.
  exists hdr, st, fc, li, fo'.
  split; [reflexivity|]. split; [exact Sinv|]. split; [exact Efc|].
  split; [exact Elab|]. split; [exact Ecnt|]. split; [reflexivity|].
  split; [exact Hid|]. split; [exact Hty|].
  rewrite Ed. rewrite Ecps in Qd.
  rewrite (slice_all (FormatChunk_bytes fc)) in Qd by (rewrite (Hfcl fc Efc); lia).
  rewrite (slice_all (labelChunks _)) in Qd
    by (cbn [make_listChunk labelChunks]; rewrite (fill_labelChunks_length li W); lia).
  rewrite (slice_all (WaveHeader_bytes _)) in Qd.
  2:{ unfold WaveHeader_bytes. cbn [wh_chunkID wh_dataSize wh_riffType].
      unfold len in *. rewrite !length_app, uint32ToLittleEndianBytes_length. lia. }
  rewrite (slice_all (cc_chunkID _ ++ _)) in Qd by (unfold len; cbn; lia).
  rewrite (slice_all (lc_chunkID _ ++ _)) in Qd by (unfold len; cbn; lia).
  exact Qd.
Qed.

(** On devices without fault a run that gets as far as writing returns 0. *)
Lemma run_no_fault (hdr : WaveHeader) (st : ScanState) (fc : FormatChunk)
    (li : LabelInfo) :
  bad = None -> room = None ->
  scanInputFile indet (fopen_r content bad) = (hdr, Scanned st) ->
  formatChunk st = Some fc ->
  readLabelFile labelFile fc = Ok li -> 1 <= count li ->
  exists r, run = Ok r /\ returnCode r = 0.
Proof.
  intros Hb Hr Escan Efc Elab Ecnt. subst run.
  unfold addLabelsToWaveFile, fatal. rewrite Escan, Efc, Elab.
  destruct (count li <? 1) eqn:Ec; [apply Z.ltb_lt in Ec; lia|].
  destruct (scanInputFile_spec indet content bad) as (_ & _ & Hs).
  rewrite Escan in Hs. cbn [snd] in Hs.
  destruct (Hs st eq_refl) as (Sinv & _ & _).
  pose proof (readLabelFile_wf _ _ _ Elab) as W.
  pose proof W as (Hcnt & _). unfold maxLabels in Hcnt.
  pose proof Sinv as (Ifile & Herr & Hbad & Hex & Hda & Hot & _ & Hfcl).
  destruct (fill_cuePoints_props li ltac:(lia)) as (Lc & Fc & _).
  assert (Ecount : littleEndianBytesToUInt32
                     (cc_cuePointsCount (make_cueChunk li)) = count li).
  { cbn [make_cueChunk cc_cuePointsCount]. apply UInt32_roundtrip_small. lia. }
  assert (Ecps : firstn (Z.to_nat (littleEndianBytesToUInt32
                                     (cc_cuePointsCount (make_cueChunk li))))
                        (cuePoints (make_cueChunk li)) = fill_cuePoints li).
  { rewrite Ecount. cbn [make_cueChunk cuePoints]. apply firstn_all2.
    unfold len in Lc. lia. }
  pose proof (compute_listChunkSize_pos li W Ecnt) as HL.
  pose proof (writeOutputFile_spec indet content
                (formatChunkExtraBytes st) (dataChunkLocation st)
                (otherChunksCount st) (otherChunkLocations st) li hdr fc
                (make_cueChunk li)
                (make_listChunk li (compute_listChunkSize li))
                (compute_listChunkSize li) Hex Hda Hot ltac:(lia)
                ltac:(rewrite Ecps; exact Fc)
                (inputFile st) (fopen_w room) Ifile) as Wr.
  cbv beta in Wr.
  destruct (writeOutputFile indet (inputFile st) (fopen_w room) _ _ _ _ _ _ _ _ _ _)
    as [fi' fo'|c fi' fo']; [contradiction|].
  destruct Wr as [(Hc & _)|(_ & Hn)].
  - subst c. change (0 <? 0) with false. cbv iota. eexists. split; reflexivity.
  - exfalso. apply Hn. unfold NoFault. rewrite Hbad, Hb, Herr, Hr. auto.
Qed.

End Run.

(** ** The layout of the output *)

Lemma Qout_layout (content H F : list byte) (extra dataLoc : ChunkLocation)
    (CH CU LH LB : list byte) (L : Z) (others : list ChunkLocation)
    (d : list byte) :
  Qout content H F extra dataLoc CH CU LH LB L others d ->
  0 <= size extra -> L mod 2 = 0 ->
  exists extraB dataB padB othersB,
    d = H ++ F ++ extraB ++ dataB ++ padB ++ CH ++ CU ++ LH ++ LB ++ othersB /\
    len extraB = size extra + odd_pad (size extra) /\
    Qcopy content dataLoc dataB /\
    len padB = odd_pad (size dataLoc) /\
    len othersB = others_total others.
Proof.
  unfold Qout, Qseq, Qis, Qpad, Qothers.
  intros (d1 & r1 & -> & -> & d2 & r2 & -> & -> & d3 & r3 & -> & E3 &
          d4 & r4 & -> & E4 & d5 & r5 & -> & -> & d6 & r6 & -> & -> &
          d7 & r7 & -> & -> & d8 & r8 & -> & -> & d9 & r9 & -> & -> &
          d10 & r10 & -> & -> & d11 & r11 & -> & E11 & ->) Hx HL.
  rewrite HL. change (negb (0 =? 0)) with false. cbv iota.
  exists d3, d4, (if negb (size dataLoc mod 2 =? 0) then [x00] else []), d11.
  split; [cbn [app]; rewrite app_nil_r; reflexivity|].
  split.
  { unfold Qextra in E3. destruct (0 <? size extra) eqn:E.
    - destruct E3 as (c1 & c2 & -> & (Lc & _) & ->).
      unfold len in *. rewrite length_app. unfold odd_pad.
      destruct (size extra mod 2 =? 0); cbn [negb length]; lia.
    - apply Z.ltb_ge in E. assert (size extra = 0) by lia. subst d3.
      replace (size extra) with 0 by lia. reflexivity. }
  split; [exact E4|].
  split; [unfold odd_pad; destruct (size dataLoc mod 2 =? 0); reflexivity|].
  exact E11.
Qed.

Lemma cueHeader_length (li : LabelInfo) : len (cueHeader li) = 12.
Proof. reflexivity. Qed.

Lemma listHeader_length (li : LabelInfo) (L : Z) : len (listHeader li L) = 12.
Proof. reflexivity. Qed.

Lemma outputHeader_props (hdr : WaveHeader) (v : Z) (rest : list byte) :
  len (wh_chunkID hdr) = 4 -> len (wh_riffType hdr) = 4 ->
  len (outputHeader hdr v) = 12 /\
  slice (outputHeader hdr v ++ rest) 4 4 = uint32ToLittleEndianBytes v.
Proof.
  intros H1 H2. unfold outputHeader, WaveHeader_bytes.
  cbn [wh_chunkID wh_dataSize wh_riffType]. split.
  - unfold len in *. rewrite !length_app, uint32ToLittleEndianBytes_length. lia.
  - rewrite <- !app_assoc. rewrite slice_app_skip by lia.
    rewrite H1. apply slice_app_take. reflexivity.
Qed.

Lemma wrap32_idem (z : Z) : wrap32 (wrap32 z) = wrap32 z.
Proof. unfold wrap32. apply Z.mod_mod. lia. Qed.

Lemma fileDataSize_total (st : ScanState) (li : LabelInfo) :
  fileDataSize_of st li = wrap32 (total_of st li).
Proof.
  unfold fileDataSize_of, total_of. rewrite compute_fileDataSize_eq.
  unfold spec_total_size.
  assert (P : odd_pad (compute_listChunkSize li) = 0)
    by (unfold odd_pad; rewrite compute_listChunkSize_even; reflexivity).
  rewrite P. f_equal. lia.
Qed.

(** The length of the output of a successful run, the value in its header
    and the place of the data chunk. *)
Lemma output_layout (content : list byte) (hdr : WaveHeader) (st : ScanState)
    (fc : FormatChunk) (li : LabelInfo) (out : list byte) :
  ScanInv content (f_bad (inputFile st)) st ->
  formatChunk st = Some fc -> LabelInfo_wf li ->
  len (wh_chunkID hdr) = 4 -> len (wh_riffType hdr) = 4 ->
  Qout content
    (outputHeader hdr (fileDataSize_of st li)) (FormatChunk_bytes fc)
    (formatChunkExtraBytes st) (dataChunkLocation st)
    (cueHeader li) (flat_map CuePoint_bytes (fill_cuePoints li))
    (listHeader li (compute_listChunkSize li))
    (fill_labelChunks li) (compute_listChunkSize li)
    (firstn (Z.to_nat (otherChunksCount st)) (otherChunkLocations st)) out ->
  len out - 8 = total_of st li /\
  littleEndianBytesToUInt32 (slice out 4 4) = wrap32 (total_of st li) /\
  len (slice out (dataOffset_out st) (size (dataChunkLocation st))) =
    size (dataChunkLocation st) /\
  (startOffset (dataChunkLocation st) + size (dataChunkLocation st) <= len content ->
   slice out (dataOffset_out st) (size (dataChunkLocation st)) =
   slice content (startOffset (dataChunkLocation st)) (size (dataChunkLocation st))).
Proof.
  intros Sinv Efc W Hid Hty Q.
  pose proof Sinv as (_ & _ & _ & (_ & Hex) & (_ & Hda) & _ & _ & Hfcl).
  pose proof W as (Hcnt & _). unfold maxLabels in Hcnt.
  destruct (Qout_layout _ _ _ _ _ _ _ _ _ _ _ _ Q Hex
              (compute_listChunkSize_even li))
    as (extraB & dataB & padB & othersB & -> & Lx & (Ld & Cd) & Lp & Lo).
  destruct (outputHeader_props hdr (fileDataSize_of st li)
              (FormatChunk_bytes fc ++ extraB ++ dataB ++ padB ++ cueHeader li ++
               flat_map CuePoint_bytes (fill_cuePoints li) ++
               listHeader li (compute_listChunkSize li) ++
               fill_labelChunks li ++ othersB) Hid Hty) as (Lh & Sh).
  destruct (fill_cuePoints_props li ltac:(lia)) as (_ & _ & Lcu).
  pose proof (fill_labelChunks_length li W) as Llb.
  pose proof (Hfcl fc Efc) as Lf.
  pose proof (cueHeader_length li) as Lch.
  pose proof (listHeader_length li (compute_listChunkSize li)) as Llh.
  split.
  { unfold total_of, spec_total_size.
    assert (P : odd_pad (compute_listChunkSize li) = 0)
      by (unfold odd_pad; rewrite compute_listChunkSize_even; reflexivity).
    rewrite P. unfold len in *. rewrite !length_app. lia. }
  split.
  { rewrite Sh, UInt32_roundtrip, fileDataSize_total. apply wrap32_idem. }
  assert (Hs : slice (outputHeader hdr (fileDataSize_of st li) ++
                      FormatChunk_bytes fc ++ extraB ++ dataB ++ padB ++
                      cueHeader li ++ flat_map CuePoint_bytes (fill_cuePoints li) ++
                      listHeader li (compute_listChunkSize li) ++
                      fill_labelChunks li ++ othersB)
                     (dataOffset_out st) (size (dataChunkLocation st)) = dataB).
  { unfold dataOffset_out.
    assert (0 <= odd_pad (size (formatChunkExtraBytes st)) <= 1)
      by (unfold odd_pad; destruct (_ =? 0); lia).
    rewrite slice_app_skip by lia. rewrite slice_app_skip by lia.
    rewrite slice_app_skip by lia.
    replace (12 + 24 + size (formatChunkExtraBytes st) +
             odd_pad (size (formatChunkExtraBytes st)) -
             len (outputHeader hdr (fileDataSize_of st li)) -
             len (FormatChunk_bytes fc) - len extraB) with 0 by lia.
    apply slice_app_take. lia. }
  rewrite Hs. split; [exact Ld | exact Cd].
Qed.

(** ** The position of the input stream after a copy *)

Section CopierPosition.

Variable indet : nat -> byte.

Lemma fseek_set_pos (f : FILE) (orig : Z) :
  0 <= orig -> f_pos (snd (fseek f orig SEEK_SET)) = orig.
Proof. intros H. rewrite fseek_set by exact H. reflexivity. Qed.

Lemma copyBlocks_return (orig : Z) :
  0 <= orig ->
  forall n fi fo c fi' fo',
    copyBlocks indet n orig fi fo = Return c fi' fo' ->
    c = -1 /\ f_pos fi' = orig.
Proof.
  intros Ho. induction n as [|n IH]; intros fi fo c fi' fo' H;
    cbn [copyBlocks] in H; [discriminate|].
  destruct (fread (uninit indet 1024) fi) as [buffer fi1].
  destruct (ferror fi1).
  { inversion H; subst. split; [reflexivity | apply fseek_set_pos; exact Ho]. }
  destruct (fwrite buffer 1 1024 fo) as [w fo1].
  destruct (w <? 1).
  { inversion H; subst. split; [reflexivity | apply fseek_set_pos; exact Ho]. }
  apply (IH _ _ _ _ _ H).
Qed.

Lemma copyRest_return (orig rem : Z) (fi fi' : FILE) (fo fo' : OFILE) (c : Z) :
  0 <= orig ->
  copyRest indet rem orig fi fo = Return c fi' fo' -> c <> 0 ->
  f_pos fi' = orig.
Proof.
  intros Ho H Hc. unfold copyRest in H.
  destruct (0 <? rem); [|inversion H; subst; congruence].
  destruct (fread (uninit indet rem) fi) as [buffer fi1].
  destruct (ferror fi1).
  { inversion H; subst. apply fseek_set_pos; exact Ho. }
  destruct (fwrite buffer 1 rem fo) as [w fo1].
  destruct (w <? 1).
  { inversion H; subst. apply fseek_set_pos; exact Ho. }
  inversion H; subst. congruence.
Qed.

(** Every path of the copier that reports a failure leaves the stream where
    it was on entry. *)
Lemma copier_failure_restores (chunk : ChunkLocation) (fi fi' : FILE)
    (fo fo' : OFILE) (c : Z) :
  0 <= f_pos fi ->
  writeChunkLocationFromInputFileToOutputFile indet chunk fi fo = Return c fi' fo' ->
  c <> 0 -> f_pos fi' = f_pos fi.
Proof.
  intros Hp H Hc. unfold writeChunkLocationFromInputFileToOutputFile in H.
  destruct (fseek fi (startOffset chunk) SEEK_SET) as [r fi1] eqn:Es.
  destruct (r <? 0) eqn:Er.
  { inversion H; subst. unfold fseek in Es.
    destruct (_ <? 0); inversion Es; subst; [reflexivity|discriminate]. }
  unfold andThen in H.
  destruct (copyBlocks indet _ (ftell fi) fi1 fo) as [fi2 fo2|c2 fi2 fo2] eqn:Eb.
  - apply (copyRest_return (ftell fi) _ _ _ _ _ _ Hp H Hc).
  - inversion H; subst.
    apply (copyBlocks_return (ftell fi) Hp _ _ _ _ _ _ Eb).
Qed.

(** The path that reports success leaves it after the bytes it has read. *)
Lemma copier_success_position (data : list byte) (chunk : ChunkLocation)
    (fi fi' : FILE) (fo fo' : OFILE) :
  FILE_inv data fi -> ChunkLocation_ok chunk ->
  startOffset chunk + size chunk <= len data ->
  writeChunkLocationFromInputFileToOutputFile indet chunk fi fo = Return 0 fi' fo' ->
  f_pos fi' = startOffset chunk + size chunk.
Proof.
  intros Hi (Hs & Hz) Hr H.
  unfold writeChunkLocationFromInputFileToOutputFile in H.
  rewrite (fseek_set fi (startOffset chunk) Hs) in H.
  change (0 <? 0) with false in H. cbv iota in H. unfold andThen in H.
  set (fi0 := mkFILE (f_data fi) (startOffset chunk) false (f_err fi) (f_bad fi)) in *.
  assert (I0 : FILE_inv data fi0).
  { destruct Hi as (Hd & _). unfold FILE_inv, fi0. cbn [f_data f_pos f_eof].
    split; [exact Hd|]. split; [exact Hs | discriminate]. }
  pose proof (copyBlocks_spec indet data (ftell fi)
                (Z.to_nat (size chunk / 1024)) fi0 fo I0) as B.
  assert (Hq : 0 <= size chunk / 1024) by (apply Z.div_pos; lia).
  rewrite Z2Nat.id in B by exact Hq.
  pose proof (Z.div_mod (size chunk) 1024 ltac:(lia)) as Hdm.
  pose proof (Z.mod_pos_bound (size chunk) 1024 ltac:(lia)) as Hmb.
  destruct (copyBlocks indet _ (ftell fi) fi0 fo) as [fi1 fo1|c fi1 fo1].
  2:{ destruct B as (Hc & _). inversion H; subst. discriminate. }
  destruct B as (I1 & _ & (d1 & _ & _ & C1)).
  change (f_pos fi0) with (startOffset chunk) in C1.
  destruct C1 as (_ & C1b); [lia|].
  pose proof (copyRest_spec indet data (ftell fi) (size chunk mod 1024)
                ltac:(lia) fi1 fo1 I1) as R.
  rewrite H in R.
  destruct R as [(_ & _ & _ & (d2 & _ & _ & C2))|(Hc & _)]; [|discriminate].
  destruct C2 as (_ & C2b); [lia|]. lia.
Qed.

End CopierPosition.

(** ** Entries of the table are not touched again *)

Lemma storeLabel_frame (fc : FormatChunk) (li li' : LabelInfo) (t : float)
    (s : list byte) :
  storeLabel fc li t s = Ok li' -> 0 <= count li ->
  count li <= count li' /\
  forall j, 0 <= j < count li ->
    nthZ j (locations li') 0 = nthZ j (locations li) 0.
Proof.
  intros H Hc. unfold storeLabel in H.
  destruct (f32_leb t (f32_of_Z 48660)); [|inversion H; subst; split; [lia|auto]].
  destruct (count li <? maxLabels); [|discriminate].
  destruct (timeToIndex t fc); [|discriminate].
  inversion H; subst; clear H. cbn [count locations]. split; [lia|].
  intros j Hj. unfold nthZ. apply nth_upd_neq. lia.
Qed.

Lemma readLabelFile_loop_frame (fc : FormatChunk) :
  forall fuel f li lif,
    readLabelFile_loop fuel fc f li = Ok lif -> 0 <= count li ->
    count li <= count lif /\
    forall j, 0 <= j < count li ->
      nthZ j (locations lif) 0 = nthZ j (locations li) 0.
Proof.
  induction fuel as [|fuel IH]; intros f li lif H Hc;
    cbn [readLabelFile_loop] in H; destruct (feof_label f).
  - inversion H; subst. split; [lia | auto].
  - discriminate.
  - inversion H; subst. split; [lia | auto].
  - destruct (readLabelFile_body fc (f, li)) as [[f2 li2]| |] eqn:B;
      try discriminate.
    unfold readLabelFile_body in B.
    destruct (fscanf_label f) as [r| |]; try discriminate.
    assert (F : count li <= count li2 /\
                forall j, 0 <= j < count li ->
                  nthZ j (locations li2) 0 = nthZ j (locations li) 0).
    { destruct (negb (sr_return r =? 2)).
      - inversion B; subst. split; [lia | auto].
      - destruct (storeLabel fc li (sr_startTime r) (sr_labelString r))
          as [li3| |] eqn:S; try discriminate.
        inversion B; subst. apply (storeLabel_frame _ _ _ _ _ S Hc). }
    destruct F as (F1 & F2).
    destruct (IH f2 li2 lif H ltac:(lia)) as (G1 & G2).
    split; [lia|]. intros j Hj. rewrite G2 by lia. apply F2. exact Hj.
Qed.

(** ** The end of the stream during the scan *)

Lemma fread_no_fault_limit (ptr : list byte) (f : FILE) :
  f_limit f = len (f_data f) ->
  f_err (snd (fread ptr f)) = f_err f.
Proof.
  intros Hl. pose proof (len_nonneg ptr) as Hn.
  unfold fread. cbn [snd f_err]. rewrite Hl.
  set (k := Z.max 0 (Z.min (len ptr) (len (f_data f) - f_pos f))).
  destruct (k <? len ptr) eqn:Hs; cbn [andb]; [|apply orb_false_r].
  apply Z.ltb_lt in Hs.
  destruct (len (f_data f) <=? f_pos f + k) eqn:Ha; cbn [negb]; [apply orb_false_r|].
  apply Z.leb_gt in Ha. unfold k in *. lia.
Qed.

Lemma fread_short_eof (ptr : list byte) (f : FILE) :
  0 < len ptr ->
  f_limit f = len (f_data f) -> len (f_data f) < f_pos f + len ptr ->
  f_eof (snd (fread ptr f)) = true.
Proof.
  intros Hn Hl Hs. unfold fread. cbn [snd f_eof]. rewrite Hl.
  set (k := Z.max 0 (Z.min (len ptr) (len (f_data f) - f_pos f))).
  assert (H1 : (k <? len ptr) = true) by (apply Z.ltb_lt; unfold k; lia).
  assert (H2 : (len (f_data f) <=? f_pos f + k) = true)
    by (apply Z.leb_le; unfold k; lia).
  rewrite H1, H2. apply orb_true_r.
Qed.

Section ScanEnd.

Variable indet : nat -> byte.
Variable data : list byte.
Variable bad : option Z.
Variable st : ScanState.
Hypothesis Hst : ScanInv data bad st.
Hypothesis Hlim : f_limit (inputFile st) = len data.

(** End of the stream where the next chunk identifier is read. *)
Lemma scanChunk_eof_at_identifier :
  len data < f_pos (inputFile st) + 4 ->
  scanChunk indet st =
    Break (with_file st (snd (fread (uninit indet 4) (inputFile st)))).
Proof.
  intros Hs. destruct Hst as ((Hd & _) & _).
  unfold scanChunk.
  pose proof (fread_short_eof (uninit indet 4) (inputFile st)) as E.
  rewrite Hd, (uninit_length indet 4) in E.
  specialize (E ltac:(reflexivity) Hlim Hs).
  destruct (fread (uninit indet 4) (inputFile st)) as [id f1]. cbn [snd] in *.
  unfold feof. rewrite E. reflexivity.
Qed.

(** End of the stream in the length field or in the type field of a LIST
    chunk. *)
Lemma scanChunk_eof_in_list :
  slice data (f_pos (inputFile st)) 4 = bytes "LIST" ->
  f_pos (inputFile st) + 4 <= len data < f_pos (inputFile st) + 12 ->
  exists st', scanChunk indet st = Break st'.
Proof.
  intros Hid Hr. pose proof Hst as (Hi & He & Hb & _).
  pose proof Hi as (Hd & Hp & _).
  unfold scanChunk.
  pose proof (uninit_length indet 4) as Hu4. change (Z.max 0 4) with 4 in Hu4.
  destruct (fread_step data bad (uninit indet 4) (inputFile st) Hi Hb)
    as (I1 & B1 & Lm1 & _ & _).
  pose proof (fread_full data (uninit indet 4) (inputFile st) Hi ltac:(lia)) as F1.
  pose proof (fread_in_range data (uninit indet 4) (inputFile st) Hi ltac:(lia)
                ltac:(lia)) as R1.
  pose proof (fread_no_fault_limit (uninit indet 4) (inputFile st)
                ltac:(rewrite Hd; exact Hlim)) as N1.
  destruct (fread (uninit indet 4) (inputFile st)) as [id f1]. cbn [fst snd] in *.
  unfold feof, ferror. rewrite R1. rewrite N1, He.
  destruct (F1 R1 ltac:(congruence)) as (P1 & _ & Eid & _).
  rewrite Hu4 in P1, Eid. rewrite Hid in Eid. subst id.
  change (strncmp4_eq (bytes "LIST") "fmt ") with false.
  change (strncmp4_eq (bytes "LIST") "data") with false.
  change (strncmp4_eq (bytes "LIST") "cue ") with false.
  change (strncmp4_eq (bytes "LIST") "LIST") with true. cbv iota.
  assert (Hlim1 : f_limit f1 = len (f_data f1)).
  { destruct I1 as (D1 & _). rewrite D1, Lm1. exact Hlim. }
  destruct (fread_step data bad (repeat x00 4) f1 I1 B1) as (I2 & B2 & Lm2 & P2 & _).
  pose proof (fread_no_fault_limit (repeat x00 4) f1 Hlim1) as N2.
  pose proof (fread_full data (repeat x00 4) f1 I1 ltac:(reflexivity)) as F2.
  destruct (fread (repeat x00 4) f1) as [szb f2]. cbn [fst snd] in *.
  rewrite N2, N1, He.
  assert (Hlim2 : f_limit f2 = len (f_data f2)).
  { destruct I2 as (D2 & _). destruct I1 as (D1 & _). rewrite D2, Lm2, Lm1.
    exact Hlim. }
  assert (E3 : f_eof (snd (fread (uninit indet 4) f2)) = true).
  { destruct (f_eof f2) eqn:Eeof2.
    - apply (fread_eof_sticky data (uninit indet 4) f2 I2 Eeof2).
    - destruct (F2 eq_refl ltac:(congruence)) as (Q2 & _).
      change (len (repeat x00 4)) with 4 in Q2.
      pose proof (fread_short_eof (uninit indet 4) f2) as E.
      rewrite Hu4 in E. specialize (E ltac:(lia) Hlim2).
      destruct I2 as (D2 & _). rewrite D2 in E. apply E. lia. }
  destruct (fread (uninit indet 4) f2) as [ty f3]. cbn [snd] in *.
  rewrite E3. eexists. reflexivity.
Qed.

(** The scan neither goes on nor ends normally with the error indicator of
    the stream raised. *)
Lemma scanChunk_error_is_fatal (st' : ScanState) :
  scanChunk indet st = Continue st' \/ scanChunk indet st = Break st' ->
  f_err (inputFile st') = false.
Proof.
  pose proof (scanChunk_spec indet data bad st Hst) as S.
  intros [H|H]; rewrite H in S.
  - destruct S as ((_ & E & _) & _). exact E.
  - destruct S as (_ & E & _). exact E.
Qed.

End ScanEnd.

(** ** The data chunk of the output *)

(** A run that returns 0 has copied the data chunk (identifier, length
    field and payload) when the chunk the scan recorded lies within the
    input file. *)
Lemma data_chunk_preserved (indet : nat -> byte) (content : list byte)
    (bad : option Z) (labelFile : LabelFILE) (room : option Z) (r : Run) :
  addLabelsToWaveFile indet (Some (fopen_r content bad)) (Some labelFile)
                      (Some (fopen_w room)) = Ok r ->
  returnCode r = 0 ->
  exists hdr st fo,
    scanInputFile indet (fopen_r content bad) = (hdr, Scanned st) /\
    outputFile r = Some fo /\
    (startOffset (dataChunkLocation st) + size (dataChunkLocation st)
       <= len content ->
     slice (o_data fo) (dataOffset_out st) (size (dataChunkLocation st)) =
     slice content (startOffset (dataChunkLocation st))
           (size (dataChunkLocation st))).
Proof.
  intros Hrun Hc.
  destruct (run_success indet content bad labelFile room r Hrun Hc)
    as (hdr & st & fc & li & fo & Escan & Sinv & Efc & Elab & Ecnt & Eout &
        Hid & Hty & Q).
  pose proof (readLabelFile_wf _ _ _ Elab) as W.
  assert (Sinv' : ScanInv content (f_bad (inputFile st)) st).
  { destruct Sinv as (S1 & S2 & S3 & S4). rewrite S3.
    split; [exact S1|]. split; [exact S2|]. split; [exact S3 | exact S4]. }
  destruct (output_layout content hdr st fc li (o_data fo) Sinv' Efc W Hid Hty Q)
    as (_ & _ & _ & L).
  exists hdr, st, fo. split; [exact Escan|]. split; [exact Eout | exact L].
Qed.

(** ** The fatal exits of the scan *)

Lemma scanChunk_fatal_kinds (indet : nat -> byte) (st : ScanState) (d : Diagnostic) :
  scanChunk indet st = Fatal d ->
  d = ErrorReadingInput \/ d = CompressedFormat \/ d = TooManyChunks.
Proof.
  unfold scanChunk, scanOtherChunk.
  repeat match goal with
         | |- context [fread ?p ?f] => destruct (fread p f)
         | |- context [if ?b then _ else _] => destruct b
         end;
    intros H; inversion H; auto.
Qed.

Lemma scanLoop_fatal_kinds (indet : nat -> byte) :
  forall fuel st d,
    scanLoop indet fuel st = ScanFatal d ->
    d = ErrorReadingInput \/ d = CompressedFormat \/ d = TooManyChunks.
Proof.
  induction fuel as [|fuel IH]; intros st d H; cbn [scanLoop] in H;
    [discriminate|].
  destruct (scanChunk indet st) as [st1|st1|d1] eqn:E; try discriminate.
  - apply (IH st1 d H).
  - inversion H; subst. apply (scanChunk_fatal_kinds indet st d E).
Qed.

(** The scan never ends with a diagnostic of the writer. *)
Lemma scanInputFile_fatal_kinds (indet : nat -> byte) (f : FILE) (d : Diagnostic) :
  snd (scanInputFile indet f) = ScanFatal d ->
  d <> ErrorWritingOutput /\ d <> CouldNotOpenOutput /\
  d <> NoCuePointLocations.
Proof.
  unfold scanInputFile. destruct (fread _ f) as [block f1].
  destruct (ferror f1); [intros H; inversion H; repeat split; discriminate|].
  destruct (negb (strncmp4_eq _ "RIFF"));
    [intros H; inversion H; repeat split; discriminate|].
  destruct (negb (strncmp4_eq _ "WAVE"));
    [intros H; inversion H; repeat split; discriminate|].
  destruct (_ <=? 0); [intros H; inversion H; repeat split; discriminate|].
  destruct (scanLoop indet _ _) as [s|d1|] eqn:E; cbn [snd].
  - destruct (formatChunk s);
      [|cbn [snd]; intros H; inversion H; repeat split; discriminate].
    destruct (size _ =? 0); cbn [snd]; intros H; inversion H.
    repeat split; discriminate.
  - intros H. inversion H; subst.
    destruct (scanLoop_fatal_kinds indet _ _ _ E) as [K|[K|K]]; subst;
      repeat split; discriminate.
  - discriminate.
Qed.

(** On a device without fault no read of the scan raises the error
    indicator: the exit [ErrorReadingInput] is not taken, wherever the
    stream ends. *)
Lemma scanChunk_no_read_error (indet : nat -> byte) (data : list byte)
    (st : ScanState) :
  ScanInv data None st -> scanChunk indet st <> Fatal ErrorReadingInput.
Proof.
  intros (Hi & He & Hb & _).
  assert (R : forall p f, f_bad f = None -> f_err f = false ->
              f_bad (snd (fread p f)) = None /\ f_err (snd (fread p f)) = false).
  { intros p f B E. split; [exact B|].
    unfold fread. cbn [snd f_err]. unfold f_limit. rewrite B, E. cbn [orb].
    pose proof (len_nonneg p) as Hn.
    set (k := Z.max 0 (Z.min (len p) (len (f_data f) - f_pos f))).
    destruct (k <? len p) eqn:Hs; [|reflexivity]. apply Z.ltb_lt in Hs.
    cbn [andb]. apply negb_false_iff. apply Z.leb_le. unfold k in *. lia. }
  assert (K : forall f o w, f_bad f = None -> f_err f = false ->
              f_bad (snd (fseek f o w)) = None /\ f_err (snd (fseek f o w)) = false).
  { intros f o w B E. unfold fseek. destruct (_ <? 0); cbn [snd f_bad f_err]; auto. }
  unfold scanChunk.
  destruct (R (uninit indet 4) (inputFile st) Hb He) as (B1 & E1).
  destruct (fread (uninit indet 4) (inputFile st)) as [id f1]. cbn [snd] in *.
  unfold feof, ferror. destruct (f_eof f1); [discriminate|]. rewrite E1.
  destruct (strncmp4_eq id "fmt ").
  { destruct (K f1 (-4) SEEK_CUR B1 E1) as (B2 & E2).
    destruct (R (uninit indet sizeof_FormatChunk) _ B2 E2) as (B3 & E3).
    destruct (fread (uninit indet sizeof_FormatChunk) _) as [block f3].
    cbn [snd] in *. rewrite E3.
    destruct (negb _ && negb _); [discriminate|].
    destruct (0 <? _); discriminate. }
  destruct (strncmp4_eq id "data").
  { destruct (R (uninit indet 4) f1 B1 E1) as (B2 & E2).
    destruct (fread (uninit indet 4) f1) as [szb f2]. cbn [snd] in *.
    rewrite E2. discriminate. }
  destruct (strncmp4_eq id "cue ").
  { destruct (R (uninit indet 4) f1 B1 E1) as (B2 & E2).
    destruct (fread (uninit indet 4) f1) as [szb f2]. cbn [snd] in *.
    rewrite E2. discriminate. }
  assert (O : forall f, f_bad f = None -> f_err f = false ->
              scanOtherChunk st f <> Fatal ErrorReadingInput).
  { intros f B E. unfold scanOtherChunk.
    destruct (maxOtherChunks <=? otherChunksCount st); [discriminate|].
    destruct (R (repeat x00 4) f B E) as (B2 & E2).
    destruct (fread (repeat x00 4) f) as [szb f2]. cbn [snd] in *.
    unfold ferror. rewrite E2. discriminate. }
  destruct (strncmp4_eq id "LIST"); [|apply (O f1 B1 E1)].
  destruct (R (repeat x00 4) f1 B1 E1) as (B2 & E2).
  destruct (fread (repeat x00 4) f1) as [szb f2]. cbn [snd] in *.
  rewrite E2.
  destruct (R (uninit indet 4) f2 B2 E2) as (B3 & E3).
  destruct (fread (uninit indet 4) f2) as [ty f3]. cbn [snd] in *.
  destruct (f_eof f3); [discriminate|]. rewrite E3.
  destruct (strncmp4_eq ty "adtl"); [discriminate|].
  destruct (K f3 (-1 * (4 + 4)) SEEK_CUR B3 E3) as (B4 & E4).
  apply (O _ B4 E4).
Qed.

Lemma scanLoop_no_read_error (indet : nat -> byte) (data : list byte) :
  forall fuel st,
    ScanInv data None st -> scanLoop indet fuel st <> ScanFatal ErrorReadingInput.
Proof.
  induction fuel as [|fuel IH]; intros st Hst; cbn [scanLoop]; [discriminate|].
  pose proof (scanChunk_spec indet data None st Hst) as S.
  pose proof (scanChunk_no_read_error indet data st Hst) as N.
  destruct (scanChunk indet st) as [st1|st1|d]; [|discriminate|].
  - apply IH. apply S.
  - intros H. inversion H; subst. apply N. reflexivity.
Qed.

Lemma scanInputFile_no_read_error (indet : nat -> byte) (content : list byte) :
  snd (scanInputFile indet (fopen_r content None)) <> ScanFatal ErrorReadingInput.
Proof.
  unfold scanInputFile. change sizeof_WaveHeader with 12.
  assert (I0 : FILE_inv content (fopen_r content None)).
  { unfold FILE_inv, fopen_r. cbn [f_data f_pos f_eof].
    split; [reflexivity|]. split; [lia | discriminate]. }
  destruct (fread_step content None (uninit indet 12) (fopen_r content None) I0 eq_refl)
    as (I1 & B1 & _ & P1 & _).
  pose proof (fread_no_fault (uninit indet 12) (fopen_r content None)
                eq_refl) as E1.
  destruct (fread (uninit indet 12) (fopen_r content None)) as [block f1].
  cbn [fst snd] in *. unfold ferror. rewrite E1. cbn [fopen_r f_err].
  destruct (negb (strncmp4_eq _ "RIFF")); [discriminate|].
  destruct (negb (strncmp4_eq _ "WAVE")); [discriminate|].
  destruct (_ <=? 0); [discriminate|].
  set (st0 := mkScanState f1 None (mkChunkLocation 0 0) (mkChunkLocation 0 0) 0 []).
  assert (S0 : ScanInv content None st0).
  { unfold ScanInv, st0, ChunkLocation_ok, maxOtherChunks.
    cbn [inputFile formatChunk formatChunkExtraBytes dataChunkLocation
         otherChunksCount otherChunkLocations startOffset size].
    split; [exact I1|]. split; [exact E1|]. split; [exact B1|].
    split; [lia|]. split; [lia|]. split; [constructor|]. split; [lia|].
    intros fc Hfc. discriminate. }
  pose proof (scanLoop_no_read_error indet content
                (S (length (f_data (fopen_r content None)))) st0 S0) as N.
  destruct (scanLoop indet _ st0) as [st|d|]; cbn [snd].
  - destruct (formatChunk st); [|discriminate].
    destruct (size _ =? 0); discriminate.
  - exact N.
  - discriminate.
Qed.

(** ** The conversion of a [float] to [uint32_t] *)

(** The conversion yields the integral part of the number the [float]
    stands for: the fraction is cut off. *)
Lemma f32_to_uint32_integral_part (x : float) (index : Z) :
  f32_to_uint32 x = Some index ->
  0 < f32_den x /\
  index = Z.quot (f32_num x) (f32_den x) /\
  (0 <= f32_num x ->
   index * f32_den x <= f32_num x < (index + 1) * f32_den x) /\
  (f32_num x < 0 -> index = 0 /\ - f32_den x < f32_num x).
Proof.
  destruct x as [s| | |s m e]; cbn [f32_to_uint32 f32_num f32_den];
    try discriminate.
  - intros H. inversion H; subst. repeat split; try lia; reflexivity.
  - set (d := 2 ^ Z.max 0 (- e)).
    assert (Hd : 0 < d) by (apply Z.pow_pos_nonneg; lia).
    destruct (0 <=? e) eqn:Ee.
    + apply Z.leb_le in Ee.
      assert (Ed : d = 1) by (unfold d; rewrite Z.max_l by lia; reflexivity).
      rewrite Z.max_r by lia.
      assert (Hm : 0 < Zpos m * 2 ^ e)
        by (apply Z.mul_pos_pos; [lia | apply Z.pow_pos_nonneg; lia]).
      set (v := Zpos m * 2 ^ e) in *.
      destruct s.
      * destruct ((0 <=? - v) && _) eqn:B; [|discriminate].
        apply andb_true_iff in B. destruct B as (B & _). apply Z.leb_le in B. lia.
      * destruct ((0 <=? v) && _) eqn:B; [|discriminate].
        intros H. inversion H; subst index. rewrite Ed.
        split; [lia|]. split; [rewrite Z.quot_1_r; lia|]. split; lia.
    + apply Z.leb_gt in Ee.
      assert (Ed : d = 2 ^ (- e)) by (unfold d; rewrite Z.max_r by lia; reflexivity).
      rewrite Z.max_l by lia. change (2 ^ 0) with 1. rewrite Z.mul_1_r.
      rewrite <- Ed.
      pose proof (Z.div_mod (Zpos m) d ltac:(lia)) as Hdm.
      pose proof (Z.mod_pos_bound (Zpos m) d Hd) as Hmb.
      assert (Hq : 0 <= Zpos m / d) by (apply Z.div_pos; lia).
      destruct s.
      * destruct ((0 <=? - (Zpos m / d)) && _) eqn:B; [|discriminate].
        apply andb_true_iff in B. destruct B as (B & _). apply Z.leb_le in B.
        intros H. inversion H; subst index.
        assert (Hz : Zpos m / d = 0) by lia.
        split; [exact Hd|].
        split.
        { rewrite Hz. change (-1 * Zpos m) with (- Zpos m).
          rewrite Z.quot_opp_l by lia.
          rewrite Z.quot_div_nonneg by lia. rewrite Hz. reflexivity. }
        split; [lia|]. intros _. split; [lia|]. nia.
      * destruct ((0 <=? Zpos m / d) && _) eqn:B; [|discriminate].
        intros H. inversion H; subst index.
        split; [exact Hd|].
        split; [rewrite Z.mul_1_l, Z.quot_div_nonneg by lia; reflexivity|].
        split; [intros _; nia | lia].
Qed.

(** * The properties of the specification *)

(** C1. For every input WAVE file accepted by the scanner and every label
    file yielding at least one valid entry, a run that exits with code zero
    produces an output file containing a data chunk whose identifier, length
    field, and payload bytes are byte-identical to the input's data chunk
    bytes.  This fails for the file whose data chunk announces four bytes of
    payload and holds two: the run returns 0, and the payload of the data
    chunk of the output ends with two bytes of the copier's uninitialised
    buffer, so that no chunk of the output is the data chunk of the input
    and the output is not determined by the input. *)
Theorem C1_truncated_data_chunk :
  let out := output_of (run_wav wav_truncated_data label_mid) in
  let out0 :=
    output_of (addLabelsToWaveFile zeros (Some (fopen_r wav_truncated_data None))
                 (Some (open_labels label_mid)) (Some (fopen_w None))) in
  exit_of (run_wav wav_truncated_data label_mid) = Some 0 /\
  chunk_at wav_truncated_data 36 = (bytes "data", le_bytes 4 4, [x01; x02]) /\
  chunk_at out 36 = (bytes "data", le_bytes 4 4, [x01; x02; xaa; xaa]) /\
  chunk_at out0 36 = (bytes "data", le_bytes 4 4, [x01; x02; x00; x00]) /\
  contains_chunk out (chunk_at wav_truncated_data 36) = false /\
  contains_chunk out0 (chunk_at wav_truncated_data 36) = false.
Proof. vm_compute. repeat split; reflexivity. Qed.

(** C2. On every successful run on an output device that accepts every
    byte written, the total output length minus 8 equals
    4 + 8 + 16 + extra-bytes-size + odd-pad(extra-bytes-size) +
    data-location-size + odd-pad(data-location-size) + the sum over
    preserved other chunks of (size + odd-pad(size)) + 12 + 24 x cue-count +
    12 + list-body-size + odd-pad(list-body-size), and the 32-bit length
    written into the output container header equals that number modulo
    2^32: it is the total output length minus 8 when that is below 2^32. *)
Theorem C2_header_length (indet : nat -> byte) (content : list byte)
    (bad : option Z) (labelFile : LabelFILE) (r : Run) :
  addLabelsToWaveFile indet (Some (fopen_r content bad)) (Some labelFile)
                      (Some (fopen_w None)) = Ok r ->
  returnCode r = 0 ->
  exists hdr st fc li fo,
    scanInputFile indet (fopen_r content bad) = (hdr, Scanned st) /\
    formatChunk st = Some fc /\
    readLabelFile labelFile fc = Ok li /\
    outputFile r = Some fo /\
    len (o_data fo) - 8 =
      spec_total_size (size (formatChunkExtraBytes st))
        (size (dataChunkLocation st))
        (firstn (Z.to_nat (otherChunksCount st)) (otherChunkLocations st))
        (count li) (compute_listChunkSize li) /\
    littleEndianBytesToUInt32 (slice (o_data fo) 4 4) =
      (len (o_data fo) - 8) mod 2 ^ 32 /\
    (len (o_data fo) - 8 < 2 ^ 32 ->
     littleEndianBytesToUInt32 (slice (o_data fo) 4 4) = len (o_data fo) - 8).
Proof.
  intros Hrun Hc.
  destruct (run_success indet content bad labelFile None r Hrun Hc)
    as (hdr & st & fc & li & fo & Escan & Sinv & Efc & Elab & Ecnt & Eout &
        Hid & Hty & Q).
  pose proof (readLabelFile_wf _ _ _ Elab) as W.
  assert (Sinv' : ScanInv content (f_bad (inputFile st)) st).
  { destruct Sinv as (S1 & S2 & S3 & S4). rewrite S3.
    split; [exact S1|]. split; [exact S2|]. split; [exact S3 | exact S4]. }
  destruct (output_layout content hdr st fc li (o_data fo) Sinv' Efc W Hid Hty Q)
    as (L1 & L2 & _).
  exists hdr, st, fc, li, fo.
  split; [exact Escan|]. split; [exact Efc|]. split; [exact Elab|].
  split; [exact Eout|]. unfold total_of in L1.
  split; [exact L1|].
  assert (E : littleEndianBytesToUInt32 (slice (o_data fo) 4 4) =
              (len (o_data fo) - 8) mod 2 ^ 32).
  { rewrite L2. unfold total_of, wrap32. rewrite <- L1. reflexivity. }
  split; [exact E|].
  intros Hlt. rewrite E. apply Z.mod_small.
  pose proof (len_nonneg (o_data fo)) as Hn.
  destruct Q as (d1 & d2 & Ed & Q1 & _). unfold Qis in Q1. subst d1.
  destruct (outputHeader_props hdr (fileDataSize_of st li) d2 Hid Hty) as (Hh & _).
  assert (12 <= len (o_data fo)).
  { rewrite Ed. unfold len in *. rewrite length_app. lia. }
  lia.
Qed.

Lemma C2_header_length_witness :
  exists fo,
    outputFile (run_of (run_wav wav_S3 label_mid)) = Some fo /\
    len (o_data fo) - 8 = 134 /\
    littleEndianBytesToUInt32 (slice (o_data fo) 4 4) = len (o_data fo) - 8.
Proof.
  destruct (C2_header_length junk wav_S3 None (open_labels label_mid)
              (run_of (run_wav wav_S3 label_mid)))
    as (hdr & st & fc & li & fo & Escan & Efc & Elab & Eout & L1 & L2 & L3).
  - vm_compute. reflexivity.
  - vm_compute. reflexivity.
  - assert (Est : st = scanState_of (scanInputFile junk (fopen_r wav_S3 None)))
      by (rewrite Escan; reflexivity).
    assert (Efc' : fc = fmt_44100).
    { rewrite Est in Efc. vm_compute in Efc. inversion Efc. reflexivity. }
    assert (Eli : li = labelInfo_of (readLabelFile (open_labels label_mid) fmt_44100))
      by (rewrite <- Efc', Elab; reflexivity).
    assert (Elen : len (o_data fo) - 8 = 134).
    { rewrite L1, Est, Eli. vm_compute. reflexivity. }
    exists fo. split; [exact Eout|]. split; [exact Elen|].
    apply L3. rewrite Elen. reflexivity.
Defined.

(** The header of the output for the file whose data chunk announces
    2^32 - 8 bytes holds 92; the output has 2^32 + 100 bytes. *)
Lemma C2_counterexample :
  exists r fo,
    run_wav wav_huge_data label_mid = Ok r /\ returnCode r = 0 /\
    outputFile r = Some fo /\
    littleEndianBytesToUInt32 (slice (o_data fo) 4 4) = 92 /\
    len (o_data fo) - 8 = 2 ^ 32 + 92 /\
    littleEndianBytesToUInt32 (slice (o_data fo) 4 4) <> len (o_data fo) - 8.
Proof.
  destruct (run_no_fault junk wav_huge_data None (open_labels label_mid) None
              (fst (scanInputFile junk (fopen_r wav_huge_data None)))
              (scanState_of (scanInputFile junk (fopen_r wav_huge_data None)))
              fmt_44100
              (labelInfo_of (readLabelFile (open_labels label_mid) fmt_44100))
              eq_refl eq_refl)
    as (r & Hrun & Hc).
  - vm_compute. reflexivity.
  - vm_compute. reflexivity.
  - vm_compute. reflexivity.
  - vm_compute. discriminate.
  - destruct (run_success junk wav_huge_data None (open_labels label_mid) None
                r Hrun Hc)
      as (hdr & st & fc & li & fo & Escan & Sinv & Efc & Elab & Ecnt & Eout &
          Hid & Hty & Q).
    pose proof (readLabelFile_wf _ _ _ Elab) as W.
    assert (Sinv' : ScanInv wav_huge_data (f_bad (inputFile st)) st).
    { destruct Sinv as (S1 & S2 & S3 & S4). rewrite S3.
      split; [exact S1|]. split; [exact S2|]. split; [exact S3 | exact S4]. }
    destruct (output_layout wav_huge_data hdr st fc li (o_data fo) Sinv' Efc W
                Hid Hty Q) as (L1 & L2 & _).
    assert (Est : st = scanState_of (scanInputFile junk (fopen_r wav_huge_data None)))
      by (rewrite Escan; reflexivity).
    assert (Efc' : fc = fmt_44100).
    { rewrite Est in Efc. vm_compute in Efc. inversion Efc. reflexivity. }
    assert (Eli : li = labelInfo_of (readLabelFile (open_labels label_mid) fmt_44100))
      by (rewrite <- Efc', Elab; reflexivity).
    assert (Et : total_of st li = 2 ^ 32 + 92).
    { rewrite Est, Eli. vm_compute. reflexivity. }
    rewrite Et in L1, L2.
    exists r, fo. split; [exact Hrun|]. split; [exact Hc|]. split; [exact Eout|].
    change (wrap32 (2 ^ 32 + 92)) with 92 in L2.
    split; [exact L2|]. split; [exact L1|]. rewrite L1, L2. discriminate.
Qed.

(** C3. For every label-file content, the three variants that use LF-only,
    CRLF, and CR-only line terminators produce identical parsed label sets.
    This fails for the two lines [0.0 0.1 a] and [1.0 1.1 bb]: with CR LF
    between them the sample indices are 0 and 44100, with LF or with CR
    alone the second index is 0, the first character of the second line
    being consumed by the [fgetc] that follows the [fscanf]. *)
Theorem C3_line_ends_differ :
  parsed_labels (readLabelFile (open_labels (labels_S2 [CR; LF])) fmt_44100) =
    Some [(0, bytes "a"); (44100, bytes "bb")] /\
  parsed_labels (readLabelFile (open_labels (labels_S2 [LF])) fmt_44100) =
    Some [(0, bytes "a"); (0, bytes "bb")] /\
  parsed_labels (readLabelFile (open_labels (labels_S2 [CR])) fmt_44100) =
    Some [(0, bytes "a"); (0, bytes "bb")] /\
  l_rest (skipLineEnd (mkLabelFILE (label_line "1.0" "1.1" "bb") false)) =
    bytes ".0" ++ [TAB] ++ bytes "1.1" ++ [TAB] ++ bytes "bb".
Proof. vm_compute. repeat split; reflexivity. Qed.

(** C4. Every call to the byte-range copier saves the input stream's read
    position on entry and restores it before returning, on both the success
    path and every failure path.  This fails on the success path: after the
    scan of S3 the stream is at offset 104; the copy of the data chunk
    (offset 52, 11 bytes) returns 0 and leaves the stream at offset 63.  On
    a device that fails inside the chunk the copy returns -1 and the stream
    is back at offset 104. *)
Theorem C4_success_leaves_position :
  let st := scanState_of (scanInputFile junk (fopen_r wav_S3 None)) in
  ftell (inputFile st) = 104 /\
  dataChunkLocation st = mkChunkLocation 52 11 /\
  (exists fi' fo',
      writeChunkLocationFromInputFileToOutputFile junk (dataChunkLocation st)
        (inputFile st) (fopen_w None) = Return 0 fi' fo' /\
      ftell fi' = 63) /\
  (exists fi' fo',
      writeChunkLocationFromInputFileToOutputFile junk (dataChunkLocation st)
        failing_after_scan (fopen_w None) = Return (-1) fi' fo' /\
      ftell fi' = ftell failing_after_scan).
Proof.
  cbv zeta. split; [vm_compute; reflexivity|].
  split; [vm_compute; reflexivity|].
  split; eexists; eexists; (split; [vm_compute; reflexivity | reflexivity]).
Qed.

(** C5. For every well-formed label line whose start time, read by [%f] as
    the single-precision number t, does not exceed 48660.0, and whose
    product with the sample rate converts to a [uint32_t], the synthesized
    cue record's frame-offset and play-order-position both equal the
    integral part of p, the single-precision product of t and the sample
    rate: the integer n with n <= p < n + 1 (0 when p lies between -1 and
    0).  The sample rate is read from the format descriptor and the channel
    count is not used.  The line is the one read in a turn of the loop of
    [readLabelFile] that starts with [count li] entries stored; p is given
    as the fraction [f32_num p / f32_den p]. *)
Theorem C5_sample_index (fc : FormatChunk) (f : LabelFILE) (r : ScanfResult)
    (li lif : LabelInfo) (fuel : nat) :
  LabelInfo_wf li ->
  feof_label f = false ->
  fscanf_label f = Ok r -> sr_return r = 2 ->
  f32_leb (sr_startTime r) (f32_of_Z 48660) = true ->
  readLabelFile_loop (S fuel) fc f li = Ok lif ->
  exists p index cue,
    p = f32_mul (sr_startTime r)
                (f32_of_Z (littleEndianBytesToUInt32 (fc_sampleRate fc))) /\
    0 < f32_den p /\
    index = Z.quot (f32_num p) (f32_den p) /\
    (0 <= f32_num p ->
     index * f32_den p <= f32_num p < (index + 1) * f32_den p) /\
    (f32_num p < 0 -> index = 0 /\ - f32_den p < f32_num p) /\
    nth_error (cuePoints (make_cueChunk lif)) (Z.to_nat (count li)) = Some cue /\
    littleEndianBytesToUInt32 (frameOffset cue) = index /\
    littleEndianBytesToUInt32 (playOrderPosition cue) = index /\
    forall fc', fc_sampleRate fc' = fc_sampleRate fc ->
      timeToIndex (sr_startTime r) fc' = Some index.
Proof.
  intros W Hfeof Hscan Hret Hleb Hloop.
  destruct W as (Hcnt & Hlen & _).
  cbn [readLabelFile_loop] in Hloop. rewrite Hfeof in Hloop.
  unfold readLabelFile_body in Hloop. rewrite Hscan, Hret in Hloop.
  change (negb (2 =? 2)) with false in Hloop. cbv iota in Hloop.
  destruct (storeLabel fc li (sr_startTime r) (sr_labelString r))
    as [li'| |] eqn:Est; try discriminate.
  unfold storeLabel in Est. rewrite Hleb in Est.
  destruct (count li <? maxLabels) eqn:Elt; [|discriminate].
  apply Z.ltb_lt in Elt. unfold maxLabels in Elt.
  destruct (timeToIndex (sr_startTime r) fc) as [index|] eqn:Et; [|discriminate].
  inversion Est; subst li'; clear Est.
  apply readLabelFile_loop_frame in Hloop; [|cbn [count]; lia].
  cbn [count locations] in Hloop. destruct Hloop as (Hle & Hfr).
  assert (Eloc : nthZ (count li) (locations lif) 0 = index).
  { rewrite Hfr by lia. unfold nthZ. apply nth_upd_eq. lia. }
  pose proof (f32_to_uint32_range _ _ Et) as Hrange.
  destruct (f32_to_uint32_integral_part _ _ Et) as (Q1 & Q2 & Q3 & Q4).
  exists (f32_mul (sr_startTime r)
            (f32_of_Z (littleEndianBytesToUInt32 (fc_sampleRate fc)))),
         index, (makeCuePoint lif (count li)).
  split; [reflexivity|].
  split; [exact Q1|]. split; [exact Q2|]. split; [exact Q3|]. split; [exact Q4|].
  split.
  { cbn [make_cueChunk cuePoints].
    destruct (fill_cuePoints_props lif ltac:(lia)) as (Lc & _).
    rewrite (nth_error_nth' _ (makeCuePoint lif 0))
      by (unfold len in Lc; lia).
    f_equal. unfold fill_cuePoints.
    apply (nthZ_map_indices (makeCuePoint lif) (count lif) (count li)). lia. }
  cbn [makeCuePoint frameOffset playOrderPosition]. rewrite Eloc.
  split; [apply UInt32_roundtrip_small; exact Hrange|].
  split; [apply UInt32_roundtrip_small; exact Hrange|].
  intros fc' Hrate. unfold timeToIndex in *. rewrite Hrate. exact Et.
Qed.

Lemma C5_sample_index_witness :
  exists cue,
    nth_error
      (cuePoints
         (make_cueChunk
            (labelInfo_of
               (readLabelFile (open_labels label_three_tenths) fmt_44100))))
      0 = Some cue /\
    littleEndianBytesToUInt32 (frameOffset cue) = 13230 /\
    littleEndianBytesToUInt32 (playOrderPosition cue) = 13230 /\
    13230 * 1024 < f32_num (f32_mul three_tenths (f32_of_Z 44100)) < 13231 * 1024.
Proof.
  destruct (C5_sample_index fmt_44100 (open_labels label_three_tenths)
              (mkScanfResult 2 three_tenths (bytes "mid") (mkLabelFILE [] true))
              labelInfo_init
              (labelInfo_of
                 (readLabelFile (open_labels label_three_tenths) fmt_44100))
              (length label_three_tenths))
    as (p & index & cue & Ep & _ & Ei & _ & _ & Ecue & Ef & Eo & _).
  - apply labelInfo_init_wf.
  - reflexivity.
  - vm_compute. reflexivity.
  - reflexivity.
  - vm_compute. reflexivity.
  - vm_compute. reflexivity.
  - assert (Ev : index = 13230).
    { rewrite Ei, Ep. vm_compute. reflexivity. }
    exists cue. change (Z.to_nat (count labelInfo_init)) with 0%nat in Ecue.
    split; [exact Ecue|].
    split; [rewrite <- Ev; exact Ef|].
    split; [rewrite <- Ev; exact Eo|].
    vm_compute. split; reflexivity.
Defined.

(** The start time 30000.0 at 44100 samples per second: the cue record has
    1323000064 where floor (30000 x 44100) is 1323000000. *)
Lemma C5_counterexample :
  exists li,
    readLabelFile (open_labels (label_line "30000.0" "0.5" "x")) fmt_44100 =
      Ok li /\
    littleEndianBytesToUInt32 (fc_sampleRate fmt_44100) = 44100 /\
    map (fun c => (littleEndianBytesToUInt32 (frameOffset c),
                   littleEndianBytesToUInt32 (playOrderPosition c)))
        (cuePoints (make_cueChunk li)) = [(1323000064, 1323000064)] /\
    floor_time_rate 30000 1 44100 = 1323000000 /\
    1323000064 <> floor_time_rate 30000 1 44100.
Proof.
  eexists. split; [vm_compute; reflexivity|].
  split; [vm_compute; reflexivity|].
  split; [vm_compute; reflexivity|].
  split; [reflexivity | discriminate].
Qed.

(** C6. For every parsed label list with n entries, the i-th (0-based) cue
    record's cue-id equals the i-th labeled-text record's cue-id, both equal
    i + 1, and the cue-id sequence is strictly positive and strictly
    increasing by one: the cue-ids of the cue records and those of the
    [labl] records read back from the list body are both 1, 2, ..., n. *)
Theorem C6_cue_ids_correspond (labelFile : LabelFILE) (fc : FormatChunk)
    (li : LabelInfo) :
  readLabelFile labelFile fc = Ok li ->
  let cueIds :=
    map (fun c => littleEndianBytesToUInt32 (cuePointID c))
        (cuePoints (make_cueChunk li)) in
  let lablIds :=
    map labl_cuePointID
        (lablRecords (labelChunks (make_listChunk li (compute_listChunkSize li)))) in
  cueIds = map (fun i => i + 1) (indices (count li)) /\
  lablIds = map (fun i => i + 1) (indices (count li)) /\
  len cueIds = count li /\ len lablIds = count li /\
  forall i, 0 <= i < count li ->
    nthZ i cueIds 0 = i + 1 /\ nthZ i lablIds 0 = i + 1 /\
    nthZ i cueIds 0 = nthZ i lablIds 0 /\ 0 < nthZ i cueIds 0.
Proof.
  intros H. pose proof (readLabelFile_wf _ _ _ H) as W.
  cbv zeta. cbn [make_cueChunk cuePoints make_listChunk labelChunks].
  assert (E1 : map (fun c => littleEndianBytesToUInt32 (cuePointID c))
                 (fill_cuePoints li) =
               map (fun i => i + 1) (indices (count li))).
  { unfold fill_cuePoints. rewrite map_map. apply map_ext_in.
    intros i Hi. apply In_indices in Hi. cbn [makeCuePoint cuePointID].
    apply UInt32_roundtrip_small.
    destruct W as (Hc & _). unfold maxLabels in Hc. lia. }
  assert (E2 : map labl_cuePointID (lablRecords (fill_labelChunks li)) =
               map (fun i => i + 1) (indices (count li))).
  { rewrite (lablRecords_fill li W), map_map. reflexivity. }
  rewrite E1, E2.
  assert (Hn : len (map (fun i => i + 1) (indices (count li))) = count li).
  { unfold len. rewrite length_map. fold (len (indices (count li))).
    rewrite indices_length. destruct W as (Hc & _). lia. }
  repeat (split; [first [reflexivity | exact Hn]|]).
  intros i Hi. rewrite (nthZ_map_indices (fun i => i + 1)) by exact Hi.
  repeat split; lia.
Qed.

Lemma C6_cue_ids_correspond_witness :
  let li := labelInfo_of (readLabelFile (open_labels (labels_S2 [CR; LF])) fmt_44100) in
  count li = 2 /\
  map (fun c => littleEndianBytesToUInt32 (cuePointID c))
      (cuePoints (make_cueChunk li)) = [1; 2] /\
  map labl_cuePointID
      (lablRecords (labelChunks (make_listChunk li (compute_listChunkSize li))))
  = [1; 2].
Proof.
  cbv zeta.
  destruct (C6_cue_ids_correspond (open_labels (labels_S2 [CR; LF])) fmt_44100
              (labelInfo_of (readLabelFile (open_labels (labels_S2 [CR; LF]))
                                           fmt_44100)))
    as (E1 & E2 & _).
  - vm_compute. reflexivity.
  - split; [vm_compute; reflexivity|].
    split; [rewrite E1 | rewrite E2]; vm_compute; reflexivity.
Defined.

(** C7. During the chunk scan, reaching end-of-stream while reading the next
    4-byte chunk identifier terminates the scan normally, whereas reaching
    end-of-stream anywhere inside a chunk is fatal and causes a non-zero
    exit.  The second half fails.  After each of its reads the scan tests
    the error indicator of the stream, which the end of the stream does not
    raise, and never the number of bytes read: on a device that delivers
    every byte no scan ends with the read-error diagnostic.  The files that
    end in the type field of a LIST chunk, in the payload of the data chunk
    and in the length field of an unknown chunk are scanned to a normal
    end and the run returns 0, in the last two cases with bytes of the
    copier's uninitialised buffer in the output.  The file that ends inside
    its format chunk is judged on what the storage of the chunk happens to
    hold: rejected as compressed in one case, accepted in the other. *)
Theorem C7_end_inside_chunk_undetected (indet : nat -> byte) (content : list byte) :
  is_read_error (snd (scanInputFile indet (fopen_r content None))) = false /\
  ends_mid_chunk wav_S1 = false /\
  exit_of (run_wav wav_S1 label_mid) = Some 0 /\
  ends_mid_chunk wav_truncated_list = true /\
  exit_of (run_wav wav_truncated_list label_mid) = Some 0 /\
  ends_mid_chunk wav_truncated_data = true /\
  exit_of (run_wav wav_truncated_data label_mid) = Some 0 /\
  slice (output_of (run_wav wav_truncated_data label_mid)) 36 12 =
    bytes "data" ++ le_bytes 4 4 ++ [x01; x02; xaa; xaa] /\
  ends_mid_chunk wav_truncated_size = true /\
  exit_of (run_wav wav_truncated_size label_mid) = Some 0 /\
  slice (output_of (run_wav wav_truncated_size label_mid)) 110 14 =
    bytes "JUNK" ++ [x05; xaa; xaa; xaa; xaa; xaa; xaa; xaa; xaa; x00] /\
  ends_mid_chunk wav_truncated_fmt = true /\
  snd (scanInputFile junk (fopen_r wav_truncated_fmt None)) =
    ScanFatal CompressedFormat /\
  exit_of (run_wav wav_truncated_fmt label_mid) = Some (-1) /\
  exit_of (addLabelsToWaveFile zeros (Some (fopen_r wav_truncated_fmt None))
             (Some (open_labels label_mid)) (Some (fopen_w None))) = Some 0.
Proof.
  split.
  { pose proof (scanInputFile_no_read_error indet content) as N.
    destruct (snd (scanInputFile indet (fopen_r content None))) as [st|d|];
      [reflexivity| |reflexivity].
    destruct d; try reflexivity. exfalso. apply N. reflexivity. }
  repeat split; vm_compute; reflexivity.
Qed.

(** C8. The retained fixed capacities (500 label entries, 500-byte label
    storage accepting labels of at least 498 bytes plus a terminator, and
    256 preserved other chunks) are each enforced by a diagnostic and a
    fatal exit.  Only the third is: 257 other chunks end the run with the
    diagnostic and -1, while the 501st label entry is stored past the end of
    the tables and a label of 500 bytes is stored past the end of
    [labelString], both without a check.  500 entries, a label of 499 bytes
    and 256 other chunks are accepted. *)
Theorem C8_label_capacities_unchecked :
  readLabelFile (open_labels (labels_n 501)) fmt_44100 = Undefined OutOfBounds /\
  readLabelFile (open_labels (label_of_length 500)) fmt_44100 =
    Undefined OutOfBounds /\
  run_wav wav_S1 (labels_n 501) = Undefined OutOfBounds /\
  run_wav wav_S1 (label_of_length 500) = Undefined OutOfBounds /\
  run_wav wav_257_chunks label_mid = Ok (mkRun (-1) (Some TooManyChunks) None) /\
  count (labelInfo_of (readLabelFile (open_labels (labels_n 500)) fmt_44100)) = 500 /\
  exit_of (run_wav wav_S1 (labels_n 500)) = Some 0 /\
  nthZ 0 (labelLengths
            (labelInfo_of (readLabelFile (open_labels (label_of_length 499))
                                         fmt_44100))) 0 = 500 /\
  exit_of (run_wav wav_S1 (label_of_length 499)) = Some 0 /\
  exit_of (run_wav wav_256_chunks label_mid) = Some 0.
Proof. repeat split; vm_compute; reflexivity. Qed.

(** C9. For every label set, the synthesized list body has even total
    length; consequently the writer's trailing pad byte for the LIST chunk
    is never emitted and the total-size computation, which omits an odd-pad
    term for the list body, still yields the value of the total that has
    that term (as a [uint32_t]). *)
Theorem C9_list_body_even (labelFile : LabelFILE) (fc : FormatChunk)
    (li : LabelInfo) :
  readLabelFile labelFile fc = Ok li ->
  let listChunkSize := compute_listChunkSize li in
  let listChunk := make_listChunk li listChunkSize in
  len (labelChunks listChunk) = listChunkSize /\
  listChunkSize = Zsum (map (recordLength li) (indices (count li))) /\
  listChunkSize mod 2 = 0 /\
  (forall fi fo, putPad listChunkSize fi fo = Go fi fo) /\
  (forall extra data n others,
      compute_fileDataSize extra data n others li listChunkSize =
      wrap32 (spec_total_size (size extra) (size data)
                (firstn (Z.to_nat n) others) (count li) listChunkSize)).
Proof.
  intros H. pose proof (readLabelFile_wf _ _ _ H) as W. cbv zeta.
  pose proof (compute_listChunkSize_even li) as Ev.
  split; [apply (fill_labelChunks_length li W)|].
  split; [apply (compute_listChunkSize_sum li W)|].
  split; [exact Ev|].
  split.
  - intros fi fo. unfold putPad. rewrite Ev. reflexivity.
  - intros extra data n others. rewrite compute_fileDataSize_eq.
    assert (P : odd_pad (compute_listChunkSize li) = 0)
      by (unfold odd_pad; rewrite Ev; reflexivity).
    unfold spec_total_size. rewrite P. f_equal. lia.
Qed.

Lemma C9_list_body_even_witness :
  let li := labelInfo_of (readLabelFile (open_labels (labels_S2 [CR; LF])) fmt_44100) in
  compute_listChunkSize li = 30 /\ compute_listChunkSize li mod 2 = 0.
Proof.
  cbv zeta.
  destruct (C9_list_body_even (open_labels (labels_S2 [CR; LF])) fmt_44100
              (labelInfo_of (readLabelFile (open_labels (labels_S2 [CR; LF]))
                                           fmt_44100)))
    as (_ & _ & Ev & _).
  - vm_compute. reflexivity.
  - split; [vm_compute; reflexivity | exact Ev].
Defined.


(** * The parts of the program *)

(** ** The conversions between integers and little-endian bytes *)

Lemma Zbyte_add_256 (b : byte) (z : Z) : Zbyte (byteZ b + 256 * z) = b.
Proof.
  rewrite <- (Zbyte_byteZ b) at 2. unfold Zbyte.
  replace ((byteZ b + 256 * z) mod 256) with (byteZ b mod 256); [reflexivity|].
  rewrite (Z.mul_comm 256 z), Z.mod_add by lia. reflexivity.
Qed.

Lemma le_bytes_le_value (bs : list byte) :
  le_bytes (length bs) (le_value bs) = bs.
Proof.
  induction bs as [|b r IH]; [reflexivity|].
  cbn [length le_bytes le_value]. rewrite Zbyte_add_256. f_equal.
  replace ((byteZ b + 256 * le_value r) / 256) with (le_value r); [exact IH|].
  pose proof (byteZ_range b) as Hb.
  rewrite (Z.mul_comm 256), Z.div_add by lia.
  rewrite (Z.div_small (byteZ b)) by lia. lia.
Qed.

Lemma uint32ToLittleEndianBytes_le_bytes (v : Z) :
  uint32ToLittleEndianBytes v = le_bytes 4 (wrap32 v).
Proof. reflexivity. Qed.

Lemma littleEndianBytesToUInt16_le_value (b : list byte) :
  length b = 2%nat -> littleEndianBytesToUInt16 b = le_value b.
Proof.
  intros H. destruct b as [|b0 [|b1 [|b2 r]]]; try discriminate. reflexivity.
Qed.

(** X1. The two 32-bit conversions are inverse to each other: decoding
    the four bytes written for [v] gives [v] reduced modulo 2^32, a number
    below 2^32, and encoding the number read from four bytes gives these
    bytes back. *)
Theorem X1_uint32_round_trip (v : Z) (b : list byte) :
  length b = 4%nat ->
  littleEndianBytesToUInt32 (uint32ToLittleEndianBytes v) = v mod 2 ^ 32 /\
  length (uint32ToLittleEndianBytes v) = 4%nat /\
  0 <= littleEndianBytesToUInt32 b < 2 ^ 32 /\
  uint32ToLittleEndianBytes (littleEndianBytesToUInt32 b) = b.
Proof.
  intros Hb.
  split; [apply UInt32_roundtrip|].
  split; [apply uint32ToLittleEndianBytes_length|].
  split; [apply littleEndianBytesToUInt32_range|].
  rewrite uint32ToLittleEndianBytes_le_bytes.
  pose proof (littleEndianBytesToUInt32_range b) as R.
  unfold wrap32. rewrite Z.mod_small by exact R.
  rewrite (littleEndianBytesToUInt32_le_value b Hb).
  rewrite <- Hb. apply le_bytes_le_value.
Qed.

Lemma X1_uint32_round_trip_witness :
  littleEndianBytesToUInt32 (uint32ToLittleEndianBytes (2 ^ 32 + 44100)) = 44100 /\
  uint32ToLittleEndianBytes (littleEndianBytesToUInt32 [x44; xac; x00; x00]) =
    [x44; xac; x00; x00].
Proof.
  destruct (X1_uint32_round_trip (2 ^ 32 + 44100) [x44; xac; x00; x00] eq_refl)
    as (H1 & _ & _ & H2).
  split; [rewrite H1; reflexivity | exact H2].
Defined.

(** X2. The two 16-bit conversions are inverse to each other: decoding
    the two bytes written for [v] gives [v] reduced modulo 2^16, and
    encoding the number read from two bytes gives these bytes back. *)
Theorem X2_uint16_round_trip (v : Z) (b : list byte) :
  length b = 2%nat ->
  littleEndianBytesToUInt16 (uint16ToLittleEndianBytes v) = v mod 2 ^ 16 /\
  length (uint16ToLittleEndianBytes v) = 2%nat /\
  0 <= littleEndianBytesToUInt16 b < 2 ^ 16 /\
  uint16ToLittleEndianBytes (littleEndianBytesToUInt16 b) = b.
Proof.
  intros Hb.
  assert (E : uint16ToLittleEndianBytes v = le_bytes 2 (v mod 2 ^ 16))
    by reflexivity.
  split.
  { rewrite E, littleEndianBytesToUInt16_le_value by apply le_bytes_length.
    rewrite le_value_le_bytes. change (256 ^ Z.of_nat 2) with (2 ^ 16).
    apply Z.mod_mod. lia. }
  split; [rewrite E; apply le_bytes_length|].
  rewrite (littleEndianBytesToUInt16_le_value b Hb).
  pose proof (le_value_range b) as R. rewrite Hb in R.
  change (256 ^ Z.of_nat 2) with (2 ^ 16) in R.
  split; [exact R|].
  assert (E2 : uint16ToLittleEndianBytes (le_value b) =
               le_bytes 2 (le_value b mod 2 ^ 16)) by reflexivity.
  rewrite E2, Z.mod_small by exact R. rewrite <- Hb. apply le_bytes_le_value.
Qed.

Lemma X2_uint16_round_trip_witness :
  littleEndianBytesToUInt16 (uint16ToLittleEndianBytes (2 ^ 16 + 3)) = 3 /\
  uint16ToLittleEndianBytes (littleEndianBytesToUInt16 [x03; x01]) = [x03; x01].
Proof.
  destruct (X2_uint16_round_trip (2 ^ 16 + 3) [x03; x01] eq_refl)
    as (H1 & _ & _ & H2).
  split; [rewrite H1; reflexivity | exact H2].
Defined.

(** X3. The four conversions give on a big-endian host what they give on
    a little-endian host: the bytes written and the numbers read do not
    depend on the byte order of the host. *)
Theorem X3_conversions_host_independent (v : Z) (b : list byte) :
  uint32ToLittleEndianBytes_on BigEndian v =
    uint32ToLittleEndianBytes_on LittleEndian v /\
  littleEndianBytesToUInt32_on BigEndian b =
    littleEndianBytesToUInt32_on LittleEndian b /\
  uint16ToLittleEndianBytes_on BigEndian v =
    uint16ToLittleEndianBytes_on LittleEndian v /\
  littleEndianBytesToUInt16_on BigEndian b =
    littleEndianBytesToUInt16_on LittleEndian b /\
  uint32ToLittleEndianBytes_on BigEndian v = le_bytes 4 (v mod 2 ^ 32) /\
  littleEndianBytesToUInt32_on BigEndian b = le_value (firstn 4 (b ++ repeat x00 4)).
Proof.
  split; [apply uint32ToLittleEndianBytes_host_independent; discriminate|].
  split; [apply littleEndianBytesToUInt32_host_independent; discriminate|].
  split; [apply uint16ToLittleEndianBytes_host_independent; discriminate|].
  split; [apply littleEndianBytesToUInt16_host_independent; discriminate|].
  split.
  - rewrite uint32ToLittleEndianBytes_host_independent by discriminate.
    reflexivity.
  - rewrite littleEndianBytesToUInt32_host_independent by discriminate.
    destruct b as [|b0 [|b1 [|b2 [|b3 r]]]]; reflexivity.
Qed.

(** ** The reader of the label file *)

Lemma scan_set_no_eol (s : list byte) : no_eol (fst (scan_set s)) = true.
Proof.
  induction s as [|b r IH]; cbn [scan_set]; [reflexivity|].
  destruct (is_eol b) eqn:E; [reflexivity|].
  destruct (scan_set r) as [got rest]. cbn [fst] in *.
  unfold no_eol in *. cbn [forallb]. rewrite E, IH. reflexivity.
Qed.

Lemma c_string_forallb (P : byte -> bool) (s : list byte) :
  forallb P s = true -> forallb P (c_string s) = true.
Proof.
  induction s as [|b r IH]; cbn [c_string forallb]; [reflexivity|].
  intros H. apply andb_true_iff in H. destruct H as (H1 & H2).
  destruct (Byte.eqb b x00); [reflexivity|].
  cbn [forallb]. rewrite H1, (IH H2). reflexivity.
Qed.

Lemma fscanf_label_no_eol (f : LabelFILE) (r : ScanfResult) :
  fscanf_label f = Ok r -> no_eol (sr_labelString r) = true.
Proof.
  intros H. unfold fscanf_label in H.
  destruct (isnil (l_rest (stopped_at f (skip_space (l_rest f)))));
    [inversion H; reflexivity|].
  destruct (scan_float _) as [v r1]. destruct v as [startTime|];
    [|inversion H; reflexivity].
  destruct (isnil (l_rest (stopped_at _ (skip_space _))));
    [inversion H; reflexivity|].
  destruct (scan_float _) as [v2 r2]. destruct v2 as [t2|];
    [|inversion H; reflexivity].
  destruct (l_rest (stopped_at _ r2)) as [|a3 r3]; [inversion H; reflexivity|].
  destruct (isnil r3); [inversion H; reflexivity|].
  pose proof (scan_set_no_eol r3) as N.
  destruct (scan_set r3) as [got r4]. cbn [fst] in N.
  destruct (isnil got); [inversion H; reflexivity|].
  destruct (labelStorage <=? len got); [discriminate|].
  destruct r4; inversion H; cbn [sr_labelString];
    apply c_string_forallb; exact N.
Qed.

Lemma storeLabel_no_eol (fc : FormatChunk) (li li' : LabelInfo) (t : float)
    (s : list byte) :
  LabelInfo_wf li -> Labels_no_eol li ->
  len s < labelStorage -> c_string s = s -> no_eol s = true ->
  storeLabel fc li t s = Ok li' -> Labels_no_eol li'.
Proof.
  intros (Hc & Hl1 & Hl2 & Hl3 & Hrows & Hent) N Hs Hn He H.
  unfold storeLabel in H.
  destruct (f32_leb t (f32_of_Z 48660)); [|inversion H; subst; exact N].
  destruct (count li <? maxLabels) eqn:Eb; [|discriminate].
  apply Z.ltb_lt in Eb.
  destruct (timeToIndex t fc) as [index|]; [|discriminate].
  inversion H; subst; clear H.
  unfold maxLabels, labelStorage, len in *.
  assert (Hrow : length (nth (Z.to_nat (count li)) (labels li) []) = 500%nat).
  { rewrite Forall_forall in Hrows. apply Hrows. apply nth_In. lia. }
  destruct (strcpy_props (nth (Z.to_nat (count li)) (labels li) []) s Hrow
              ltac:(lia) Hn) as (_ & P2 & _).
  intros i Hi. cbn [count labels] in *. unfold nthZ.
  destruct (Z.eq_dec i (count li)) as [->|Ne].
  - rewrite nth_upd_eq by lia. rewrite P2. exact He.
  - rewrite nth_upd_neq by lia. apply N. lia.
Qed.

Lemma readLabelFile_loop_no_eol (fc : FormatChunk) :
  forall fuel f li li',
    LabelInfo_wf li -> Labels_no_eol li ->
    readLabelFile_loop fuel fc f li = Ok li' -> Labels_no_eol li'.
Proof.
  induction fuel as [|fuel IH]; intros f li li' W N H;
    cbn [readLabelFile_loop] in H; unfold feof_label in H;
    destruct (l_eof f) eqn:He.
  - inversion H; subst; exact N.
  - discriminate.
  - inversion H; subst; exact N.
  - destruct (readLabelFile_body fc (f, li)) as [[f2 li2]| |] eqn:B;
      try discriminate.
    pose proof (readLabelFile_body_wf fc f f2 li li2 He W B) as W2.
    apply (IH f2 li2 li' W2); [|exact H].
    unfold readLabelFile_body in B.
    destruct (fscanf_label f) as [r| |] eqn:E; try discriminate.
    destruct (fscanf_label_props f r He E) as (_ & _ & Hs & Hn).
    pose proof (fscanf_label_no_eol f r E) as Hne.
    destruct (negb (sr_return r =? 2)).
    + inversion B; subst. exact N.
    + destruct (storeLabel fc li (sr_startTime r) (sr_labelString r))
        as [li3| |] eqn:S; try discriminate.
      inversion B; subst.
      apply (storeLabel_no_eol fc li li2 _ _ W N Hs Hn Hne S).
Qed.

Lemma c_string_no_nul (s : list byte) :
  forallb (fun b => negb (Byte.eqb b x00)) (c_string s) = true.
Proof.
  induction s as [|b r IH]; cbn [c_string]; [reflexivity|].
  destruct (Byte.eqb b x00) eqn:E; [reflexivity|].
  cbn [forallb]. rewrite E, IH. reflexivity.
Qed.

Lemma Entries_kept_refl (li : LabelInfo) : Entries_kept li li.
Proof. split; [lia | auto]. Qed.

Lemma Entries_kept_trans (a b c : LabelInfo) :
  Entries_kept a b -> Entries_kept b c -> Entries_kept a c.
Proof.
  intros (H1 & H2) (H3 & H4). split; [lia|].
  intros j Hj. destruct (H2 j Hj) as (A1 & A2 & A3).
  destruct (H4 j ltac:(lia)) as (B1 & B2 & B3).
  rewrite B1, B2, B3. auto.
Qed.

Lemma storeLabel_kept (fc : FormatChunk) (li li' : LabelInfo) (t : float)
    (s : list byte) :
  storeLabel fc li t s = Ok li' -> 0 <= count li -> Entries_kept li li'.
Proof.
  intros H Hc. unfold storeLabel in H.
  destruct (f32_leb t (f32_of_Z 48660));
    [|inversion H; subst; apply Entries_kept_refl].
  destruct (count li <? maxLabels); [|discriminate].
  destruct (timeToIndex t fc); [|discriminate].
  inversion H; subst; clear H. split; cbn [count locations labels labelLengths];
    [lia|].
  intros j Hj. unfold nthZ. rewrite !nth_upd_neq by lia. auto.
Qed.

Lemma readLabelFile_loop_kept (fc : FormatChunk) :
  forall fuel f li lif,
    readLabelFile_loop fuel fc f li = Ok lif -> 0 <= count li ->
    Entries_kept li lif.
Proof.
  induction fuel as [|fuel IH]; intros f li lif H Hc;
    cbn [readLabelFile_loop] in H; destruct (feof_label f).
  - inversion H; subst. apply Entries_kept_refl.
  - discriminate.
  - inversion H; subst. apply Entries_kept_refl.
  - destruct (readLabelFile_body fc (f, li)) as [[f2 li2]| |] eqn:B;
      try discriminate.
    unfold readLabelFile_body in B.
    destruct (fscanf_label f) as [r| |]; try discriminate.
    assert (F : Entries_kept li li2).
    { destruct (negb (sr_return r =? 2)).
      - inversion B; subst. apply Entries_kept_refl.
      - destruct (storeLabel fc li (sr_startTime r) (sr_labelString r))
          as [li3| |] eqn:S; try discriminate.
        inversion B; subst. apply (storeLabel_kept _ _ _ _ _ S Hc). }
    apply (Entries_kept_trans li li2 lif F).
    apply (IH f2 li2 lif H). destruct F as (F1 & _). lia.
Qed.


Lemma wf_length_strlen (li : LabelInfo) (i : Z) :
  LabelInfo_wf li -> 0 <= i < count li ->
  nthZ i (labelLengths li) 0 = strlen (c_string (nthZ i (labels li) [])) + 1.
Proof.
  intros W Hi. pose proof (wf_row_length li i W Hi) as Hrow.
  destruct W as (_ & _ & _ & _ & _ & Hent).
  destruct (Hent i Hi) as (E1 & _ & E3). unfold labelStorage in *.
  assert (L : len (slice (nthZ i (labels li) []) 0 (nthZ i (labelLengths li) 0))
              = nthZ i (labelLengths li) 0)
    by (apply slice_length; lia).
  rewrite E3 in L. unfold strlen, len in *. rewrite length_app in L.
  cbn [length] in L. lia.
Qed.

(** X5. In the table [readLabelFile] returns there are at most 500
    entries, and for each of them the recorded length is that of the stored
    text plus one for its terminator and is at most 500, the stored text
    holds neither a zero byte nor a CR or LF, and the sample index is a
    32-bit number. *)
Theorem X5_label_table_entries (f : LabelFILE) (fc : FormatChunk)
    (li : LabelInfo) (i : Z) :
  readLabelFile f fc = Ok li -> 0 <= i < count li ->
  count li <= 500 /\
  nthZ i (labelLengths li) 0 = strlen (c_string (nthZ i (labels li) [])) + 1 /\
  nthZ i (labelLengths li) 0 <= 500 /\
  forallb (fun b => negb (Byte.eqb b x00)) (c_string (nthZ i (labels li) [])) = true /\
  no_eol (c_string (nthZ i (labels li) [])) = true /\
  0 <= nthZ i (locations li) 0 < 2 ^ 32.
Proof.
  intros H Hi. pose proof (readLabelFile_wf _ _ _ H) as W.
  pose proof (wf_row_length li i W Hi) as Hrow.
  pose proof W as (Hc & _ & _ & _ & _ & Hent).
  destruct (Hent i Hi) as (E1 & E2 & E3).
  unfold maxLabels, labelStorage in *.
  split; [lia|].
  split.
  { assert (L : len (slice (nthZ i (labels li) []) 0 (nthZ i (labelLengths li) 0))
                = nthZ i (labelLengths li) 0)
      by (apply slice_length; lia).
    rewrite E3 in L. unfold strlen, len in *. rewrite length_app in L.
    cbn [length] in L. lia. }
  split; [lia|].
  split; [apply c_string_no_nul|].
  split; [|exact E2].
  unfold readLabelFile in H.
  apply (readLabelFile_loop_no_eol fc _ _ labelInfo_init li labelInfo_init_wf)
    in H; [apply H; exact Hi|].
  intros j Hj. cbn [labelInfo_init count] in Hj. lia.
Qed.

Lemma X5_label_table_entries_witness :
  nthZ 1
    (labelLengths
       (labelInfo_of (readLabelFile (open_labels (labels_S2 [CR; LF])) fmt_44100)))
    0 = 3.
Proof.
  destruct (X5_label_table_entries (open_labels (labels_S2 [CR; LF])) fmt_44100
              (labelInfo_of (readLabelFile (open_labels (labels_S2 [CR; LF]))
                                           fmt_44100)) 1)
    as (_ & E & _).
  - vm_compute. reflexivity.
  - vm_compute. split; [discriminate | reflexivity].
  - rewrite E. vm_compute. reflexivity.
Defined.

(** X6. The loop of [readLabelFile] only appends: the entries the table
    holds when a turn starts are found unchanged, at the same indices, in
    the table the function returns, and the count never decreases. *)
Theorem X6_entries_are_kept (fc : FormatChunk) (fuel : nat) (f : LabelFILE)
    (li lif : LabelInfo) (j : Z) :
  readLabelFile_loop fuel fc f li = Ok lif -> 0 <= j < count li ->
  count li <= count lif /\
  nthZ j (locations lif) 0 = nthZ j (locations li) 0 /\
  nthZ j (labels lif) [] = nthZ j (labels li) [] /\
  nthZ j (labelLengths lif) 0 = nthZ j (labelLengths li) 0.
Proof.
  intros H Hj.
  destruct (readLabelFile_loop_kept fc fuel f li lif H ltac:(lia)) as (K1 & K2).
  split; [exact K1 | apply K2; exact Hj].
Qed.

Lemma X6_entries_are_kept_witness :
  let lif := labelInfo_of (readLabelFile_loop 12 fmt_44100 second_line
                                              table_first_line) in
  count lif = 2 /\
  c_string (nthZ 0 (labels lif) []) = bytes "a" /\
  nthZ 0 (labels lif) [] = nthZ 0 (labels table_first_line) [].
Proof.
  cbv zeta.
  destruct (X6_entries_are_kept fmt_44100 12 second_line table_first_line
              (labelInfo_of (readLabelFile_loop 12 fmt_44100 second_line
                                                table_first_line)) 0)
    as (_ & _ & E & _).
  - vm_compute. reflexivity.
  - vm_compute. split; [discriminate | reflexivity].
  - split; [vm_compute; reflexivity|].
    split; [rewrite E; vm_compute; reflexivity | exact E].
Defined.

(** ** Label files with CR LF line ends *)

Lemma digit_facts (d : byte) :
  isdigit d = true ->
  Byte.eqb d "-"%byte = false /\ Byte.eqb d "+"%byte = false /\
  isspace d = false /\ (byteZ d =? 13) = false /\ Byte.eqb d "."%byte = false.
Proof. destruct d; intros H; try discriminate H; repeat split. Qed.

Lemma scan_digits_app (ds rest : list byte) :
  forallb isdigit ds = true ->
  match rest with [] => True | b :: _ => isdigit b = false end ->
  forall acc n,
    scan_digits (ds ++ rest) acc n =
    (fold_left (fun acc b => 10 * acc + (byteZ b - 48)) ds acc, n + len ds, rest).
Proof.
  intros Hd Hr. induction ds as [|d r IH]; intros acc n.
  - cbn [app fold_left]. change (len (@nil byte)) with 0. rewrite Z.add_0_r.
    destruct rest as [|b t]; cbn [scan_digits]; [reflexivity|].
    rewrite Hr. reflexivity.
  - cbn [forallb] in Hd. apply andb_true_iff in Hd. destruct Hd as (H1 & H2).
    cbn [app scan_digits fold_left]. rewrite H1, (IH H2).
    f_equal. f_equal. unfold len. cbn [length]. lia.
Qed.

Lemma scan_float_decimal (ip fp r : list byte) :
  is_decimal ip fp = true ->
  scan_float (decimal_bytes ip fp ++ TAB :: r) =
    (Some (decimal_float ip fp), TAB :: r).
Proof.
  unfold is_decimal. intros H.
  apply andb_true_iff in H. destruct H as (H & Hfp).
  apply andb_true_iff in H. destruct H as (Hne & Hip).
  destruct ip as [|d ip']; [discriminate|].
  pose proof Hip as Hd. cbn [forallb] in Hd. apply andb_true_iff in Hd.
  destruct Hd as (Hd & _). destruct (digit_facts d Hd) as (S1 & S2 & _).
  unfold scan_float, decimal_bytes.
  replace (((d :: ip') ++ "."%byte :: fp) ++ TAB :: r)
    with ((d :: ip') ++ "."%byte :: fp ++ TAB :: r)
    by (rewrite <- app_assoc; reflexivity).
  assert (Es : scan_sign ((d :: ip') ++ "."%byte :: fp ++ TAB :: r) =
               (false, (d :: ip') ++ "."%byte :: fp ++ TAB :: r)).
  { cbn [app scan_sign]. rewrite S1, S2. reflexivity. }
  rewrite Es.
  rewrite (scan_digits_app (d :: ip') ("."%byte :: fp ++ TAB :: r) Hip eq_refl).
  change (Byte.eqb "."%byte "."%byte) with true. cbv iota.
  rewrite (scan_digits_app fp (TAB :: r) Hfp eq_refl).
  assert (Hz : (0 + len (d :: ip') + (0 + len fp) =? 0) = false).
  { apply Z.eqb_neq. pose proof (len_nonneg fp). unfold len in *.
    cbn [length]. lia. }
  rewrite Hz.
  change (Byte.eqb TAB "e"%byte || Byte.eqb TAB "E"%byte) with false. cbv iota.
  unfold decimal_float, digits_value. rewrite fold_left_app, Z.add_0_l.
  reflexivity.
Qed.

Lemma decimal_bytes_head (ip fp r : list byte) :
  is_decimal ip fp = true ->
  exists d t, decimal_bytes ip fp ++ r = d :: t /\ isdigit d = true.
Proof.
  unfold is_decimal. intros H.
  apply andb_true_iff in H. destruct H as (H & _).
  apply andb_true_iff in H. destruct H as (Hne & Hip).
  destruct ip as [|d ip']; [discriminate|].
  cbn [forallb] in Hip. apply andb_true_iff in Hip.
  exists d, ((ip' ++ "."%byte :: fp) ++ r). split; [reflexivity | apply Hip].
Qed.

Lemma line_readable_parts (fc : FormatChunk) (l : LabelLine) :
  line_readable fc l = true ->
  is_decimal (fst (ln_start l)) (snd (ln_start l)) = true /\
  is_decimal (fst (ln_end l)) (snd (ln_end l)) = true /\
  ln_text l <> [] /\ no_eol (ln_text l) = true /\
  len (ln_text l) < labelStorage /\
  f32_leb (start_time l) (f32_of_Z 48660) = true /\
  exists index, timeToIndex (start_time l) fc = Some index.
Proof.
  unfold line_readable. intros H.
  do 6 (apply andb_true_iff in H; let H' := fresh "P" in destruct H as (H & H')).
  split; [exact H|]. split; [exact P4|].
  split; [destruct (ln_text l); [discriminate | discriminate]|].
  split; [exact P2|].
  split; [apply Z.ltb_lt; exact P1|].
  split; [exact P0|].
  destruct (timeToIndex (start_time l) fc) as [i|]; [exists i; reflexivity|].
  discriminate.
Qed.

Lemma no_nul_c_string (s : list byte) :
  forallb (fun b => negb (Byte.eqb b x00)) s = true -> c_string s = s.
Proof.
  induction s as [|b r IH]; intros H; [reflexivity|].
  cbn [forallb] in H. apply andb_true_iff in H. destruct H as (A & B).
  cbn [c_string]. apply negb_true_iff in A. rewrite A, (IH B). reflexivity.
Qed.

(** A line without zero byte in its text is a readable line that is stored
    as it stands. *)
Lemma line_ok_readable (fc : FormatChunk) (l : LabelLine) :
  line_ok fc l = true ->
  line_readable fc l = true /\ c_string (ln_text l) = ln_text l.
Proof.
  unfold line_ok, line_readable. intros H.
  do 7 (apply andb_true_iff in H; let H' := fresh "P" in destruct H as (H & H')).
  split; [|apply no_nul_c_string; exact P2].
  rewrite H, P5, P4, P3, P1, P0, P. reflexivity.
Qed.

Lemma scan_set_all (text : list byte) :
  no_eol text = true -> scan_set text = (text, []).
Proof.
  unfold no_eol. induction text as [|b r IH]; intros H; [reflexivity|].
  cbn [forallb] in H. apply andb_true_iff in H. destruct H as (A & B).
  cbn [scan_set]. apply negb_true_iff in A. rewrite A, (IH B). reflexivity.
Qed.

(** The [fscanf] of a turn on a readable line: both conversions succeed,
    the text is stored up to its first zero byte, and the byte after the
    text, if there is one, is consumed. *)
Lemma fscanf_label_readable_line (fc : FormatChunk) (l : LabelLine)
    (rest : list byte) :
  line_readable fc l = true -> line_end_ok rest = true ->
  fscanf_label (mkLabelFILE (line_bytes l ++ rest) false) =
    Ok (mkScanfResult 2 (start_time l) (c_string (ln_text l))
          (mkLabelFILE (tl rest) (isnil rest))).
Proof.
  intros Hok He.
  destruct (line_readable_parts fc l Hok) as (D1 & D2 & Hne & Hno & Hlen & _).
  unfold line_bytes, start_time.
  set (s := ln_start l) in *. set (en := ln_end l) in *. set (text := ln_text l) in *.
  replace ((decimal_bytes (fst s) (snd s) ++ TAB ::
            decimal_bytes (fst en) (snd en) ++ TAB :: text) ++ rest)
    with (decimal_bytes (fst s) (snd s) ++ TAB ::
          (decimal_bytes (fst en) (snd en) ++ TAB :: (text ++ rest))).
  2:{ rewrite <- !app_assoc. cbn [app]. rewrite <- !app_assoc. reflexivity. }
  destruct (decimal_bytes_head (fst s) (snd s)
              (TAB :: decimal_bytes (fst en) (snd en) ++ TAB :: text ++ rest) D1)
    as (d1 & t1 & E1 & Hd1).
  destruct (decimal_bytes_head (fst en) (snd en) (TAB :: text ++ rest) D2)
    as (d2 & t2 & E2 & Hd2).
  destruct (digit_facts d1 Hd1) as (_ & _ & Sp1 & _).
  destruct (digit_facts d2 Hd2) as (_ & _ & Sp2 & _).
  unfold fscanf_label. cbn [l_rest l_eof stopped_at].
  assert (K1 : skip_space (decimal_bytes (fst s) (snd s) ++ TAB ::
                 decimal_bytes (fst en) (snd en) ++ TAB :: text ++ rest) =
               decimal_bytes (fst s) (snd s) ++ TAB ::
                 decimal_bytes (fst en) (snd en) ++ TAB :: text ++ rest).
  { rewrite E1. cbn [skip_space]. rewrite Sp1. reflexivity. }
  rewrite K1. rewrite E1 at 1. cbn [isnil orb].
  rewrite (scan_float_decimal _ _ _ D1). cbn [l_rest l_eof stopped_at isnil orb].
  assert (K2 : skip_space (TAB :: decimal_bytes (fst en) (snd en) ++ TAB ::
                 text ++ rest) =
               decimal_bytes (fst en) (snd en) ++ TAB :: text ++ rest).
  { rewrite E2. cbn [skip_space]. change (isspace TAB) with true. cbv iota.
    rewrite Sp2. reflexivity. }
  rewrite K2. rewrite E2 at 1. cbn [isnil orb].
  rewrite (scan_float_decimal _ _ _ D2). cbn [l_rest l_eof stopped_at isnil orb].
  destruct text as [|t0 text'] eqn:Et; [contradiction|].
  assert (Eset : scan_set ((t0 :: text') ++ rest) = (t0 :: text', rest)).
  { destruct rest as [|e tail].
    - rewrite app_nil_r. apply scan_set_all. exact Hno.
    - apply scan_set_app; [exact Hno | exact He]. }
  cbn [app isnil]. change (t0 :: text' ++ rest) with ((t0 :: text') ++ rest).
  rewrite Eset. cbn [isnil].
  destruct (labelStorage <=? len (t0 :: text')) eqn:B;
    [apply Z.leb_le in B; lia|].
  rewrite ?E1, ?E2. cbn [l_rest l_eof stopped_at isnil orb].
  destruct rest as [|e tail]; reflexivity.
Qed.

Lemma crlf_file_head (fc : FormatChunk) (l : LabelLine) (ls : list LabelLine) :
  line_readable fc l = true ->
  exists d t, crlf_file (l :: ls) = d :: t /\ isdigit d = true.
Proof.
  intros Hok. destruct (line_readable_parts fc l Hok) as (D1 & _).
  unfold crlf_file. cbn [flat_map]. unfold line_bytes.
  rewrite <- !app_assoc.
  apply (decimal_bytes_head _ _ _ D1).
Qed.

Lemma skipLineEnd_between_lines (fc : FormatChunk) (ls : list LabelLine) :
  forallb (line_readable fc) ls = true ->
  skipLineEnd (mkLabelFILE (LF :: crlf_file ls) false) = after_lines ls.
Proof.
  intros Hok. destruct ls as [|l ls']; [reflexivity|].
  cbn [forallb] in Hok. apply andb_true_iff in Hok. destruct Hok as (Hl & _).
  destruct (crlf_file_head fc l ls' Hl) as (d & t & E & Hd).
  destruct (digit_facts d Hd) as (_ & _ & _ & N13 & _).
  unfold after_lines. rewrite E. unfold skipLineEnd, fgetc.
  cbn [l_rest l_eof]. change (byteZ LF =? 13) with false. cbv iota.
  cbn [l_rest l_eof feof_label negb]. rewrite N13.
  unfold ungetc. cbn [l_rest]. rewrite Zbyte_byteZ. reflexivity.
Qed.

Lemma entries_from_kept (li li' : LabelInfo) :
  Entries_kept li li' ->
  forall n s, 0 <= s -> s + Z.of_nat n <= count li ->
    entries_from li' s n = entries_from li s n.
Proof.
  intros (_ & K). induction n as [|n IH]; intros s Hs Hn; [reflexivity|].
  cbn [entries_from]. destruct (K s ltac:(lia)) as (A & B & _).
  rewrite A, B, IH by lia. reflexivity.
Qed.

Lemma parsed_labels_entries (li : LabelInfo) :
  parsed_labels (Ok li) = Some (entries_from li 0 (Z.to_nat (count li))).
Proof.
  unfold parsed_labels, indices. f_equal. rewrite map_map.
  generalize (Z.to_nat (count li)) as n.
  assert (G : forall n a,
             map (fun x => (nthZ (Z.of_nat x) (locations li) 0,
                            c_string (nthZ (Z.of_nat x) (labels li) [])))
                 (seq a n) = entries_from li (Z.of_nat a) n).
  { induction n as [|n IH]; intros a; [reflexivity|].
    cbn [seq map entries_from]. rewrite IH. do 2 f_equal. lia. }
  intros n. apply (G n 0%nat).
Qed.

(** The store of a turn on a readable line. *)
Lemma storeLabel_readable_line (fc : FormatChunk) (l : LabelLine) (li : LabelInfo) :
  line_readable fc l = true -> LabelInfo_wf li -> count li < maxLabels ->
  exists li1,
    storeLabel fc li (start_time l) (c_string (ln_text l)) = Ok li1 /\
    LabelInfo_wf li1 /\ Entries_kept li li1 /\
    count li1 = count li + 1 /\
    (nthZ (count li) (locations li1) 0, c_string (nthZ (count li) (labels li1) [])) =
      stored_entry fc l /\
    nthZ (count li) (labelLengths li1) 0 = strlen (c_string (ln_text l)) + 1.
Proof.
  intros Hl W Hcnt.
  destruct (line_readable_parts fc l Hl) as (_ & _ & _ & _ & Hlen & Hleb & (index & Et)).
  pose proof W as (Hc & Hl1 & Hl2 & Hl3 & Hrows & _).
  pose proof (c_string_length (ln_text l)) as Hcl.
  pose proof (c_string_idem (ln_text l)) as Hci.
  assert (Hlen' : len (c_string (ln_text l)) < labelStorage)
    by (unfold len in *; lia).
  assert (Eb : (count li <? maxLabels) = true) by (apply Z.ltb_lt; lia).
  unfold maxLabels in Hcnt.
  assert (Est : storeLabel fc li (start_time l) (c_string (ln_text l)) =
                Ok (mkLabelInfo
                      (upd (Z.to_nat (count li)) index (locations li))
                      (upd (Z.to_nat (count li))
                           (strcpy (nth (Z.to_nat (count li)) (labels li) [])
                                   (c_string (ln_text l))) (labels li))
                      (upd (Z.to_nat (count li)) (strlen (c_string (ln_text l)) + 1)
                           (labelLengths li))
                      (count li + 1))).
  { unfold storeLabel. rewrite Hleb, Eb, Et. reflexivity. }
  eexists. split; [exact Est|].
  set (li1 := mkLabelInfo _ _ _ _) in *.
  destruct (storeLabel_wf fc li li1 _ _ W Hlen' Hci Est) as (W1 & _).
  split; [exact W1|].
  split; [apply (storeLabel_kept fc li li1 _ _ Est); lia|].
  subst li1. cbn [count locations labels labelLengths].
  split; [reflexivity|]. unfold nthZ.
  rewrite !nth_upd_eq by lia.
  split; [|reflexivity].
  assert (Hrow : length (nth (Z.to_nat (count li)) (labels li) []) = 500%nat).
  { rewrite Forall_forall in Hrows. apply Hrows. apply nth_In. lia. }
  unfold labelStorage, len in Hlen'.
  destruct (strcpy_props _ (c_string (ln_text l)) Hrow ltac:(lia) Hci) as (_ & P2 & _).
  rewrite P2. unfold stored_entry. rewrite Et. reflexivity.
Qed.

Lemma readLabelFile_loop_crlf_readable (fc : FormatChunk) :
  forall ls fuel li,
    forallb (line_readable fc) ls = true -> LabelInfo_wf li ->
    count li + len ls <= maxLabels ->
    (length (crlf_file ls) < fuel)%nat ->
    exists lif,
      readLabelFile_loop fuel fc (after_lines ls) li = Ok lif /\
      count lif = count li + len ls /\
      Entries_kept li lif /\
      entries_from lif (count li) (length ls) = map (stored_entry fc) ls.
Proof.
  induction ls as [|l ls IH]; intros fuel li Hok W Hcnt Hfuel.
  - exists li. split; [apply readLabelFile_loop_eof; reflexivity|].
    split; [change (len (@nil LabelLine)) with 0; lia|].
    split; [apply Entries_kept_refl | reflexivity].
  - cbn [forallb] in Hok. apply andb_true_iff in Hok. destruct Hok as (Hl & Hls).
    assert (Hlen' : len (l :: ls) = 1 + len ls)
      by (unfold len; cbn [length]; lia).
    pose proof (len_nonneg ls) as Hnn.
    pose proof W as (Hc & _).
    destruct fuel as [|fuel]; [lia|].
    unfold after_lines. cbn [readLabelFile_loop feof_label l_eof].
    unfold readLabelFile_body.
    assert (Efile : crlf_file (l :: ls) = line_bytes l ++ CR :: LF :: crlf_file ls).
    { unfold crlf_file. cbn [flat_map]. rewrite <- app_assoc. reflexivity. }
    rewrite Efile.
    rewrite (fscanf_label_readable_line fc l (CR :: LF :: crlf_file ls) Hl eq_refl).
    cbn [sr_return sr_startTime sr_labelString sr_file tl isnil].
    change (negb (2 =? 2)) with false. cbv iota.
    destruct (storeLabel_readable_line fc l li Hl W ltac:(lia))
      as (li1 & Est & W1 & K1 & C1 & T1 & _).
    rewrite Est.
    rewrite (skipLineEnd_between_lines fc ls Hls).
    destruct (IH fuel li1 Hls W1) as (lif & R & Cf & Kf & Ef).
    { lia. }
    { rewrite Efile in Hfuel. rewrite length_app in Hfuel. cbn [length] in Hfuel.
      lia. }
    exists lif. split; [exact R|].
    split; [lia|].
    split; [apply (Entries_kept_trans li li1 lif K1 Kf)|].
    cbn [length entries_from map]. rewrite C1 in Ef. rewrite Ef.
    f_equal. destruct Kf as (_ & Kf). destruct (Kf (count li) ltac:(lia)) as (A & B & _).
    rewrite A, B. exact T1.
Qed.

Lemma readLabelFile_loop_crlf (fc : FormatChunk) :
  forall ls fuel li,
    forallb (line_ok fc) ls = true -> LabelInfo_wf li ->
    count li + len ls <= maxLabels ->
    (length (crlf_file ls) < fuel)%nat ->
    exists lif,
      readLabelFile_loop fuel fc (after_lines ls) li = Ok lif /\
      count lif = count li + len ls /\
      Entries_kept li lif /\
      entries_from lif (count li) (length ls) = map (expected_entry fc) ls.
Proof.
  intros ls fuel li Hok W Hcnt Hfuel.
  assert (Hr : forallb (line_readable fc) ls = true).
  { apply forallb_forall. intros l Hin.
    apply (line_ok_readable fc l). rewrite forallb_forall in Hok. apply Hok, Hin. }
  destruct (readLabelFile_loop_crlf_readable fc ls fuel li Hr W Hcnt Hfuel)
    as (lif & R & C & K & E).
  exists lif. split; [exact R|]. split; [exact C|]. split; [exact K|].
  rewrite E. apply map_ext_in. intros l Hin.
  rewrite forallb_forall in Hok.
  destruct (line_ok_readable fc l (Hok l Hin)) as (_ & Hcs).
  unfold stored_entry, expected_entry. rewrite Hcs. reflexivity.
Qed.

(** X7. A label file whose lines are [start TAB end TAB text CR LF], with
    decimal times and texts of 1 to 499 bytes, is read line by line: the
    table has one entry per line, in the order of the lines, holding the
    sample index of the start time and the text.  (At most 500 lines; the
    start times are at most 48660 s with a 32-bit sample index.) *)
Theorem X7_crlf_file_read_in_order (fc : FormatChunk) (ls : list LabelLine) :
  forallb (line_ok fc) ls = true -> len ls <= 500 ->
  exists li,
    readLabelFile (open_labels (crlf_file ls)) fc = Ok li /\
    count li = len ls /\
    parsed_labels (Ok li) = Some (map (expected_entry fc) ls).
Proof.
  intros Hok Hn. destruct ls as [|l ls'] eqn:Els.
  - exists labelInfo_init. repeat split; reflexivity.
  - rewrite <- Els in *.
    destruct (readLabelFile_loop_crlf fc ls (S (length (crlf_file ls)))
                labelInfo_init Hok labelInfo_init_wf)
      as (lif & R & C & _ & E).
    { unfold maxLabels. cbn [labelInfo_init count]. lia. }
    { lia. }
    exists lif. unfold readLabelFile, open_labels. cbn [l_rest].
    assert (Ea : after_lines ls = mkLabelFILE (crlf_file ls) false)
      by (rewrite Els; reflexivity).
    rewrite <- Ea. split; [exact R|].
    cbn [labelInfo_init count] in C, E. rewrite Z.add_0_l in C.
    split; [exact C|].
    rewrite parsed_labels_entries, C. unfold len. rewrite Nat2Z.id. rewrite E.
    reflexivity.
Qed.

Lemma X7_crlf_file_read_in_order_witness :
  parsed_labels (readLabelFile (open_labels (crlf_file two_lines)) fmt_44100) =
    Some [(11025, bytes "intro"); (551250, bytes "verse 1")].
Proof.
  destruct (X7_crlf_file_read_in_order fmt_44100 two_lines) as (li & R & _ & E).
  - vm_compute. reflexivity.
  - vm_compute. discriminate.
  - rewrite R, E. vm_compute. reflexivity.
Defined.

(** ** A zero byte in the text of a label *)

Lemma entries_from_nth (li : LabelInfo) :
  forall n s k,
    (k < n)%nat ->
    nth_error (entries_from li s n) k =
      Some (nthZ (s + Z.of_nat k) (locations li) 0,
            c_string (nthZ (s + Z.of_nat k) (labels li) [])).
Proof.
  induction n as [|n IH]; intros s k Hk; [lia|].
  cbn [entries_from]. destruct k as [|k]; cbn [nth_error].
  - rewrite Z.add_0_r. reflexivity.
  - rewrite IH by lia.
    replace (s + 1 + Z.of_nat k) with (s + Z.of_nat (S k)) by lia. reflexivity.
Qed.

Lemma entry_holds_of (li : LabelInfo) (i : Z) (s : list byte) :
  LabelInfo_wf li -> 0 <= i < count li ->
  c_string (nthZ i (labels li) []) = s -> entry_holds li i s.
Proof.
  intros W Hi Hs. unfold entry_holds.
  pose proof (wf_length_strlen li i W Hi) as L. rewrite Hs in L.
  split; [exact Hs|]. split; [exact L|].
  cbn [make_listChunk labelChunks]. rewrite (lablRecords_fill li W).
  rewrite (nth_error_nth' _ (expected_labl li 0))
    by (pose proof (indices_length (count li)) as E; unfold len in E;
        rewrite length_map; lia).
  f_equal.
  change (nth (Z.to_nat i) (map (expected_labl li) (indices (count li)))
              (expected_labl li 0))
    with (nthZ i (map (expected_labl li) (indices (count li))) (expected_labl li 0)).
  rewrite nthZ_map_indices by exact Hi.
  unfold expected_labl. rewrite L, Hs. f_equal. lia.
Qed.

(** C10. If a label line's text contains a zero byte before the line
    terminator, the parser stores the label via C-string copy and records
    its length with strlen, so the stored entry and the serialized labl
    record carry only the bytes preceding the first zero byte.  The line is
    [start TAB end TAB pre NUL post] with decimal times and [pre] without
    zero byte.  First part: in a file of such lines ended by CR LF, at any
    place among the lines.  Second part: in any turn of the loop of
    [readLabelFile] that starts on the line, whatever follows the text (the
    end of the file, or a CR or LF and the rest of the file) and whatever
    the table holds. *)
Theorem C10_zero_byte_truncates (fc : FormatChunk) (l : LabelLine)
    (pre post : list byte) :
  line_readable fc l = true ->
  ln_text l = pre ++ x00 :: post -> c_string pre = pre ->
  (forall ls1 ls2 : list LabelLine,
      forallb (line_readable fc) ls1 = true ->
      forallb (line_readable fc) ls2 = true ->
      len ls1 + 1 + len ls2 <= maxLabels ->
      exists li,
        readLabelFile (open_labels (crlf_file (ls1 ++ l :: ls2))) fc = Ok li /\
        count li = len ls1 + 1 + len ls2 /\
        entry_holds li (len ls1) pre) /\
  (forall (rest : list byte) (li lif : LabelInfo) (fuel : nat),
      line_end_ok rest = true ->
      LabelInfo_wf li -> count li < maxLabels ->
      readLabelFile_loop (S fuel) fc (mkLabelFILE (line_bytes l ++ rest) false) li =
        Ok lif ->
      count li < count lif /\ entry_holds lif (count li) pre).
Proof.
  intros Hl Ht Hpre.
  assert (Hcs : c_string (ln_text l) = pre).
  { rewrite Ht. apply c_string_app_nul. exact Hpre. }
  split.
  - intros ls1 ls2 H1 H2 Hn.
    set (ls := ls1 ++ l :: ls2).
    assert (Hls : forallb (line_readable fc) ls = true).
    { unfold ls. rewrite forallb_app. cbn [forallb]. rewrite H1, Hl, H2.
      reflexivity. }
    assert (Hlen : len ls = len ls1 + 1 + len ls2).
    { unfold ls, len. rewrite length_app. cbn [length]. lia. }
    pose proof (len_nonneg ls1) as N1. pose proof (len_nonneg ls2) as N2.
    destruct (readLabelFile_loop_crlf_readable fc ls (S (length (crlf_file ls)))
                labelInfo_init Hls labelInfo_init_wf)
      as (lif & R & C & _ & E).
    { cbn [labelInfo_init count]. lia. }
    { lia. }
    cbn [labelInfo_init count] in C, E. rewrite Z.add_0_l in C.
    assert (Ea : after_lines ls = mkLabelFILE (crlf_file ls) false).
    { unfold ls. destruct ls1; reflexivity. }
    rewrite Ea in R.
    exists lif. split; [exact R|]. split; [lia|].
    apply entry_holds_of; [|lia|].
    { apply (readLabelFile_loop_wf fc _ _ _ _ labelInfo_init_wf R). }
    assert (K : (length ls1 < length ls)%nat) by (unfold len in *; lia).
    pose proof (entries_from_nth lif (length ls) 0 (length ls1) K) as Q.
    rewrite E in Q. rewrite nth_error_map in Q. unfold ls in Q at 1.
    rewrite nth_error_app2, Nat.sub_diag in Q by lia.
    cbn [nth_error option_map] in Q. unfold stored_entry in Q.
    rewrite !Z.add_0_l in Q. injection Q as _ Q2. unfold len.
    rewrite <- Q2. exact Hcs.
  - intros rest li lif fuel He W Hc Hloop.
    pose proof W as (Hcnt & _).
    cbn [readLabelFile_loop feof_label l_eof] in Hloop.
    unfold readLabelFile_body in Hloop.
    rewrite (fscanf_label_readable_line fc l rest Hl He) in Hloop.
    cbn [sr_return sr_startTime sr_labelString sr_file] in Hloop.
    change (negb (2 =? 2)) with false in Hloop. cbv iota in Hloop.
    destruct (storeLabel_readable_line fc l li Hl W Hc)
      as (li1 & Est & W1 & _ & C1 & T1 & _).
    rewrite Est in Hloop.
    pose proof (readLabelFile_loop_wf fc _ _ _ _ W1 Hloop) as Wf.
    destruct (readLabelFile_loop_kept fc _ _ _ _ Hloop ltac:(lia)) as (K1 & K2).
    destruct (K2 (count li) ltac:(lia)) as (_ & B & _).
    split; [lia|].
    apply entry_holds_of; [exact Wf | lia|].
    rewrite B. unfold stored_entry in T1. injection T1 as _ T2.
    rewrite T2. exact Hcs.
Qed.

Lemma C10_zero_byte_truncates_witness :
  exists li,
    readLabelFile (open_labels (crlf_file lines_with_nul)) fmt_44100 = Ok li /\
    count li = 3 /\
    c_string (nthZ 1 (labels li) []) = bytes "ver" /\
    nthZ 1 (labelLengths li) 0 = 4.
Proof.
  destruct (C10_zero_byte_truncates fmt_44100 line_with_nul (bytes "ver")
              (bytes "se 1")) as (H & _).
  - vm_compute. reflexivity.
  - reflexivity.
  - reflexivity.
  - destruct (H [mkLabelLine (bytes "0", bytes "25") (bytes "1", bytes "0")
                             (bytes "intro")]
                [mkLabelLine (bytes "20", bytes "0") (bytes "21", bytes "5")
                             (bytes "end")])
      as (li & R & C & (E1 & E2 & _)).
    + vm_compute. reflexivity.
    + vm_compute. reflexivity.
    + vm_compute. discriminate.
    + exists li. split; [exact R|]. split; [exact C|]. split; [exact E1 | exact E2].
Defined.

(** ** The chunk scanner, one chunk at a time *)

Lemma fread_exact (data ptr : list byte) (p : Z) :
  0 <= p -> p + len ptr <= len data ->
  fread ptr (at_offset data p) =
    (slice data p (len ptr), at_offset data (p + len ptr)).
Proof.
  intros Hp Hl. unfold fread, at_offset, f_limit.
  cbn [f_data f_pos f_eof f_err f_bad].
  pose proof (len_nonneg ptr) as Hn.
  replace (Z.max 0 (Z.min (len ptr) (len data - p))) with (len ptr) by lia.
  rewrite Z.ltb_irrefl. cbn [andb orb].
  f_equal. unfold len at 2. rewrite Nat2Z.id, skipn_all, app_nil_r. reflexivity.
Qed.

Lemma fread_exact4 (indet : nat -> byte) (data : list byte) (p : Z) :
  0 <= p -> p + 4 <= len data ->
  fread (uninit indet 4) (at_offset data p) = (slice data p 4, at_offset data (p + 4)) /\
  fread (repeat x00 4) (at_offset data p) = (slice data p 4, at_offset data (p + 4)).
Proof.
  intros Hp Hl. split.
  - pose proof (fread_exact data (uninit indet 4) p Hp) as E.
    rewrite (uninit_length indet 4) in E. apply E. exact Hl.
  - apply (fread_exact data (repeat x00 4) p Hp). exact Hl.
Qed.

Lemma skipData_at (data : list byte) (q n : Z) :
  0 <= q -> 0 <= n ->
  skipData (at_offset data q) n = at_offset data (q + n + odd_pad n).
Proof.
  intros Hq Hn. unfold skipData, fseek, at_offset, odd_pad.
  cbn [f_pos f_data f_err f_bad snd].
  destruct (q + n <? 0) eqn:E1; [apply Z.ltb_lt in E1; lia|]. cbn [snd f_pos].
  destruct (n mod 2 =? 0); cbn [negb]; [rewrite Z.add_0_r; reflexivity|].
  cbn [f_pos f_data f_err f_bad].
  destruct (q + n + 1 <? 0) eqn:E2; [apply Z.ltb_lt in E2; lia|]. reflexivity.
Qed.

Lemma size_field_range (data : list byte) (p : Z) :
  0 <= size_field data p < 2 ^ 32.
Proof. apply littleEndianBytesToUInt32_range. Qed.

Lemma wrap64_chunk_size (n : Z) : 0 <= n < 2 ^ 32 -> wrap64 (4 + 4 + n) = 8 + n.
Proof. intros H. unfold wrap64. rewrite Z.mod_small; lia. Qed.

Lemma feof_at (data : list byte) (q : Z) : feof (at_offset data q) = false.
Proof. reflexivity. Qed.

Lemma ferror_at (data : list byte) (q : Z) : ferror (at_offset data q) = false.
Proof. reflexivity. Qed.

Lemma ftell_at (data : list byte) (q : Z) : ftell (at_offset data q) = q.
Proof. reflexivity. Qed.

Lemma fseek_cur_at (data : list byte) (q off : Z) :
  0 <= q + off ->
  snd (fseek (at_offset data q) off SEEK_CUR) = at_offset data (q + off).
Proof.
  intros H. unfold fseek, at_offset. cbn [f_pos f_data f_err f_bad].
  destruct (q + off <? 0) eqn:E; [apply Z.ltb_lt in E; lia | reflexivity].
Qed.

Section ScanSteps.

Variable indet : nat -> byte.
Variable data : list byte.
Variable st : ScanState.
Variable p : Z.
Hypothesis Hfile : inputFile st = at_offset data p.
Hypothesis Hp : 0 <= p.

Lemma scan_data_chunk :
  p + 8 <= len data -> slice data p 4 = bytes "data" ->
  scanChunk indet st =
    Continue (mkScanState (at_offset data (next_chunk data p)) (formatChunk st)
                (formatChunkExtraBytes st)
                (mkChunkLocation p (8 + size_field data p))
                (otherChunksCount st) (otherChunkLocations st)).
Proof.
  intros Hl Hid. unfold scanChunk. rewrite Hfile.
  destruct (fread_exact4 indet data p Hp ltac:(lia)) as (R1 & _).
  destruct (fread_exact4 indet data (p + 4) ltac:(lia) ltac:(lia)) as (R2 & _).
  rewrite R1, feof_at, ferror_at, Hid.
  change (strncmp4_eq (bytes "data") "fmt ") with false.
  change (strncmp4_eq (bytes "data") "data") with true. cbv iota.
  rewrite R2, ferror_at, ftell_at. fold (size_field data p).
  pose proof (size_field_range data p) as Hn.
  rewrite skipData_at by lia. rewrite wrap64_chunk_size by exact Hn.
  unfold next_chunk. do 3 f_equal; lia.
Qed.

Lemma scan_cue_chunk :
  p + 8 <= len data -> slice data p 4 = bytes "cue " ->
  scanChunk indet st = Continue (with_file st (at_offset data (next_chunk data p))).
Proof.
  intros Hl Hid. unfold scanChunk. rewrite Hfile.
  destruct (fread_exact4 indet data p Hp ltac:(lia)) as (R1 & _).
  destruct (fread_exact4 indet data (p + 4) ltac:(lia) ltac:(lia)) as (R2 & _).
  rewrite R1, feof_at, ferror_at, Hid.
  change (strncmp4_eq (bytes "cue ") "fmt ") with false.
  change (strncmp4_eq (bytes "cue ") "data") with false.
  change (strncmp4_eq (bytes "cue ") "cue ") with true. cbv iota.
  rewrite R2, ferror_at. fold (size_field data p).
  pose proof (size_field_range data p) as Hn.
  rewrite skipData_at by lia.
  unfold next_chunk. do 3 f_equal; lia.
Qed.

Lemma scan_adtl_chunk :
  p + 12 <= len data -> slice data p 4 = bytes "LIST" ->
  slice data (p + 8) 4 = bytes "adtl" ->
  scanChunk indet st = Continue (with_file st (at_offset data (next_chunk data p))).
Proof.
  intros Hl Hid Hty. unfold scanChunk. rewrite Hfile.
  destruct (fread_exact4 indet data p Hp ltac:(lia)) as (R1 & _).
  destruct (fread_exact4 indet data (p + 4) ltac:(lia) ltac:(lia)) as (_ & R2).
  destruct (fread_exact4 indet data (p + 4 + 4) ltac:(lia) ltac:(lia)) as (R3 & _).
  rewrite R1, feof_at, ferror_at, Hid.
  change (strncmp4_eq (bytes "LIST") "fmt ") with false.
  change (strncmp4_eq (bytes "LIST") "data") with false.
  change (strncmp4_eq (bytes "LIST") "cue ") with false.
  change (strncmp4_eq (bytes "LIST") "LIST") with true. cbv iota.
  rewrite R2, ferror_at, R3, feof_at, ferror_at.
  replace (p + 4 + 4) with (p + 8) by lia. rewrite Hty.
  change (strncmp4_eq (bytes "adtl") "adtl") with true. cbv iota.
  fold (size_field data p).
  pose proof (size_field_range data p) as Hn.
  rewrite to_long_sub4 by exact Hn.
  rewrite fseek_cur_at by lia.
  unfold next_chunk, odd_pad.
  destruct (size_field data p mod 2 =? 0); cbn [negb].
  - do 3 f_equal. lia.
  - rewrite fseek_cur_at by lia. do 3 f_equal. lia.
Qed.

Lemma scanOtherChunk_at :
  p + 8 <= len data ->
  scanOtherChunk st (at_offset data (p + 4)) =
    if maxOtherChunks <=? otherChunksCount st then Fatal TooManyChunks
    else Continue (mkScanState (at_offset data (next_chunk data p))
                     (formatChunk st) (formatChunkExtraBytes st)
                     (dataChunkLocation st) (otherChunksCount st + 1)
                     (firstn (Z.to_nat (otherChunksCount st))
                             (otherChunkLocations st)
                        ++ [mkChunkLocation p (8 + size_field data p)])).
Proof.
  intros Hl. unfold scanOtherChunk.
  destruct (maxOtherChunks <=? otherChunksCount st); [reflexivity|].
  destruct (fread_exact4 indet data (p + 4) ltac:(lia) ltac:(lia)) as (_ & R2).
  rewrite R2, ferror_at, ftell_at. fold (size_field data p).
  pose proof (size_field_range data p) as Hn.
  rewrite skipData_at by lia. rewrite wrap64_chunk_size by exact Hn.
  unfold next_chunk. do 3 f_equal; [lia|].
  do 3 f_equal. lia.
Qed.

Lemma scan_other_chunk :
  p + 8 <= len data -> is_other_id (slice data p 4) = true ->
  scanChunk indet st = scanOtherChunk st (at_offset data (p + 4)).
Proof.
  intros Hl Hid. unfold is_other_id in Hid.
  do 3 (apply andb_true_iff in Hid; let H := fresh "N" in destruct Hid as (Hid & H)).
  apply negb_true_iff in Hid, N, N0, N1.
  unfold scanChunk. rewrite Hfile.
  destruct (fread_exact4 indet data p Hp ltac:(lia)) as (R1 & _).
  rewrite R1, feof_at, ferror_at.
  rewrite Hid, N, N0, N1. reflexivity.
Qed.

Lemma scan_list_chunk :
  p + 12 <= len data -> slice data p 4 = bytes "LIST" ->
  strncmp4_eq (slice data (p + 8) 4) "adtl" = false ->
  scanChunk indet st = scanOtherChunk st (at_offset data (p + 4)).
Proof.
  intros Hl Hid Hty. unfold scanChunk. rewrite Hfile.
  destruct (fread_exact4 indet data p Hp ltac:(lia)) as (R1 & _).
  destruct (fread_exact4 indet data (p + 4) ltac:(lia) ltac:(lia)) as (_ & R2).
  destruct (fread_exact4 indet data (p + 4 + 4) ltac:(lia) ltac:(lia)) as (R3 & _).
  rewrite R1, feof_at, ferror_at, Hid.
  change (strncmp4_eq (bytes "LIST") "fmt ") with false.
  change (strncmp4_eq (bytes "LIST") "data") with false.
  change (strncmp4_eq (bytes "LIST") "cue ") with false.
  change (strncmp4_eq (bytes "LIST") "LIST") with true. cbv iota.
  rewrite R2, ferror_at, R3, feof_at, ferror_at.
  replace (p + 4 + 4) with (p + 8) by lia. rewrite Hty.
  rewrite fseek_cur_at by lia. do 2 f_equal. lia.
Qed.

Lemma scan_fmt_chunk :
  p + 24 <= len data -> slice data p 4 = bytes "fmt " ->
  let fc := FormatChunk_of_bytes (slice data p 24) in
  let code := littleEndianBytesToUInt16 (fc_compressionCode fc) in
  let extra := wrap32 (littleEndianBytesToUInt32 (fc_chunkDataSize fc) - 16) in
  scanChunk indet st =
    if negb (code =? 1) && negb (code =? 3) then Fatal CompressedFormat
    else if 0 <? extra then
      Continue (mkScanState (at_offset data (p + 24 + extra + odd_pad extra))
                  (Some fc) (mkChunkLocation (p + 24) extra)
                  (dataChunkLocation st) (otherChunksCount st)
                  (otherChunkLocations st))
    else
      Continue (mkScanState (at_offset data (p + 24)) (Some fc)
                  (formatChunkExtraBytes st) (dataChunkLocation st)
                  (otherChunksCount st) (otherChunkLocations st)).
Proof.
  intros Hl Hid. cbv zeta. unfold scanChunk. rewrite Hfile.
  destruct (fread_exact4 indet data p Hp ltac:(lia)) as (R1 & _).
  rewrite R1, feof_at, ferror_at, Hid.
  change (strncmp4_eq (bytes "fmt ") "fmt ") with true. cbv iota.
  rewrite fseek_cur_at by lia. replace (p + 4 + -4) with p by lia.
  pose proof (fread_exact data (uninit indet sizeof_FormatChunk) p Hp) as R2.
  rewrite (uninit_length indet sizeof_FormatChunk) in R2.
  change (Z.max 0 sizeof_FormatChunk) with 24 in R2.
  rewrite (R2 Hl), ferror_at, ftell_at.
  change WAVE_FORMAT_PCM with 1. change WAVE_FORMAT_IEEE_FLOAT with 3.
  destruct (negb (_ =? 1) && negb (_ =? 3)); [reflexivity|].
  pose proof (wrap32_range (littleEndianBytesToUInt32
                (fc_chunkDataSize (FormatChunk_of_bytes (slice data p 24))) - 16))
    as Hx.
  destruct (0 <? wrap32 _); [|reflexivity].
  rewrite skipData_at by lia. reflexivity.
Qed.

End ScanSteps.

(** ** The chunk scanner on a file made of chunks *)

Lemma slice_within {A : Type} (pre x rest : list A) (a n : Z) :
  0 <= a -> 0 <= n -> a + n <= len x ->
  slice (pre ++ x ++ rest) (len pre + a) n = slice x a n.
Proof.
  intros Ha Hn Hl. rewrite !slice_plain. unfold len in *.
  replace (Z.to_nat (Z.of_nat (length pre) + a))
    with (length pre + Z.to_nat a)%nat by lia.
  rewrite skipn_app.
  replace (length pre + Z.to_nat a - length pre)%nat with (Z.to_nat a) by lia.
  rewrite (skipn_all2 pre) by lia. cbn [app].
  rewrite skipn_app.
  replace (Z.to_nat a - length x)%nat with 0%nat by lia. cbn [skipn].
  rewrite firstn_app.
  replace (Z.to_nat n - length (skipn (Z.to_nat a) x))%nat with 0%nat
    by (rewrite length_skipn; lia).
  cbn [firstn]. apply app_nil_r.
Qed.

Lemma chunk_image_length (c : Chunk) :
  len (fst c) = 4 ->
  len (chunk_image c) = 8 + len (snd c) + odd_pad (len (snd c)).
Proof.
  intros H. unfold chunk_image, odd_pad, len in *.
  rewrite !length_app, uint32ToLittleEndianBytes_length.
  destruct (Z.of_nat (length (snd c)) mod 2 =? 0); cbn [negb length]; lia.
Qed.

Lemma chunk_ok_parts (c : Chunk) :
  chunk_ok c = true ->
  len (fst c) = 4 /\ 0 <= len (snd c) < 2 ^ 32 /\
  (strncmp4_eq (fst c) "fmt " = true ->
   16 <= len (snd c) /\
   (negb (littleEndianBytesToUInt16 (fc_compressionCode (chunk_fmt c)) =? 1) &&
    negb (littleEndianBytesToUInt16 (fc_compressionCode (chunk_fmt c)) =? 3)) = false) /\
  (strncmp4_eq (fst c) "LIST" = true -> 4 <= len (snd c)).
Proof.
  unfold chunk_ok. intros H.
  do 3 (apply andb_true_iff in H; let H' := fresh "P" in destruct H as (H & H')).
  split; [apply Z.eqb_eq; exact H|].
  split; [split; [apply len_nonneg | apply Z.ltb_lt; exact P1]|].
  split.
  - intros E. rewrite E in P0. apply andb_true_iff in P0. destruct P0 as (A & B).
    split; [apply Z.leb_le; exact A|]. cbv zeta in B.
    destruct (_ =? 1); [reflexivity|]. destruct (_ =? 3); [reflexivity|].
    discriminate.
  - intros E. rewrite E in P. apply Z.leb_le. exact P.
Qed.

Lemma bytes_eqb_eq (a b : list byte) : bytes_eqb a b = true -> a = b.
Proof.
  revert b. induction a as [|x a IH]; intros [|y b] H; cbn [bytes_eqb] in H;
    try discriminate; [reflexivity|].
  apply andb_true_iff in H. destruct H as (H1 & H2).
  apply Byte.byte_dec_bl in H1. rewrite H1, (IH b H2). reflexivity.
Qed.

Lemma strncmp4_eq_id (id : list byte) (lit : string) :
  len id = 4 -> strncmp4_eq id lit = true -> id = bytes lit.
Proof.
  intros Hl H. unfold strncmp4_eq in H. apply bytes_eqb_eq in H.
  rewrite <- H. symmetry. apply firstn_all2. unfold len in Hl. lia.
Qed.

Section ChunkInFile.

Variable indet : nat -> byte.
Variable pre rest : list byte.
Variable c : Chunk.
Hypothesis Hok : chunk_ok c = true.

Let data := pre ++ chunk_image c ++ rest.
Let p := len pre.

Lemma image_id : slice data p 4 = fst c.
Proof.
  destruct (chunk_ok_parts c Hok) as (H4 & _).
  pose proof (chunk_image_length c H4) as L. pose proof (len_nonneg (snd c)).
  assert (O : 0 <= odd_pad (len (snd c))) by (unfold odd_pad; destruct (_ =? 0); lia).
  subst data p. replace (len pre) with (len pre + 0) by lia.
  rewrite slice_within by lia. unfold chunk_image.
  apply slice_0_app. lia.
Qed.

Lemma image_size : size_field data p = len (snd c).
Proof.
  destruct (chunk_ok_parts c Hok) as (H4 & Hn & _).
  pose proof (chunk_image_length c H4) as L.
  assert (O : 0 <= odd_pad (len (snd c))) by (unfold odd_pad; destruct (_ =? 0); lia).
  unfold size_field. subst data p.
  rewrite slice_within by lia. unfold chunk_image.
  rewrite slice_app_skip by lia. rewrite H4. change (4 - 4) with 0.
  rewrite slice_0_app by (unfold len; rewrite uint32ToLittleEndianBytes_length; reflexivity).
  apply UInt32_roundtrip_small. exact Hn.
Qed.

Lemma image_in_file : p + len (chunk_image c) <= len data.
Proof.
  subst data p. unfold len. rewrite !length_app. lia.
Qed.

Lemma image_next : next_chunk data p = p + len (chunk_image c).
Proof.
  destruct (chunk_ok_parts c Hok) as (H4 & _).
  unfold next_chunk. rewrite image_size, (chunk_image_length c H4). lia.
Qed.

Lemma image_type :
  4 <= len (snd c) ->
  strncmp4_eq (slice data (p + 8) 4) "adtl" = strncmp4_eq (snd c) "adtl".
Proof.
  intros H. destruct (chunk_ok_parts c Hok) as (H4 & Hn & _).
  pose proof (chunk_image_length c H4) as L.
  assert (O : 0 <= odd_pad (len (snd c))) by (unfold odd_pad; destruct (_ =? 0); lia).
  subst data p. rewrite slice_within by lia. unfold chunk_image.
  rewrite slice_app_skip by lia. rewrite H4.
  rewrite slice_app_skip
    by (unfold len; rewrite uint32ToLittleEndianBytes_length; lia).
  replace (len (uint32ToLittleEndianBytes (len (snd c)))) with 4
    by (unfold len; rewrite uint32ToLittleEndianBytes_length; reflexivity).
  change (8 - 4 - 4) with 0. unfold strncmp4_eq. f_equal.
  rewrite slice_plain. cbn [Z.to_nat skipn].
  change (Pos.to_nat 4) with 4%nat.
  rewrite firstn_firstn. change (Nat.min 4 4) with 4%nat. rewrite firstn_app.
  replace (4 - length (snd c))%nat with 0%nat by (unfold len in H; lia).
  cbn [firstn]. apply app_nil_r.
Qed.

Lemma image_fmt :
  16 <= len (snd c) -> slice data p 24 = slice (chunk_image c) 0 24.
Proof.
  intros H. destruct (chunk_ok_parts c Hok) as (H4 & Hn & _).
  pose proof (chunk_image_length c H4) as L.
  assert (O : 0 <= odd_pad (len (snd c))) by (unfold odd_pad; destruct (_ =? 0); lia).
  subst data p. replace (len pre) with (len pre + 0) by lia.
  apply slice_within; lia.
Qed.

Lemma fmt_size_field :
  littleEndianBytesToUInt32 (fc_chunkDataSize (chunk_fmt c)) = len (snd c).
Proof.
  destruct (chunk_ok_parts c Hok) as (H4 & Hn & _).
  unfold chunk_fmt, FormatChunk_of_bytes. cbn [fc_chunkDataSize].
  unfold chunk_image.
  pose proof (uint32ToLittleEndianBytes_length (len (snd c))) as He.
  pose proof (UInt32_roundtrip_small (len (snd c)) Hn) as Hrt.
  assert (H4' : length (fst c) = 4%nat) by (unfold len in H4; lia).
  destruct (fst c) as [|i0 [|i1 [|i2 [|i3 [|i4 r]]]]]; try discriminate H4'.
  destruct (uint32ToLittleEndianBytes (len (snd c))) as [|e0 [|e1 [|e2 [|e3 [|e4 r]]]]];
    try discriminate He.
  rewrite <- Hrt. rewrite !slice_plain. cbn [app Z.to_nat skipn].
  change (Pos.to_nat 24) with 24%nat.
  change (Pos.to_nat 4) with 4%nat. cbn [firstn skipn]. reflexivity.
Qed.

Variable st : ScanState.
Hypothesis Hfile : inputFile st = at_offset data p.
Hypothesis Hroom :
  chunk_kind c = KOther -> otherChunksCount st < maxOtherChunks.

Lemma scanChunk_image :
  scanChunk indet st =
    Continue (record_chunk p c st (at_offset data (p + len (chunk_image c)))).
Proof.
  destruct (chunk_ok_parts c Hok) as (H4 & Hn & Hfmt & Hlist).
  pose proof (chunk_image_length c H4) as L.
  assert (O : 0 <= odd_pad (len (snd c))) by (unfold odd_pad; destruct (_ =? 0); lia).
  pose proof image_in_file as Hin.
  assert (Hp : 0 <= p) by (subst p; apply len_nonneg).
  assert (H8 : p + 8 <= len data) by lia.
  unfold record_chunk, chunk_kind in *.
  destruct (strncmp4_eq (fst c) "fmt ") eqn:K1.
  { destruct (Hfmt eq_refl) as (H16 & Hcode).
    pose proof (strncmp4_eq_id _ _ H4 K1) as Eid.
    assert (H24 : p + 24 <= len data) by lia.
    pose proof (scan_fmt_chunk indet data st p Hfile Hp H24
                  ltac:(rewrite image_id; exact Eid)) as S.
    cbv zeta in S. rewrite (image_fmt H16) in S. fold (chunk_fmt c) in S.
    rewrite Hcode, fmt_size_field in S. rewrite S.
    unfold wrap32. rewrite Z.mod_small by lia.
    replace (0 <? len (snd c) - 16) with (16 <? len (snd c))
      by (destruct (16 <? len (snd c)) eqn:A; symmetry;
          [apply Z.ltb_lt; apply Z.ltb_lt in A; lia
          |apply Z.ltb_ge; apply Z.ltb_ge in A; lia]).
    destruct (16 <? len (snd c)) eqn:A.
    - do 3 f_equal. rewrite L. unfold odd_pad.
      replace ((len (snd c) - 16) mod 2) with (len (snd c) mod 2); [lia|].
      replace (len (snd c)) with (len (snd c) - 16 + 8 * 2) at 1 by lia.
      apply Z.mod_add. lia.
    - apply Z.ltb_ge in A. do 3 f_equal. rewrite L.
      assert (E16 : len (snd c) = 16) by lia. rewrite E16. reflexivity. }
  destruct (strncmp4_eq (fst c) "data") eqn:K2.
  { pose proof (strncmp4_eq_id _ _ H4 K2) as Eid.
    rewrite (scan_data_chunk indet data st p Hfile Hp H8
               ltac:(rewrite image_id; exact Eid)).
    rewrite image_next, image_size. reflexivity. }
  destruct (strncmp4_eq (fst c) "cue ") eqn:K3.
  { pose proof (strncmp4_eq_id _ _ H4 K3) as Eid.
    rewrite (scan_cue_chunk indet data st p Hfile Hp H8
               ltac:(rewrite image_id; exact Eid)).
    rewrite image_next. reflexivity. }
  destruct (strncmp4_eq (fst c) "LIST") eqn:K4; cbn [andb].
  { pose proof (strncmp4_eq_id _ _ H4 K4) as Eid.
    specialize (Hlist eq_refl).
    assert (H12 : p + 12 <= len data) by lia.
    destruct (strncmp4_eq (snd c) "adtl") eqn:K5.
    - assert (Ety : slice data (p + 8) 4 = bytes "adtl").
      { pose proof (image_type Hlist) as T. rewrite K5 in T.
        apply strncmp4_eq_id in T; [exact T|].
        subst data p. rewrite slice_within by lia.
        apply slice_length; lia. }
      rewrite (scan_adtl_chunk indet data st p Hfile Hp H12
                 ltac:(rewrite image_id; exact Eid) Ety).
      rewrite image_next. reflexivity.
    - rewrite (scan_list_chunk indet data st p Hfile Hp H12
                 ltac:(rewrite image_id; exact Eid)
                 ltac:(rewrite (image_type Hlist); exact K5)).
      rewrite (scanOtherChunk_at indet data st p Hp H8).
      specialize (Hroom eq_refl).
      destruct (maxOtherChunks <=? otherChunksCount st) eqn:B;
        [apply Z.leb_le in B; lia|].
      rewrite image_next, image_size. reflexivity. }
  rewrite (scan_other_chunk indet data st p Hfile Hp H8).
  2:{ unfold is_other_id. rewrite image_id, K1, K2, K3, K4. reflexivity. }
  rewrite (scanOtherChunk_at indet data st p Hp H8).
  specialize (Hroom eq_refl).
  destruct (maxOtherChunks <=? otherChunksCount st) eqn:B;
    [apply Z.leb_le in B; lia|].
  rewrite image_next, image_size. reflexivity.
Qed.

End ChunkInFile.

Lemma fread_at_end (data ptr : list byte) :
  0 < len ptr ->
  fread ptr (at_offset data (len data)) =
    (ptr, mkFILE data (len data) true false None).
Proof.
  intros H. unfold fread, at_offset, f_limit.
  cbn [f_data f_pos f_eof f_err f_bad].
  replace (Z.max 0 (Z.min (len ptr) (len data - len data))) with 0 by lia.
  rewrite slice_plain. cbn [Z.to_nat firstn skipn app].
  replace (0 <? len ptr) with true by (symmetry; apply Z.ltb_lt; exact H).
  rewrite Z.add_0_r, Z.leb_refl. reflexivity.
Qed.

Lemma record_chunk_file (off : Z) (c : Chunk) (st : ScanState) (f : FILE) :
  inputFile (record_chunk off c st f) = f.
Proof. unfold record_chunk. destruct (chunk_kind c); reflexivity. Qed.

Lemma scanLoop_chunks (indet : nat -> byte) :
  forall cs pre st fuel,
    forallb chunk_ok cs = true ->
    inputFile st = at_offset (pre ++ flat_map chunk_image cs) (len pre) ->
    otherChunksCount st +
      len (filter (fun c => kind_eqb (chunk_kind c) KOther) cs) <= maxOtherChunks ->
    (length cs < fuel)%nat ->
    scanLoop indet fuel st =
      Scanned (record_chunks (pre ++ flat_map chunk_image cs) (len pre) cs st).
Proof.
  induction cs as [|c r IH]; intros pre st fuel Hok Hfile Hcnt Hfuel;
    (destruct fuel as [|fuel]; [cbn [length] in Hfuel; lia|]).
  - cbn [flat_map] in *. rewrite app_nil_r in *. cbn [scanLoop record_chunks].
    unfold scanChunk. rewrite Hfile.
    rewrite fread_at_end by (rewrite uninit_length; lia).
    cbn [feof f_eof]. reflexivity.
  - cbn [forallb] in Hok. apply andb_true_iff in Hok. destruct Hok as (Hc & Hr).
    cbn [flat_map] in *. cbn [scanLoop record_chunks].
    assert (Hroom : chunk_kind c = KOther -> otherChunksCount st < maxOtherChunks).
    { intros K. cbn [filter] in Hcnt. rewrite K in Hcnt. cbn [kind_eqb] in Hcnt.
      pose proof (len_nonneg
                    (filter (fun c => kind_eqb (chunk_kind c) KOther) r)) as Hn.
      unfold len in *. cbn [length] in Hcnt. lia. }
    rewrite (scanChunk_image indet pre (flat_map chunk_image r) c Hc st Hfile Hroom).
    assert (Epre : len (pre ++ chunk_image c) = len pre + len (chunk_image c))
      by (unfold len; rewrite length_app; lia).
    assert (Eapp : pre ++ chunk_image c ++ flat_map chunk_image r =
                   (pre ++ chunk_image c) ++ flat_map chunk_image r)
      by apply app_assoc.
    rewrite Eapp, <- Epre.
    apply (IH (pre ++ chunk_image c)); [exact Hr | apply record_chunk_file | |].
    + cbn [filter] in Hcnt. unfold record_chunk.
      destruct (chunk_kind c); cbn [kind_eqb otherChunksCount with_file] in *;
        try exact Hcnt.
      unfold len in *. cbn [length] in Hcnt. lia.
    + cbn [length] in Hfuel. lia.
Qed.

Lemma last_cons_default {A : Type} (x d : A) (l : list A) :
  last (x :: l) d = last l x.
Proof.
  revert x d. induction l as [|y l IH]; intros x d; [reflexivity|].
  change (last (x :: y :: l) d) with (last (y :: l) d).
  rewrite (IH y d), (IH y x). reflexivity.
Qed.

Lemma record_chunks_tables (data : list byte) :
  forall cs off st,
    otherChunksCount st = len (otherChunkLocations st) ->
    let final := record_chunks data off cs st in
    let lay := layout off cs in
    formatChunk final = last (map fmt_of (of_kind KFmt lay)) (formatChunk st) /\
    formatChunkExtraBytes final =
      last (map extra_of (filter has_extra (of_kind KFmt lay)))
           (formatChunkExtraBytes st) /\
    dataChunkLocation final =
      last (map loc_of (of_kind KData lay)) (dataChunkLocation st) /\
    otherChunksCount final = otherChunksCount st + len (of_kind KOther lay) /\
    otherChunkLocations final =
      otherChunkLocations st ++ map loc_of (of_kind KOther lay) /\
    inputFile final =
      mkFILE data (off + len (flat_map chunk_image cs)) true false None.
Proof.
  induction cs as [|c r IH]; intros off st Hinv; cbv zeta.
  - cbn [record_chunks layout of_kind filter map last with_file formatChunk
         formatChunkExtraBytes dataChunkLocation otherChunksCount
         otherChunkLocations inputFile flat_map].
    change (len (@nil (Z * Chunk))) with 0. change (len (@nil byte)) with 0.
    rewrite !Z.add_0_r, app_nil_r. repeat split; reflexivity.
  - cbn [record_chunks layout flat_map].
    set (off' := off + len (chunk_image c)).
    set (st1 := record_chunk off c st (at_offset data off')).
    assert (Hinv1 : otherChunksCount st1 = len (otherChunkLocations st1)).
    { subst st1. unfold record_chunk.
      destruct (chunk_kind c); cbn [otherChunksCount otherChunkLocations with_file];
        try exact Hinv.
      rewrite Hinv. unfold len. rewrite Nat2Z.id, firstn_all, length_app.
      cbn [length]. lia. }
    destruct (IH off' st1 Hinv1) as (F1 & F2 & F3 & F4 & F5 & F6).
    cbv zeta in F1, F2, F3, F4, F5, F6.
    rewrite F1, F2, F3, F4, F5, F6. clear F1 F2 F3 F4 F5 F6 IH.
    assert (Efile : off' + len (flat_map chunk_image r) =
                    off + len (chunk_image c ++ flat_map chunk_image r))
      by (subst off'; unfold len; rewrite length_app; lia).
    rewrite Efile. unfold of_kind. cbn [filter snd].
    subst st1. unfold record_chunk.
    destruct (chunk_kind c) eqn:K;
      cbn [kind_eqb filter map formatChunk formatChunkExtraBytes
           dataChunkLocation otherChunksCount otherChunkLocations with_file].
    + unfold has_extra at 2. cbn [snd].
      destruct (16 <? len (snd c)); cbn [map];
        rewrite ?last_cons_default; repeat split; reflexivity.
    + rewrite ?last_cons_default. repeat split; reflexivity.
    + repeat split; reflexivity.
    + repeat split; reflexivity.
    + assert (Ef : firstn (Z.to_nat (otherChunksCount st)) (otherChunkLocations st)
                   = otherChunkLocations st)
        by (rewrite Hinv; unfold len; rewrite Nat2Z.id; apply firstn_all).
      rewrite Ef, <- app_assoc. cbn [app].
      split; [reflexivity|]. split; [reflexivity|]. split; [reflexivity|].
      split; [unfold len; cbn [length]; lia|].
      split; reflexivity.
Qed.

Lemma chunks_count_le (cs : list Chunk) :
  forallb chunk_ok cs = true ->
  (length cs <= length (flat_map chunk_image cs))%nat.
Proof.
  induction cs as [|c r IH]; intros H; [cbn; lia|].
  cbn [forallb] in H. apply andb_true_iff in H. destruct H as (Hc & Hr).
  destruct (chunk_ok_parts c Hc) as (H4 & Hn & _).
  pose proof (chunk_image_length c H4) as L.
  assert (O : 0 <= odd_pad (len (snd c))) by (unfold odd_pad; destruct (_ =? 0); lia).
  cbn [flat_map length]. rewrite length_app. specialize (IH Hr).
  unfold len in *. lia.
Qed.

Lemma of_kind_layout_length (k : ChunkKind) :
  forall cs off,
    len (of_kind k (layout off cs)) =
    len (filter (fun c => kind_eqb (chunk_kind c) k) cs).
Proof.
  induction cs as [|c r IH]; intros off; [reflexivity|].
  cbn [layout]. unfold of_kind in *. cbn [filter snd].
  destruct (kind_eqb (chunk_kind c) k); unfold len in *; cbn [length];
    rewrite ?IH; specialize (IH (off + Z.of_nat (length (chunk_image c)))); lia.
Qed.

Lemma wave_file_header (indet : nat -> byte) (sz : Z) (cs : list Chunk) :
  0 <= sz < 2 ^ 32 ->
  fread (uninit indet sizeof_WaveHeader) (fopen_r (wave_file sz cs) None) =
    (bytes "RIFF" ++ uint32ToLittleEndianBytes sz ++ bytes "WAVE",
     at_offset (wave_file sz cs) 12) /\
  len (bytes "RIFF" ++ uint32ToLittleEndianBytes sz ++ bytes "WAVE") = 12.
Proof.
  intros Hsz.
  assert (L : len (bytes "RIFF" ++ uint32ToLittleEndianBytes sz ++ bytes "WAVE") = 12).
  { unfold len. rewrite !length_app, uint32ToLittleEndianBytes_length. reflexivity. }
  split; [|exact L].
  change (fopen_r (wave_file sz cs) None) with (at_offset (wave_file sz cs) 0).
  pose proof (fread_exact (wave_file sz cs) (uninit indet sizeof_WaveHeader) 0
                ltac:(lia)) as R.
  rewrite (uninit_length indet sizeof_WaveHeader) in R.
  change (Z.max 0 sizeof_WaveHeader) with 12 in R.
  assert (E : wave_file sz cs =
              (bytes "RIFF" ++ uint32ToLittleEndianBytes sz ++ bytes "WAVE") ++
              flat_map chunk_image cs).
  { unfold wave_file. rewrite <- !app_assoc. reflexivity. }
  rewrite R.
  - f_equal. rewrite E at 1. apply slice_0_app. symmetry. exact L.
  - rewrite E. unfold len in *. rewrite length_app. lia.
Qed.

Lemma scanInputFile_chunks (indet : nat -> byte) (sz : Z)
    (cs : list Chunk) :
  0 <= sz < 2 ^ 32 -> sz <> 4 ->
  forallb chunk_ok cs = true ->
  len (of_kind KOther (layout 12 cs)) <= maxOtherChunks ->
  let content := wave_file sz cs in
  let lay := layout 12 cs in
  let result := snd (scanInputFile indet (fopen_r content None)) in
  fst (scanInputFile indet (fopen_r content None)) =
    mkWaveHeader (bytes "RIFF") (uint32ToLittleEndianBytes sz) (bytes "WAVE") /\
  (of_kind KFmt lay = [] \/ of_kind KData lay = [] ->
   result = ScanFatal NoFormatOrNoData) /\
  (of_kind KFmt lay <> [] -> of_kind KData lay <> [] ->
   exists st,
     result = Scanned st /\
     formatChunk st = last (map fmt_of (of_kind KFmt lay)) None /\
     formatChunkExtraBytes st =
       last (map extra_of (filter has_extra (of_kind KFmt lay)))
            (mkChunkLocation 0 0) /\
     dataChunkLocation st =
       last (map loc_of (of_kind KData lay)) (mkChunkLocation 0 0) /\
     otherChunksCount st = len (of_kind KOther lay) /\
     otherChunkLocations st = map loc_of (of_kind KOther lay) /\
     inputFile st = mkFILE content (len content) true false None).
Proof.
  intros Hsz Hne Hok Hcnt. cbv zeta.
  destruct (wave_file_header indet sz cs Hsz) as (Hread & Lh).
  set (hdr := bytes "RIFF" ++ uint32ToLittleEndianBytes sz ++ bytes "WAVE") in *.
  assert (Econtent : wave_file sz cs = hdr ++ flat_map chunk_image cs).
  { unfold wave_file, hdr. rewrite <- !app_assoc. reflexivity. }
  assert (Ehdr : WaveHeader_of_bytes hdr =
                 mkWaveHeader (bytes "RIFF") (uint32ToLittleEndianBytes sz)
                              (bytes "WAVE")).
  { unfold WaveHeader_of_bytes, hdr.
    pose proof (uint32ToLittleEndianBytes_length sz) as He.
    destruct (uint32ToLittleEndianBytes sz) as [|e0 [|e1 [|e2 [|e3 [|e4 r]]]]];
      try discriminate He.
    rewrite !slice_plain. reflexivity. }
  assert (Hloop : scanLoop indet (S (length (f_data (fopen_r (wave_file sz cs) None))))
                    (scan_start (at_offset (wave_file sz cs) 12)) =
                  Scanned (record_chunks (wave_file sz cs) 12 cs
                             (scan_start (at_offset (wave_file sz cs) 12)))).
  { rewrite Econtent, <- Lh.
    apply (scanLoop_chunks indet cs hdr); [exact Hok | reflexivity | |].
    - cbn [scan_start otherChunksCount]. rewrite Z.add_0_l.
      rewrite <- (of_kind_layout_length KOther cs 12). exact Hcnt.
    - cbn [fopen_r f_data]. pose proof (chunks_count_le cs Hok) as Hle.
      rewrite length_app. lia. }
  destruct (record_chunks_tables (wave_file sz cs) cs 12
              (scan_start (at_offset (wave_file sz cs) 12)) eq_refl)
    as (F1 & F2 & F3 & F4 & F5 & F6).
  cbv zeta in F1, F2, F3, F4, F5, F6.
  cbn [scan_start formatChunk formatChunkExtraBytes dataChunkLocation
       otherChunksCount otherChunkLocations app] in F1, F2, F3, F4, F5, F6.
  rewrite Z.add_0_l in F4.
  assert (Eres : snd (scanInputFile indet (fopen_r (wave_file sz cs) None)) =
                 let st := record_chunks (wave_file sz cs) 12 cs
                             (scan_start (at_offset (wave_file sz cs) 12)) in
                 match formatChunk st with
                 | None => ScanFatal NoFormatOrNoData
                 | Some _ =>
                     if size (dataChunkLocation st) =? 0
                     then ScanFatal NoFormatOrNoData else Scanned st
                 end).
  { unfold scanInputFile. rewrite Hread. rewrite ferror_at, Ehdr.
    cbn [wh_chunkID wh_riffType wh_dataSize].
    change (strncmp4_eq (bytes "RIFF") "RIFF") with true.
    change (strncmp4_eq (bytes "WAVE") "WAVE") with true. cbn [negb].
    rewrite UInt32_roundtrip_small by exact Hsz.
    assert (Hrem : (wrap32 (sz - 4) <=? 0) = false).
    { apply Z.leb_gt. unfold wrap32.
      destruct (Z_lt_le_dec sz 4) as [Hlt|Hge].
      - replace (sz - 4) with (sz - 4 + 2 ^ 32 + (-1) * 2 ^ 32) by lia.
        rewrite Z.mod_add by lia. rewrite Z.mod_small by lia. lia.
      - rewrite Z.mod_small by lia. lia. }
    rewrite Hrem.
    change (mkScanState (at_offset (wave_file sz cs) 12) None
              (mkChunkLocation 0 0) (mkChunkLocation 0 0) 0 [])
      with (scan_start (at_offset (wave_file sz cs) 12)).
    rewrite Hloop. cbv zeta.
    destruct (formatChunk _); [|reflexivity].
    destruct (size _ =? 0); reflexivity. }
  assert (Efst : fst (scanInputFile indet (fopen_r (wave_file sz cs) None)) =
                 mkWaveHeader (bytes "RIFF") (uint32ToLittleEndianBytes sz)
                              (bytes "WAVE")).
  { unfold scanInputFile. rewrite Hread. rewrite ferror_at, Ehdr.
    cbn [wh_chunkID wh_riffType wh_dataSize].
    change (strncmp4_eq (bytes "RIFF") "RIFF") with true.
    change (strncmp4_eq (bytes "WAVE") "WAVE") with true. cbn [negb].
    destruct (_ <=? 0); [reflexivity|].
    destruct (scanLoop _ _ _) as [s|d|]; try reflexivity.
    destruct (formatChunk s); [|reflexivity].
    destruct (size _ =? 0); reflexivity. }
  split; [exact Efst|].
  rewrite Eres. cbv zeta. rewrite F1, F3.
  assert (Hdata : forall l : list (Z * Chunk), l <> [] ->
            exists oc, last (map loc_of l) (mkChunkLocation 0 0) = loc_of oc).
  { intros l. induction l as [|a l IH]; intros Hl; [contradiction|].
    cbn [map]. rewrite last_cons_default. destruct l as [|b l].
    - exists a. reflexivity.
    - destruct (IH ltac:(discriminate)) as (oc & E). exists oc.
      cbn [map] in *. rewrite last_cons_default in *. exact E. }
  assert (Hfmt : forall l : list (Z * Chunk), l <> [] ->
            exists fc, last (map fmt_of l) None = Some fc).
  { intros l. induction l as [|a l IH]; intros Hl; [contradiction|].
    cbn [map]. rewrite last_cons_default. destruct l as [|b l].
    - eexists. reflexivity.
    - destruct (IH ltac:(discriminate)) as (fc & E). exists fc.
      cbn [map] in *. rewrite last_cons_default in *. exact E. }
  split.
  - intros [E|E]; rewrite E; cbn [map last]; [reflexivity|].
    destruct (last _ None); reflexivity.
  - intros Nf Nd. destruct (Hfmt _ Nf) as (fc & Efc).
    destruct (Hdata _ Nd) as (oc & Eoc).
    rewrite Efc, Eoc. unfold loc_of at 1, chunk_loc. cbn [size].
    pose proof (len_nonneg (snd (snd oc))) as Hn.
    destruct (8 + len (snd (snd oc)) =? 0) eqn:Z0; [apply Z.eqb_eq in Z0; lia|].
    eexists. split; [reflexivity|].
    rewrite F1, F2, F3, F4, F5, F6.
    repeat split; try reflexivity; try exact Efc; try exact Eoc.
    f_equal. rewrite Econtent. unfold len in *. rewrite length_app. lia.
Qed.


(** X15. The scan of a file made of a header and a sequence of chunks
    (identifier, length, payload, pad byte) finds the chunks one after the
    other: it keeps the last format chunk and the extra bytes of the last
    format chunk that has some, the location of the last data chunk, and
    the locations of the chunks of other kinds in the order of the file;
    [cue ] chunks and [LIST] chunks of type [adtl] are not recorded.  It is
    fatal when the file has no format chunk or no data chunk.  (At most 256
    chunks of other kinds; the length field of the header is not 4.) *)
Theorem X15_scan_of_chunk_sequence (indet : nat -> byte) (sz : Z)
    (cs : list Chunk) :
  0 <= sz < 2 ^ 32 -> sz <> 4 ->
  forallb chunk_ok cs = true ->
  len (of_kind KOther (layout 12 cs)) <= maxOtherChunks ->
  let content := wave_file sz cs in
  let lay := layout 12 cs in
  let result := snd (scanInputFile indet (fopen_r content None)) in
  (of_kind KFmt lay = [] \/ of_kind KData lay = [] ->
   result = ScanFatal NoFormatOrNoData) /\
  (of_kind KFmt lay <> [] -> of_kind KData lay <> [] ->
   exists st,
     result = Scanned st /\
     formatChunk st = last (map fmt_of (of_kind KFmt lay)) None /\
     formatChunkExtraBytes st =
       last (map extra_of (filter has_extra (of_kind KFmt lay)))
            (mkChunkLocation 0 0) /\
     dataChunkLocation st =
       last (map loc_of (of_kind KData lay)) (mkChunkLocation 0 0) /\
     otherChunksCount st = len (of_kind KOther lay) /\
     otherChunkLocations st = map loc_of (of_kind KOther lay) /\
     inputFile st = mkFILE content (len content) true false None).
Proof.
  intros Hsz Hne Hok Hcnt.
  apply (scanInputFile_chunks indet sz cs Hsz Hne Hok Hcnt).
Qed.

Lemma X15_scan_of_chunk_sequence_witness :
  exists st,
    snd (scanInputFile junk (fopen_r (wave_file 96 chunks_S3) None)) = Scanned st /\
    dataChunkLocation st = mkChunkLocation 52 11 /\
    otherChunkLocations st = [mkChunkLocation 36 15; mkChunkLocation 90 13].
Proof.
  destruct (X15_scan_of_chunk_sequence junk 96 chunks_S3) as (_ & H).
  - lia.
  - discriminate.
  - vm_compute. reflexivity.
  - vm_compute. discriminate.
  - destruct H as (st & R & _ & _ & Hd & _ & Ho & _).
    + vm_compute. discriminate.
    + vm_compute. discriminate.
    + exists st. split; [exact R|]. split; [rewrite Hd | rewrite Ho];
        vm_compute; reflexivity.
Defined.

(** ** Properties of the scanner *)

Lemma slice_slice {A : Type} (l : list A) (a n b m : Z) :
  0 <= a -> 0 <= b -> 0 <= m -> b + m <= n ->
  slice (slice l a n) b m = slice l (a + b) m.
Proof.
  intros Ha Hb Hm Hn. rewrite !slice_plain.
  rewrite skipn_firstn_comm, firstn_firstn, skipn_skipn.
  f_equal; [lia | f_equal; lia].
Qed.

(** X8. The loop of the chunk scan ends on every input file and every
    device: the scan either ends normally with a state or is fatal with a
    diagnostic. *)
Theorem X8_scan_terminates (indet : nat -> byte) (content : list byte)
    (bad : option Z) :
  (exists st, snd (scanInputFile indet (fopen_r content bad)) = Scanned st) \/
  (exists d, snd (scanInputFile indet (fopen_r content bad)) = ScanFatal d).
Proof.
  destruct (scanInputFile_spec indet content bad) as (_ & T & _).
  destruct (snd (scanInputFile indet (fopen_r content bad))) as [st|d|].
  - left. exists st. reflexivity.
  - right. exists d. reflexivity.
  - contradiction.
Qed.

(** X9. The header checks, for a readable file of at least 12 bytes: a
    file whose first four bytes are not [RIFF] is rejected as not a RIFF
    file; otherwise a file whose bytes 8 to 11 are not [WAVE] is rejected as
    not a WAVE file; otherwise a file whose length field holds exactly 4 is
    rejected as empty.  In each case the run returns -1 without reading the
    labels or opening the output. *)
Theorem X9_header_checks (indet : nat -> byte) (content : list byte)
    (labelFile : LabelFILE) (outFile : option OFILE) :
  12 <= len content ->
  let run := addLabelsToWaveFile indet (Some (fopen_r content None))
               (Some labelFile) outFile in
  (strncmp4_eq (slice content 0 4) "RIFF" = false ->
   run = Ok (mkRun (-1) (Some NotARiffFile) None)) /\
  (strncmp4_eq (slice content 0 4) "RIFF" = true ->
   strncmp4_eq (slice content 8 4) "WAVE" = false ->
   run = Ok (mkRun (-1) (Some NotAWaveFile) None)) /\
  (strncmp4_eq (slice content 0 4) "RIFF" = true ->
   strncmp4_eq (slice content 8 4) "WAVE" = true ->
   littleEndianBytesToUInt32 (slice content 4 4) = 4 ->
   run = Ok (mkRun (-1) (Some EmptyWaveFile) None)).
Proof.
  intros Hl. cbv zeta.
  assert (Hread : fread (uninit indet sizeof_WaveHeader) (fopen_r content None) =
                  (slice content 0 12, at_offset content 12)).
  { change (fopen_r content None) with (at_offset content 0).
    pose proof (fread_exact content (uninit indet sizeof_WaveHeader) 0 ltac:(lia)) as R.
    rewrite (uninit_length indet sizeof_WaveHeader) in R.
    change (Z.max 0 sizeof_WaveHeader) with 12 in R. apply R. lia. }
  assert (Ehdr : WaveHeader_of_bytes (slice content 0 12) =
                 mkWaveHeader (slice content 0 4) (slice content 4 4)
                              (slice content 8 4)).
  { unfold WaveHeader_of_bytes. rewrite !slice_slice by lia. reflexivity. }
  unfold addLabelsToWaveFile, fatal, scanInputFile.
  rewrite Hread, ferror_at, Ehdr. cbn [wh_chunkID wh_riffType wh_dataSize].
  split; [intros E1; rewrite E1; reflexivity|].
  split; [intros E1 E2; rewrite E1, E2; reflexivity|].
  intros E1 E2 E3. rewrite E1, E2, E3. reflexivity.
Qed.

Lemma X9_header_checks_witness :
  addLabelsToWaveFile junk (Some (fopen_r not_riff None))
    (Some (open_labels label_mid)) (Some (fopen_w None)) =
  Ok (mkRun (-1) (Some NotARiffFile) None).
Proof.
  destruct (X9_header_checks junk not_riff (open_labels label_mid)
              (Some (fopen_w None))) as (H & _).
  - vm_compute. discriminate.
  - apply H. reflexivity.
Defined.

(** X10. An input file of fewer than 16 bytes, which cannot hold a chunk
    after the header, always ends the run with a diagnostic and -1, whatever
    the storage read before it is written holds; no output is written. *)
Theorem X10_short_input_is_fatal (indet : nat -> byte) (content : list byte)
    (bad : option Z) (labelFile : LabelFILE) (outFile : option OFILE) :
  len content < 16 ->
  exists d,
    addLabelsToWaveFile indet (Some (fopen_r content bad)) (Some labelFile)
                        outFile = Ok (mkRun (-1) (Some d) None).
Proof.
  intros Hl. unfold addLabelsToWaveFile, fatal, scanInputFile.
  assert (I0 : FILE_inv content (fopen_r content bad)).
  { unfold FILE_inv, fopen_r. cbn [f_data f_pos f_eof].
    split; [reflexivity|]. split; [lia | discriminate]. }
  pose proof (fread_inv content (uninit indet sizeof_WaveHeader) _ I0) as I1.
  pose proof (fread_full content (uninit indet sizeof_WaveHeader) _ I0) as F1.
  rewrite (uninit_length indet sizeof_WaveHeader) in F1.
  change (Z.max 0 sizeof_WaveHeader) with 12 in F1. specialize (F1 ltac:(lia)).
  pose proof (fread_eof_sticky content (uninit indet 4)
                (snd (fread (uninit indet sizeof_WaveHeader) (fopen_r content bad)))
                I1) as St.
  pose proof (fread_full content (uninit indet 4)
                (snd (fread (uninit indet sizeof_WaveHeader) (fopen_r content bad)))
                I1) as F2.
  rewrite (uninit_length indet 4) in F2. specialize (F2 ltac:(lia)).
  destruct (fread (uninit indet sizeof_WaveHeader) (fopen_r content bad))
    as [block f1]. cbn [fst snd] in *.
  unfold ferror. destruct (f_err f1) eqn:E1; [eexists; reflexivity|].
  destruct (negb (strncmp4_eq _ "RIFF")); [eexists; reflexivity|].
  destruct (negb (strncmp4_eq _ "WAVE")); [eexists; reflexivity|].
  destruct (wrap32 _ <=? 0); [eexists; reflexivity|].
  cbn [scanLoop]. unfold scanChunk. cbn [inputFile].
  destruct (fread (uninit indet 4) f1) as [id f2]. cbn [fst snd] in *.
  unfold feof, ferror.
  destruct (f_eof f2) eqn:E2; [cbn [with_file formatChunk]; eexists; reflexivity|].
  destruct (f_err f2) eqn:E3; [eexists; reflexivity|].
  exfalso. destruct (F2 eq_refl eq_refl) as (P2 & B2 & _ & Ee & _).
  destruct (F1 Ee eq_refl) as (P1 & _).
  cbn [fopen_r f_pos] in P1. lia.
Qed.

Lemma X10_short_input_is_fatal_witness :
  exists d,
    addLabelsToWaveFile junk (Some (fopen_r wav_13_bytes None))
      (Some (open_labels label_mid)) (Some (fopen_w None)) =
    Ok (mkRun (-1) (Some d) None).
Proof.
  apply (X10_short_input_is_fatal junk wav_13_bytes None (open_labels label_mid)
           (Some (fopen_w None))).
  vm_compute. reflexivity.
Defined.

(** X11. A data chunk whose identifier and length field lie within the
    file is recorded with the offset of its identifier and the size 8 plus
    the number in its length field, and the stream is moved past the
    announced payload and its pad byte; the announced length is not compared
    with the length of the file. *)
Theorem X11_data_chunk_recorded (indet : nat -> byte) (data : list byte)
    (st : ScanState) (p : Z) :
  inputFile st = at_offset data p -> 0 <= p ->
  p + 8 <= len data -> slice data p 4 = bytes "data" ->
  scanChunk indet st =
    Continue (mkScanState (at_offset data (next_chunk data p)) (formatChunk st)
                (formatChunkExtraBytes st)
                (mkChunkLocation p (8 + size_field data p))
                (otherChunksCount st) (otherChunkLocations st)).
Proof. intros Hf Hp Hl Hid. apply (scan_data_chunk indet data st p Hf Hp Hl Hid). Qed.

Lemma X11_data_chunk_recorded_witness :
  len wav_truncated_data = 46 /\
  scanChunk junk at_truncated_data =
    Continue (mkScanState (at_offset wav_truncated_data 48) None
                (mkChunkLocation 0 0) (mkChunkLocation 36 12) 0 []).
Proof.
  split; [reflexivity|].
  rewrite (X11_data_chunk_recorded junk wav_truncated_data at_truncated_data 36).
  - reflexivity.
  - reflexivity.
  - lia.
  - vm_compute. discriminate.
  - reflexivity.
Defined.

(** X12. A [cue ] chunk and a [LIST] chunk of type [adtl] of the input
    are skipped: the stream is moved past them and nothing is recorded, so
    that they are not copied to the output. *)
Theorem X12_old_markers_skipped (indet : nat -> byte) (data : list byte)
    (st : ScanState) (p : Z) :
  inputFile st = at_offset data p -> 0 <= p ->
  (p + 8 <= len data /\ slice data p 4 = bytes "cue ") \/
  (p + 12 <= len data /\ slice data p 4 = bytes "LIST" /\
   slice data (p + 8) 4 = bytes "adtl") ->
  scanChunk indet st =
    Continue (with_file st (at_offset data (next_chunk data p))).
Proof.
  intros Hf Hp [(Hl & Hid)|(Hl & Hid & Hty)].
  - apply (scan_cue_chunk indet data st p Hf Hp Hl Hid).
  - apply (scan_adtl_chunk indet data st p Hf Hp Hl Hid Hty).
Qed.

Lemma X12_old_markers_skipped_witness :
  scanChunk junk (S3_at 64) = Continue (S3_at 76) /\
  scanChunk junk (S3_at 76) = Continue (S3_at 90).
Proof.
  split.
  - rewrite (X12_old_markers_skipped junk wav_S3 (S3_at 64) 64);
      [reflexivity | reflexivity | lia |].
    left. split; [vm_compute; discriminate | reflexivity].
  - rewrite (X12_old_markers_skipped junk wav_S3 (S3_at 76) 76);
      [reflexivity | reflexivity | lia |].
    right. split; [vm_compute; discriminate|]. split; reflexivity.
Defined.

(** X13. A chunk of another kind (an identifier other than [fmt ],
    [data], [cue ] and [LIST], or a [LIST] chunk whose type is not [adtl])
    is recorded after the chunks recorded so far, with the offset of its
    identifier and the size 8 plus the number in its length field; when 256
    chunks are recorded already the scan is fatal. *)
Theorem X13_other_chunk_recorded (indet : nat -> byte) (data : list byte)
    (st : ScanState) (p : Z) :
  inputFile st = at_offset data p -> 0 <= p ->
  (p + 8 <= len data /\ is_other_id (slice data p 4) = true) \/
  (p + 12 <= len data /\ slice data p 4 = bytes "LIST" /\
   strncmp4_eq (slice data (p + 8) 4) "adtl" = false) ->
  scanChunk indet st =
    if 256 <=? otherChunksCount st then Fatal TooManyChunks
    else Continue (mkScanState (at_offset data (next_chunk data p))
                     (formatChunk st) (formatChunkExtraBytes st)
                     (dataChunkLocation st) (otherChunksCount st + 1)
                     (firstn (Z.to_nat (otherChunksCount st))
                             (otherChunkLocations st)
                        ++ [mkChunkLocation p (8 + size_field data p)])).
Proof.
  intros Hf Hp [(Hl & Hid)|(Hl & Hid & Hty)].
  - rewrite (scan_other_chunk indet data st p Hf Hp Hl Hid).
    apply (scanOtherChunk_at indet data st p Hp Hl).
  - rewrite (scan_list_chunk indet data st p Hf Hp Hl Hid Hty).
    apply (scanOtherChunk_at indet data st p Hp). lia.
Qed.

Lemma X13_other_chunk_recorded_witness :
  scanChunk junk (S3_at 36) =
    Continue (mkScanState (at_offset wav_S3 52) None (mkChunkLocation 0 0)
                (mkChunkLocation 0 0) 1 [mkChunkLocation 36 15]) /\
  scanChunk junk (S3_at 90) =
    Continue (mkScanState (at_offset wav_S3 104) None (mkChunkLocation 0 0)
                (mkChunkLocation 0 0) 1 [mkChunkLocation 90 13]).
Proof.
  split.
  - rewrite (X13_other_chunk_recorded junk wav_S3 (S3_at 36) 36);
      [reflexivity | reflexivity | lia |].
    left. split; [vm_compute; discriminate | reflexivity].
  - rewrite (X13_other_chunk_recorded junk wav_S3 (S3_at 90) 90);
      [reflexivity | reflexivity | lia |].
    right. split; [vm_compute; discriminate|]. split; reflexivity.
Defined.

(** X14. A format chunk whose 24 bytes lie within the file is kept when
    its compression code is 1 (PCM) or 3 (IEEE float), and is fatal
    otherwise.  The number of extra bytes is the length field minus 16
    taken modulo 2^32; when it is not zero the extra bytes are recorded as
    starting after the 24 bytes and the stream is moved past them and their
    pad byte. *)
Theorem X14_format_chunk_kept (indet : nat -> byte) (data : list byte)
    (st : ScanState) (p : Z) :
  inputFile st = at_offset data p -> 0 <= p ->
  p + 24 <= len data -> slice data p 4 = bytes "fmt " ->
  let fc := FormatChunk_of_bytes (slice data p 24) in
  let code := littleEndianBytesToUInt16 (fc_compressionCode fc) in
  let extra := wrap32 (littleEndianBytesToUInt32 (fc_chunkDataSize fc) - 16) in
  scanChunk indet st =
    if negb (code =? 1) && negb (code =? 3) then Fatal CompressedFormat
    else if 0 <? extra then
      Continue (mkScanState (at_offset data (p + 24 + extra + odd_pad extra))
                  (Some fc) (mkChunkLocation (p + 24) extra)
                  (dataChunkLocation st) (otherChunksCount st)
                  (otherChunkLocations st))
    else
      Continue (mkScanState (at_offset data (p + 24)) (Some fc)
                  (formatChunkExtraBytes st) (dataChunkLocation st)
                  (otherChunksCount st) (otherChunkLocations st)).
Proof. intros Hf Hp Hl Hid. apply (scan_fmt_chunk indet data st p Hf Hp Hl Hid). Qed.

Lemma X14_format_chunk_kept_witness :
  scanChunk junk (S3_at 12) =
    Continue (mkScanState (at_offset wav_S3 36) (Some fmt_44100)
                (mkChunkLocation 0 0) (mkChunkLocation 0 0) 0 []).
Proof.
  rewrite (X14_format_chunk_kept junk wav_S3 (S3_at 12) 12).
  - vm_compute. reflexivity.
  - reflexivity.
  - lia.
  - vm_compute. discriminate.
  - reflexivity.
Defined.

(** ** Properties of the byte-range copier *)

Lemma copier_result (indet : nat -> byte) (data : list byte)
    (chunk : ChunkLocation) (fi : FILE) (fo : OFILE) :
  FILE_inv data fi -> ChunkLocation_ok chunk ->
  exists c fi' fo',
    writeChunkLocationFromInputFileToOutputFile indet chunk fi fo =
      Return c fi' fo' /\
    ((c = 0 /\ FILE_inv data fi' /\ (NoFault fi fo -> NoFault fi' fo') /\
      exists d, o_data fo' = o_data fo ++ d /\ len d = size chunk /\
                (startOffset chunk + size chunk <= len data ->
                 d = slice data (startOffset chunk) (size chunk) /\
                 f_pos fi' = startOffset chunk + size chunk)) \/
     (c = -1 /\ ~ NoFault fi fo /\ f_pos fi' = f_pos fi)).
Proof.
  intros Hi (Hs & Hz).
  assert (Hpos : 0 <= f_pos fi) by apply Hi.
  assert (M : exists c fi' fo',
             writeChunkLocationFromInputFileToOutputFile indet chunk fi fo =
               Return c fi' fo' /\
             ((c = 0 /\ FILE_inv data fi' /\ (NoFault fi fo -> NoFault fi' fo') /\
               exists d, o_data fo' = o_data fo ++ d /\ len d = size chunk /\
                         (startOffset chunk + size chunk <= len data ->
                          d = slice data (startOffset chunk) (size chunk) /\
                          f_pos fi' = startOffset chunk + size chunk)) \/
              (c = -1 /\ ~ NoFault fi fo))).
  { unfold writeChunkLocationFromInputFileToOutputFile.
    rewrite (fseek_set fi (startOffset chunk) Hs).
    change (0 <? 0) with false. cbv iota. unfold andThen.
    set (fi0 := mkFILE (f_data fi) (startOffset chunk) false (f_err fi) (f_bad fi)).
    assert (I0 : FILE_inv data fi0).
    { destruct Hi as (Hd & _). unfold FILE_inv, fi0. cbn [f_data f_pos f_eof].
      split; [exact Hd|]. split; [exact Hs | discriminate]. }
    assert (N0 : NoFault fi fo -> NoFault fi0 fo).
    { intros (N1 & N2 & N3). repeat split; auto. }
    pose proof (copyBlocks_spec indet data (ftell fi)
                  (Z.to_nat (size chunk / 1024)) fi0 fo I0) as B.
    assert (Hq : 0 <= size chunk / 1024) by (apply Z.div_pos; lia).
    rewrite Z2Nat.id in B by exact Hq.
    pose proof (Z.div_mod (size chunk) 1024 ltac:(lia)) as Hdm.
    pose proof (Z.mod_pos_bound (size chunk) 1024 ltac:(lia)) as Hmb.
    destruct (copyBlocks indet _ (ftell fi) fi0 fo) as [fi1 fo1|c fi1 fo1].
    2:{ destruct B as (Hc & Hn). subst c. exists (-1), fi1, fo1.
        split; [reflexivity|]. right. split; [reflexivity | auto]. }
    destruct B as (I1 & N1 & (d1 & E1 & L1 & C1)).
    pose proof (copyRest_spec indet data (ftell fi) (size chunk mod 1024)
                  ltac:(lia) fi1 fo1 I1) as R.
    destruct (copyRest indet _ (ftell fi) fi1 fo1) as [fi2 fo2|c fi2 fo2];
      [contradiction|].
    exists c, fi2, fo2. split; [reflexivity|].
    destruct R as [(Hc & I2 & N2 & (d2 & E2 & L2 & C2))|(Hc & Hn)]; subst c.
    - left. split; [reflexivity|]. split; [exact I2|]. split; [auto|].
      exists (d1 ++ d2). split; [rewrite E2, E1, app_assoc; reflexivity|].
      split; [unfold len in *; rewrite length_app; lia|].
      intros Hr. change (f_pos fi0) with (startOffset chunk) in C1.
      destruct C1 as (C1a & C1b); [lia|].
      destruct C2 as (C2a & C2b); [lia|].
      split; [|lia].
      rewrite C1a, C2a, C1b. rewrite slice_consecutive by lia. f_equal. lia.
    - right. split; [reflexivity | auto]. }
  destruct M as (c & fi' & fo' & E & [M0|(M1 & Nf)]).
  - exists c, fi', fo'. split; [exact E|]. left. exact M0.
  - exists c, fi', fo'. split; [exact E|]. right.
    split; [exact M1|]. split; [exact Nf|].
    apply (copier_failure_restores indet chunk fi fi' fo fo' c Hpos E). lia.
Qed.

(** X16. On devices without fault the copy of a byte range returns 0 and
    appends to the output as many bytes as the range has; when the range
    lies within the input file these are the bytes of the range, in order,
    and the input stream is left at the end of the range. *)
Theorem X16_copy_appends_the_range (indet : nat -> byte) (data : list byte)
    (chunk : ChunkLocation) (fi : FILE) (fo : OFILE) :
  FILE_inv data fi -> ChunkLocation_ok chunk -> NoFault fi fo ->
  exists fi' fo' d,
    writeChunkLocationFromInputFileToOutputFile indet chunk fi fo =
      Return 0 fi' fo' /\
    o_data fo' = o_data fo ++ d /\ len d = size chunk /\
    (startOffset chunk + size chunk <= len data ->
     d = slice data (startOffset chunk) (size chunk) /\
     f_pos fi' = startOffset chunk + size chunk).
Proof.
  intros Hi Hc Hn.
  destruct (copier_result indet data chunk fi fo Hi Hc)
    as (c & fi' & fo' & E & [(C0 & _ & _ & (d & E1 & E2 & E3))|(_ & Nf & _)]).
  - subst c. exists fi', fo', d. auto.
  - contradiction.
Qed.

Lemma X16_copy_appends_the_range_witness :
  exists fi' fo',
    writeChunkLocationFromInputFileToOutputFile junk (dataChunkLocation S3_scanned)
      (inputFile S3_scanned) (fopen_w None) = Return 0 fi' fo' /\
    o_data fo' = bytes "data" ++ le_bytes 4 3 ++ [x01; x02; x03].
Proof.
  destruct (X16_copy_appends_the_range junk wav_S3 (dataChunkLocation S3_scanned)
              (inputFile S3_scanned) (fopen_w None))
    as (fi' & fo' & d & E & E1 & _ & E3).
  - split; [reflexivity|]. split; [vm_compute; discriminate|].
    intros _. vm_compute. discriminate.
  - split; vm_compute; discriminate.
  - repeat split.
  - exists fi', fo'. split; [exact E|].
    destruct E3 as (E3 & _); [vm_compute; discriminate|].
    rewrite E1, E3. vm_compute. reflexivity.
Defined.

(** *** Failure of the copy on an output device that accepts every byte *)

Lemma fwrite_room_none (ptr : list byte) (nmemb : Z) (fo : OFILE) :
  o_room fo = None -> 0 < nmemb ->
  fst (fwrite ptr 1 nmemb fo) = nmemb /\ o_room (snd (fwrite ptr 1 nmemb fo)) = None.
Proof.
  intros Hr Hn. unfold fwrite. rewrite Hr.
  destruct (1 * nmemb <=? 0) eqn:E; [apply Z.leb_le in E; lia|].
  split; reflexivity.
Qed.

Lemma fseek_set_err (f : FILE) (off : Z) :
  f_err (snd (fseek f off SEEK_SET)) = f_err f.
Proof. unfold fseek. destruct (off <? 0); reflexivity. Qed.

Section CopierFailure.

Variable indet : nat -> byte.
Variable orig : Z.

Lemma copyBlocks_read_error :
  forall turns fi fo,
    o_room fo = None ->
    match copyBlocks indet turns orig fi fo with
    | Go fi' fo' =>
        o_room fo' = None /\
        (turns <> 0%nat \/ f_err fi = false -> f_err fi' = false)
    | Return c fi' fo' => c = -1 /\ f_err fi' = true
    end.
Proof.
  induction turns as [|k IH]; intros fi fo Hr; cbn [copyBlocks].
  - split; [exact Hr|]. intros [H|H]; [contradiction | exact H].
  - destruct (fread (uninit indet 1024) fi) as [buffer fi1].
    unfold ferror. destruct (f_err fi1) eqn:E1.
    { split; [reflexivity|]. rewrite fseek_set_err. exact E1. }
    destruct (fwrite_room_none buffer 1024 fo Hr ltac:(lia)) as (W1 & W2).
    destruct (fwrite buffer 1 1024 fo) as [w fo1]. cbn [fst snd] in *.
    subst w. change (1024 <? 1) with false. cbv iota.
    specialize (IH fi1 fo1 W2).
    destruct (copyBlocks indet k orig fi1 fo1) as [fi' fo'|c fi' fo'];
      [|exact IH].
    destruct IH as (R & F). split; [exact R|]. intros _. apply F. right. exact E1.
Qed.

Lemma copyRest_read_error (rem : Z) (fi : FILE) (fo : OFILE) :
  o_room fo = None ->
  match copyRest indet rem orig fi fo with
  | Go _ _ => False
  | Return c fi' fo' =>
      (c = 0 /\ (0 < rem \/ f_err fi = false -> f_err fi' = false)) \/
      (c = -1 /\ f_err fi' = true)
  end.
Proof.
  intros Hr. unfold copyRest. destruct (0 <? rem) eqn:E.
  - apply Z.ltb_lt in E.
    destruct (fread (uninit indet rem) fi) as [buffer fi1].
    unfold ferror. destruct (f_err fi1) eqn:E1.
    { right. split; [reflexivity|]. rewrite fseek_set_err. exact E1. }
    destruct (fwrite_room_none buffer rem fo Hr E) as (W1 & W2).
    destruct (fwrite buffer 1 rem fo) as [w fo1]. cbn [fst snd] in *.
    subst w. destruct (rem <? 1) eqn:E2; [apply Z.ltb_lt in E2; lia|].
    left. split; [reflexivity|]. intros _. exact E1.
  - apply Z.ltb_ge in E. left. split; [reflexivity|].
    intros [H|H]; [lia | exact H].
Qed.

End CopierFailure.

Lemma copier_read_error (indet : nat -> byte) (chunk : ChunkLocation) (fi : FILE) (fo : OFILE) :
  ChunkLocation_ok chunk -> o_room fo = None ->
  match writeChunkLocationFromInputFileToOutputFile indet chunk fi fo with
  | Go _ _ => False
  | Return c fi' fo' =>
      (c = 0 /\ (0 < size chunk \/ f_err fi = false -> f_err fi' = false)) \/
      (c = -1 /\ f_err fi' = true)
  end.
Proof.
  intros (Hs & Hz) Hr. unfold writeChunkLocationFromInputFileToOutputFile.
  rewrite (fseek_set fi (startOffset chunk) Hs).
  change (0 <? 0) with false. cbv iota. unfold andThen.
  set (fi0 := mkFILE (f_data fi) (startOffset chunk) false (f_err fi) (f_bad fi)).
  pose proof (copyBlocks_read_error indet (ftell fi) (Z.to_nat (size chunk / 1024)) fi0 fo Hr) as B.
  pose proof (Z.div_mod (size chunk) 1024 ltac:(lia)) as Hdm.
  pose proof (Z.mod_pos_bound (size chunk) 1024 ltac:(lia)) as Hmb.
  assert (Hq : 0 <= size chunk / 1024) by (apply Z.div_pos; lia).
  destruct (copyBlocks indet _ (ftell fi) fi0 fo) as [fi1 fo1|c fi1 fo1].
  2:{ right. exact B. }
  + destruct B as (R1 & F1).
    pose proof (copyRest_read_error indet (ftell fi) (size chunk mod 1024) fi1 fo1 R1) as R.
    destruct (copyRest indet _ (ftell fi) fi1 fo1) as [fi2 fo2|c fi2 fo2];
      [contradiction|].
    destruct R as [(C0 & F2)|R]; [|right; exact R].
    left. split; [exact C0|]. intros H. apply F2.
    destruct (Z.eq_dec (size chunk mod 1024) 0) as [Z0|N0]; [|left; lia].
    right. apply F1. destruct H as [H|H]; [|right; exact H].
    left. intros Hn. assert (size chunk / 1024 = 0) by lia. lia.
Qed.


(** X17. On an output device that accepts every byte, the copy of a byte
    range returns 0 or -1.  It returns -1 when the error indicator of the
    input stream is up after one of its reads, and only then: a device
    that delivers every byte and an indicator that is down on entry give 0.
    After -1 the input stream is back at the position it had on entry;
    after 0 from a range that is not empty its error indicator is down. *)
Theorem X17_copy_failure (indet : nat -> byte) (data : list byte)
    (chunk : ChunkLocation) (fi : FILE) (fo : OFILE) :
  FILE_inv data fi -> ChunkLocation_ok chunk -> o_room fo = None ->
  exists c fi' fo',
    writeChunkLocationFromInputFileToOutputFile indet chunk fi fo =
      Return c fi' fo' /\
    (c = 0 \/ c = -1) /\
    (c = -1 -> f_err fi' = true /\ f_pos fi' = f_pos fi) /\
    (c = 0 -> 0 < size chunk -> f_err fi' = false) /\
    (f_bad fi = None -> f_err fi = false -> c = 0).
Proof.
  intros Hi Hc Hr.
  pose proof (copier_read_error indet chunk fi fo Hc Hr) as K.
  destruct (copier_result indet data chunk fi fo Hi Hc)
    as (c & fi' & fo' & E & M).
  rewrite E in K. exists c, fi', fo'. split; [exact E|].
  destruct M as [(C0 & _)|(C1 & Nf & P)].
  - subst c. split; [left; reflexivity|].
    split; [intros H; discriminate H|].
    split; [|intros _ _; reflexivity].
    intros _ Hs. destruct K as [(_ & F)|(K & _)]; [|discriminate K].
    apply F. left. exact Hs.
  - subst c. split; [right; reflexivity|].
    split.
    { intros _. destruct K as [(K & _)|(_ & F)]; [discriminate K|].
      split; [exact F | exact P]. }
    split; [intros H; discriminate H|].
    intros Hb He. exfalso. apply Nf. repeat split; assumption.
Qed.

Lemma X17_copy_failure_witness :
  exists fi' fo',
    writeChunkLocationFromInputFileToOutputFile junk (dataChunkLocation S3_scanned)
      failing_after_scan (fopen_w None) = Return (-1) fi' fo' /\
    f_err fi' = true /\ f_pos fi' = 104.
Proof.
  destruct (X17_copy_failure junk wav_S3 (dataChunkLocation S3_scanned)
              failing_after_scan (fopen_w None))
    as (c & fi' & fo' & E & _ & H & _).
  - split; [reflexivity|]. split; [vm_compute; discriminate|].
    intros _. vm_compute. discriminate.
  - split; vm_compute; discriminate.
  - reflexivity.
  - assert (Ec : c = -1).
    { vm_compute in E. inversion E. reflexivity. }
    subst c. exists fi', fo'. split; [exact E|].
    destruct (H eq_refl) as (F & P). split; [exact F|]. rewrite P. reflexivity.
Defined.

(** ** Properties of a run *)

Lemma mod2_add (a b : Z) : a mod 2 = 0 -> b mod 2 = 0 -> (a + b) mod 2 = 0.
Proof. intros Ha Hb. rewrite Z.add_mod, Ha, Hb by lia. reflexivity. Qed.

Lemma others_total_even (cs : list ChunkLocation) : others_total cs mod 2 = 0.
Proof.
  induction cs as [|c r IH]; [reflexivity|].
  cbn [others_total fold_right].
  change (fold_right (fun c0 acc => size c0 + odd_pad (size c0) + acc) 0 r)
    with (others_total r).
  apply mod2_add; [apply padded_even | exact IH].
Qed.

Lemma scan_header_ids (indet : nat -> byte) (f : FILE) (hdr : WaveHeader)
    (st : ScanState) :
  scanInputFile indet f = (hdr, Scanned st) ->
  strncmp4_eq (wh_chunkID hdr) "RIFF" = true /\
  strncmp4_eq (wh_riffType hdr) "WAVE" = true.
Proof.
  unfold scanInputFile. destruct (fread _ f) as [block f1].
  destruct (ferror f1); [intros H; inversion H|].
  destruct (strncmp4_eq (wh_chunkID _) "RIFF") eqn:E1; cbn [negb];
    [|intros H; inversion H].
  destruct (strncmp4_eq (wh_riffType _) "WAVE") eqn:E2; cbn [negb];
    [|intros H; inversion H].
  destruct (_ <=? 0); [intros H; inversion H|].
  destruct (scanLoop _ _ _) as [s|d|]; try (intros H; inversion H; fail).
  destruct (formatChunk s); [|intros H; inversion H].
  destruct (size _ =? 0); intros H; inversion H; subst. auto.
Qed.

Section RunProperties.

Variable indet : nat -> byte.
Variable content : list byte.
Variable bad : option Z.
Variable labelFile : LabelFILE.
Variable room : option Z.
Variable r : Run.
Hypothesis Hrun :
  addLabelsToWaveFile indet (Some (fopen_r content bad)) (Some labelFile)
                      (Some (fopen_w room)) = Ok r.

Lemma run_exit_code :
  (returnCode r = 0 /\ diagnostic r = None /\ exists fo, outputFile r = Some fo) \/
  (returnCode r = -1 /\ exists d, diagnostic r = Some d /\
     (d <> ErrorWritingOutput -> outputFile r = None)).
Proof.
  unfold addLabelsToWaveFile, fatal in Hrun.
  destruct (scanInputFile_spec indet content bad) as (Hh & _ & Hs).
  destruct (scanInputFile indet (fopen_r content bad)) as [hdr [st|d|]] eqn:Escan;
    cbn [fst snd] in Hh, Hs;
    [|inversion Hrun; subst; right; split; [reflexivity|]; exists d;
      split; [reflexivity | intros; reflexivity]
     |discriminate].
  destruct (Hs st eq_refl) as (Sinv & _ & _).
  destruct (formatChunk st) as [fc|] eqn:Efc;
    [|inversion Hrun; subst; right; split; [reflexivity|]; eexists;
      split; [reflexivity | intros; reflexivity]].
  destruct (readLabelFile labelFile fc) as [li|k|] eqn:Elab; try discriminate.
  destruct (count li <? 1) eqn:Ecnt;
    [inversion Hrun; subst; right; split; [reflexivity|]; eexists;
     split; [reflexivity | intros; reflexivity]|].
  apply Z.ltb_ge in Ecnt.
  pose proof (readLabelFile_wf _ _ _ Elab) as W.
  pose proof W as (Hcnt & _). unfold maxLabels in Hcnt.
  pose proof Sinv as (Ifile & _ & _ & Hex & Hda & Hot & _ & Hfcl).
  destruct (fill_cuePoints_props li ltac:(lia)) as (Lc & Fc & _).
  assert (Ecount : littleEndianBytesToUInt32
                     (cc_cuePointsCount (make_cueChunk li)) = count li).
  { cbn [make_cueChunk cc_cuePointsCount]. apply UInt32_roundtrip_small. lia. }
  assert (Ecps : firstn (Z.to_nat (littleEndianBytesToUInt32
                                     (cc_cuePointsCount (make_cueChunk li))))
                        (cuePoints (make_cueChunk li)) = fill_cuePoints li).
  { rewrite Ecount. cbn [make_cueChunk cuePoints]. apply firstn_all2.
    unfold len in Lc. lia. }
  pose proof (compute_listChunkSize_pos li W Ecnt) as HL.
  pose proof (writeOutputFile_spec indet content
                (formatChunkExtraBytes st) (dataChunkLocation st)
                (otherChunksCount st) (otherChunkLocations st) li hdr fc
                (make_cueChunk li)
                (make_listChunk li (compute_listChunkSize li))
                (compute_listChunkSize li) Hex Hda Hot ltac:(lia)
                ltac:(rewrite Ecps; exact Fc)
                (inputFile st) (fopen_w room) Ifile) as Wr.
  cbv beta in Wr.
  destruct (writeOutputFile indet (inputFile st) (fopen_w room) _ _ _ _ _ _ _ _ _ _)
    as [fi' fo'|c fi' fo']; [contradiction|].
  destruct Wr as [(Hc & _)|(Hc & _)]; subst c.
  - change (0 <? 0) with false in Hrun. inversion Hrun; subst.
    left. split; [reflexivity|]. split; [reflexivity|]. eexists. reflexivity.
  - change (-1 <? 0) with true in Hrun. inversion Hrun; subst.
    right. split; [reflexivity|]. eexists. split; [reflexivity|].
    intros N. contradiction.
Qed.

Hypothesis Hcode : returnCode r = 0.

Lemma run_layout :
  exists hdr st fc li fo extraB dataB padB othersB,
    scanInputFile indet (fopen_r content bad) = (hdr, Scanned st) /\
    formatChunk st = Some fc /\
    readLabelFile labelFile fc = Ok li /\
    outputFile r = Some fo /\
    o_data fo =
      outputHeader hdr (fileDataSize_of st li) ++ FormatChunk_bytes fc ++
      extraB ++ dataB ++ padB ++
      cueHeader li ++ flat_map CuePoint_bytes (fill_cuePoints li) ++
      listHeader li (compute_listChunkSize li) ++ fill_labelChunks li ++
      othersB /\
    len extraB = size (formatChunkExtraBytes st) +
                 odd_pad (size (formatChunkExtraBytes st)) /\
    len dataB = size (dataChunkLocation st) /\
    len padB = odd_pad (size (dataChunkLocation st)) /\
    len othersB =
      others_total (firstn (Z.to_nat (otherChunksCount st))
                           (otherChunkLocations st)) /\
    wh_chunkID hdr = bytes "RIFF" /\ wh_riffType hdr = bytes "WAVE" /\
    len (FormatChunk_bytes fc) = 24.
Proof.
  destruct (run_success indet content bad labelFile room r Hrun Hcode)
    as (hdr & st & fc & li & fo & Escan & Sinv & Efc & Elab & Ecnt & Eout &
        Hid & Hty & Q).
  pose proof Sinv as (_ & _ & _ & (_ & Hex) & _ & _ & _ & Hfcl).
  destruct (Qout_layout _ _ _ _ _ _ _ _ _ _ _ _ Q Hex
              (compute_listChunkSize_even li))
    as (extraB & dataB & padB & othersB & E & L1 & (L2 & _) & L3 & L4).
  destruct (scan_header_ids indet _ hdr st Escan) as (R1 & R2).
  exists hdr, st, fc, li, fo, extraB, dataB, padB, othersB.
  split; [exact Escan|]. split; [exact Efc|]. split; [exact Elab|].
  split; [exact Eout|]. split; [exact E|]. split; [exact L1|].
  split; [exact L2|]. split; [exact L3|]. split; [exact L4|].
  split; [apply strncmp4_eq_id; assumption|].
  split; [apply strncmp4_eq_id; assumption|].
  apply (Hfcl fc Efc).
Qed.

End RunProperties.

(** X18. On an output device that accepts every byte, the output of a
    run that returns 0 is, in this order: the header of the input with the
    new length, the 24 bytes of the format chunk, the extra format bytes
    and the data chunk with their pad bytes, the new cue chunk, the new
    LIST chunk, the other chunks of the input.  The header starts with
    [RIFF] and ends with [WAVE]. *)
Theorem X18_output_layout (indet : nat -> byte) (content : list byte)
    (bad : option Z) (labelFile : LabelFILE) (r : Run) :
  addLabelsToWaveFile indet (Some (fopen_r content bad)) (Some labelFile)
                      (Some (fopen_w None)) = Ok r ->
  returnCode r = 0 ->
  exists hdr st fc li fo extraB dataB padB othersB,
    scanInputFile indet (fopen_r content bad) = (hdr, Scanned st) /\
    formatChunk st = Some fc /\
    readLabelFile labelFile fc = Ok li /\
    outputFile r = Some fo /\
    o_data fo =
      outputHeader hdr (fileDataSize_of st li) ++ FormatChunk_bytes fc ++
      extraB ++ dataB ++ padB ++
      cueHeader li ++ flat_map CuePoint_bytes (fill_cuePoints li) ++
      listHeader li (compute_listChunkSize li) ++ fill_labelChunks li ++
      othersB /\
    len extraB = size (formatChunkExtraBytes st) +
                 odd_pad (size (formatChunkExtraBytes st)) /\
    len dataB = size (dataChunkLocation st) /\
    len padB = odd_pad (size (dataChunkLocation st)) /\
    len othersB =
      others_total (firstn (Z.to_nat (otherChunksCount st))
                           (otherChunkLocations st)) /\
    wh_chunkID hdr = bytes "RIFF" /\ wh_riffType hdr = bytes "WAVE" /\
    len (FormatChunk_bytes fc) = 24.
Proof. intros Hrun Hc. apply (run_layout indet content bad labelFile None r Hrun Hc). Qed.

Lemma X18_output_layout_witness :
  exists fo rest,
    outputFile (run_of (run_wav wav_S3 label_mid)) = Some fo /\
    o_data fo = bytes "RIFF" ++ rest /\ len rest = 138.
Proof.
  destruct (X18_output_layout junk wav_S3 None (open_labels label_mid)
              (run_of (run_wav wav_S3 label_mid)))
    as (hdr & st & fc & li & fo & eB & dB & pB & oB & _ & _ & _ & Eout & E & _ &
        _ & _ & _ & Hriff & _).
  - vm_compute. reflexivity.
  - vm_compute. reflexivity.
  - unfold outputHeader, WaveHeader_bytes in E.
    cbn [wh_chunkID wh_dataSize wh_riffType] in E.
    rewrite Hriff, <- !app_assoc in E.
    exists fo. eexists. split; [exact Eout|]. split; [exact E|].
    assert (L : len (o_data fo) = 142).
    { vm_compute in Eout. inversion Eout. reflexivity. }
    rewrite E in L. unfold len in *. rewrite length_app in L.
    change (length (bytes "RIFF")) with 4%nat in L. lia.
Defined.

(** X19. On an output device that accepts every byte, the output of a
    run that returns 0 has an even number of bytes: every chunk written is
    followed by a pad byte when its size is odd. *)
Theorem X19_output_length_even (indet : nat -> byte) (content : list byte)
    (bad : option Z) (labelFile : LabelFILE) (r : Run) (fo : OFILE) :
  addLabelsToWaveFile indet (Some (fopen_r content bad)) (Some labelFile)
                      (Some (fopen_w None)) = Ok r ->
  returnCode r = 0 -> outputFile r = Some fo ->
  len (o_data fo) mod 2 = 0.
Proof.
  intros Hrun Hc Ho.
  destruct (run_success indet content bad labelFile None r Hrun Hc)
    as (hdr & st & fc & li & fo' & Escan & Sinv & Efc & Elab & Ecnt & Eout &
        Hid & Hty & Q).
  rewrite Ho in Eout. inversion Eout; subst fo'.
  pose proof (readLabelFile_wf _ _ _ Elab) as W.
  assert (Sinv' : ScanInv content (f_bad (inputFile st)) st).
  { destruct Sinv as (S1 & S2 & S3 & S4). rewrite S3.
    split; [exact S1|]. split; [exact S2|]. split; [exact S3 | exact S4]. }
  destruct (output_layout content hdr st fc li (o_data fo) Sinv' Efc W Hid Hty Q)
    as (L1 & _).
  replace (len (o_data fo)) with (total_of st li + 8) by lia.
  apply mod2_add; [|reflexivity].
  unfold total_of, spec_total_size.
  pose proof (compute_listChunkSize_even li) as Ev.
  assert (P : odd_pad (compute_listChunkSize li) = 0)
    by (unfold odd_pad; rewrite Ev; reflexivity).
  rewrite P.
  set (e := size (formatChunkExtraBytes st)).
  set (d := size (dataChunkLocation st)).
  set (O := others_total _). set (L := compute_listChunkSize li) in *.
  replace (4 + 8 + 16 + e + odd_pad e + d + odd_pad d + O + 12 + 24 * count li +
           12 + L + 0)
    with (((e + odd_pad e) + (d + odd_pad d)) + ((O + L) + (12 * count li + 26) * 2))
    by lia.
  apply mod2_add; [apply mod2_add; apply padded_even|].
  apply mod2_add; [apply mod2_add; [apply others_total_even | exact Ev]|].
  apply Z.mod_mul. lia.
Qed.

Lemma X19_output_length_even_witness :
  exists fo,
    outputFile (run_of (run_wav wav_S3 label_mid)) = Some fo /\
    len (o_data fo) mod 2 = 0.
Proof.
  eexists. split; [vm_compute; reflexivity|].
  apply (X19_output_length_even junk wav_S3 None (open_labels label_mid)
           (run_of (run_wav wav_S3 label_mid))).
  - vm_compute. reflexivity.
  - vm_compute. reflexivity.
  - vm_compute. reflexivity.
Defined.

Lemma recordLength_upper (li : LabelInfo) (ixs : list Z) :
  LabelInfo_wf li -> (forall i, In i ixs -> 0 <= i < count li) ->
  Zsum (map (recordLength li) ixs) <= 513 * len ixs.
Proof.
  intros W. induction ixs as [|i r IH]; intros H; [cbn; lia|].
  cbn [map Zsum fold_right].
  change (fold_right Z.add 0 (map (recordLength li) r))
    with (Zsum (map (recordLength li) r)).
  specialize (IH (fun j Hj => H j (or_intror Hj))).
  destruct W as (_ & _ & _ & _ & _ & Hent).
  destruct (Hent i (H i (or_introl eq_refl))) as (E1 & _).
  unfold recordLength, labelStorage in *.
  assert (O : 0 <= odd_pad (nthZ i (labelLengths li) 0) <= 1)
    by (unfold odd_pad; destruct (_ =? 0); lia).
  unfold len in *. cbn [length]. lia.
Qed.

(** X20. The cue chunk made for a table of labels is consistent: its
    identifier is [cue ], its length field holds 4 + 24 x count, its count
    field holds the count, it has that many cue points of 24 bytes each,
    and every cue point names the [data] chunk with chunk start and block
    start 0 and the same number as position and as frame offset. *)
Theorem X20_cue_chunk_consistent (labelFile : LabelFILE) (fc : FormatChunk)
    (li : LabelInfo) :
  readLabelFile labelFile fc = Ok li ->
  let cue := make_cueChunk li in
  cc_chunkID cue = bytes "cue " /\
  littleEndianBytesToUInt32 (cc_chunkDataSize cue) = 4 + 24 * count li /\
  littleEndianBytesToUInt32 (cc_cuePointsCount cue) = count li /\
  len (cuePoints cue) = count li /\
  len (flat_map CuePoint_bytes (cuePoints cue)) = 24 * count li /\
  Forall (fun cp =>
            len (CuePoint_bytes cp) = 24 /\
            dataChunkID cp = bytes "data" /\
            littleEndianBytesToUInt32 (chunkStart cp) = 0 /\
            littleEndianBytesToUInt32 (blockStart cp) = 0 /\
            frameOffset cp = playOrderPosition cp)
         (cuePoints cue).
Proof.
  intros H. pose proof (readLabelFile_wf _ _ _ H) as W.
  pose proof W as (Hc & _). unfold maxLabels in Hc.
  destruct (fill_cuePoints_props li ltac:(lia)) as (L1 & F & L2).
  cbv zeta. cbn [make_cueChunk cc_chunkID cc_chunkDataSize cc_cuePointsCount
                 cuePoints].
  split; [reflexivity|].
  split; [apply UInt32_roundtrip_small; unfold sizeof_CuePoint; lia|].
  split; [apply UInt32_roundtrip_small; lia|].
  split; [exact L1|]. split; [exact L2|].
  rewrite Forall_forall in *. intros cp Hin. split; [apply F; exact Hin|].
  unfold fill_cuePoints in Hin. apply in_map_iff in Hin.
  destruct Hin as (i & <- & _). cbn [makeCuePoint dataChunkID chunkStart
                                     blockStart frameOffset playOrderPosition].
  repeat split; reflexivity.
Qed.

Lemma X20_cue_chunk_consistent_witness :
  littleEndianBytesToUInt32
    (cc_chunkDataSize
       (make_cueChunk
          (labelInfo_of (readLabelFile (open_labels (labels_S2 [CR; LF]))
                                       fmt_44100)))) = 52.
Proof.
  destruct (X20_cue_chunk_consistent (open_labels (labels_S2 [CR; LF])) fmt_44100
              (labelInfo_of (readLabelFile (open_labels (labels_S2 [CR; LF]))
                                           fmt_44100)))
    as (_ & E & _).
  - vm_compute. reflexivity.
  - rewrite E. vm_compute. reflexivity.
Defined.

(** X21. The LIST chunk made for a table of labels is consistent: its
    identifier is [LIST], its type [adtl], its length field holds 4 plus
    the length of its body, and the body read back record by record gives,
    for each entry in order, a [labl] record whose length field is the
    length of the text plus 5, whose cue-id is the index plus 1 and whose
    text is the stored text followed by a zero byte. *)
Theorem X21_list_chunk_consistent (labelFile : LabelFILE) (fc : FormatChunk)
    (li : LabelInfo) :
  readLabelFile labelFile fc = Ok li ->
  let lst := make_listChunk li (compute_listChunkSize li) in
  lc_chunkID lst = bytes "LIST" /\ lc_typeID lst = bytes "adtl" /\
  littleEndianBytesToUInt32 (lc_chunkDataSize lst) = 4 + len (labelChunks lst) /\
  lablRecords (labelChunks lst) =
    map (fun i => mkLablRecord (bytes "labl") (strlen (label_text li i) + 5)
                    (i + 1) (label_text li i ++ [x00]))
        (indices (count li)).
Proof.
  intros H. pose proof (readLabelFile_wf _ _ _ H) as W.
  pose proof W as (Hc & _). unfold maxLabels in Hc.
  cbv zeta. cbn [make_listChunk lc_chunkID lc_typeID lc_chunkDataSize labelChunks].
  split; [reflexivity|]. split; [reflexivity|].
  split.
  { rewrite (fill_labelChunks_length li W).
    apply UInt32_roundtrip_small.
    rewrite (compute_listChunkSize_sum li W).
    pose proof (recordLength_upper li (indices (count li)) W
                  (fun i Hi => proj1 (In_indices _ _) Hi)) as U.
    pose proof (Zsum_recordLength_lower li (indices (count li)) W
                  (fun i Hi => proj1 (In_indices _ _) Hi)) as Lw.
    rewrite indices_length in U, Lw. lia. }
  rewrite (lablRecords_fill li W). apply map_ext_in.
  intros i Hi. apply In_indices in Hi. unfold expected_labl, label_text.
  rewrite (wf_length_strlen li i W Hi). f_equal. lia.
Qed.

Lemma X21_list_chunk_consistent_witness :
  map labl_text
    (lablRecords
       (labelChunks
          (make_listChunk
             (labelInfo_of (readLabelFile (open_labels (labels_S2 [CR; LF]))
                                          fmt_44100)) 30))) =
  [bytes "a" ++ [x00]; bytes "bb" ++ [x00]].
Proof.
  destruct (X21_list_chunk_consistent (open_labels (labels_S2 [CR; LF])) fmt_44100
              (labelInfo_of (readLabelFile (open_labels (labels_S2 [CR; LF]))
                                           fmt_44100)))
    as (_ & _ & _ & E).
  - vm_compute. reflexivity.
  - cbn [make_listChunk labelChunks] in *. rewrite E. vm_compute. reflexivity.
Defined.

(** The message of the writer on an output device that accepts every
    byte: the input device has a fault. *)
Lemma run_writer_failure (indet : nat -> byte) (content : list byte)
    (bad : option Z) (labelFile : LabelFILE) (r : Run) :
  addLabelsToWaveFile indet (Some (fopen_r content bad)) (Some labelFile)
                      (Some (fopen_w None)) = Ok r ->
  diagnostic r = Some ErrorWritingOutput -> bad <> None.
Proof.
  intros Hrun Hd Hb. subst bad.
  pose proof Hrun as Hrun'. unfold addLabelsToWaveFile, fatal in Hrun'.
  destruct (scanInputFile indet (fopen_r content None)) as [hdr [st|d|]] eqn:Escan;
    [| |discriminate].
  2:{ inversion Hrun'; subst r. cbn [diagnostic] in Hd. inversion Hd; subst d.
      destruct (scanInputFile_fatal_kinds indet (fopen_r content None)
                  ErrorWritingOutput) as (N & _); [rewrite Escan; reflexivity|].
      apply N. reflexivity. }
  destruct (formatChunk st) as [fc|] eqn:Efc;
    [|inversion Hrun'; subst r; discriminate Hd].
  destruct (readLabelFile labelFile fc) as [li|k|] eqn:Elab; try discriminate.
  destruct (count li <? 1) eqn:Ecnt;
    [inversion Hrun'; subst r; discriminate Hd|].
  apply Z.ltb_ge in Ecnt.
  destruct (run_no_fault indet content None labelFile None hdr st fc li
              eq_refl eq_refl Escan Efc Elab Ecnt) as (r' & Hr' & H0).
  rewrite Hrun in Hr'. inversion Hr'; subst r'.
  destruct (run_exit_code indet content None labelFile None r Hrun)
    as [(_ & D & _)|(H1 & _)]; [rewrite D in Hd; discriminate | lia].
Qed.

(** X22. On an output device that accepts every byte, a run that returns
    gives 0 or -1.  It gives 0 with an output file, or -1 with the message
    of a fatal exit; unless the message is the one of the writer, no output
    file was opened, and the message of the writer is only given when the
    input device has a fault. *)
Theorem X22_exit_codes (indet : nat -> byte) (content : list byte)
    (bad : option Z) (labelFile : LabelFILE) (r : Run) :
  addLabelsToWaveFile indet (Some (fopen_r content bad)) (Some labelFile)
                      (Some (fopen_w None)) = Ok r ->
  (returnCode r = 0 /\ exists fo, outputFile r = Some fo) \/
  (returnCode r = -1 /\ exists d, diagnostic r = Some d /\
     (d <> ErrorWritingOutput -> outputFile r = None) /\
     (d = ErrorWritingOutput -> bad <> None)).
Proof.
  intros Hrun.
  destruct (run_exit_code indet content bad labelFile None r Hrun)
    as [(H0 & _ & Ho)|(H1 & d & Ed & Ho)].
  - left. split; [exact H0 | exact Ho].
  - right. split; [exact H1|]. exists d. split; [exact Ed|].
    split; [exact Ho|]. intros Hd. subst d.
    apply (run_writer_failure indet content bad labelFile r Hrun Ed).
Qed.

Lemma X22_exit_codes_witness :
  returnCode (run_of (run_wav wav_257_chunks label_mid)) = -1 /\
  outputFile (run_of (run_wav wav_257_chunks label_mid)) = None.
Proof.
  destruct (X22_exit_codes junk wav_257_chunks None (open_labels label_mid)
              (run_of (run_wav wav_257_chunks label_mid)))
    as [(H0 & _)|(H1 & d & Ed & Ho & _)].
  - vm_compute. reflexivity.
  - vm_compute in H0. discriminate.
  - split; [exact H1|]. apply Ho. vm_compute in Ed. inversion Ed. discriminate.
Defined.

(** X23. On devices without fault, once the scan has ended normally and
    the label file has given at least one entry, the run returns 0 and
    leaves an output file: the writer fails on a faulty device only. *)
Theorem X23_no_fault_no_failure (indet : nat -> byte) (content : list byte)
    (labelFile : LabelFILE) (hdr : WaveHeader) (st : ScanState)
    (fc : FormatChunk) (li : LabelInfo) :
  scanInputFile indet (fopen_r content None) = (hdr, Scanned st) ->
  formatChunk st = Some fc ->
  readLabelFile labelFile fc = Ok li -> 1 <= count li ->
  exists r,
    addLabelsToWaveFile indet (Some (fopen_r content None)) (Some labelFile)
                        (Some (fopen_w None)) = Ok r /\
    returnCode r = 0 /\ exists fo, outputFile r = Some fo.
Proof.
  intros Hs Hf Hl Hc.
  destruct (run_no_fault indet content None labelFile None hdr st fc li
              eq_refl eq_refl Hs Hf Hl Hc) as (r & Hr & H0).
  exists r. split; [exact Hr|]. split; [exact H0|].
  destruct (run_exit_code indet content None labelFile None r Hr)
    as [(_ & _ & Ho)|(H1 & _)]; [exact Ho | lia].
Qed.

Lemma X23_no_fault_no_failure_witness :
  exists r fo,
    run_wav wav_S1 label_mid = Ok r /\ returnCode r = 0 /\
    outputFile r = Some fo.
Proof.
  destruct (X23_no_fault_no_failure junk wav_S1 (open_labels label_mid)
              (fst (scanInputFile junk (fopen_r wav_S1 None)))
              (scanState_of (scanInputFile junk (fopen_r wav_S1 None)))
              fmt_44100
              (labelInfo_of (readLabelFile (open_labels label_mid) fmt_44100)))
    as (r & Hr & H0 & (fo & Ho)).
  - vm_compute. reflexivity.
  - vm_compute. reflexivity.
  - vm_compute. reflexivity.
  - vm_compute. discriminate.
  - exists r, fo. split; [exact Hr|]. split; assumption.
Defined.

Lemma skip_space_blank (s : list byte) :
  forallb isspace s = true -> skip_space s = [].
Proof.
  induction s as [|b r IH]; intros H; [reflexivity|].
  cbn [forallb] in H. apply andb_true_iff in H. destruct H as (H1 & H2).
  cbn [skip_space]. rewrite H1. apply IH. exact H2.
Qed.

Lemma readLabelFile_blank (s : list byte) (fc : FormatChunk) :
  forallb isspace s = true ->
  readLabelFile (open_labels s) fc = Ok labelInfo_init.
Proof.
  intros H. unfold readLabelFile, open_labels. cbn [l_rest readLabelFile_loop
                                                     feof_label l_eof].
  unfold readLabelFile_body, fscanf_label. cbn [l_rest l_eof stopped_at].
  rewrite (skip_space_blank s H). cbn [isnil orb sr_return sr_file].
  change (negb (EOF =? 2)) with true. cbv iota.
  change (skipLineEnd (mkLabelFILE [] true)) with (mkLabelFILE [] true).
  apply readLabelFile_loop_eof. reflexivity.
Qed.

(** X24. With a label file that is empty or holds only blanks and line
    ends, the run returns -1 with a diagnostic on every input file, and no
    output file is opened. *)
Theorem X24_blank_label_file (indet : nat -> byte) (content : list byte)
    (bad : option Z) (labels : list byte) (outFile : option OFILE) :
  forallb isspace labels = true ->
  exists d,
    addLabelsToWaveFile indet (Some (fopen_r content bad))
      (Some (open_labels labels)) outFile = Ok (mkRun (-1) (Some d) None).
Proof.
  intros H. unfold addLabelsToWaveFile, fatal.
  destruct (scanInputFile_spec indet content bad) as (_ & T & _).
  destruct (scanInputFile indet (fopen_r content bad)) as [hdr [st|d|]];
    cbn [snd] in T; [|eexists; reflexivity | contradiction].
  destruct (formatChunk st) as [fc|]; [|eexists; reflexivity].
  rewrite (readLabelFile_blank labels fc H).
  change (count labelInfo_init <? 1) with true. cbv iota.
  eexists. reflexivity.
Qed.

Lemma X24_blank_label_file_witness :
  run_wav wav_S1 blank_labels = Ok (mkRun (-1) (Some NoCuePointLocations) None).
Proof.
  destruct (X24_blank_label_file junk wav_S1 None blank_labels (Some (fopen_w None)))
    as (d & E).
  - reflexivity.
  - unfold run_wav. rewrite E. vm_compute in E. inversion E. reflexivity.
Defined.

(** ** The bytes of the output *)

Section ExactWriters.

Variable indet : nat -> byte.
Variable data : list byte.











End ExactWriters.




(** ** The output for a file made of chunks *)




Section RangeOfChunk.

Variable pre rest : list byte.
Variable c : Chunk.
Hypothesis Hok : chunk_ok c = true.

Let data := pre ++ chunk_image c ++ rest.




End RangeOfChunk.











(** ** The entry point *)

Lemma run_code_any (indet : nat -> byte) (inFile : option (list byte * option Z))
    (labelFile : option (list byte)) (outFile : option (option Z)) (r : Run) :
  addLabelsToWaveFile indet
    (option_map (fun cb => fopen_r (fst cb) (snd cb)) inFile)
    (option_map open_labels labelFile) (option_map fopen_w outFile) = Ok r ->
  (returnCode r = 0 \/ returnCode r = -1) /\
  (inFile = None \/ labelFile = None \/ outFile = None -> returnCode r = -1).
Proof.
  intros H.
  destruct inFile as [[content bad]|]; cbn [option_map fst snd] in H.
  2:{ inversion H; subst. cbn. split; auto. }
  destruct labelFile as [labels|]; cbn [option_map] in H.
  2:{ inversion H; subst. cbn. split; auto. }
  destruct outFile as [room|]; cbn [option_map] in H.
  - destruct (run_exit_code indet content bad (open_labels labels) room r H)
      as [(H0 & _)|(H1 & _)].
    + split; [left; exact H0|]. intros [N|[N|N]]; discriminate.
    + split; [right; exact H1|]. intros _. exact H1.
  - assert (E : returnCode r = -1).
    { unfold addLabelsToWaveFile, fatal in H.
      destruct (scanInputFile indet (fopen_r content bad)) as [hdr [st|d|]];
        [|inversion H; reflexivity | discriminate].
      destruct (formatChunk st) as [fc|]; [|inversion H; reflexivity].
      destruct (readLabelFile (open_labels labels) fc) as [li|k|];
        try discriminate.
      destruct (count li <? 1); inversion H; reflexivity. }
    split; [right; exact E | intros _; exact E].
Qed.

(** X27. [main] returns 1 when it is not given exactly three
    arguments.  With three arguments it returns what
    [addLabelsToWaveFile] returns, which is 0 or -1, and -1 when the input
    file, the label file or the output file cannot be opened. *)
Theorem X27_main_exit_status (indet : nat -> byte) (fs : FileSystem)
    (argv : list string) (c : Z) :
  main indet fs argv = Ok c ->
  (len argv <> 4 -> c = 1) /\
  (len argv = 4 ->
   (c = 0 \/ c = -1) /\
   (fs_read fs (nth 1 argv EmptyString) = None \/
    fs_labels fs (nth 2 argv EmptyString) = None \/
    fs_write fs (nth 3 argv EmptyString) = None -> c = -1)).
Proof.
  unfold main. cbv zeta. intros H.
  destruct (len argv =? 4) eqn:E; cbn [negb] in H.
  - apply Z.eqb_eq in E. split; [intros N; contradiction|]. intros _.
    destruct (addLabelsToWaveFile indet _ _ _) as [r| |] eqn:R; try discriminate.
    inversion H; subst c. apply (run_code_any indet _ _ _ r R).
  - apply Z.eqb_neq in E. split; [intros _; inversion H; reflexivity|].
    intros N. contradiction.
Qed.

Lemma X27_main_exit_status_witness :
  status_of (main junk files_S1 argv_missing_input) = -1.
Proof.
  destruct (X27_main_exit_status junk files_S1 argv_missing_input
              (status_of (main junk files_S1 argv_missing_input)))
    as (_ & H).
  - vm_compute. reflexivity.
  - destruct (H eq_refl) as (_ & H'). apply H'. left. reflexivity.
Defined.
